(* ===== verification/_CoqProject ===== *)
-Q . S2P
Prelude.v
CStrings.v
BitFields.v
SlotTable.v
HostOS.v
MockHost.v
VmiMemory.v
VmiMemoryProofs.v
PageWalk.v
Bridge.v
BridgeProofs.v
BridgeMemory.v
TaskWalker.v
TaskWalkerProofs.v
TaskWalkerClaims.v
NptRegions.v
NpfHandler.v
NptGuard.v
GuardProofs.v
HekiServer.v
GuardClaims.v
HekiProofs.v
KvmiSetup.v
KvmiMapsProofs.v
KvmiProofs.v
VmiMain.v
VmiTamper.v
Enforcer.v
EnforcerProofs.v
LoaderPolicy.v
EnforcerClaims.v
LoaderElf.v
LoaderElfProofs.v
LoaderGraph.v
LoaderGraphProofs.v
LoaderTrust.v
LoaderTrustProofs.v
LoaderInstall.v
LoaderMain.v
LoaderInstallProofs.v
LoaderWatchProofs.v
LoaderClaims.v
LoaderCli.v
LoaderCliProofs.v
LoaderRun.v
LoaderRunProofs.v
LoaderReport.v
LearnProofs.v
Tui.v
TuiProofs.v
AuditTrail.v
TuiRender.v
TuiRenderProofs.v
DumpTool.v
Arm64.v
Arm64Proofs.v
Arm64Asm.v
Arm64AsmProofs.v
Smm.v
SmmProofs.v
SmmTrap.v
SmmTrapProofs.v
MeiHook.v
MeiProofs.v
MeiAttack.v
MeDisable.v
CompilerPass.v
CompilerPassProofs.v
CompilerAnalyses.v
CompilerClaims.v
Ipc.v
TcaHart.v
TcaMock.v
TcaSwitchProofs.v
TcaPrograms.v
TcaMonitor.v
TcaMonitorProofs.v
TcaIsolationProofs.v
TcaBench.v
