(* ===== verification/Prelude.v ===== *)
(** * Sentinel Stack: verification library

    Sentinel is a stack of cooperating guards around a Linux system.  This
    library models its C components and proves what makes them correct: the
    virtual-machine introspection daemon (release_payload/src/vmi), the system
    call enforcer with its loader, tools and compiler pass (legacy_v1/sentinel-cc),
    the SMM driver with the MEI hook and the soft-disable tool (sentinel-smm), the
    ARM64 hypervisor (sentinel-arm64), and the programs for a tagged RISC-V hart
    (tca-prototype).

    ** The program

    The daemon attaches to a QEMU process (kvmi_setup.c), reads guest memory
    through that process (memory.c), walks the guest's task list and compares
    it with earlier scans (task_walker.c), keeps guarded regions read-only and
    re-hashes them (npt_guard.c), classifies trapped writes, some of which a
    CPUID request has authorised (npf_handler.c, cpuid_handler.c), accepts regions at
    run time (heki_server.c), and turns suspicions into alerts with a policy per
    process, a queue and a stream (bridge.c).  main.c runs these in phases and
    then in a loop.  Calls go downwards: main calls everything; walker, guard and
    server call memory and, through the fault handler, the bridge; all of them
    share the session that setup delivers.

    The enforcer (sentinel.bpf.c) runs on events of the kernel.  It resolves a
    call site to a module through a trie, looks up the module's policy, and
    signals a monitored process that leaves it.  The loader (loader.c) checks the
    signature of a binary against the key and the revocation lists, starts it
    stopped, and fills the enforcer's maps before it lets it run: the policy
    section for the binary itself, the system call sites that the call graph of
    libc reaches from the imports, those of the dynamic linker and of every other
    library, the caller ranges and the table for all other processes; then it
    supervises the program, reloads its policy and enters libraries that appear
    later.  sign_tool.c signs binaries and writes the revocation list;
    sentinel_dump.c shows the sections; sentinel_tui.c reads the loader's audit
    lines and draws them.  SentinelPass.cpp compiles the markers of intents into a
    table and calls that set and clear the intent in force.

    The SMM driver (SentinelSmmDxe.c) locks the flash at boot and decides the
    trapped port accesses, which reach it through the stub SentinelSmmTrap.nasm;
    SentinelRogueSmi.c provokes one.  The MEI hook (sentinel_mei_hook.c) intercepts messages
    to the management engine, which sentinel_me_disable.c asks to disable itself
    after a check of Boot Guard (sentinel_bootguard_check.c); mock_mei_attack.c
    tests the hook.  The hypervisor (hypervisor.c, mmu.c) builds the stage-2 tables
    of its guest and answers its exceptions; boot.S and exceptions.S lead from reset
    to the guest and from its exceptions to the hook, and dummy_guest.S is the guest
    of the demonstration.  These three stand alone.

    The programs of tca-prototype show the compiled intents on hardware: the hart has
    registers for the intent in force and the taint of the data read, and its network
    device drops what a tainted thread sends.  os_isolation_test.c switches between
    two threads, os_isolation_test_v2.c grants an intent with a bound from a trap
    handler, exfil_test.c sends a secret, benchmark.c measures, and boot.S starts them.

    ** Files

    - [Prelude]: machine integers, the effect monad [M] with its total
      correctness predicate [wp], bytes, tactics.
    - [CStrings]: the C string routines the sources use, printing and scanning.
      [BitFields]: bit-fields of machine words.
    - [SlotTable]: fixed tables of keyed slots implement finite maps; used for
      the policy table of bridge.c and the baselines of task_walker.c.
    - [HostOS]: the interface to the operating system as a class of operations,
      with classes of laws; [MockHost]: an executable host with these laws.

    The daemon:

    - [VmiMemory], [VmiMemoryProofs], [PageWalk]: memory.c.  [vmi_session] and
      [vmi_memslot] are the structures of sentinel_vmi.h.
    - [Bridge], [BridgeProofs], [BridgeMemory]: bridge.c.  [bridge] holds its
      static variables; the ghost list [attempts] records each alert handed to map
      and stream, with the result of both.
    - [TaskWalker], [TaskWalkerProofs], [TaskWalkerClaims]: task_walker.c and
      task_offsets.h.
    - [NptRegions], [NptGuard]: npt_guard.c; [NpfHandler]: npf_handler.c and
      cpuid_handler.c; [HekiServer]: heki_server.c; [GuardProofs], [GuardClaims]:
      their theorems.  [guard_state] holds the static variables of these files
      and the shared session.
    - [KvmiSetup], [KvmiMapsProofs], [KvmiProofs]: kvmi_setup.c.
    - [HekiProofs]: the registration server inside the loop.
    - [VmiMain]: main.c, the composition.  [VmiTamper]: from a changed byte to the
      alert, through guard, fault handler, bridge and loop.

    The enforcer and its loader:

    - [Enforcer], [EnforcerProofs]: sentinel.bpf.c and sentinel_shared.h;
      [enforcer] holds the BPF maps.
    - [LoaderPolicy]: the policy section and the module ranges;
      [EnforcerClaims]: what they mean at the check.
    - [LoaderElf], [LoaderElfProofs]: scanning, symbol table and sections of ELF
      files; [LoaderGraph], [LoaderGraphProofs]: the call-graph search.
    - [LoaderTrust], [LoaderTrustProofs]: signature, keys and revocation in
      loader.c, and sign_tool.c.
    - [LoaderInstall], [LoaderMain]: the installation of all policies and the
      supervision; [loader] is the enforcer's state with the watch list.
      [LoaderInstallProofs], [LoaderWatchProofs], [LoaderClaims]: their theorems.
    - [LoaderCli], [LoaderCliProofs]: options, audit lines, reports.
    - [LoaderRun], [LoaderRunProofs]: [main] of the loader as a whole.
    - [LoaderReport]: signal handlers, report text, learned file and the end of a
      run; [LearnProofs]: a learning run from the kernel to the file.
    - [Tui], [TuiProofs]: what sentinel_tui.c reads; [TuiRender],
      [TuiRenderProofs]: what it draws, and when; [DumpTool]: sentinel_dump.c.
    - [AuditTrail]: enforcer, loader and dashboard composed.
    - [CompilerPass], [CompilerPassProofs], [CompilerClaims]: SentinelPass.cpp, over
      the part of LLVM's intermediate code that it looks at; [CompilerAnalyses]: an
      executable dominator tree and dominance frontier with the laws it assumes.

    Firmware, management engine, hypervisor:

    - [Arm64], [Arm64Proofs]: hypervisor.c, mmu.c, hypervisor.h.  [Arm64Asm],
      [Arm64AsmProofs]: boot.S, exceptions.S and dummy_guest.S as lists of
      instructions, and the whole demonstration run.
    - [Smm], [SmmProofs]: SentinelSmmDxe.c, SentinelSpiLockdown.h.  [SmmTrap],
      [SmmTrapProofs]: SentinelSmmTrap.nasm and SentinelRogueSmi.c.
    - [MeiHook], [MeiProofs]: sentinel_mei_hook.c and its header (the copy under
      release_payload is the same).  [MeDisable]: sentinel_me_disable.c and
      sentinel_bootguard_check.c.  [MeiAttack]: the two mock_mei_attack.c.
    - [Ipc]: sentinel_ipc.h.

    The tagged hart:

    - [TcaHart]: the instructions and the context switch of os_isolation_test.c, and
      the intrinsics of tca_intrinsics.h; [TcaSwitchProofs]: threads that switch by it.
      [TcaMock]: an executable hart.
    - [TcaPrograms]: os_isolation_test.c, exfil_test.c and boot.S, compiled by
      [CompilerPass]; [TcaIsolationProofs]: their runs.
    - [TcaMonitor], [TcaMonitorProofs]: os_isolation_test_v2.c.
    - [TcaBench]: benchmark.c, ptr_test.c and uart_test.c.

    A definition carries the name of the function it models; a part of a long
    function that has a name of its own here is listed with that function.

    ** Conventions

    An integer of width [w] is a [Z], and every operation that can wrap is
    wrapped by [u32], [u64] and so on.  A C function is a computation
    [M S A = S -> option (A * S)] over the state it touches, or a plain function
    when it has no state.  [None] means undefined behaviour or a loop that ran out
    of fuel; the theorems state that a result exists, so they exclude both.

    Code outside the repository is a parameter.  Calls of the operating system, of
    libkvmi and of the BPF runtime are operations of [HostOS], [VmHost], [MeHost]
    and [hook_ctx]; what a theorem needs of them is a named class of laws
    ([StableMemory], [ReadvTransfers], [ReadvLive], [DevMemDenied], [OwnMemory],
    [ClockWorks], [QuietIO], [SleepMaps], [QmpWrites], [QuietLib], [MeLaws]), each with an
    instance for a concrete host.  Sleeping is the one call of the daemon during which
    the guest may write its memory ([SleepSafe]: what survives it).  [QmpWrites] has a
    number: how often in a row signals interrupt a write before one gets through; the
    code retries for ever, so without such a number its loop need not end.  OpenSSL is the class [Crypto] with [CryptoLaws]
    (a signature made with a key verifies with its public half; digests have 32
    bytes); its digest calls may fail.  libelf is the record [elf_file] of what it shows of a file.  The
    chipset is the class [Platform] with the register behaviour that
    SentinelSpiLockdown.h documents.  LLVM's dominance analyses are the class
    [Analyses] with [AnalysesLaws].  The tagged hart is the class [TcaCpu] with
    [TcaLaws], its network device [Nic] with [NicLaws] and the control
    registers of its gate with [CsrLaws] (they hold what is written to them): what the
    sources say of the registers they use.  The clients of the
    registration server are those of [clients_terminate] where they matter.  Assembly is a list of instructions over
    registers and memory, and the C function it calls is a function on that machine
    which keeps to the calling convention ([ms_abi], [aapcs]).  Components meet at interfaces: [PhysReads]
    and [PhysLive] are what memory promises to the walker and the guard,
    [AlertSink] is what the bridge promises to those that raise alerts.

    ** What the theorems show

    - Memory: reads return exactly the bytes of the guest or fail; the page
      walk is the architectural translation; the transfer loops end.
    - Session: setup returns once its writes get through, its memory map is well formed and is the
      map that /proc prints; the heartbeat reconnects on the third miss.
    - Walker: the snapshot is the task list of the guest, walks end on any
      memory, each detector flags exactly what it should.
    - Bridge: the policy table refines a state machine per process, alerts are
      conserved, a malicious signal is handed out by the call that raises it unless it
      repeats the last one, the stream encoding decodes.
    - Guard: any one-byte change is detected and reported, protection covers the
      pages of a region, an authorisation excuses one write, one call of the
      event handler visits every region and returns.
    - Daemon: the loop, registrations included, is total under a joint invariant and
      leaves no alert waiting; a turn with a check that is due raises a new alert for the
      first region with an unreported change; with the session that setup delivers, the process scans are inert.
    - Enforcer: a process is signalled if and only if the declarative policy
      does not permit its call; policy and tracking survive any trace of events;
      descendants are tracked while the table has room.
    - Loader: nothing is installed for a binary that is not verified; a program
      that was started is confined by the policies of its binary, of libc, of the
      linker and of each library that its memory map names; the libc policy is exactly the result of the
      call-graph search, which is sound, and complete up to its limits; caller
      ranges and the fallback table mean what they say at the check; supervision
      never takes a policy away; the wait for libc ends; the profile of a learning
      run is the first record of each site.
    - Trust: the check of the revocation list is exact for lists that the signing
      tool writes; a revoked key is refused while the list is fresh, and not when the
      digest fails; what signing changes.
    - Audit trail: every signal that the enforcer sends is a blocked event on the
      dashboard, in order, for any sequence of kernel events with room in the ring.
    - Compiler pass: on every path an intent is in force only where its start
      dominates and never after the function; with one intent, exactly there
      unless a callee drops it (the executions take which instructions do, [drops]).
    - Tools: the dashboard reads back what the loader prints, its counters are
      exact, its frames show the newest events and are bounded in size and number;
      the inspector shows the imports that the loader uses; the symbol
      search is a linear search.
    - SMM: the flash lockdown holds against any register writes of ring 0 and is
      restored on resume; the trap handler permits exactly three ports; the stub
      hands it the interrupted registers and gives them back unchanged.
    - MEI: the verdict on a message is free of races, the counters are exact; the
      soft-disable tool sends its command only when that is safe; the live-fire
      test reports exactly what the policy denies.
    - Hypervisor: the stage-2 tables are exactly the intended map; the
      introspection reports the architectural translation; the hook freezes the
      guest exactly on its violations, and any other synchronous exception returns
      to the guest with its registers unchanged.
    - Tagged hart: any number of threads that keep off each other's stacks have after
      every switch their own registers, intent and taint; a tainted thread does not
      send; the monitor grants one intent, with the end of the
      scope as its bound, to every request, and nothing at other traps; the report of the benchmark is exact.

    Where the code does not do what it means to, an example or a lemma shows it
    next to the theorems of the component.

    ** Fuel

    Loops that are not structural take fuel from their arguments:
    [4 * size + 4] system calls for a transfer (each call moves a byte or uses one
    of three retries), one step per remaining byte for the slot, page and hash
    loops, 4096 tasks for the walks (the bound of the code), the pages of a region
    plus one, the characters of a QMP message plus one, the 1 MiB blocks of a
    module plus one, [MAX_REACHABLE] turns for the call-graph search (each turn
    takes one element of a queue that never holds more), the length of the table
    for the binary search, the length of the section for the import names, and
    10001 steps for the wait for libc; the runs of the tagged hart take 21 and 12
    statements.  The theorems show that these suffice.

    ** Not modelled

    Console output other than the hypervisor's, the dashboard's frames and the
    attack-surface report; the layout of the inspector's tables; help texts; heap
    allocation other than of the session and of the snapshots (taken to succeed); the moment at which a signal handler of the
    daemon runs, other than as the number of iterations; concurrency of libkvmi
    callbacks other than at the sleeps of the waiting loop; timing of the BPF ring
    buffer's consumer, which appears as the free space of the ring; a client of the
    registration server that connects and sends nothing, for which the loop waits; the
    instructions that a C compiler makes of the tca-prototype programs, other than
    their inline assembly; types, alignment and linkage of what the compiler
    pass emits; faults of the hypervisor itself ([load64] of [Arm64] is total, so an
    external abort at EL2 on an address that the guest chose does not show); a trap
    handler of the firmware that writes to the context or the frame saved for it, which
    [ms_abi] excludes; changes of the protected binary between the several times that
    loader.c opens it, which [LoaderRun] reads as one file.  vmlinux.h is generated from a kernel and holds declarations only.
    The files under release_payload/src/mei are copies of those under sentinel-smm.
    SentinelSharedBuffer.h declares a structure that no code uses.  The tests and the
    red-team programs drive the modelled code from outside and have no part in the
    running system. *)

From stdpp Require Import prelude gmap strings list list_numbers list_monad.
From Stdlib Require Import ZArith Lia.
From Stdlib Require Ascii String.

#[global] Open Scope Z_scope.
#[global] Set Default Goal Selector "!".

Ltac Zify.zify_post_hook ::= Z.to_euclidean_division_equations.

(** ** Machine integers

    A C unsigned integer of width [w] is a [Z] in [0, 2^w); every operation of
    the source that can wrap is wrapped explicitly. *)

Definition u8 (z : Z) : Z := z mod 256.
Definition u16 (z : Z) : Z := z mod 65536.
Definition u32 (z : Z) : Z := z mod 4294967296.
Definition u64 (z : Z) : Z := z mod 18446744073709551616.

Definition is_u8 (z : Z) : Prop := 0 <= z < 256.
Definition is_u32 (z : Z) : Prop := 0 <= z < 4294967296.
Definition is_u64 (z : Z) : Prop := 0 <= z < 18446744073709551616.

Create HintDb machine.
#[global] Hint Unfold u8 u16 u32 u64 is_u8 is_u32 is_u64 : machine.

(** [ulia]: linear arithmetic after the wrap-around operators are unfolded. *)
Ltac ulia := autounfold with machine in *; lia.

Create HintDb vmi.
Create Rewrite HintDb vmi.

Lemma u64_is_u64 z : is_u64 (u64 z).
Proof. ulia. Qed.

Lemma u32_is_u32 z : is_u32 (u32 z).
Proof. ulia. Qed.

Lemma u64_id z : is_u64 z -> u64 z = z.
Proof. ulia. Qed.

(** [(int64_t)z] of a 64-bit unsigned value. *)
Definition s64 (z : Z) : Z :=
  if z <? 9223372036854775808 then z else z - 18446744073709551616.

Lemma u64_u64 z : u64 (u64 z) = u64 z.
Proof. ulia. Qed.

Lemma u64_add_l a b : u64 (u64 a + b) = u64 (a + b).
Proof. unfold u64. apply Zplus_mod_idemp_l. Qed.

Lemma u64_add_r a b : u64 (a + u64 b) = u64 (a + b).
Proof. unfold u64. apply Zplus_mod_idemp_r. Qed.

Lemma u64_sub_l a b : u64 (u64 a - b) = u64 (a - b).
Proof. unfold u64. apply Zminus_mod_idemp_l. Qed.

#[export] Hint Resolve u64_is_u64 u32_is_u32 : vmi.
#[export] Hint Rewrite u64_u64 u64_add_l u64_add_r u64_sub_l : vmi.

(** Clearing the low [k] bits of a 64-bit value. *)
Lemma land_lnot_ones a k :
  0 <= k -> Z.land a (Z.lnot (Z.ones k)) = a - a mod 2 ^ k.
Proof.
  intros Hk. rewrite <- Z.ldiff_land, Z.ldiff_ones_r by lia.
  rewrite Z.shiftl_mul_pow2, Z.shiftr_div_pow2 by lia.
  pose proof (Z.div_mod a (2 ^ k) ltac:(lia)). lia.
Qed.

(** Extracting a bit field in place: [e & mask] for a mask of [n] ones at [k]. *)
Lemma land_field e k n :
  0 <= k -> 0 <= n ->
  Z.land e (Z.shiftl (Z.ones n) k) = ((e / 2 ^ k) mod 2 ^ n) * 2 ^ k.
Proof.
  intros Hk Hn. rewrite <- Z.shiftr_div_pow2, <- Z.land_ones, <- Z.shiftl_mul_pow2 by lia.
  apply Z.bits_inj'. intros i Hi. rewrite Z.land_spec, !Z.shiftl_spec by lia.
  destruct (decide (i < k)).
  - by rewrite !(Z.testbit_neg_r _ (i - k)), andb_false_r by lia.
  - rewrite Z.land_spec, Z.shiftr_spec by lia. by replace (i - k + k) with i by lia.
Qed.

(** The low [k] bits can be added where the high part has none of them. *)
Lemma lor_low a b k : 0 <= k -> 0 <= b < 2 ^ k -> Z.lor (a * 2 ^ k) b = a * 2 ^ k + b.
Proof.
  intros Hk Hb. pose proof (Z.add_lor_land (a * 2 ^ k) b).
  enough (Z.land (a * 2 ^ k) b = 0) by lia.
  apply Z.bits_inj'. intros i Hi. rewrite Z.land_spec, Z.bits_0.
  destruct (decide (i < k)).
  - by rewrite Z.mul_pow2_bits_low by lia.
  - rewrite <- (Z.mod_small b (2 ^ k)), Z.mod_pow2_bits_high by lia. apply andb_false_r.
Qed.

(** Testing one bit through a mask. *)
Lemma land_bit_zero e k : 0 <= k -> (Z.land e (2 ^ k) =? 0) = negb (Z.testbit e k).
Proof.
  intros Hk. replace (2 ^ k) with (Z.shiftl (Z.ones 1) k) by (by rewrite Z.shiftl_1_l).
  rewrite land_field by lia. change (2 ^ 1) with 2.
  rewrite <- Z.testbit_spec' by lia. destruct (Z.testbit e k); cbn; lia.
Qed.

(** ** The effect monad

    The programs modelled here are sequential C: a computation over a state
    [S] either finishes with a value and a new state or is stuck ([None]).
    Stuck stands for undefined behaviour (an access outside the mapped
    memory) and for a loop that ran out of the fuel its definition was given;
    the theorems about loops show that neither happens. *)

Definition M (S A : Type) : Type := S -> option (A * S).

#[global] Instance M_ret S : MRet (M S) := fun A a s => Some (a, s).
#[global] Instance M_bind S : MBind (M S) := fun A B f m s =>
  match m s with Some (a, s') => f a s' | None => None end.

Definition stuck {S A} : M S A := fun _ => None.
Definition get {S} : M S S := fun s => Some (s, s).
Definition gets {S A} (f : S -> A) : M S A := fun s => Some (f s, s).
Definition modify {S} (f : S -> S) : M S unit := fun s => Some (tt, f s).
Definition lift {S A} (f : S -> A * S) : M S A := fun s => Some (f s).

(** Run a computation over a part of the state. *)
Definition zoom {S T A} (view : S -> T) (upd : T -> S -> S) (m : M T A) : M S A :=
  fun s => match m (view s) with
           | Some (a, t) => Some (a, upd t s)
           | None => None
           end.

(** Iterate a body over a list, left to right, for its effects. *)
Fixpoint forM {S A} (l : list A) (f : A -> M S unit) : M S unit :=
  match l with
  | [] => mret tt
  | x :: l' => _ ← f x; forM l' f
  end.

(** Total correctness: the run finishes, and its result satisfies [Q]. *)
Definition wp {S A} (m : M S A) (s : S) (Q : A -> S -> Prop) : Prop :=
  exists a s', m s = Some (a, s') /\ Q a s'.

Section wp.
Context {S : Type}.

Lemma wp_ret {A} (a : A) (s : S) Q : Q a s -> wp (mret a) s Q.
Proof. exists a, s. done. Qed.

Lemma wp_bind {A B} (m : M S A) (f : A -> M S B) s Q :
  wp m s (fun a s' => wp (f a) s' Q) -> wp (m ≫= f) s Q.
Proof.
  intros (a & s1 & Hm & b & s2 & Hf & HQ). exists b, s2.
  unfold mbind, M_bind. rewrite Hm. done.
Qed.

Lemma wp_mono {A} (m : M S A) s (P Q : A -> S -> Prop) :
  wp m s P -> (forall a s', P a s' -> Q a s') -> wp m s Q.
Proof. intros (a & s' & ? & ?) HPQ. exists a, s'. auto. Qed.

Lemma wp_lift {A} (f : S -> A * S) s (Q : A -> S -> Prop) :
  Q (f s).1 (f s).2 -> wp (lift f) s Q.
Proof. intros HQ. exists (f s).1, (f s).2. unfold lift. by destruct (f s). Qed.

Lemma wp_gets {A} (f : S -> A) s (Q : A -> S -> Prop) :
  Q (f s) s -> wp (gets f) s Q.
Proof. intros HQ. by exists (f s), s. Qed.

Lemma wp_modify (f : S -> S) s (Q : unit -> S -> Prop) :
  Q tt (f s) -> wp (modify f) s Q.
Proof. intros HQ. by exists tt, (f s). Qed.

Lemma wp_zoom {T A} (view : S -> T) upd (m : M T A) s (Q : A -> S -> Prop) :
  wp m (view s) (fun a t => Q a (upd t s)) -> wp (zoom view upd m) s Q.
Proof.
  intros (a & t & Hm & HQ). exists a, (upd t s). unfold zoom. by rewrite Hm.
Qed.

(** The result of a run that is known is the result of the run. *)
Lemma wp_run {A} (m : M S A) s a s' (Q : A -> S -> Prop) :
  wp m s Q -> m s = Some (a, s') -> Q a s'.
Proof. intros (b & t & Hm & HQ) Hr. by simplify_eq. Qed.

Lemma bind_run {A B} (m : M S A) (f : A -> M S B) s b s' :
  (m ≫= f) s = Some (b, s') ->
  exists a s1, m s = Some (a, s1) /\ f a s1 = Some (b, s').
Proof. unfold mbind, M_bind. destruct (m s) as [[a s1]|]; [eauto | done]. Qed.
End wp.

(** [wp_step] decomposes a goal [wp m s Q] along the structure of [m]. *)
Ltac wp_step :=
  match goal with
  | |- wp (mret _) _ _ => apply wp_ret
  | |- wp (_ ≫= _) _ _ => apply wp_bind
  | |- wp (lift _) _ _ => apply wp_lift
  | |- wp (gets _) _ _ => apply wp_gets
  | |- wp (modify _) _ _ => apply wp_modify
  | |- wp (if ?b then _ else _) _ _ => let E := fresh "E" in destruct b eqn:E
  | |- wp (match ?x with _ => _ end) _ _ => let E := fresh "E" in destruct x eqn:E
  end; cbn beta.

(** [run_inv H] decomposes a successful run [H : m s = Some (a, s')]. *)
Ltac run_inv H :=
  repeat match type of H with
  | (_ ≫= _) _ = Some (_, _) =>
      let a := fresh "a" in let s := fresh "s" in let Hm := fresh "Hrun" in
      apply bind_run in H; destruct H as (a & s & Hm & H); cbn beta in H
  | mret _ _ = Some (_, _) => unfold mret, M_ret in H; simplify_eq/=
  | gets _ _ = Some (_, _) => unfold gets in H; simplify_eq/=
  | modify _ _ = Some (_, _) => unfold modify in H; simplify_eq/=
  | stuck _ = Some (_, _) => discriminate H
  end.

(** [boolify] turns the comparisons of the code in hypotheses into Prop. *)
Ltac boolify :=
  repeat match goal with
  | H : (_ && _)%bool = true |- _ => apply andb_prop in H; destruct H
  | H : (_ || _)%bool = false |- _ => apply orb_false_elim in H; destruct H
  | H : (_ <? _) = true |- _ => apply Z.ltb_lt in H
  | H : (_ <? _) = false |- _ => apply Z.ltb_ge in H
  | H : (_ <=? _) = true |- _ => apply Z.leb_le in H
  | H : (_ <=? _) = false |- _ => apply Z.leb_gt in H
  | H : (_ =? _) = true |- _ => apply Z.eqb_eq in H
  | H : (_ =? _) = false |- _ => apply Z.eqb_neq in H
  | H : (_ <? _)%nat = true |- _ => apply Nat.ltb_lt in H
  | H : (_ <? _)%nat = false |- _ => apply Nat.ltb_ge in H
  | H : (_ <=? _)%nat = true |- _ => apply Nat.leb_le in H
  | H : (_ <=? _)%nat = false |- _ => apply Nat.leb_gt in H
  | H : (_ =? _)%nat = true |- _ => apply Nat.eqb_eq in H
  | H : (_ =? _)%nat = false |- _ => apply Nat.eqb_neq in H
  | H : negb _ = true |- _ => apply negb_true_iff in H
  | H : negb _ = false |- _ => apply negb_false_iff in H
  end.

(** ** Bytes *)

(** The value of a little-endian byte sequence: what the host reads back from
    a [uint32_t] or [uint64_t] object filled by a memory copy. *)
Fixpoint le_decode (bs : list Z) : Z :=
  match bs with
  | [] => 0
  | b :: bs' => b + 256 * le_decode bs'
  end.

Fixpoint le_encode (n : nat) (z : Z) : list Z :=
  match n with
  | O => []
  | S n' => z mod 256 :: le_encode n' (z / 256)
  end.

Lemma length_le_encode n z : length (le_encode n z) = n.
Proof. revert z. induction n as [|n IH]; intros z; cbn; [done | by rewrite IH]. Qed.

Lemma le_encode_bytes n z : Forall is_u8 (le_encode n z).
Proof.
  revert z. induction n as [|n IH]; intros z; cbn; [done|].
  constructor; [ulia | apply IH].
Qed.

Lemma le_decode_bound bs :
  Forall is_u8 bs -> 0 <= le_decode bs < 256 ^ Z.of_nat (length bs).
Proof.
  induction 1 as [|b bs Hb _ IH]; cbn [le_decode length]; [done|].
  rewrite Nat2Z.inj_succ, Z.pow_succ_r by lia. unfold is_u8 in Hb. lia.
Qed.

Lemma le_decode_encode n z :
  0 <= z < 256 ^ Z.of_nat n -> le_decode (le_encode n z) = z.
Proof.
  revert z. induction n as [|n IH]; intros z Hz; cbn [le_encode le_decode].
  - change (256 ^ Z.of_nat 0) with 1 in Hz. lia.
  - rewrite Nat2Z.inj_succ, Z.pow_succ_r in Hz by lia.
    rewrite IH; [lia|]. split; [lia|]. apply Z.div_lt_upper_bound; lia.
Qed.

Lemma le_encode_decode bs :
  Forall is_u8 bs -> le_encode (length bs) (le_decode bs) = bs.
Proof.
  induction 1 as [|b bs Hb _ IH]; cbn [le_encode le_decode length]; [done|].
  unfold is_u8 in Hb. rewrite (Z.mul_comm 256).
  rewrite Z_mod_plus_full, Z.mod_small, Z.div_add, Z.div_small, Z.add_0_l by lia.
  by rewrite IH.
Qed.

(** [memcpy] into a buffer at an offset is stdpp's [list_inserts]. *)
Definition blit (off : nat) (src dst : list Z) : list Z := list_inserts off src dst.

Lemma length_blit off src dst : length (blit off src dst) = length dst.
Proof. apply length_inserts. Qed.

Lemma blit_lookup_new off src dst i b :
  (off + length src <= length dst)%nat -> src !! i = Some b ->
  blit off src dst !! (off + i)%nat = Some b.
Proof.
  intros Hlen Hi. pose proof (lookup_lt_Some _ _ _ Hi).
  unfold blit. rewrite list_lookup_inserts by lia.
  by replace (off + i - off)%nat with i by lia.
Qed.

Lemma blit_lookup_old off src dst i :
  (i < off \/ off + length src <= i)%nat -> blit off src dst !! i = dst !! i.
Proof.
  intros [?|?]; unfold blit.
  - by apply list_lookup_inserts_lt.
  - by apply list_lookup_inserts_ge.
Qed.

(** ** Partial maps over lists *)

Lemma mapM_app {A B} (f : A -> option B) l1 l2 :
  mapM f (l1 ++ l2) =
  match mapM f l1, mapM f l2 with Some x, Some y => Some (x ++ y) | _, _ => None end.
Proof.
  induction l1 as [|a l1 IH]; cbn; [by destruct (mapM f l2)|].
  destruct (f a); cbn; [|done]. rewrite IH.
  by destruct (mapM f l1); cbn; [destruct (mapM f l2)|].
Qed.

Lemma mapM_seq_shift {B} (f : nat -> option B) a n :
  mapM f (seq a n) = mapM (fun i => f (a + i)%nat) (seq 0 n).
Proof.
  revert f a. induction n as [|n IH]; intros f a; cbn; [done|]. rewrite Nat.add_0_r.
  destruct (f a); cbn; [|done]. rewrite (IH f (S a)), (IH (fun i => f (a + i)%nat) 1%nat).
  by rewrite (mapM_ext _ (fun i => f (a + (1 + i))%nat)) by (intros i; f_equal; lia).
Qed.

(** The last element of an array that was just extended. *)
Lemma lookup_last_pushed {A} (l : list A) x : (l ++ [x]) !! (length (l ++ [x]) - 1)%nat = Some x.
Proof. rewrite length_app, Nat.add_sub. by apply list_lookup_middle. Qed.

Lemma insert_last_pushed {A} (l : list A) x y :
  <[(length (l ++ [x]) - 1)%nat := y]> (l ++ [x]) = l ++ [y].
Proof.
  rewrite length_app, Nat.add_sub, insert_app_r_alt by lia. by rewrite Nat.sub_diag.
Qed.
