(* ===== verification/CStrings.v ===== *)
(** * C strings

    The string routines of the C library that the sources call, on NUL-free
    [string] values: a [char] array holding a C string is modelled by the
    characters before its terminator.  Bounded copies ([strncpy] followed by
    the explicit terminator, [copy_cstr], [snprintf]) are truncations. *)

From S2P Require Import Prelude.
From stdpp Require Import prelude strings list.
From Stdlib Require Import ZArith Lia.
From Stdlib Require Import Ascii String.
#[local] Open Scope string_scope.
#[local] Open Scope Z_scope.

Abbreviation strlen := String.length.

(** [strncpy(dst, src, n - 1); dst[n - 1] = 0], as the C string left in [dst]. *)
Definition strncpyz (n : nat) (s : string) : string := String.substring 0 (n - 1) s.

(** [strcmp(a, b) == 0]. *)
Definition streq (a b : string) : bool := String.eqb a b.

(** [strncmp(a, b, n) == 0]. *)
Definition strneq (n : nat) (a b : string) : bool :=
  String.eqb (String.substring 0 n a) (String.substring 0 n b).

(** [strstr]: the suffix of [hay] that starts at the first occurrence. *)
Fixpoint strstr (hay needle : string) : option string :=
  if String.prefix needle hay then Some hay
  else match hay with
       | EmptyString => None
       | String _ h => strstr h needle
       end.

Definition contains (hay needle : string) : bool :=
  match strstr hay needle with Some _ => true | None => false end.

(** [strchr]: the suffix of [s] that starts at the first occurrence of [c]. *)
Fixpoint strchr (s : string) (c : ascii) : option string :=
  match s with
  | EmptyString => None
  | String d s' => if Ascii.eqb c d then Some s else strchr s' c
  end.

(** The characters of a [char] array up to its first NUL byte. *)
Fixpoint cstr_of_bytes (bs : list Z) : string :=
  match bs with
  | [] => EmptyString
  | b :: bs' => if b =? 0 then EmptyString else String (ascii_of_nat (Z.to_nat b)) (cstr_of_bytes bs')
  end.

(** ** Numbers in text *)

Definition digit_char (d : Z) : ascii :=
  ascii_of_nat (Z.to_nat (if d <? 10 then 48 + d else 87 + d)).

(** The digits of [n] in [base], most significant first, in front of [acc]. *)
Fixpoint fmt_digits (fuel : nat) (base n : Z) (acc : string) : string :=
  match fuel with
  | O => acc
  | S fuel' =>
      let acc' := String (digit_char (n mod base)) acc in
      if n <? base then acc' else fmt_digits fuel' base (n / base) acc'
  end.

(** [%u], [%lu] and [%lx] of values up to 64 bits: 20 decimal digits and 16
    hexadecimal digits are enough for [2^64 - 1]. *)
Definition fmt_u (n : Z) : string := fmt_digits 20 10 n EmptyString.
Definition fmt_x (n : Z) : string := fmt_digits 16 16 n EmptyString.

Definition is_space (c : ascii) : bool :=
  let n := Z.of_nat (nat_of_ascii c) in (n =? 32) || ((9 <=? n) && (n <=? 13)).

Definition digit_value (c : ascii) : Z :=
  let n := Z.of_nat (nat_of_ascii c) in
  if (48 <=? n) && (n <=? 57) then n - 48
  else if (97 <=? n) && (n <=? 122) then n - 87
  else if (65 <=? n) && (n <=? 90) then n - 55
  else 99.

Fixpoint skip_space (s : string) : string :=
  match s with
  | String c s' => if is_space c then skip_space s' else s
  | EmptyString => s
  end.

(** Reads the longest digit prefix: its value, and whether there was a digit. *)
Fixpoint scan_digits (base : Z) (s : string) (acc : Z) (seen : bool) : Z * bool :=
  match s with
  | String c s' =>
      let d := digit_value c in
      if d <? base then scan_digits base s' (acc * base + d) true else (acc, seen)
  | EmptyString => (acc, seen)
  end.

(** The base prefix of [strtoull(.., 0)]: [0x] followed by a hexadecimal digit
    is base 16, another leading [0] is base 8, otherwise base 10. *)
Definition auto_base (s : string) : Z * string :=
  match s with
  | String "0" (String c rest) =>
      if (Ascii.eqb c "x" || Ascii.eqb c "X")%char then
        match rest with
        | String d _ => if digit_value d <? 16 then (16, rest) else (8, s)
        | EmptyString => (8, s)
        end
      else (8, s)
  | String "0" EmptyString => (8, s)
  | _ => (10, s)
  end.

Inductive strto :=
| NoConversion
| Converted (v : Z)
| OutOfRange.

(** [strtoull(s, &end, base)] with base 10 or 0: [NoConversion] is
    [end == s], [OutOfRange] is [errno == ERANGE] (value [2^64 - 1]). *)
Definition strtoull (base : Z) (s : string) : strto :=
  let s1 := skip_space s in
  let '(neg, s2) := match s1 with
                    | String "-" s' => (true, s')
                    | String "+" s' => (false, s')
                    | _ => (false, s1)
                    end in
  let '(b, s3) := if base =? 0 then auto_base s2 else (base, s2) in
  match scan_digits b s3 0 false with
  | (_, false) => NoConversion
  | (v, true) => if v <? 18446744073709551616
                 then Converted (if neg : bool then u64 (- v) else v)
                 else OutOfRange
  end.

Definition strto_value (r : strto) : option Z :=
  match r with
  | NoConversion => None
  | Converted v => Some v
  | OutOfRange => Some 18446744073709551615
  end.

(** ** Padding *)

Fixpoint repeat_char (c : ascii) (n : nat) : string :=
  match n with O => EmptyString | S n' => String c (repeat_char c n') end.

(** [%-ns] and [%ns]: a text that is too long is not cut. *)
Definition pad_right (n : nat) (s : string) : string := s +:+ repeat_char " " (n - strlen s).
Definition pad_left (n : nat) (s : string) : string := repeat_char " " (n - strlen s) +:+ s.

(** ** Lemmas *)

Lemma strlen_app a b : strlen (a ++ b) = (strlen a + strlen b)%nat.
Proof. induction a as [|c a IH]; [done|]. simpl. by rewrite IH. Qed.

Lemma strlen_substring n m s : (strlen (String.substring n m s) <= m)%nat.
Proof.
  revert n m. induction s as [|c s IH]; intros [|n] [|m]; cbn; try lia.
  - specialize (IH 0%nat m). lia.
  - specialize (IH n 0%nat). lia.
  - specialize (IH n (S m)). lia.
Qed.

Lemma strlen_strncpyz n s : (strlen (strncpyz n s) <= n - 1)%nat.
Proof. apply strlen_substring. Qed.

Lemma substring_all n s : (strlen s <= n)%nat -> String.substring 0 n s = s.
Proof.
  revert n. induction s as [|c s IH]; intros [|n] Hn; cbn in *; try done; [lia|].
  rewrite IH by lia. done.
Qed.

Lemma strncpyz_id n s : (strlen s < n)%nat -> strncpyz n s = s.
Proof. intros Hn. apply substring_all. lia. Qed.

Lemma fmt_digits_len fuel base n acc k :
  2 <= base -> 0 <= n < base ^ Z.of_nat k -> (1 <= k)%nat ->
  (strlen (fmt_digits fuel base n acc) <= strlen acc + k)%nat.
Proof.
  intros Hb. revert n acc k. induction fuel as [|fuel IH]; intros n acc k Hn Hk;
    cbn [fmt_digits]; [lia|].
  destruct (n <? base) eqn:E; boolify; [cbn; lia|].
  destruct k as [|k]; [lia|]. destruct k as [|k].
  { change (Z.of_nat 1) with 1 in Hn. rewrite Z.pow_1_r in Hn. lia. }
  rewrite (Nat2Z.inj_succ (S k)), Z.pow_succ_r in Hn by lia.
  assert (0 <= n / base < base ^ Z.of_nat (S k)) as Hq.
  { split; [apply Z.div_pos; lia | apply Z.div_lt_upper_bound; lia]. }
  specialize (IH (n / base) (String (digit_char (n mod base)) acc) (S k) Hq ltac:(lia)).
  cbn [String.length] in IH. lia.
Qed.

Lemma fmt_u_len_u32 n : is_u32 n -> (strlen (fmt_u n) <= 10)%nat.
Proof. intros H. apply (fmt_digits_len 20 10 n EmptyString 10); unfold is_u32 in H; cbn; lia. Qed.

Lemma fmt_u_len_u64 n : is_u64 n -> (strlen (fmt_u n) <= 20)%nat.
Proof. intros H. apply (fmt_digits_len 20 10 n EmptyString 20); unfold is_u64 in H; cbn; lia. Qed.

Lemma fmt_x_len_u64 n : is_u64 n -> (strlen (fmt_x n) <= 16)%nat.
Proof. intros H. apply (fmt_digits_len 16 16 n EmptyString 16); unfold is_u64 in H; cbn; lia. Qed.

Lemma streq_eq a b : streq a b = true <-> a = b.
Proof. apply String.eqb_eq. Qed.

Lemma streq_neq a b : streq a b = false <-> a <> b.
Proof. apply String.eqb_neq. Qed.

Lemma streq_refl a : streq a a = true.
Proof. by apply streq_eq. Qed.

(** Reading back a printed number. *)
Lemma digit_value_char d : 0 <= d < 10 -> digit_value (digit_char d) = d.
Proof.
  intros Hd. assert (d = 0 \/ d = 1 \/ d = 2 \/ d = 3 \/ d = 4 \/ d = 5 \/ d = 6
    \/ d = 7 \/ d = 8 \/ d = 9) as Hc by lia.
  by destruct_or! Hc; subst.
Qed.

Lemma scan_fmt_digits fuel n acc :
  0 <= n < 10 ^ Z.of_nat fuel -> (1 <= fuel)%nat ->
  forall v seen, exists j,
    scan_digits 10 (fmt_digits fuel 10 n acc) v seen =
    scan_digits 10 acc (v * 10 ^ Z.of_nat j + n) true.
Proof.
  revert n acc. induction fuel as [|fuel IH]; intros n acc Hn Hf v seen; [lia|].
  cbn [fmt_digits]. destruct (n <? 10) eqn:E; boolify.
  - exists 1%nat. cbn [scan_digits].
    rewrite Z.mod_small, digit_value_char by lia.
    rewrite (proj2 (Z.ltb_lt n 10)) by lia. done.
  - rewrite Nat2Z.inj_succ, Z.pow_succ_r in Hn by lia.
    destruct fuel as [|fuel]; [cbn in Hn; lia|].
    destruct (IH (n / 10) (String (digit_char (n mod 10)) acc)) with (v := v) (seen := seen)
      as [j ->]; [|lia|].
    { split; [apply Z.div_pos; lia | apply Z.div_lt_upper_bound; lia]. }
    exists (S j). cbn [scan_digits]. rewrite digit_value_char by lia.
    rewrite (proj2 (Z.ltb_lt (n mod 10) 10)) by lia. f_equal.
    rewrite Nat2Z.inj_succ, Z.pow_succ_r by lia. lia.
Qed.

(** A printed 64-bit number parses back to itself. *)
Lemma scan_fmt_u n : is_u64 n -> scan_digits 10 (fmt_u n) 0 false = (n, true).
Proof.
  intros Hn. destruct (scan_fmt_digits 20 n EmptyString ltac:(cbn; ulia) ltac:(lia) 0 false) as [j Hj].
  unfold fmt_u. rewrite Hj. cbn. done.
Qed.

(** ** Scanning text *)

Fixpoint str_forall (f : ascii -> bool) (s : string) : bool :=
  match s with
  | EmptyString => true
  | String c s' => f c && str_forall f s'
  end.

Lemma str_forall_app f a b : str_forall f (a ++ b) = str_forall f a && str_forall f b.
Proof.
  induction a as [|c a IH]; [done|]. change (String c a ++ b) with (String c (a ++ b)).
  cbn [str_forall]. rewrite IH. by destruct (f c).
Qed.

Lemma strchr_app a c b :
  str_forall (fun d => negb (Ascii.eqb c d)) a = true -> strchr (a ++ String c b) c = Some (String c b).
Proof.
  induction a as [|d a IH]; [change (EmptyString ++ String c b) with (String c b); cbn [strchr]; by rewrite Ascii.eqb_refl|].
  change (String d a ++ String c b) with (String d (a ++ String c b)). cbn [str_forall strchr].
  intros H. apply andb_prop in H as [H1 H2]. apply negb_true_iff in H1. rewrite H1. auto.
Qed.

(** A prefix without the needle's first character is skipped. *)
Lemma strstr_app a c needle b :
  str_forall (fun d => negb (Ascii.eqb c d)) a = true ->
  strstr (a ++ b) (String c needle) = strstr b (String c needle).
Proof.
  induction a as [|d a IH]; [done|]. cbn [str_forall].
  intros H. apply andb_prop in H as [H1 H2]. apply negb_true_iff, Ascii.eqb_neq in H1.
  change (String d a ++ b) with (String d (a ++ b)). cbn [strstr String.prefix].
  destruct (ascii_dec c d); [done|]. auto.
Qed.

Lemma prefix_app a b : String.prefix a (a ++ b) = true.
Proof.
  induction a as [|c a IH]; [by destruct b|]. change (String c a ++ b) with (String c (a ++ b)).
  cbn [String.prefix]. by destruct (ascii_dec c c).
Qed.

Lemma strstr_here needle b : strstr (needle ++ b) needle = Some (needle ++ b).
Proof.
  pose proof (prefix_app needle b) as Hp. destruct (needle ++ b) as [|c s] eqn:E; cbn [strstr]; by rewrite Hp.
Qed.

Lemma substring_suffix a b : String.substring (strlen a) (strlen b) (a ++ b) = b.
Proof.
  induction a as [|c a IH]; [apply substring_all; done|].
  change (String c a ++ b) with (String c (a ++ b)). exact IH.
Qed.

Lemma str_app_assoc a b c : (a ++ b) ++ c = a ++ (b ++ c).
Proof. induction a as [|x a IH]; [done|]. exact (f_equal (String x) IH). Qed.

Lemma string_app_nil_r s : s ++ EmptyString = s.
Proof. induction s as [|c s IH]; [done|]. exact (f_equal (String c) IH). Qed.

Lemma substring_after a b :
  String.substring (strlen a) (strlen (a ++ b) - strlen a) (a ++ b) = b.
Proof.
  rewrite strlen_app. replace (strlen a + strlen b - strlen a)%nat with (strlen b) by lia.
  apply substring_suffix.
Qed.

Lemma substring_prefix a b : String.substring 0 (strlen a) (a ++ b) = a.
Proof.
  induction a as [|c a IH]; [by destruct b|]. change (String c a ++ b) with (String c (a ++ b)).
  cbn [String.length String.substring]. by rewrite IH.
Qed.

Lemma fmt_digits_app fuel base n acc s :
  fmt_digits fuel base n acc ++ s = fmt_digits fuel base n (acc ++ s).
Proof.
  revert n acc. induction fuel as [|fuel IH]; intros n acc; cbn [fmt_digits]; [done|].
  destruct (n <? base); [done|]. by rewrite IH.
Qed.

(** The characters of a printed number are digits. *)
Lemma fmt_digits_chars fuel n acc f :
  (forall d, 0 <= d < 10 -> f (digit_char d) = true) -> str_forall f acc = true ->
  0 <= n -> str_forall f (fmt_digits fuel 10 n acc) = true.
Proof.
  intros Hf. revert n acc. induction fuel as [|fuel IH]; intros n acc Ha Hn; cbn [fmt_digits]; [done|].
  assert (str_forall f (String (digit_char (n mod 10)) acc) = true).
  { cbn [str_forall]. rewrite Hf, Ha by lia. done. }
  destruct (n <? 10); [done|]. apply IH; [done|]. apply Z.div_pos; lia.
Qed.

Lemma fmt_digits_head fuel n acc :
  0 <= n -> (fuel <> 0)%nat -> exists d rest, 0 <= d < 10 /\ fmt_digits fuel 10 n acc = String (digit_char d) rest.
Proof.
  revert n acc. induction fuel as [|fuel IH]; intros n acc Hn Hf; [done|]. cbn [fmt_digits].
  destruct (n <? 10) eqn:E; [exists (n mod 10), acc; split; [lia|done]|].
  destruct fuel as [|fuel].
  - exists (n mod 10), acc. split; [lia|done].
  - apply IH; [apply Z.div_pos; lia|done].
Qed.

Lemma digit_char_cases d (Q : ascii -> Prop) :
  0 <= d < 10 ->
  Q "0"%char -> Q "1"%char -> Q "2"%char -> Q "3"%char -> Q "4"%char ->
  Q "5"%char -> Q "6"%char -> Q "7"%char -> Q "8"%char -> Q "9"%char -> Q (digit_char d).
Proof.
  intros Hd. assert (d = 0 \/ d = 1 \/ d = 2 \/ d = 3 \/ d = 4 \/ d = 5 \/ d = 6
    \/ d = 7 \/ d = 8 \/ d = 9) as Hc by lia. by destruct_or! Hc; subst.
Qed.

(** [strtoull] reads a printed number up to the character after it. *)
Lemma strtoull_fmt_u n c rest :
  is_u64 n -> 10 <= digit_value c -> strtoull 10 (fmt_u n ++ String c rest) = Converted n.
Proof.
  intros Hn Hc. unfold fmt_u. rewrite fmt_digits_app.
  change (EmptyString ++ String c rest) with (String c rest).
  destruct (scan_fmt_digits 20 n (String c rest) ltac:(cbn; ulia) ltac:(lia) 0 false) as [j Hj].
  destruct (fmt_digits_head 20 n (String c rest) ltac:(ulia) ltac:(done)) as (d & r & Hd & E).
  assert (scan_digits 10 (String (digit_char d) r) 0 false = (n, true)) as Hscan.
  { rewrite <- E, Hj. cbn [scan_digits]. rewrite (proj2 (Z.ltb_ge _ _)) by done. done. }
  rewrite E. unfold strtoull.
  assert (skip_space (String (digit_char d) r) = String (digit_char d) r) as ->.
  { cbn [skip_space]. revert Hd. intros Hd. by apply (digit_char_cases d (fun x =>
      (if is_space x then skip_space r else String x r) = String x r)). }
  revert Hscan. pattern (digit_char d). apply digit_char_cases; [done|..].
  all: intros Hscan; cbv beta iota zeta; change (10 =? 0) with false; cbv iota; rewrite Hscan.
  all: by rewrite (proj2 (Z.ltb_lt _ _)) by ulia.
Qed.
