(* ===== verification/BitFields.v ===== *)
(** * Bit fields of C structures

    The descriptors of the hypervisor and the message header of the management
    engine are unions or packed structures of bit fields.  Such an object is its
    value as an integer; a field is its lowest bit and its width.  Assigning to a
    field keeps the other bits and truncates the value. *)

From S2P Require Import Prelude.
From stdpp Require Import prelude.
From Stdlib Require Import ZArith Lia.
#[local] Open Scope Z_scope.

Record bitfield := Bitfield { bf_low : Z; bf_width : Z }.

Definition get_field (f : bitfield) (d : Z) : Z :=
  Z.land (Z.shiftr d (bf_low f)) (Z.ones (bf_width f)).
Definition set_field (f : bitfield) (v d : Z) : Z :=
  Z.lor (Z.ldiff d (Z.shiftl (Z.ones (bf_width f)) (bf_low f)))
        (Z.shiftl (Z.land v (Z.ones (bf_width f))) (bf_low f)).

Lemma testbit_set_field f v d i :
  0 <= bf_low f -> 0 <= bf_width f -> 0 <= i ->
  Z.testbit (set_field f v d) i =
    if decide (bf_low f <= i < bf_low f + bf_width f) then Z.testbit v (i - bf_low f)
    else Z.testbit d i.
Proof.
  intros Hl Hw Hi. unfold set_field.
  rewrite Z.lor_spec, Z.ldiff_spec, !Z.shiftl_spec, Z.land_spec by lia.
  case_decide as Hin.
  - rewrite !Z.ones_spec_low by lia. by rewrite andb_true_r, andb_false_r.
  - assert (Z.testbit (Z.ones (bf_width f)) (i - bf_low f) = false) as ->.
    { destruct (decide (i < bf_low f)); [by apply Z.testbit_neg_r; lia|].
      apply Z.ones_spec_high. lia. }
    by rewrite !andb_false_r, andb_true_r, orb_false_r.
Qed.

Lemma get_set_field f v d :
  0 <= bf_low f -> 0 <= bf_width f -> get_field f (set_field f v d) = v mod 2 ^ bf_width f.
Proof.
  intros Hl Hw. unfold get_field. rewrite <- Z.land_ones by done.
  apply Z.bits_inj'. intros i Hi. rewrite !Z.land_spec, Z.shiftr_spec by done.
  destruct (decide (i < bf_width f)).
  - rewrite testbit_set_field, decide_True by lia. by replace (i + bf_low f - bf_low f) with i by lia.
  - by rewrite Z.ones_spec_high, !andb_false_r by lia.
Qed.

Lemma get_field_arith f d :
  0 <= bf_low f -> 0 <= bf_width f -> get_field f d = (d / 2 ^ bf_low f) mod 2 ^ bf_width f.
Proof. intros. unfold get_field. by rewrite Z.land_ones, Z.shiftr_div_pow2 by done. Qed.

(** Assigning to one field leaves the fields that do not overlap it. *)
Definition disjoint_fields (f g : bitfield) : bool :=
  (bf_low f + bf_width f <=? bf_low g) || (bf_low g + bf_width g <=? bf_low f).

Lemma get_set_field_other f g v d :
  0 <= bf_low f -> 0 <= bf_width f -> 0 <= bf_low g -> 0 <= bf_width g ->
  disjoint_fields f g = true -> get_field g (set_field f v d) = get_field g d.
Proof.
  intros Hlf Hwf Hlg Hwg Hd. unfold disjoint_fields in Hd.
  apply orb_true_iff in Hd. rewrite !Z.leb_le in Hd.
  unfold get_field. apply Z.bits_inj'. intros i Hi. rewrite !Z.land_spec, !Z.shiftr_spec by done.
  destruct (decide (i < bf_width g)).
  - rewrite testbit_set_field, decide_False by lia. done.
  - by rewrite Z.ones_spec_high, !andb_false_r by lia.
Qed.
