(* ===== verification/SlotTable.v ===== *)
(** * Fixed tables of keyed slots

    The bridge, the task walker and the page guard keep their per-process or
    per-region state in a static array of slots with a [used] flag and a key.
    This file shows once that such an array implements a finite map: at most
    one live slot per key, and an update through a slot changes that key only,
    and drops at most the key that owned the slot before. *)

From S2P Require Import Prelude.
From stdpp Require Import prelude list.
From Stdlib Require Import ZArith Lia.
#[local] Open Scope Z_scope.

Section table.
Context {A : Type} (live : A -> bool) (key : A -> Z).
Implicit Types (tbl : list A) (k : Z) (e : A).

Definition owns k e : Prop := live e = true /\ key e = k.

#[global] Instance owns_dec k e : Decision (owns k e).
Proof. unfold owns. apply _. Defined.

(** No key has two live slots. *)
Definition slots_unique tbl : Prop :=
  forall i j e e', tbl !! i = Some e -> tbl !! j = Some e' ->
    live e = true -> live e' = true -> key e = key e' -> i = j.

(** The map that the table implements. *)
Definition find_key tbl k : option A := snd <$> list_find (owns k) tbl.

Lemma find_key_at tbl i e :
  slots_unique tbl -> tbl !! i = Some e -> live e = true -> find_key tbl (key e) = Some e.
Proof.
  intros Hu Hi Hlive. unfold find_key.
  destruct (list_find (owns (key e)) tbl) as [[j e']|] eqn:Ef.
  - apply list_find_Some in Ef as (Hj & [Hl' Hk] & _).
    assert (i = j) as -> by (eapply Hu; eauto). by simplify_eq/=.
  - apply list_find_None in Ef. eapply Forall_lookup_1 in Ef; [|done]. by destruct Ef.
Qed.

Lemma find_key_Some tbl k e :
  find_key tbl k = Some e -> exists i : nat, tbl !! i = Some e /\ owns k e.
Proof.
  unfold find_key. destruct (list_find _ tbl) as [[i e']|] eqn:Ef; [|done]. intros [= ->].
  apply list_find_Some in Ef as (? & ? & _). eauto.
Qed.

Lemma find_key_None tbl k :
  find_key tbl k = None <-> (forall (i : nat) e, tbl !! i = Some e -> ~ owns k e).
Proof.
  unfold find_key. destruct (list_find (owns k) tbl) as [[i e]|] eqn:Ef; cbn.
  - split; [done|]. intros Ha. apply list_find_Some in Ef as (Hi & Ho & _). by destruct (Ha i e).
  - split; [|done]. intros _ i e Hi. apply list_find_None in Ef. by eapply Forall_lookup_1 in Ef.
Qed.

(** Slot [i] of [tbl1] was taken for [k] in [tbl]; it holds [e]. *)
Record slot_of tbl k (i : nat) tbl1 e : Prop := {
  so_at : tbl1 !! i = Some e;
  so_owns : owns k e;
  so_len : length tbl1 = length tbl;
  so_other : forall j, j <> i -> tbl1 !! j = tbl !! j;
  so_only : forall j e', tbl !! j = Some e' -> owns k e' -> j = i;
}.

(** A slot that already belongs to the key. *)
Lemma slot_of_existing tbl k i e :
  slots_unique tbl -> tbl !! i = Some e -> owns k e -> slot_of tbl k i tbl e.
Proof.
  intros Hu Hi Ho. split; [done..|]. intros j e' Hj [Hl <-]. destruct Ho as [? Hk].
  by eapply Hu.
Qed.

(** A slot taken over for a key that had none. *)
Lemma slot_of_taken tbl k i e :
  find_key tbl k = None -> (i < length tbl)%nat -> owns k e -> slot_of tbl k i (<[i:=e]> tbl) e.
Proof.
  intros Hn Hi Ho. split; [by apply list_lookup_insert_eq|done|apply length_insert| |].
  - intros j Hj. by rewrite list_lookup_insert_ne.
  - intros j e' Hj Ho'. exfalso. by eapply (proj1 (find_key_None tbl k) Hn).
Qed.

Section update.
Context tbl k i tbl1 e0 e (Hu : slots_unique tbl) (Hs : slot_of tbl k i tbl1 e0) (Ho : owns k e).

Lemma slot_update_unique : slots_unique (<[i:=e]> tbl1).
Proof.
  destruct Hs as [_ _ _ Hoth Hun], Ho as [_ Hk]. intros j j' x x' Hj Hj' Hl Hl' Heq.
  apply list_lookup_insert_Some in Hj as [(<- & <- & _)|[Hj1 Hj]];
    apply list_lookup_insert_Some in Hj' as [(<- & <- & _)|[Hj1' Hj']]; try done.
  - rewrite Hoth in Hj' by done. symmetry. by eapply Hun; [|split; [|rewrite <- Heq]].
  - rewrite Hoth in Hj by done. by eapply Hun; [|split; [|rewrite Heq]].
  - rewrite Hoth in Hj, Hj' by done. eapply Hu; eauto.
Qed.

Lemma slot_index_lt : (i < length tbl)%nat.
Proof. rewrite <- (so_len _ _ _ _ _ Hs). eapply lookup_lt_Some, so_at, Hs. Qed.

Lemma slot_update_find : find_key (<[i:=e]> tbl1) k = Some e.
Proof.
  destruct Ho as [Hl Hk]. rewrite <- Hk.
  apply (find_key_at _ i); [apply slot_update_unique| |done].
  apply list_lookup_insert_eq. rewrite (so_len _ _ _ _ _ Hs). apply slot_index_lt.
Qed.

(** A live entry of another key after the update was there before. *)
Lemma slot_update_live (j : nat) x :
  <[i:=e]> tbl1 !! j = Some x -> live x = true -> key x <> k -> j <> i /\ tbl !! j = Some x.
Proof.
  intros Hj Hl Hne. apply list_lookup_insert_Some in Hj as [(<- & <- & _)|[Hj1 Hj]].
  - by destruct Ho.
  - rewrite (so_other _ _ _ _ _ Hs) in Hj by done. auto.
Qed.

(** Another key keeps its entry, unless it owned the slot. *)
Lemma slot_update_other k' :
  k' <> k ->
  find_key (<[i:=e]> tbl1) k' = find_key tbl k' \/
  (exists x, tbl !! i = Some x /\ owns k' x /\ find_key (<[i:=e]> tbl1) k' = None).
Proof.
  intros Hne. destruct (find_key tbl k') as [x|] eqn:Ef.
  - apply find_key_Some in Ef as (j & Hj & Hl & <-). destruct (decide (j = i)) as [->|Hji].
    + right. exists x. split_and!; [done|done|]. apply find_key_None. intros j y Hy [Hly Hky].
      destruct (slot_update_live j y Hy Hly) as [Hji Hj']; [congruence|].
      apply Hji. eapply Hu; eauto.
    + left. apply (find_key_at _ j); [apply slot_update_unique| |done].
      by rewrite list_lookup_insert_ne, (so_other _ _ _ _ _ Hs).
  - left. apply find_key_None. intros j y Hy [Hly Hky].
    destruct (slot_update_live j y Hy Hly) as [_ Hj]; [congruence|].
    by eapply (proj1 (find_key_None tbl k') Ef).
Qed.
End update.
End table.

(** A table of dead slots is a map with nothing in it. *)
Lemma slots_unique_dead {A} (live : A -> bool) (key : A -> Z) n x :
  live x = false -> slots_unique live key (replicate n x).
Proof. intros Hx i j e e' Hi _ Hl. apply lookup_replicate in Hi as [-> _]. congruence. Qed.
