(* ===== verification/HostOS.v ===== *)
(** * The host interface of the introspection daemon

    The system and library calls that the Sentinel VMI daemon
    (release_payload/src/vmi/src) makes.  They are code outside the
    repository, so they are parameters: a type class of operations over an
    abstract world [W], and classes of documented laws that the theorems name
    when they rely on them. *)

From S2P Require Import Prelude CStrings.
From stdpp Require Import prelude strings list.
From Stdlib Require Import ZArith Lia.
#[local] Open Scope Z_scope.

(** The result of a system call: a value, or -1 with [errno]. *)
Inductive sysret (A : Type) :=
| SysOk (a : A)
| SysErr (errno : Z).
Arguments SysOk {A} a.
Arguments SysErr {A} errno.

Definition EINTR : Z := 4.
Definition EAGAIN : Z := 11.
Definition EBUSY : Z := 16.
Definition ETIMEDOUT : Z := 110.

Inductive open_mode := O_RDONLY | O_APPEND_CREAT | O_RDWR.

(** The argument of [KVM_SET_USER_MEMORY_REGION]. *)
Record kvm_region := KvmRegion {
  kr_slot : Z;
  kr_flags : Z;
  kr_guest_phys_addr : Z;
  kr_memory_size : Z;
  kr_userspace_addr : Z;
}.

Class HostOS (W : Type) := {
  (** the daemon's own address space: [None] is an unmapped address *)
  own_byte : W -> Z -> option Z;
  own_set : Z -> Z -> W -> W;
  (** cross-process memory access: pid, remote address, length or data *)
  process_vm_readv : Z -> Z -> Z -> W -> sysret (list Z) * W;
  process_vm_writev : Z -> Z -> list Z -> W -> sysret Z * W;
  (** files, sockets and pipes *)
  sys_open : string -> open_mode -> W -> sysret Z * W;
  sys_lseek : Z -> Z -> W -> sysret unit * W;
  sys_read : Z -> Z -> W -> sysret (list Z) * W;
  sys_write : Z -> string -> W -> sysret Z * W;
  sys_close : Z -> W -> W;
  sys_socket : W -> sysret Z * W;
  inet_pton : string -> option Z;
  sys_connect : Z -> Z -> Z -> W -> sysret unit * W;
  sys_accept : Z -> W -> sysret Z * W;
  unix_socket : W -> sysret Z * W;
  unix_bind : Z -> string -> W -> sysret unit * W;
  sys_listen : Z -> Z -> W -> sysret unit * W;
  popen_w : string -> W -> option Z * W;
  fputs_flush : Z -> string -> W -> bool * W;
  pclose : Z -> W -> W;
  access_r : string -> W -> bool;
  popen_lines : string -> W -> option (list string * Z) * W;
  (** BPF maps *)
  bpf_obj_get : string -> W -> sysret Z * W;
  bpf_map_update : Z -> Z -> Z -> W -> Z * W;
  (** KVM *)
  kvm_set_user_memory_region : Z -> kvm_region -> W -> sysret unit * W;
  (** environment, time and randomness *)
  getenv : string -> W -> option string;
  clock_monotonic : W -> option (Z * Z) * W;
  sys_rand : W -> Z * W;
  usleep : Z -> W -> W;
  (** the heap: whether an allocation succeeds *)
  calloc_ok : W -> bool * W;
}.

(** [process_vm_readv] transfers at most what was asked, of bytes. *)
Class ReadvTransfers (W : Type) `{HostOS W} := {
  readv_transfer pid a n w bs w' :
    process_vm_readv pid a n w = (SysOk bs, w') ->
    Z.of_nat (length bs) <= n /\ Forall is_u8 bs;
}.

(** The memory of the host as an observer sees it while a call runs: system
    calls that do not write memory leave every byte as it was, and no call
    changes the environment variables.  [remote_byte]
    is the content of another process's address space. *)
Class StableMemory (W : Type) `{HostOS W} := {
  remote_byte : Z -> W -> Z -> option Z;
  readv_content pid a n w bs w' :
    process_vm_readv pid a n w = (SysOk bs, w') ->
    forall i b, bs !! i = Some b -> remote_byte pid w (u64 (a + Z.of_nat i)) = Some b;
  readv_stable pid a n w r w' :
    process_vm_readv pid a n w = (r, w') ->
    (forall p x, remote_byte p w' x = remote_byte p w x) /\
    (forall x, own_byte w' x = own_byte w x) /\
    (forall key, getenv key w' = getenv key w);
  calloc_stable w :
    (forall p x, remote_byte p (calloc_ok w).2 x = remote_byte p w x) /\
    (forall x, own_byte (calloc_ok w).2 x = own_byte w x) /\
    (forall key, getenv key (calloc_ok w).2 = getenv key w);
}.

(** A write to the daemon's own memory changes that byte only. *)
Class OwnMemory (W : Type) `{HostOS W} := {
  own_set_same a b w : is_u8 b -> own_byte w a <> None -> own_byte (own_set a b w) a = Some b;
  own_set_other a b w x : x <> a -> own_byte (own_set a b w) x = own_byte w x;
}.

(** A transfer whose first byte is mapped makes progress: the call is neither
    interrupted nor refused (the caller may ptrace the target). *)
Class ReadvLive (W : Type) `{HostOS W, !StableMemory W} := {
  readv_live pid a n w :
    0 < n -> is_Some (remote_byte pid w (u64 a)) ->
    exists bs w', process_vm_readv pid a n w = (SysOk bs, w') /\ bs <> [];
}.

(** A hardened host: /dev/mem cannot be opened, and trying leaves memory as
    it was. *)
Class DevMemDenied (W : Type) `{HostOS W, !StableMemory W} := {
  devmem_denied w : exists e w',
    sys_open "/dev/mem"%string O_RDONLY w = (SysErr e, w') /\
    (forall p x, remote_byte p w' x = remote_byte p w x) /\
    (forall x, own_byte w' x = own_byte w x) /\
    (forall key, getenv key w' = getenv key w);
}.
