(* ===== verification/MockHost.v ===== *)
(** * A concrete host

    An executable instance of the host interface, with its laws: the daemon's
    memory and one remote address space are finite maps, /dev/mem is closed,
    written lines are kept in a log, the clock ticks from a list of readings, and a
    client whose registration has no terminated name loses its connection.
    The witnesses of the theorems run the daemon on it. *)

From S2P Require Import Prelude CStrings HostOS.
From stdpp Require Import prelude gmap strings list.
From Stdlib Require Import ZArith Lia Ascii.
#[local] Open Scope Z_scope.

Record mock := Mock {
  mk_own : gmap Z Z;
  mk_remote : gmap Z Z;
  mk_env : gmap string string;
  mk_clock : list (Z * Z);
  mk_now : Z * Z;
  mk_log : list string;
  mk_map : gmap Z Z;
  mk_clients : list (Z * list Z);
  mk_regions : list kvm_region;
  mk_lines : list string;
}.

Definition mock_init : mock := Mock ∅ ∅ ∅ [] (0, 0) [] ∅ [] [] [].

Definition set_own (f : gmap Z Z -> gmap Z Z) (w : mock) : mock :=
  Mock (f (mk_own w)) (mk_remote w) (mk_env w) (mk_clock w) (mk_now w) (mk_log w) (mk_map w)
    (mk_clients w) (mk_regions w) (mk_lines w).
Definition set_remote (f : gmap Z Z -> gmap Z Z) (w : mock) : mock :=
  Mock (mk_own w) (f (mk_remote w)) (mk_env w) (mk_clock w) (mk_now w) (mk_log w) (mk_map w)
    (mk_clients w) (mk_regions w) (mk_lines w).
Definition set_env (f : gmap string string -> gmap string string) (w : mock) : mock :=
  Mock (mk_own w) (mk_remote w) (f (mk_env w)) (mk_clock w) (mk_now w) (mk_log w) (mk_map w)
    (mk_clients w) (mk_regions w) (mk_lines w).
Definition set_clock (c : list (Z * Z)) (now : Z * Z) (w : mock) : mock :=
  Mock (mk_own w) (mk_remote w) (mk_env w) c now (mk_log w) (mk_map w)
    (mk_clients w) (mk_regions w) (mk_lines w).
Definition set_log (f : list string -> list string) (w : mock) : mock :=
  Mock (mk_own w) (mk_remote w) (mk_env w) (mk_clock w) (mk_now w) (f (mk_log w)) (mk_map w)
    (mk_clients w) (mk_regions w) (mk_lines w).
Definition set_map (f : gmap Z Z -> gmap Z Z) (w : mock) : mock :=
  Mock (mk_own w) (mk_remote w) (mk_env w) (mk_clock w) (mk_now w) (mk_log w) (f (mk_map w))
    (mk_clients w) (mk_regions w) (mk_lines w).
Definition set_clients (c : list (Z * list Z)) (w : mock) : mock :=
  Mock (mk_own w) (mk_remote w) (mk_env w) (mk_clock w) (mk_now w) (mk_log w) (mk_map w)
    c (mk_regions w) (mk_lines w).
Definition add_region (r : kvm_region) (w : mock) : mock :=
  Mock (mk_own w) (mk_remote w) (mk_env w) (mk_clock w) (mk_now w) (mk_log w) (mk_map w)
    (mk_clients w) (mk_regions w ++ [r]) (mk_lines w).

(** The mapped bytes from [a] on, at most [n] of them. *)
Fixpoint remote_prefix (m : gmap Z Z) (a : Z) (n : nat) : list Z :=
  match n with
  | O => []
  | S n' => match m !! u64 a with
            | Some b => u8 b :: remote_prefix m (a + 1) n'
            | None => []
            end
  end.

Fixpoint remote_store (m : gmap Z Z) (a : Z) (bs : list Z) : gmap Z Z :=
  match bs with
  | [] => m
  | b :: bs' => remote_store (<[u64 a := b]> m) (a + 1) bs'
  end.

(** The bytes of a text; the environment also holds the files of the host. *)
Definition bytes_of_string (s : string) : list Z :=
  map (fun c => Z.of_nat (Ascii.nat_of_ascii c)) (String.list_ascii_of_string s).

#[global] Instance mock_os : HostOS mock := {
  own_byte w a := u8 <$> mk_own w !! a;
  own_set a b w := set_own (<[a := b]>) w;
  process_vm_readv pid a n w :=
    match remote_prefix (mk_remote w) a (Z.to_nat n) with
    | [] => (SysErr 14, w)
    | bs => (SysOk bs, w)
    end;
  process_vm_writev pid a bs w :=
    (SysOk (Z.of_nat (length bs)), set_remote (fun m => remote_store m a bs) w);
  sys_open path mode w :=
    match mode with
    | O_RDONLY =>
        if streq path "/dev/mem" then (SysErr 13, w)
        else match mk_env w !! path with
             | Some text => (SysOk 8, set_clients [(8, bytes_of_string text)] w)
             | None => (SysErr 2, w)
             end
    | O_APPEND_CREAT => (SysOk 3, w)
    | O_RDWR => (SysOk 6, w)
    end;
  sys_lseek fd off w := (SysOk tt, w);
  sys_read fd n w := match mk_clients w with
                     | (_, bs) :: _ =>
                         let bs := take (Z.to_nat n) (map u8 bs) in
                         if (n =? 49) && negb (existsb (fun b => b =? 0) (drop 17 bs))
                         then (SysErr 104, w) else (SysOk bs, w)
                     | [] => (SysErr EAGAIN, w)
                     end;
  sys_write fd line w := (SysOk (Z.of_nat (strlen line)), set_log (fun l => l ++ [line]) w);
  sys_close fd w := w;
  sys_socket w := (SysOk 7, w);
  inet_pton h := if streq h "127.0.0.1" then Some 2130706433 else None;
  sys_connect fd a p w := (SysErr 111, w);
  sys_accept fd w := match mk_clients w with
                     | (c, _) :: _ => (SysOk c, w)
                     | [] => (SysErr EAGAIN, w)
                     end;
  unix_socket w := (SysOk 9, w);
  unix_bind fd path w := (SysOk tt, w);
  sys_listen fd n w := (SysOk tt, w);
  popen_w cmd w := (None, w);
  fputs_flush h line w := (true, set_log (fun l => l ++ [line]) w);
  pclose h w := w;
  access_r path w := false;
  popen_lines cmd w := (None, w);
  bpf_obj_get path w := (SysOk 5, w);
  bpf_map_update fd k v w := (0, set_map (<[k := v]>) w);
  kvm_set_user_memory_region fd r w := (SysOk tt, add_region r w);
  getenv k w := mk_env w !! k;
  clock_monotonic w := match mk_clock w with
                       | [] => (Some (mk_now w), w)
                       | t :: rest => (Some t, set_clock rest t w)
                       end;
  sys_rand w := (12345, w);
  usleep us w := w;
  calloc_ok w := (match mk_env w !! "OUT_OF_MEMORY"%string with Some _ => false | None => true end, w);
}.

Lemma remote_prefix_spec m a n :
  (length (remote_prefix m a n) <= n)%nat /\ Forall is_u8 (remote_prefix m a n) /\
  forall i b, remote_prefix m a n !! i = Some b -> u8 <$> m !! u64 (a + Z.of_nat i) = Some b.
Proof.
  revert a. induction n as [|n IH]; intros a; cbn [remote_prefix].
  { split_and!; [done..|]. intros i b Hi. by rewrite lookup_nil in Hi. }
  destruct (m !! u64 a) as [x|] eqn:E; cbn [length]; cycle 1.
  { split_and!; [lia|done|]. intros i b Hi. by rewrite lookup_nil in Hi. }
  destruct (IH (a + 1)) as (H1 & H2 & H3). split_and!; [lia| |].
  - constructor; [ulia | done].
  - intros [|i] b Hi; cbn in Hi.
    + rewrite Z.add_0_r, E. by simplify_eq/=.
    + rewrite <- (H3 i b Hi). do 2 f_equal. f_equal. lia.
Qed.

#[global] Instance mock_readv_transfers : ReadvTransfers mock.
Proof.
  split. intros pid a n w bs w' H. cbn in H.
  destruct (remote_prefix_spec (mk_remote w) a (Z.to_nat n)) as (H1 & H2 & _).
  destruct (remote_prefix _ _ _) as [|b l]; simplify_eq. split; [|done]. cbn in *. lia.
Qed.

#[global] Program Instance mock_stable_memory : StableMemory mock := {
  remote_byte pid w x := u8 <$> mk_remote w !! x;
}.
Next Obligation.
  intros pid a n w bs w' H i b Hi. cbn in H.
  destruct (remote_prefix_spec (mk_remote w) a (Z.to_nat n)) as (_ & _ & H3).
  destruct (remote_prefix _ _ _) as [|b0 l]; simplify_eq. by apply H3.
Qed.
Next Obligation.
  intros pid a n w r w' H. cbn in H. by destruct (remote_prefix _ _ _); simplify_eq.
Qed.
Next Obligation. done. Qed.

#[global] Instance mock_readv_live : ReadvLive mock.
Proof.
  split. intros pid a n w Hn [b Hb]. cbn in Hb |- *.
  destruct (Z.to_nat n) as [|k] eqn:E; [lia|]. cbn [remote_prefix].
  destruct (mk_remote w !! u64 a) as [x|]; [|done]. by eexists _, _.
Qed.

#[global] Instance mock_devmem_denied : DevMemDenied mock.
Proof. split. intros w. by exists 13, w. Qed.

#[global] Instance mock_own_memory : OwnMemory mock.
Proof.
  split.
  - intros a b w Hb _. cbn. rewrite lookup_insert_eq. cbn. f_equal. ulia.
  - intros a b w x Hx. cbn. by rewrite lookup_insert_ne.
Qed.

(** ** Building guest memory *)

(** Little-endian words placed in a remote address space. *)
Fixpoint poke (addr : Z) (bs : list Z) (m : gmap Z Z) : gmap Z Z :=
  match bs with
  | [] => m
  | b :: bs' => poke (addr + 1) bs' (<[addr := b]> m)
  end.

Definition poke64 (addr v : Z) : gmap Z Z -> gmap Z Z := poke addr (le_encode 8 v).

(** [n] zero bytes from [addr] on. *)
Definition zeros (addr : Z) (n : nat) : gmap Z Z -> gmap Z Z := poke addr (replicate n 0).
