(* ===== verification/VmiMemory.v ===== *)
(** * Guest memory access (release_payload/src/vmi/src/memory.c)

    The introspection session, the lookup of guest-physical addresses in the
    memory slots, reads and writes of guest-physical memory (through the
    daemon's own mapping, through another process, or through /dev/mem), the
    four-level page walk and reads of guest-virtual memory.

    A C buffer of [size] bytes is the list of its bytes; a function that fills
    a caller's buffer returns its return code ([true] is 0, [false] is -1) and
    the buffer it leaves, also when it fails half-way. *)

From S2P Require Import Prelude CStrings HostOS.
From stdpp Require Import prelude strings list.
From Stdlib Require Import ZArith Lia.
#[local] Open Scope Z_scope.

(** ** The session (include/sentinel_vmi.h) *)

Definition VMI_PAGE_SIZE : Z := 4096.
Definition VMI_MEMSLOT_F_REMOTE_PROCESS : Z := 2147483648.

Record vmi_memslot := Memslot {
  guest_phys_addr : Z;
  memory_size : Z;
  userspace_addr : Z;
  slot : Z;
  flags : Z;
}.

Record vmi_session := Session {
  kvm_fd : Z;
  vm_fd : Z;
  vcpu_fds : list Z;
  nr_vcpus : Z;
  memslots : list vmi_memslot;
  qemu_pid : Z;
  control_fd : Z;
  syscall_table_gpa : Z;
  syscall_table_gva : Z;
  npt_armed : bool;
  kaslr_offset : Z;
  init_task_addr : Z;
  kernel_pgd : Z;
}.

(** ** Page-table constants *)

Definition PT_ENTRY_SIZE : Z := 8.
Definition PT_PRESENT : Z := 1.
Definition PT_PAGESIZE : Z := 128.
Definition PT_ADDR_MASK : Z := 0x000FFFFFFFFFF000.
Definition VMI_IO_RETRY_MAX : nat := 3.

Definition PML4_INDEX (va : Z) : Z := Z.land (Z.shiftr va 39) 511.
Definition PDPT_INDEX (va : Z) : Z := Z.land (Z.shiftr va 30) 511.
Definition PD_INDEX (va : Z) : Z := Z.land (Z.shiftr va 21) 511.
Definition PT_INDEX (va : Z) : Z := Z.land (Z.shiftr va 12) 511.
Definition PAGE_OFFSET (va : Z) : Z := Z.land va 4095.

(** ** Slots *)

Definition in_slot (m : vmi_memslot) (gpa : Z) : bool :=
  (guest_phys_addr m <=? gpa) &&
  (gpa <? u64 (guest_phys_addr m + memory_size m)).

Fixpoint find_memslot (slots : list vmi_memslot) (gpa : Z)
  : option (vmi_memslot * Z) :=
  match slots with
  | [] => None
  | m :: rest =>
      if in_slot m gpa then Some (m, u64 (gpa - guest_phys_addr m))
      else find_memslot rest gpa
  end.

Definition is_transient_errno (err : Z) : bool :=
  (err =? EINTR) || (err =? EAGAIN) || (err =? EBUSY) || (err =? ETIMEDOUT).

Definition slot_remote (m : vmi_memslot) : bool :=
  negb (Z.land (flags m) VMI_MEMSLOT_F_REMOTE_PROCESS =? 0).

Section memory.
  Context {W : Type} `{OS : HostOS W}.
  Implicit Types (s : vmi_session) (w : W).

(** ** Access to another process *)

(** One iteration per system call; [4 * size + 4] calls are enough, because a
    call either transfers a byte or uses up one of the retries. *)
Fixpoint read_remote_loop (fuel : nat) s (remote_addr : Z) (size done retries : nat)
    (buf : list Z) : M W (bool * list Z) :=
  if (done <? size)%nat then
    match fuel with
    | O => stuck
    | S fuel' =>
        r ← lift (process_vm_readv (qemu_pid s) (u64 (remote_addr + Z.of_nat done))
                    (Z.of_nat (size - done)));
        match r with
        | SysErr e =>
            if is_transient_errno e && (retries <? VMI_IO_RETRY_MAX)%nat
            then read_remote_loop fuel' s remote_addr size done (S retries) buf
            else mret (false, buf)
        | SysOk bs =>
            if (length bs =? 0)%nat then mret (false, buf)
            else read_remote_loop fuel' s remote_addr size (done + length bs) 0
                   (blit done bs buf)
        end
    end
  else mret (true, buf).

Definition read_remote_process s (remote_addr : Z) (buf : list Z) : M W (bool * list Z) :=
  let size := length buf in
  if (qemu_pid s <=? 0) || (size =? 0)%nat then mret (false, buf)
  else read_remote_loop (4 * size + 4) s remote_addr size 0 0 buf.

Fixpoint write_remote_loop (fuel : nat) s (remote_addr : Z) (data : list Z)
    (done retries : nat) : M W bool :=
  if (done <? length data)%nat then
    match fuel with
    | O => stuck
    | S fuel' =>
        r ← lift (process_vm_writev (qemu_pid s) (u64 (remote_addr + Z.of_nat done))
                    (drop done data));
        match r with
        | SysErr e =>
            if is_transient_errno e && (retries <? VMI_IO_RETRY_MAX)%nat
            then write_remote_loop fuel' s remote_addr data done (S retries)
            else mret false
        | SysOk n =>
            if n =? 0 then mret false
            else write_remote_loop fuel' s remote_addr data (done + Z.to_nat n) 0
        end
    end
  else mret true.

Definition write_remote_process s (remote_addr : Z) (data : list Z) : M W bool :=
  if (qemu_pid s <=? 0) || (length data =? 0)%nat then mret false
  else write_remote_loop (4 * length data + 4) s remote_addr data 0 0.

(** ** Access to the daemon's own mapping: [memcpy] *)

Fixpoint own_load (w : W) (addr : Z) (n : nat) : option (list Z) :=
  match n with
  | O => Some []
  | S n' => match own_byte w addr, own_load w (addr + 1) n' with
            | Some b, Some bs => Some (b :: bs)
            | _, _ => None
            end
  end.

Definition memcpy_in (addr : Z) (n : nat) : M W (list Z) := fun w =>
  match own_load w addr n with Some bs => Some (bs, w) | None => None end.

Fixpoint memcpy_out (addr : Z) (bs : list Z) : M W unit :=
  match bs with
  | [] => mret tt
  | b :: bs' =>
      mapped ← gets (fun w => own_byte w addr);
      match mapped with
      | None => stuck
      | Some _ => _ ← modify (own_set addr b); memcpy_out (addr + 1) bs'
      end
  end.

(** ** Guest-physical memory through the slots *)

Fixpoint read_via_memslots_loop (fuel : nat) s (gpa : Z) (size done : nat)
    (buf : list Z) : M W (bool * list Z) :=
  if (done <? size)%nat then
    match fuel with
    | O => stuck
    | S fuel' =>
        match find_memslot (memslots s) (u64 (gpa + Z.of_nat done)) with
        | None => mret (false, buf)
        | Some (m, offset) =>
            let available := u64 (memory_size m - offset) in
            let chunk := Z.to_nat (Z.min (Z.of_nat (size - done)) available) in
            let host_addr := u64 (userspace_addr m + offset) in
            if slot_remote m then
              r ← read_remote_process s host_addr (take chunk (drop done buf));
              let buf' := blit done r.2 buf in
              if negb r.1 then mret (false, buf')
              else read_via_memslots_loop fuel' s gpa size (done + chunk) buf'
            else
              bs ← memcpy_in host_addr chunk;
              read_via_memslots_loop fuel' s gpa size (done + chunk) (blit done bs buf)
        end
    end
  else mret (true, buf).

Definition read_via_memslots s (gpa : Z) (buf : list Z) : M W (bool * list Z) :=
  if (length buf =? 0)%nat || (length (memslots s) =? 0)%nat then mret (false, buf)
  else read_via_memslots_loop (length buf) s gpa (length buf) 0 buf.

Fixpoint write_via_memslots_loop (fuel : nat) s (gpa : Z) (data : list Z) (done : nat)
    : M W bool :=
  if (done <? length data)%nat then
    match fuel with
    | O => stuck
    | S fuel' =>
        match find_memslot (memslots s) (u64 (gpa + Z.of_nat done)) with
        | None => mret false
        | Some (m, offset) =>
            let available := u64 (memory_size m - offset) in
            let chunk := Z.to_nat (Z.min (Z.of_nat (length data - done)) available) in
            let host_addr := u64 (userspace_addr m + offset) in
            if slot_remote m then
              ok ← write_remote_process s host_addr (take chunk (drop done data));
              if negb ok then mret false
              else write_via_memslots_loop fuel' s gpa data (done + chunk)
            else
              _ ← memcpy_out host_addr (take chunk (drop done data));
              write_via_memslots_loop fuel' s gpa data (done + chunk)
        end
    end
  else mret true.

Definition write_via_memslots s (gpa : Z) (data : list Z) : M W bool :=
  if (length data =? 0)%nat || (length (memslots s) =? 0)%nat then mret false
  else write_via_memslots_loop (length data) s gpa data 0.

(** ** The /dev/mem fallback *)

Fixpoint read_devmem_loop (fuel : nat) (fd : Z) (size done retries : nat)
    (buf : list Z) : M W (bool * list Z) :=
  if (done <? size)%nat then
    match fuel with
    | O => stuck
    | S fuel' =>
        r ← lift (sys_read fd (Z.of_nat (size - done)));
        match r with
        | SysErr e =>
            if is_transient_errno e && (retries <? VMI_IO_RETRY_MAX)%nat
            then read_devmem_loop fuel' fd size done (S retries) buf
            else _ ← modify (sys_close fd); mret (false, buf)
        | SysOk bs =>
            if (length bs =? 0)%nat then _ ← modify (sys_close fd); mret (false, buf)
            else read_devmem_loop fuel' fd size (done + length bs) 0 (blit done bs buf)
        end
    end
  else _ ← modify (sys_close fd); mret (true, buf).

Definition read_via_devmem (gpa : Z) (buf : list Z) : M W (bool * list Z) :=
  r ← lift (sys_open "/dev/mem"%string O_RDONLY);
  match r with
  | SysErr _ => mret (false, buf)
  | SysOk fd =>
      k ← lift (sys_lseek fd (s64 gpa));
      match k with
      | SysErr _ => _ ← modify (sys_close fd); mret (false, buf)
      | SysOk _ => read_devmem_loop (4 * length buf + 4) fd (length buf) 0 0 buf
      end
  end.

(** ** Public entry points *)

Definition vmi_read_physical s (gpa : Z) (buf : list Z) : M W (bool * list Z) :=
  if (length buf =? 0)%nat then mret (false, buf)
  else
    r ← read_via_memslots s gpa buf;
    if r.1 : bool then mret (true, r.2)
    else read_via_devmem gpa r.2.

Definition vmi_write_physical s (gpa : Z) (data : list Z) : M W bool :=
  if (length data =? 0)%nat then mret false
  else write_via_memslots s gpa data.

(** [vmi_read_physical(s, addr, &entry, sizeof(entry))] of a 64-bit entry. *)
Definition read_entry s (addr : Z) : M W (option Z) :=
  r ← vmi_read_physical s addr (replicate 8 0);
  mret (if r.1 : bool then Some (le_decode r.2) else None).

Definition vmi_gva_to_gpa s (cr3 gva : Z) : M W (option Z) :=
  let pml4_base := Z.land cr3 PT_ADDR_MASK in
  e4 ← read_entry s (u64 (pml4_base + PML4_INDEX gva * PT_ENTRY_SIZE));
  match e4 with
  | None => mret None
  | Some entry =>
    if Z.land entry PT_PRESENT =? 0 then mret None else
    let pdpt_base := Z.land entry PT_ADDR_MASK in
    e3 ← read_entry s (u64 (pdpt_base + PDPT_INDEX gva * PT_ENTRY_SIZE));
    match e3 with
    | None => mret None
    | Some entry =>
      if Z.land entry PT_PRESENT =? 0 then mret None else
      if negb (Z.land entry PT_PAGESIZE =? 0) then
        mret (Some (Z.lor (Z.land entry 0x000FFFFFC0000000) (Z.land gva 0x3FFFFFFF)))
      else
      let pd_base := Z.land entry PT_ADDR_MASK in
      e2 ← read_entry s (u64 (pd_base + PD_INDEX gva * PT_ENTRY_SIZE));
      match e2 with
      | None => mret None
      | Some entry =>
        if Z.land entry PT_PRESENT =? 0 then mret None else
        if negb (Z.land entry PT_PAGESIZE =? 0) then
          mret (Some (Z.lor (Z.land entry 0x000FFFFFFFE00000) (Z.land gva 0x1FFFFF)))
        else
        let pt_base := Z.land entry PT_ADDR_MASK in
        e1 ← read_entry s (u64 (pt_base + PT_INDEX gva * PT_ENTRY_SIZE));
        match e1 with
        | None => mret None
        | Some entry =>
          if Z.land entry PT_PRESENT =? 0 then mret None else
          mret (Some (Z.lor (Z.land entry PT_ADDR_MASK) (PAGE_OFFSET gva)))
        end
      end
    end
  end.

(** One page per iteration, so [size] iterations are enough. *)
Fixpoint read_virtual_loop (fuel : nat) s (cr3 gva : Z) (size bytes_read : nat)
    (out : list Z) : M W (bool * list Z) :=
  if (bytes_read <? size)%nat then
    match fuel with
    | O => stuck
    | S fuel' =>
        let page_remaining := VMI_PAGE_SIZE - Z.land gva (VMI_PAGE_SIZE - 1) in
        let chunk := Z.to_nat (Z.min (Z.of_nat (size - bytes_read)) page_remaining) in
        g ← vmi_gva_to_gpa s cr3 gva;
        match g with
        | None => mret (false, out)
        | Some gpa =>
            r ← vmi_read_physical s gpa (take chunk (drop bytes_read out));
            let out' := blit bytes_read r.2 out in
            if negb r.1 then mret (false, out')
            else read_virtual_loop fuel' s cr3 (u64 (gva + Z.of_nat chunk)) size
                   (bytes_read + chunk) out'
        end
    end
  else mret (true, out).

Definition vmi_read_virtual s (cr3 gva : Z) (buf : list Z) : M W (bool * list Z) :=
  if (length buf =? 0)%nat then mret (false, buf)
  else read_virtual_loop (length buf) s cr3 gva (length buf) 0 buf.
End memory.
