(* ===== verification/VmiMemoryProofs.v ===== *)
(** * Correctness of guest memory access

    Termination and definedness of every loop of memory.c, soundness of reads
    against a byte-level view of guest-physical memory, the page walk against
    an architectural reference, and reads of guest-virtual memory. *)

From S2P Require Import Prelude CStrings HostOS VmiMemory.
From stdpp Require Import prelude strings list.
From Stdlib Require Import ZArith Lia.
#[local] Open Scope Z_scope.

(** The first [n] bytes of [buf] are what [f] says. *)
Definition prefix_ok (f : nat -> option Z) (n : nat) (buf : list Z) : Prop :=
  forall i, (i < n)%nat -> exists b, buf !! i = Some b /\ f i = Some b.

Lemma prefix_ok_blit f n buf bs :
  prefix_ok f n buf -> (n + length bs <= length buf)%nat ->
  (forall i b, bs !! i = Some b -> f (n + i)%nat = Some b) ->
  prefix_ok f (n + length bs) (blit n bs buf).
Proof.
  intros Hpre Hlen Hnew i Hi. destruct (decide (i < n)%nat) as [Hlt|Hge].
  - destruct (Hpre i Hlt) as (b & Hb & Hf). exists b. split; [|done].
    by rewrite blit_lookup_old by lia.
  - destruct (lookup_lt_is_Some_2 bs (i - n)) as [b Hb]; [lia|].
    exists b. replace i with (n + (i - n))%nat by lia. split.
    + by apply blit_lookup_new.
    + by apply Hnew.
Qed.

Lemma prefix_ok_weaken f n m buf : (m <= n)%nat -> prefix_ok f n buf -> prefix_ok f m buf.
Proof. intros Hle H i Hi. apply H. lia. Qed.

Lemma prefix_ok_ext f g n buf :
  (forall i, (i < n)%nat -> f i = g i) -> prefix_ok f n buf -> prefix_ok g n buf.
Proof. intros He H i Hi. rewrite <- He by done. by apply H. Qed.

Lemma length_take_drop {A} n m (l : list A) :
  (m + n <= length l)%nat -> length (take n (drop m l)) = n.
Proof. intros. rewrite length_take, length_drop. lia. Qed.

(** ** Slots *)

(** A slot that [kvmi_setup] or a caller can register: 64-bit fields and no
    wrap-around of the guest range or of the host mapping. *)
Record wf_slot (m : vmi_memslot) : Prop := {
  ws_gpa : 0 <= guest_phys_addr m;
  ws_size : 0 < memory_size m;
  ws_gpa_end : guest_phys_addr m + memory_size m < 18446744073709551616;
  ws_host : 0 <= userspace_addr m;
  ws_host_end : userspace_addr m + memory_size m < 18446744073709551616;
}.

Lemma find_memslot_Some slots gpa m off :
  Forall wf_slot slots -> find_memslot slots gpa = Some (m, off) ->
  m ∈ slots /\ off = gpa - guest_phys_addr m /\ 0 <= off < memory_size m.
Proof.
  induction 1 as [|m' rest Hm' _ IH]; cbn [find_memslot]; intros Hf; [done|].
  destruct (in_slot m' gpa) eqn:E.
  - unfold in_slot in E. boolify. destruct Hm'. simplify_eq.
    split; [constructor|]. ulia.
  - destruct (IH Hf) as (? & ? & ?). split; [by constructor | done].
Qed.

(** Moving inside the slot that was found finds the same slot, as long as no
    earlier slot overlaps it. *)
Definition disjoint_slots (slots : list vmi_memslot) : Prop :=
  forall i j m m' g, slots !! i = Some m -> slots !! j = Some m' ->
    in_slot m g = true -> in_slot m' g = true -> i = j.

Lemma find_memslot_lookup slots gpa m off :
  find_memslot slots gpa = Some (m, off) ->
  exists i, slots !! i = Some m /\ in_slot m gpa = true /\
            off = u64 (gpa - guest_phys_addr m).
Proof.
  induction slots as [|m' rest IH]; cbn [find_memslot]; intros Hf; [done|].
  destruct (in_slot m' gpa) eqn:E; simplify_eq.
  - by exists 0%nat.
  - destruct (IH Hf) as (i & ? & ? & ?). by exists (S i).
Qed.

Lemma find_memslot_None slots g :
  find_memslot slots g = None -> forall i m, slots !! i = Some m -> in_slot m g = false.
Proof.
  induction slots as [|m' rest IH]; cbn [find_memslot]; intros Hf i m Hi; [done|].
  destruct (in_slot m' g) eqn:E; [done|].
  destruct i as [|i]; [by simplify_eq/= | by apply (IH Hf i)].
Qed.

Lemma find_memslot_in slots g i m :
  disjoint_slots slots -> slots !! i = Some m -> in_slot m g = true ->
  find_memslot slots g = Some (m, u64 (g - guest_phys_addr m)).
Proof.
  intros Hd Hi Hin. destruct (find_memslot slots g) as [[m' off]|] eqn:E.
  - destruct (find_memslot_lookup _ _ _ _ E) as (j & Hj & Hin' & ->).
    pose proof (Hd i j m m' g Hi Hj Hin Hin'). by simplify_eq.
  - by rewrite (find_memslot_None _ _ E i m Hi) in Hin.
Qed.

Section spec.
Context {W : Type} `{OS : HostOS W}.
Implicit Types (s : vmi_session) (w : W).

(** ** Termination: the loops end whatever the kernel answers *)

Lemma read_remote_loop_total fuel s a size done retries buf w :
  (4 * (size - done) + (VMI_IO_RETRY_MAX - retries) < fuel)%nat ->
  wp (read_remote_loop fuel s a size done retries buf) w
     (fun r _ => length r.2 = length buf).
Proof.
  unfold VMI_IO_RETRY_MAX. revert done retries buf w.
  induction fuel as [|fuel IH]; intros done retries buf w Hf; [lia|].
  cbn [read_remote_loop]. wp_step; [|by apply wp_ret]. boolify. do 2 wp_step.
  destruct (process_vm_readv _ _ _ _) as [[bs|e] w']; cbn [fst snd].
  - wp_step; boolify; [by apply wp_ret|].
    eapply wp_mono; [apply IH; lia|]. intros r w2 Hr. by rewrite Hr, length_blit.
  - unfold VMI_IO_RETRY_MAX. wp_step; [|by apply wp_ret]. boolify. apply IH. lia.
Qed.

Lemma read_remote_total s a buf w :
  wp (read_remote_process s a buf) w (fun r _ => length r.2 = length buf).
Proof.
  unfold read_remote_process. wp_step; [by apply wp_ret|].
  apply read_remote_loop_total. unfold VMI_IO_RETRY_MAX. lia.
Qed.

Lemma write_remote_loop_total fuel s a data done retries w :
  (4 * (length data - done) + (VMI_IO_RETRY_MAX - retries) < fuel)%nat ->
  (forall pid x bs w n w', process_vm_writev pid x bs w = (SysOk n, w') -> 0 <= n) ->
  wp (write_remote_loop fuel s a data done retries) w (fun _ _ => True).
Proof.
  unfold VMI_IO_RETRY_MAX. intros Hf Hn. revert done retries w Hf.
  induction fuel as [|fuel IH]; intros done retries w Hf; [lia|].
  cbn [write_remote_loop]. wp_step; [|by apply wp_ret]. boolify. do 2 wp_step.
  destruct (process_vm_writev _ _ _ _) as [[n|e] w'] eqn:Hw; cbn [fst snd].
  - apply Hn in Hw. wp_step; boolify; [by apply wp_ret|]. apply IH. lia.
  - unfold VMI_IO_RETRY_MAX. wp_step; [|by apply wp_ret]. boolify. apply IH. lia.
Qed.

(** ** Soundness against the byte-level view *)

Context `{RT : !ReadvTransfers W} `{SM : !StableMemory W}.

(** The same memory, and the same environment variables. *)
Definition same_mem w w' : Prop :=
  (forall p x, remote_byte p w' x = remote_byte p w x) /\
  (forall x, own_byte w' x = own_byte w x) /\
  (forall key, getenv key w' = getenv key w).

#[global] Instance same_mem_preorder : PreOrder same_mem.
Proof.
  split.
  - done.
  - intros w1 w2 w3 (H1 & H2 & H5) (H3 & H4 & H6). split_and!; intros.
    + by rewrite H3, H1.
    + by rewrite H4, H2.
    + by rewrite H6, H5.
Qed.

(** The byte of guest-physical memory at [gpa], as the slots place it. *)
Definition gpa_byte s w (gpa : Z) : option Z :=
  match find_memslot (memslots s) gpa with
  | None => None
  | Some (m, off) =>
      let h := u64 (userspace_addr m + off) in
      if slot_remote m then remote_byte (qemu_pid s) w h else own_byte w h
  end.

Lemma gpa_byte_same s w w' g : same_mem w w' -> gpa_byte s w' g = gpa_byte s w g.
Proof.
  intros (H1 & H2 & _). unfold gpa_byte. destruct (find_memslot _ _) as [[m off]|]; [|done].
  by rewrite H1, H2.
Qed.

(** What a session must satisfy for its slots to be readable: slots are
    well-formed, do not overlap, and local ones are mapped. *)
Record readable s w : Prop := {
  rd_wf : Forall wf_slot (memslots s);
  rd_disjoint : disjoint_slots (memslots s);
  rd_mapped m off : m ∈ memslots s -> slot_remote m = false ->
    0 <= off < memory_size m -> is_Some (own_byte w (userspace_addr m + off));
}.

Lemma readable_same s w w' : same_mem w w' -> readable s w -> readable s w'.
Proof.
  intros (_ & H & _) [Hwf Hd Hm]. split; [done..|]. intros m off Hin Hr Ho.
  rewrite H. by apply Hm.
Qed.

(** The remote process's memory from address [a] on. *)
Definition remote_view s w (a : Z) (i : nat) : option Z :=
  remote_byte (qemu_pid s) w (u64 (a + Z.of_nat i)).

Lemma remote_view_same s w w' a i : same_mem w w' -> remote_view s w' a i = remote_view s w a i.
Proof. intros [H _]. apply H. Qed.

Lemma remote_prefix_same s w w' a n buf :
  same_mem w w' ->
  prefix_ok (remote_view s w' a) n buf <-> prefix_ok (remote_view s w a) n buf.
Proof.
  intros H. split; apply prefix_ok_ext; intros i _; by rewrite (remote_view_same s w w').
Qed.

Lemma read_remote_loop_sound fuel s a size done retries buf w :
  (4 * (size - done) + (VMI_IO_RETRY_MAX - retries) < fuel)%nat ->
  (done <= size)%nat -> length buf = size ->
  prefix_ok (remote_view s w a) done buf ->
  wp (read_remote_loop fuel s a size done retries buf) w
     (fun r w' => same_mem w w' /\ (r.1 = true -> prefix_ok (remote_view s w a) size r.2)).
Proof.
  unfold VMI_IO_RETRY_MAX. revert done retries buf w.
  induction fuel as [|fuel IH]; intros done retries buf w Hf Hd Hl Hp; [lia|].
  cbn [read_remote_loop]. wp_step; boolify; cycle 1.
  { apply wp_ret. replace size with done by lia. done. }
  do 2 wp_step. destruct (process_vm_readv _ _ _ _) as [r w'] eqn:Hr; cbn [fst snd].
  assert (same_mem w w') as Hst by (eapply readv_stable; done). destruct r as [bs|e].
  - destruct (readv_transfer _ _ _ _ _ _ Hr) as [Hn _].
    wp_step; boolify; [by apply wp_ret|].
    eapply wp_mono; [apply IH; [lia|lia|by rewrite length_blit|]|].
    + apply prefix_ok_blit; [|lia|].
      * by rewrite (remote_prefix_same s w w').
      * intros i b Hb. rewrite (remote_view_same s w w') by done. unfold remote_view.
        rewrite <- (readv_content _ _ _ _ _ _ Hr i b Hb), u64_add_l. do 2 f_equal. lia.
    + intros r w2 [Hs Hok]. split; [by transitivity w'|]. intros Hr1.
      rewrite <- (remote_prefix_same s w w') by done. by apply Hok.
  - unfold VMI_IO_RETRY_MAX. wp_step; [|by apply wp_ret]. boolify.
    eapply wp_mono; [apply IH; [lia..|]|].
    + by rewrite (remote_prefix_same s w w').
    + intros r w2 [Hs Hok]. split; [by transitivity w'|]. intros Hr1.
      rewrite <- (remote_prefix_same s w w') by done. by apply Hok.
Qed.

Lemma read_remote_sound s a buf w :
  wp (read_remote_process s a buf) w
     (fun r w' => length r.2 = length buf /\ same_mem w w' /\
        (r.1 = true -> prefix_ok (remote_view s w a) (length buf) r.2)).
Proof.
  destruct (read_remote_total s a buf w) as (r & w' & Hr & Hlen).
  exists r, w'. split; [done|]. split; [done|]. revert Hr.
  unfold read_remote_process. destruct (_ || _)%bool eqn:E.
  - intros Hr. unfold mret, M_ret in Hr. by simplify_eq.
  - intros Hr. destruct (read_remote_loop_sound (4 * length buf + 4) s a (length buf) 0 0 buf w)
      as (r2 & w2 & Hr2 & HQ);
      [unfold VMI_IO_RETRY_MAX; lia | lia | done | intros i; lia |].
    rewrite Hr2 in Hr. by simplify_eq.
Qed.

Lemma own_load_ok w addr n :
  (forall i, 0 <= i < Z.of_nat n -> is_Some (own_byte w (addr + i))) ->
  exists bs, own_load w addr n = Some bs /\ length bs = n /\
    forall i b, bs !! i = Some b -> own_byte w (addr + Z.of_nat i) = Some b.
Proof.
  revert addr. induction n as [|n IH]; intros addr Hm; cbn [own_load].
  { by exists []. }
  destruct (Hm 0 ltac:(lia)) as [b Hb]. rewrite Z.add_0_r in Hb.
  destruct (IH (addr + 1)) as (bs & -> & Hlen & Hbs).
  { intros i Hi. rewrite <- Z.add_assoc. apply Hm. lia. }
  rewrite Hb. exists (b :: bs). split; [done|]. split; [by cbn; rewrite Hlen|].
  intros [|i] b' Hi; cbn in Hi; simplify_eq.
  - by rewrite Z.add_0_r.
  - apply Hbs in Hi. rewrite <- Hi. f_equal. lia.
Qed.

Definition phys_view s w (gpa : Z) (i : nat) : option Z :=
  gpa_byte s w (u64 (gpa + Z.of_nat i)).

Lemma phys_prefix_same s w w' gpa n buf :
  same_mem w w' ->
  prefix_ok (phys_view s w' gpa) n buf <-> prefix_ok (phys_view s w gpa) n buf.
Proof.
  intros H. unfold phys_view.
  split; apply prefix_ok_ext; intros i _; by rewrite (gpa_byte_same s w w').
Qed.

(** The bytes of guest memory that lie in the slot found at [g]. *)
Lemma phys_view_slot s w gpa m off done i :
  readable s w ->
  find_memslot (memslots s) (u64 (gpa + Z.of_nat done)) = Some (m, off) ->
  Z.of_nat i < memory_size m - off ->
  phys_view s w gpa (done + i) =
    if slot_remote m then remote_view s w (u64 (userspace_addr m + off)) i
    else own_byte w (u64 (userspace_addr m + off) + Z.of_nat i).
Proof.
  intros [Hwf Hdj _] Hf Hi.
  destruct (find_memslot_Some _ _ _ _ Hwf Hf) as (Hm & Hoff & Hr).
  destruct (find_memslot_lookup _ _ _ _ Hf) as (j & Hj & Hin & _).
  rewrite Forall_forall in Hwf. pose proof (Hwf m Hm) as [].
  assert (u64 (gpa + Z.of_nat (done + i)) = guest_phys_addr m + off + Z.of_nat i) as Hg.
  { rewrite Nat2Z.inj_add, Z.add_assoc, <- u64_add_l. ulia. }
  unfold phys_view, gpa_byte. rewrite Hg.
  rewrite (find_memslot_in _ _ j m Hdj Hj) by (unfold in_slot; apply andb_true_intro; ulia).
  unfold remote_view. rewrite u64_add_l.
  replace (u64 (userspace_addr m + off)) with (userspace_addr m + off) by ulia.
  replace (userspace_addr m + u64 (guest_phys_addr m + off + Z.of_nat i - guest_phys_addr m))
    with (userspace_addr m + off + Z.of_nat i) by ulia.
  destruct (slot_remote m); [done|]. f_equal. ulia.
Qed.

Lemma read_chunk_bounds s w gpa m off done size :
  readable s w -> (done < size)%nat ->
  find_memslot (memslots s) (u64 (gpa + Z.of_nat done)) = Some (m, off) ->
  let chunk := Z.to_nat (Z.min (Z.of_nat (size - done)) (u64 (memory_size m - off))) in
  (0 < chunk)%nat /\ (done + chunk <= size)%nat /\ Z.of_nat chunk <= memory_size m - off.
Proof.
  intros [Hwf _ _] Hlt Hf. destruct (find_memslot_Some _ _ _ _ Hwf Hf) as (Hm & _ & Hr).
  rewrite Forall_forall in Hwf. pose proof (Hwf m Hm) as [].
  replace (u64 (memory_size m - off)) with (memory_size m - off) by ulia. lia.
Qed.

Lemma memcpy_in_sound s w gpa m off done chunk :
  readable s w -> slot_remote m = false ->
  find_memslot (memslots s) (u64 (gpa + Z.of_nat done)) = Some (m, off) ->
  Z.of_nat chunk <= memory_size m - off ->
  wp (memcpy_in (u64 (userspace_addr m + off)) chunk) w
     (fun bs w' => w' = w /\ length bs = chunk /\
        forall i b, bs !! i = Some b -> phys_view s w gpa (done + i) = Some b).
Proof.
  intros Hrd Hnr Hf Hc. pose proof Hrd as [Hwf _ Hmap].
  destruct (find_memslot_Some _ _ _ _ Hwf Hf) as (Hm & _ & Ho).
  rewrite Forall_forall in Hwf. pose proof (Hwf m Hm) as [].
  assert (u64 (userspace_addr m + off) = userspace_addr m + off) as Hh by ulia.
  destruct (own_load_ok w (u64 (userspace_addr m + off)) chunk) as (bs & Hl & Hlen & Hbs).
  { intros i Hi. rewrite Hh, <- Z.add_assoc. apply Hmap; [done..|lia]. }
  exists bs, w. unfold memcpy_in. rewrite Hl. repeat split; [done|].
  intros i b Hb. pose proof (lookup_lt_Some _ _ _ Hb).
  rewrite (phys_view_slot s w gpa m off) by (done || lia). rewrite Hnr. by apply Hbs.
Qed.

Lemma read_via_memslots_loop_sound fuel s gpa size done buf w :
  readable s w -> (size - done <= fuel)%nat -> (done <= size)%nat -> length buf = size ->
  prefix_ok (phys_view s w gpa) done buf ->
  wp (read_via_memslots_loop fuel s gpa size done buf) w
     (fun r w' => length r.2 = size /\ same_mem w w' /\
        (r.1 = true -> prefix_ok (phys_view s w gpa) size r.2)).
Proof.
  revert done buf w. induction fuel as [|fuel IH]; intros done buf w Hrd Hf Hd Hl Hp.
  { cbn [read_via_memslots_loop]. wp_step; boolify; [lia|]. apply wp_ret. assert (done = size) as -> by lia. done. }
  cbn [read_via_memslots_loop]. wp_step; boolify; cycle 1.
  { apply wp_ret. assert (done = size) as -> by lia. done. }
  destruct (find_memslot _ _) as [[m off]|] eqn:Hfm; [|by apply wp_ret].
  destruct (read_chunk_bounds s w gpa m off done size Hrd ltac:(lia) Hfm) as (Hc0 & Hc1 & Hc2).
  set (chunk := Z.to_nat _) in *. destruct (slot_remote m) eqn:Hr; wp_step.
  - eapply wp_mono; [apply read_remote_sound|]. intros [ok bs] w1 (Hlb & Hs & Hok).
    cbn [fst snd] in *. rewrite length_take_drop in Hlb, Hok by lia.
    destruct ok; cbn [negb]; [|apply wp_ret; cbn; by rewrite length_blit].
    rewrite <- Hlb. rewrite <- Hlb in Hc0, Hc1, Hc2, Hok. specialize (Hok eq_refl).
    eapply wp_mono; [apply IH; [by eapply readable_same|lia|lia|by rewrite length_blit|]|].
    + rewrite (phys_prefix_same s w w1) by done. apply prefix_ok_blit; [done|lia|].
      intros i b Hb. pose proof (lookup_lt_Some _ _ _ Hb) as Hi.
      rewrite (phys_view_slot s w gpa m off) by (done || lia). rewrite Hr.
      destruct (Hok i Hi) as (b' & ? & ?). congruence.
    + intros r w2 (? & Hs2 & Hok2). split_and!; [done|by transitivity w1|].
      intros Hr1. rewrite <- (phys_prefix_same s w w1) by done. by apply Hok2.
  - eapply wp_mono; [by apply (memcpy_in_sound s w gpa m off done)|].
    intros bs w1 (-> & Hlb & Hbs). rewrite <- Hlb. rewrite <- Hlb in Hc0, Hc1.
    apply IH; [done|lia|lia|by rewrite length_blit|]. by apply prefix_ok_blit; [|lia|].
Qed.

Lemma read_via_memslots_sound s gpa buf w :
  readable s w ->
  wp (read_via_memslots s gpa buf) w
     (fun r w' => length r.2 = length buf /\ same_mem w w' /\
        (r.1 = true -> prefix_ok (phys_view s w gpa) (length buf) r.2)).
Proof.
  intros Hrd. unfold read_via_memslots. wp_step; [by apply wp_ret|].
  apply read_via_memslots_loop_sound; [done|lia|lia|done|]. intros i. lia.
Qed.

(** ** The interface that the rest of the daemon relies on

    [PhysReads s P]: in every world satisfying [P], [vmi_read_physical] returns,
    keeps [P] and the contents of guest memory, and the bytes it delivers are
    the bytes of guest-physical memory; [PhysLive]: it succeeds where all the
    requested bytes exist. *)

Class PhysReads s (P : W -> Prop) := {
  phys_read gpa buf w : P w ->
    wp (vmi_read_physical s gpa buf) w
       (fun r w' => P w' /\ same_mem w w' /\ length r.2 = length buf /\
          (r.1 = true -> prefix_ok (phys_view s w gpa) (length buf) r.2));
}.

Class PhysLive s (P : W -> Prop) := {
  phys_live gpa buf w r w' : P w -> (0 < length buf)%nat ->
    (forall i, (i < length buf)%nat -> is_Some (phys_view s w gpa i)) ->
    vmi_read_physical s gpa buf w = Some (r, w') -> r.1 = true;
}.

Lemma read_via_devmem_denied `{!DevMemDenied W} gpa buf w :
  wp (read_via_devmem gpa buf) w (fun r w' => r = (false, buf) /\ same_mem w w').
Proof.
  destruct (devmem_denied w) as (e & w' & Ho & Hs).
  unfold read_via_devmem. do 2 wp_step. rewrite Ho. cbn [fst snd]. by apply wp_ret.
Qed.

#[global] Instance memslots_phys_reads `{!DevMemDenied W} s : PhysReads s (readable s).
Proof.
  split. intros gpa buf w Hrd. unfold vmi_read_physical. wp_step; boolify.
  { apply wp_ret. split_and!; try done. }
  wp_step. eapply wp_mono; [by apply read_via_memslots_sound|].
  intros [ok b] w1 (Hl & Hs & Hok); cbn [fst snd] in *. destruct ok.
  - apply wp_ret. split_and!; try done. by eapply readable_same.
  - eapply wp_mono; [apply read_via_devmem_denied|]. intros r w2 [-> Hs2].
    assert (same_mem w w2) by (by transitivity w1).
    split_and!; try done. by eapply readable_same.
Qed.

(** ** Success *)

Context `{RL : !ReadvLive W}.

Lemma read_remote_loop_live fuel s a size done retries buf w r w' :
  (forall i, (done <= i < size)%nat -> is_Some (remote_view s w a i)) ->
  read_remote_loop fuel s a size done retries buf w = Some (r, w') -> r.1 = true.
Proof.
  revert done retries buf w. induction fuel as [|fuel IH]; intros done retries buf w Hv;
    cbn [read_remote_loop]; destruct (done <? size)%nat eqn:E; boolify; intros Hrun;
    run_inv Hrun.
  all: try done.
  unfold lift in Hrun0. simplify_eq.
  destruct (readv_live (qemu_pid s) (u64 (a + Z.of_nat done)) (Z.of_nat (size - done)) w)
    as (bs & w1 & Hrd & Hne); [lia| |].
  { rewrite u64_u64. apply Hv. lia. }
  rewrite Hrd in Hrun0. simplify_eq. destruct (length bs =? 0)%nat eqn:Eb; boolify.
  { by destruct bs. }
  eapply IH; [|done]. intros i Hi.
  rewrite (remote_view_same s w) by (by eapply readv_stable). apply Hv. lia.
Qed.

Lemma read_remote_live s a buf w r w' :
  0 < qemu_pid s -> (0 < length buf)%nat ->
  (forall i, (i < length buf)%nat -> is_Some (remote_view s w a i)) ->
  read_remote_process s a buf w = Some (r, w') -> r.1 = true.
Proof.
  intros Hpid Hlen Hv. unfold read_remote_process.
  destruct (_ || _)%bool eqn:E.
  - apply orb_true_iff in E as [E|E]; boolify; lia.
  - apply read_remote_loop_live. intros i Hi. apply Hv. lia.
Qed.

Lemma read_via_memslots_loop_live fuel s gpa size done buf w r w' :
  readable s w -> 0 < qemu_pid s -> (done <= size)%nat -> length buf = size ->
  (forall i, (done <= i < size)%nat -> is_Some (phys_view s w gpa i)) ->
  read_via_memslots_loop fuel s gpa size done buf w = Some (r, w') -> r.1 = true.
Proof.
  revert done buf w. induction fuel as [|fuel IH]; intros done buf w Hrd Hp Hd Hl Hv;
    cbn [read_via_memslots_loop]; destruct (done <? size)%nat eqn:E; boolify; intros Hrun;
    try by run_inv Hrun.
  destruct (find_memslot _ _) as [[m off]|] eqn:Hfm; cycle 1.
  { destruct (Hv done ltac:(lia)) as [b Hb]. unfold phys_view, gpa_byte in Hb.
    by rewrite Hfm in Hb. }
  destruct (read_chunk_bounds s w gpa m off done size Hrd ltac:(lia) Hfm) as (Hc0 & Hc1 & Hc2).
  set (chunk := Z.to_nat _) in *. destruct (slot_remote m) eqn:Hr; run_inv Hrun.
  - destruct (read_remote_sound s (u64 (userspace_addr m + off)) (take chunk (drop done buf)) w)
      as (r1 & w1 & Hr1 & Hlb & Hs & _).
    rewrite Hr1 in Hrun0. simplify_eq. rewrite length_take_drop in Hlb by lia.
    assert (a.1 = true) as Ha.
    { eapply read_remote_live; [done| | |done]; rewrite length_take_drop by lia; [done|].
      intros i Hi. pose proof (phys_view_slot s w gpa m off done i Hrd Hfm ltac:(lia)) as Hpv.
      rewrite Hr in Hpv. rewrite <- Hpv. apply Hv. lia. }
    rewrite Ha in Hrun. cbn [negb] in Hrun. eapply (IH (done + chunk)%nat); [|done|lia| | |exact Hrun].
    + by eapply readable_same.
    + by rewrite length_blit.
    + intros i Hi. unfold phys_view. rewrite (gpa_byte_same s w) by done. apply Hv. lia.
  - destruct (memcpy_in_sound s w gpa m off done chunk Hrd Hr Hfm Hc2)
      as (bs & w1 & Hm & -> & Hlb & _).
    rewrite Hm in Hrun0. injection Hrun0 as <- <-. eapply (IH (done + chunk)%nat); [done|done|lia| | |exact Hrun].
    + by rewrite length_blit.
    + intros i Hi. apply Hv. lia.
Qed.

#[global] Instance memslots_phys_live `{!DevMemDenied W} s :
  TCEq (0 <? qemu_pid s) true -> PhysLive s (readable s).
Proof.
  rewrite TCEq_eq. intros Hp. boolify. split. intros gpa buf w r w' Hrd Hlen Hv Hrun.
  unfold vmi_read_physical in Hrun. destruct (length buf =? 0)%nat eqn:E; boolify; [lia|].
  run_inv Hrun. assert (a.1 = true) as Ha; [|rewrite Ha in Hrun; by run_inv Hrun].
  revert Hrun0. unfold read_via_memslots. destruct (_ || _)%bool eqn:Eg.
  - exfalso. apply orb_true_iff in Eg as [Eg|Eg]; boolify; [lia|].
    destruct (Hv 0%nat Hlen) as [b Hb]. unfold phys_view, gpa_byte in Hb.
    apply nil_length_inv in Eg. by rewrite Eg in Hb.
  - apply read_via_memslots_loop_live; [done|done|lia|done|]. intros i Hi. apply Hv. lia.
Qed.
End spec.
