(* ===== verification/PageWalk.v ===== *)
(** * The page walk and guest-virtual reads against an architectural reference

    [vmi_gva_to_gpa] unrolls the four levels of x86-64 paging with shifts and
    masks; [walk] is the same translation as one recursion over the levels in
    arithmetic.  The two agree on every page table, for 4 KiB, 2 MiB and 1 GiB
    pages and on every fault.  [vmi_read_virtual] then reads, byte by byte, the
    guest-physical bytes at the translated addresses. *)

From S2P Require Import Prelude CStrings HostOS MockHost VmiMemory VmiMemoryProofs.
From stdpp Require Import prelude gmap strings list list_monad.
From Stdlib Require Import ZArith Lia.
#[local] Open Scope Z_scope.

(** The physical address field of an entry: bits [k] to 51. *)
Definition frame (e k : Z) : Z := (e / 2 ^ k) mod 2 ^ (52 - k) * 2 ^ k.

(** Translation through [level] remaining levels of tables rooted at [base];
    [mem] gives the 64-bit entry at a physical address. *)
Fixpoint walk (mem : Z -> option Z) (level : nat) (base gva : Z) : option Z :=
  match level with
  | O => None
  | S l =>
      let shift := 12 + 9 * Z.of_nat l in
      match mem (base + 8 * ((gva / 2 ^ shift) mod 512)) with
      | None => None
      | Some e =>
          if negb (Z.testbit e 0) then None
          else if (l =? 0)%nat || ((l <=? 2)%nat && Z.testbit e 7)
          then Some (frame e shift + gva mod 2 ^ shift)
          else walk mem l (frame e 12) gva
      end
  end.

Lemma frame_bound e k : 0 <= k <= 52 -> 0 <= frame e k < 2 ^ 52.
Proof.
  intros Hk. unfold frame.
  pose proof (Z.mod_pos_bound (e / 2 ^ k) (2 ^ (52 - k)) ltac:(apply Z.pow_pos_nonneg; lia)).
  replace (2 ^ 52) with (2 ^ (52 - k) * 2 ^ k) by (rewrite <- Z.pow_add_r; [f_equal|..]; lia).
  assert (0 < 2 ^ k) by (apply Z.pow_pos_nonneg; lia). nia.
Qed.

Lemma frame_aligned e k : 0 <= k -> frame e k mod 2 ^ k = 0.
Proof. intros Hk. unfold frame. apply Z_mod_mult. Qed.

(** A translation keeps the offset in the 4 KiB page and is a 52-bit address. *)
Lemma walk_offset mem level base gva gpa :
  (level <= 4)%nat -> walk mem level base gva = Some gpa ->
  gpa mod 4096 = gva mod 4096 /\ 0 <= gpa < 2 ^ 52.
Proof.
  revert base. induction level as [|l IH]; intros base Hl; cbn [walk]; [done|].
  destruct (mem _) as [e|]; [|done]. destruct (negb _); [done|].
  destruct (_ || _)%bool eqn:E; [|apply IH; lia]. intros [= <-].
  assert (Z.of_nat l <= 3) as Hl3 by lia. clear IH E Hl.
  set (sh := 12 + 9 * Z.of_nat l). assert (12 <= sh <= 39) by lia.
  pose proof (frame_bound e sh ltac:(lia)) as Hb.
  assert (0 < 2 ^ sh) by (apply Z.pow_pos_nonneg; lia).
  pose proof (Z.mod_pos_bound gva (2 ^ sh) ltac:(done)) as Hg.
  assert (2 ^ sh = 4096 * 2 ^ (sh - 12)) as Hs.
  { change 4096 with (2 ^ 12). rewrite <- Z.pow_add_r; [f_equal|..]; lia. }
  assert (exists q, frame e sh = q * 2 ^ sh) as [q Hq] by (unfold frame; eauto).
  assert (0 < 2 ^ (sh - 12)) by (apply Z.pow_pos_nonneg; lia).
  split.
  - rewrite Hq. replace (q * 2 ^ sh) with (q * 2 ^ (sh - 12) * 4096) by (rewrite Hs; lia).
    rewrite Z.add_comm, Z_mod_plus_full.
    apply Z.mod_mod_divide. exists (2 ^ (sh - 12)). lia.
  - assert (2 ^ 52 = 2 ^ (52 - sh) * 2 ^ sh) as H52 by (rewrite <- Z.pow_add_r; [f_equal|..]; lia).
    rewrite Hq in Hb |- *. rewrite H52 in Hb |- *. assert (0 <= q) by nia.
    assert (q + 1 <= 2 ^ (52 - sh)) by nia. nia.
Qed.

(** Addresses of one 4 KiB page translate alike. *)
Lemma walk_same_page mem level base gva gva' :
  gva / 4096 = gva' / 4096 ->
  walk mem level base gva' = (fun gpa => gpa + (gva' - gva)) <$> walk mem level base gva.
Proof.
  intros Hpg. revert base. induction level as [|l IH]; intros base; cbn [walk]; [done|].
  set (sh := 12 + 9 * Z.of_nat l). assert (12 <= sh) by lia.
  assert (forall z, z / 2 ^ sh = z / 4096 / 2 ^ (sh - 12)) as Hdiv.
  { intros z. rewrite Z.div_div by (try apply Z.pow_pos_nonneg; lia).
    change 4096 with (2 ^ 12). rewrite <- Z.pow_add_r by lia. do 2 f_equal. lia. }
  assert (gva' / 2 ^ sh = gva / 2 ^ sh) as Hq by (by rewrite !Hdiv, Hpg).
  rewrite Hq. destruct (mem _) as [e|]; [|done]. destruct (negb _); [done|].
  destruct (_ || _)%bool; [|apply IH]. cbn. f_equal.
  assert (0 < 2 ^ sh) by (apply Z.pow_pos_nonneg; lia).
  pose proof (Z.div_mod gva (2 ^ sh) ltac:(lia)). pose proof (Z.div_mod gva' (2 ^ sh) ltac:(lia)).
  rewrite Hq in *. lia.
Qed.

Lemma walk_ext mem mem' level base gva :
  (forall a, mem a = mem' a) -> walk mem level base gva = walk mem' level base gva.
Proof.
  intros He. revert base. induction level as [|l IH]; intros base; cbn [walk]; [done|].
  rewrite He. destruct (mem' _) as [e|]; [|done]. by rewrite IH.
Qed.

Lemma land_addr_mask e : Z.land e PT_ADDR_MASK = frame e 12.
Proof. change PT_ADDR_MASK with (Z.shiftl (Z.ones 40) 12). by rewrite land_field. Qed.

Lemma index_field va k : 0 <= k -> Z.land (Z.shiftr va k) 511 = (va / 2 ^ k) mod 512.
Proof.
  intros Hk. change 511 with (Z.ones 9). by rewrite Z.land_ones, Z.shiftr_div_pow2 by lia.
Qed.

(** The leaf of a level: frame bits of the entry, offset bits of the address. *)
Lemma leaf_address e gva k mask low :
  0 <= k <= 52 -> mask = Z.shiftl (Z.ones (52 - k)) k -> low = Z.ones k ->
  Z.lor (Z.land e mask) (Z.land gva low) = frame e k + gva mod 2 ^ k.
Proof.
  intros Hk -> ->. rewrite land_field, Z.land_ones by lia. unfold frame.
  apply lor_low; [lia|]. apply Z.mod_pos_bound, Z.pow_pos_nonneg; lia.
Qed.

Lemma table_slot base va k :
  0 <= k -> u64 (frame base 12 + Z.land (Z.shiftr va k) 511 * PT_ENTRY_SIZE) =
            frame base 12 + 8 * ((va / 2 ^ k) mod 512).
Proof.
  intros Hk. rewrite index_field by done. pose proof (frame_bound base 12 ltac:(lia)) as Hb.
  pose proof (Z.mod_pos_bound (va / 2 ^ k) 512 ltac:(lia)).
  change (2 ^ 52) with 4503599627370496 in Hb. rewrite u64_id by (unfold is_u64, PT_ENTRY_SIZE; lia).
  unfold PT_ENTRY_SIZE. lia.
Qed.

Lemma prefix_ok_mapM f n buf :
  prefix_ok f n buf -> length buf = n -> mapM f (seq 0 n) = Some buf.
Proof.
  intros Hp Hl. apply mapM_Some, Forall2_same_length_lookup_2.
  - by rewrite length_seq.
  - intros i x b Hx Hb. apply lookup_seq in Hx as [-> Hi].
    destruct (Hp i Hi) as (b' & Hb' & Hf). by simplify_eq.
Qed.

(** ** The walk over any memory *)

Section entries.
Context {W : Type} `{OS : HostOS W}.

(** As long as [I] holds, the 8-byte entry at [a] is read as [mem a], [None] when the
    read fails. *)
Definition answers_entries (s : vmi_session) (I : W -> Prop) (mem : Z -> option Z) : Prop :=
  forall a w, I w -> exists w', read_entry s a w = Some (mem a, w') /\ I w'.

Context (s : vmi_session) (I : W -> Prop) (mem : Z -> option Z) (Hent : answers_entries s I mem).

Lemma read_entry_mem a w (Q : option Z -> W -> Prop) :
  I w -> (forall w', I w' -> Q (mem a) w') -> wp (read_entry s a) w Q.
Proof. intros Hi HQ. destruct (Hent a w Hi) as (w' & Hr & Hi'). exists (mem a), w'. split; [done|by apply HQ]. Qed.

(** One level of the walk: the entry that is read, and its absence. *)
Ltac walk_level :=
  wp_step; apply read_entry_mem; [done|];
  let w1 := fresh "w" in intros w1 ?;
  cbn [walk]; cbn [Z.of_nat Pos.of_succ_nat Pos.succ Z.mul Z.add Pos.mul Pos.add];
  destruct (mem _); [|by apply wp_ret];
  change PT_PRESENT with (2 ^ 0); rewrite land_bit_zero by lia;
  destruct (negb (Z.testbit _ 0)); [by apply wp_ret|];
  cbn [Nat.eqb Nat.leb orb andb].

(** A huge-page leaf at a level, or the base of the next table. *)
Ltac walk_leaf k :=
  change PT_PAGESIZE with (2 ^ 7); rewrite land_bit_zero, negb_involutive by lia;
  destruct (Z.testbit _ 7);
    [ apply wp_ret; split_and!; [done..|]; f_equal; by apply (leaf_address _ _ k) |];
  rewrite !land_addr_mask, !table_slot by lia.

(** The unrolled walk of the code is the recursive reference. *)
Lemma gva_to_gpa_mem cr3 gva w :
  I w -> wp (vmi_gva_to_gpa s cr3 gva) w (fun g w' => I w' /\ g = walk mem 4 (frame cr3 12) gva).
Proof.
  intros Hi. unfold vmi_gva_to_gpa.
  unfold PML4_INDEX, PDPT_INDEX, PD_INDEX, PT_INDEX. rewrite !land_addr_mask, !table_slot by lia.
  walk_level. rewrite !land_addr_mask, !table_slot by lia.
  walk_level. walk_leaf 30.
  walk_level. walk_leaf 21.
  walk_level. apply wp_ret. split_and!; [done..|]. f_equal. by apply (leaf_address _ _ 12).
Qed.
End entries.

Section walk.
Context {W : Type} `{OS : HostOS W} `{SM : !StableMemory W}.
Context (s : vmi_session) (P : W -> Prop) `{PR : !PhysReads s P} `{PL : !PhysLive s P}.
Implicit Types (w : W).

(** [n] bytes of guest-physical memory, when all of them exist. *)
Definition phys_bytes w (gpa : Z) (n : nat) : option (list Z) :=
  mapM (phys_view s w gpa) (seq 0 n).

Definition phys_u64 w (gpa : Z) : option Z := le_decode <$> phys_bytes w gpa 8.

Lemma phys_bytes_same w w' g n : same_mem w w' -> phys_bytes w' g n = phys_bytes w g n.
Proof.
  intros Hs. unfold phys_bytes. apply mapM_ext. intros i. by apply gpa_byte_same.
Qed.

Lemma phys_u64_same w w' : same_mem w w' -> forall g, phys_u64 w' g = phys_u64 w g.
Proof. intros Hs g. unfold phys_u64. by rewrite (phys_bytes_same w w'). Qed.

(** [vmi_read_physical] delivers exactly the bytes of guest memory, or fails
    exactly when one of them does not exist. *)
Lemma read_physical_exact gpa buf w :
  P w -> (0 < length buf)%nat ->
  wp (vmi_read_physical s gpa buf) w
     (fun r w' => P w' /\ same_mem w w' /\ length r.2 = length buf /\
        match phys_bytes w gpa (length buf) with
        | Some bs => r = (true, bs)
        | None => r.1 = false
        end).
Proof.
  intros Hp Hl. destruct (phys_read (s := s) gpa buf w Hp) as (r & w' & Hr & Hp' & Hs & Hlen & Hok).
  exists r, w'. split_and!; try done.
  destruct (phys_bytes w gpa (length buf)) as [bs|] eqn:Hb.
  - assert (r.1 = true) as Hr1.
    { apply (phys_live (s := s) gpa buf w r w'); [done|done| |exact Hr]. intros i Hi.
      unfold phys_bytes in Hb. apply mapM_Some in Hb.
      destruct (Forall2_lookup_l _ _ _ i i Hb) as (b & _ & Hv);
        [by rewrite lookup_seq_lt|]. by exists b. }
    specialize (Hok Hr1). apply prefix_ok_mapM in Hok; [|done].
    unfold phys_bytes in Hb. destruct r; cbn in *. by simplify_eq.
  - destruct (r.1) eqn:Hr1; [|done]. specialize (Hok eq_refl).
    apply prefix_ok_mapM in Hok; [|done]. unfold phys_bytes in Hb. by simplify_eq.
Qed.

Lemma read_entry_exact a w :
  P w -> wp (read_entry s a) w (fun e w' => P w' /\ same_mem w w' /\ e = phys_u64 w a).
Proof.
  intros Hp. unfold read_entry. wp_step.
  eapply wp_mono; [apply read_physical_exact; [done|cbn; lia]|].
  intros r w' (Hp' & Hs & _ & Hr). apply wp_ret. split_and!; try done.
  rewrite length_replicate in Hr. unfold phys_u64.
  destruct (phys_bytes w a 8) as [bs|]; [by rewrite Hr | by rewrite Hr].
Qed.

(** The walk on the memory at hand. *)
Lemma gva_to_gpa_walk cr3 gva w :
  P w ->
  wp (vmi_gva_to_gpa s cr3 gva) w
     (fun g w' => P w' /\ same_mem w w' /\ g = walk (phys_u64 w) 4 (frame cr3 12) gva).
Proof.
  intros Hp. eapply wp_mono.
  - apply (gva_to_gpa_mem s (fun w' => P w' /\ same_mem w w') (phys_u64 w)); [|done].
    intros a w1 [H1 H2]. destruct (read_entry_exact a w1 H1) as (e & w2 & Hr & H3 & H4 & ->).
    exists w2. rewrite (phys_u64_same w) in Hr by done. split; [done|]. split; [done|by transitivity w1].
  - by intros g w' [[H1 H2] ->].
Qed.

(** ** Guest-virtual reads *)

(** The byte of guest-virtual memory at [gva] under page tables [cr3]. *)
Definition virt_byte w (cr3 gva : Z) : option Z :=
  match walk (phys_u64 w) 4 (frame cr3 12) gva with
  | Some gpa => gpa_byte s w gpa
  | None => None
  end.

Definition virt_view w (cr3 gva : Z) (i : nat) : option Z :=
  virt_byte w cr3 (u64 (gva + Z.of_nat i)).

Lemma virt_view_same w w' cr3 gva i :
  same_mem w w' -> virt_view w' cr3 gva i = virt_view w cr3 gva i.
Proof.
  intros Hs. unfold virt_view, virt_byte.
  rewrite (walk_ext (phys_u64 w') (phys_u64 w)) by (by apply phys_u64_same).
  destruct (walk _ _ _ _); [by apply gpa_byte_same | done].
Qed.

(** Inside the page of [u64 (gva + done)], virtual bytes are physical bytes. *)
Lemma virt_view_page w cr3 gva done i :
  Z.of_nat i < 4096 - u64 (gva + Z.of_nat done) mod 4096 ->
  virt_view w cr3 gva (done + i) =
    match walk (phys_u64 w) 4 (frame cr3 12) (u64 (gva + Z.of_nat done)) with
    | Some gpa => phys_view s w gpa i
    | None => None
    end.
Proof.
  intros Hi. set (g := u64 (gva + Z.of_nat done)) in *.
  assert (u64 (gva + Z.of_nat (done + i)) = g + Z.of_nat i) as Hg.
  { subst g. rewrite Nat2Z.inj_add, Z.add_assoc, <- u64_add_l.
    pose proof (u64_is_u64 (gva + Z.of_nat done)). ulia. }
  unfold virt_view, virt_byte. rewrite Hg, (walk_same_page _ _ _ g) by lia.
  destruct (walk _ _ _ g) as [gpa|] eqn:Hw; [|done]. cbn.
  apply walk_offset in Hw as [_ Hb]; [|done]. change (2 ^ 52) with 4503599627370496 in Hb.
  unfold phys_view. f_equal. ulia.
Qed.

Lemma read_virtual_loop_exact fuel cr3 gva size done out w :
  P w -> (size - done <= fuel)%nat -> (done <= size)%nat -> length out = size ->
  prefix_ok (virt_view w cr3 gva) done out ->
  wp (read_virtual_loop fuel s cr3 (u64 (gva + Z.of_nat done)) size done out) w
     (fun r w' => P w' /\ same_mem w w' /\ length r.2 = size /\
        if r.1 : bool then prefix_ok (virt_view w cr3 gva) size r.2
        else exists i, (i < size)%nat /\ virt_view w cr3 gva i = None).
Proof.
  revert done out w. induction fuel as [|fuel IH]; intros n out w Hp Hf Hd Hl Hok;
    cbn [read_virtual_loop]; destruct (n <? size)%nat eqn:E; boolify; [lia| | |].
  1,3: apply wp_ret; assert (n = size) as -> by lia; done.
  set (g := u64 (gva + Z.of_nat n)). change (VMI_PAGE_SIZE - 1) with (Z.ones 12).
  rewrite Z.land_ones by lia. change (2 ^ 12) with 4096. unfold VMI_PAGE_SIZE.
  set (chunk := Z.to_nat _). assert (0 < chunk)%nat as Hc0 by lia.
  assert (n + chunk <= size)%nat as Hc1 by lia.
  assert (Z.of_nat chunk <= 4096 - g mod 4096) as Hc2 by lia. clearbody chunk.
  wp_step. eapply wp_mono; [by apply gva_to_gpa_walk|]. intros x w1 (Hp1 & Hs1 & ->).
  destruct (walk _ _ _ g) as [gpa|] eqn:Hw; cycle 1.
  { apply wp_ret. split_and!; try done. exists n. split; [lia|].
    replace n with (n + 0)%nat by lia. rewrite virt_view_page by lia. subst g. by rewrite Hw. }
  wp_step. eapply wp_mono; [apply read_physical_exact; [done|]|];
    rewrite length_take_drop by lia; [done|]. intros [ok bs] w2 (Hp2 & Hs2 & Hlb & Hr).
  assert (same_mem w w2) as Hs by (by transitivity w1). cbn [fst snd] in *.
  rewrite (phys_bytes_same w w1) in Hr by done.
  destruct (phys_bytes w gpa chunk) as [bs'|] eqn:Hb; cycle 1.
  - subst ok. apply wp_ret. cbn [fst snd]. rewrite length_blit. split_and!; try done.
    unfold phys_bytes in Hb. apply mapM_None, Exists_exists in Hb as (i & Hi & Hn).
    apply elem_of_seq in Hi. exists (n + i)%nat. split; [lia|].
    rewrite virt_view_page by lia. subst g. by rewrite Hw.
  - simplify_eq.
    unfold g. rewrite u64_add_l, <- Z.add_assoc, <- Nat2Z.inj_add. cbn [negb].
    eapply wp_mono; [apply IH; [done|lia|lia|by rewrite length_blit|]|].
    + apply (prefix_ok_ext (virt_view w cr3 gva)).
      { intros i _. symmetry. by apply virt_view_same. }
      apply prefix_ok_blit; [done|lia|]. intros i b Hi.
      pose proof (lookup_lt_Some _ _ _ Hi). rewrite virt_view_page by lia.
      fold g. rewrite Hw. unfold phys_bytes in Hb. apply mapM_Some in Hb.
      destruct (Forall2_lookup_r _ _ _ i b Hb Hi) as (j & Hj & Hv).
      apply lookup_seq in Hj as [-> _]. done.
    + intros r w3 (Hp3 & Hs3 & Hl3 & Hr3). split_and!; [done|by transitivity w2|done|].
      destruct r.1.
      * eapply prefix_ok_ext; [|exact Hr3]. intros i _. by apply virt_view_same.
      * destruct Hr3 as (i & Hi & Hv). exists i. split; [done|].
        by rewrite (virt_view_same w w2) in Hv.
Qed.

Lemma read_virtual_exact cr3 gva buf w :
  P w -> is_u64 gva -> (0 < length buf)%nat ->
  wp (vmi_read_virtual s cr3 gva buf) w
     (fun r w' => P w' /\ same_mem w w' /\ length r.2 = length buf /\
        match mapM (virt_view w cr3 gva) (seq 0 (length buf)) with
        | Some bs => r = (true, bs)
        | None => r.1 = false
        end).
Proof.
  intros Hp Hg Hl. unfold vmi_read_virtual. wp_step; boolify; [lia|].
  rewrite <- (u64_id gva) at 1 by done. rewrite <- (Z.add_0_r gva) at 1.
  eapply wp_mono; [apply (read_virtual_loop_exact _ cr3 gva _ 0); [done|lia|lia|done|]|].
  { intros i. lia. }
  intros [ok out] w' (Hp' & Hs & Hlen & Hr). cbn [fst snd] in *. split_and!; try done.
  destruct ok.
  - apply prefix_ok_mapM in Hr; [|done]. by rewrite Hr.
  - destruct Hr as (i & Hi & Hv).
    destruct (mapM _ _) as [bs|] eqn:Hm; [|done]. apply mapM_Some in Hm.
    destruct (Forall2_lookup_l _ _ _ i i Hm) as (b & _ & Hb); [by rewrite lookup_seq_lt|].
    by rewrite Hv in Hb.
Qed.
End walk.

(** ** The memory subsystem, on every host that satisfies the documented laws *)

Section memory_claims.
Context {W : Type} `{OS : HostOS W}.

(** [read_remote_process] returns whatever the kernel answers to its
    [process_vm_readv] calls (short transfers, transient and permanent errors,
    end of file): the retry loop is bounded, and the caller's buffer keeps its
    length. *)
Theorem read_remote_process_terminates (s : vmi_session) (a : Z) (buf : list Z) (w : W) :
  exists ok buf' w', read_remote_process s a buf w = Some ((ok, buf'), w') /\
                     length buf' = length buf.
Proof.
  destruct (read_remote_total s a buf w) as ([ok buf'] & w' & Hr & Hl). by exists ok, buf', w'.
Qed.

Context `{RT : !ReadvTransfers W} `{SM : !StableMemory W} `{RL : !ReadvLive W}.
Context `{DM : !DevMemDenied W}.

(** A read of guest-physical memory through the slots, across slot
    boundaries and short transfers, delivers exactly the bytes of guest memory,
    and fails exactly when one of the requested bytes is in no slot or is not
    mapped. *)
Theorem vmi_read_physical_exact (s : vmi_session) (gpa : Z) (buf : list Z) (w : W) :
  readable s w -> 0 < qemu_pid s -> (0 < length buf)%nat ->
  exists ok buf' w', vmi_read_physical s gpa buf w = Some ((ok, buf'), w') /\
    match phys_bytes s w gpa (length buf) with
    | Some bs => ok = true /\ buf' = bs
    | None => ok = false
    end.
Proof.
  intros Hrd Hp Hl. assert (PhysLive s (readable s)) as PL.
  { apply memslots_phys_live. by apply TCEq_eq, Z.ltb_lt. }
  destruct (read_physical_exact s (readable s) gpa buf w Hrd Hl)
    as ([ok buf'] & w' & Hr & _ & _ & _ & Hres). exists ok, buf', w'. split; [done|].
  by destruct (phys_bytes _ _ _ _); simplify_eq/=.
Qed.

(** C7. The page walk of the code, with its shifts, masks and huge-page cases,
    computes the recursive architectural translation of whatever page tables its reads
    show: on any host on which the 8-byte read of an entry gives the same answer [mem a]
    throughout the walk, a value or a failure, the walk returns, with the address that
    these tables give the page, and with failure exactly when they give none (an entry
    is missing or not present).  The result keeps the page offset and is a 52-bit
    physical address. *)
Theorem vmi_gva_to_gpa_refines_walk (s : vmi_session) (I : W -> Prop) (mem : Z -> option Z) (cr3 gva : Z) (w : W) :
  answers_entries s I mem -> I w ->
  exists g w', vmi_gva_to_gpa s cr3 gva w = Some (g, w') /\ I w' /\
    g = walk mem 4 (frame cr3 12) gva /\
    (forall gpa, g = Some gpa -> gpa mod 4096 = gva mod 4096 /\ 0 <= gpa < 2 ^ 52).
Proof.
  intros Hent Hi. destruct (gva_to_gpa_mem s I mem Hent cr3 gva w Hi) as (g & w' & Hr & Hi' & Hg).
  exists g, w'. split_and!; [done..|]. intros gpa ->. by eapply walk_offset.
Qed.

(** A read of guest-virtual memory of any length, crossing pages, delivers
    the bytes at the translations of each address, and fails exactly when one
    of them is not mapped. *)
Theorem vmi_read_virtual_exact (s : vmi_session) (cr3 gva : Z) (buf : list Z) (w : W) :
  readable s w -> 0 < qemu_pid s -> is_u64 gva -> (0 < length buf)%nat ->
  exists ok buf' w', vmi_read_virtual s cr3 gva buf w = Some ((ok, buf'), w') /\
    match mapM (virt_view s w cr3 gva) (seq 0 (length buf)) with
    | Some bs => ok = true /\ buf' = bs
    | None => ok = false
    end.
Proof.
  intros Hrd Hp Hg Hl. assert (PhysLive s (readable s)) as PL.
  { apply memslots_phys_live. by apply TCEq_eq, Z.ltb_lt. }
  destruct (read_virtual_exact s (readable s) cr3 gva buf w Hrd Hg Hl)
    as ([ok buf'] & w' & Hr & _ & _ & _ & Hres). exists ok, buf', w'. split; [done|].
  by destruct (mapM _ _); simplify_eq/=.
Qed.
End memory_claims.

(** ** A small guest

    One 64 KiB slot of another process: a page table at 0x1000 that maps two
    consecutive kernel pages to the frames 0x6000 and 0x5000. *)

Definition demo_slot : vmi_memslot :=
  Memslot 0 0x10000 0x7f0000000000 0 VMI_MEMSLOT_F_REMOTE_PROCESS.

Definition demo_session : vmi_session :=
  Session (-1) (-1) [] 0 [demo_slot] 4242 (-1) 0 0 false 0 0 0x1000.

Definition demo_gva : Z := 0xffffffff82200ffc.

(** Guest-physical words of [demo_slot]. *)
Definition guest64 (gpa v : Z) : gmap Z Z -> gmap Z Z := poke64 (0x7f0000000000 + gpa) v.

Definition demo_memory : gmap Z Z :=
  guest64 0x6ff8 0x8877665544332211 $ guest64 0x5000 0xffeeddccbbaa9900 $
  guest64 (0x4000 + 8 * 1) (0x5000 + 3) $
  guest64 (0x4000 + 8 * 0) (0x6000 + 3) $
  guest64 (0x3000 + 8 * 17) (0x4000 + 3) $
  guest64 (0x2000 + 8 * 510) (0x3000 + 3) $
  guest64 (0x1000 + 8 * 511) (0x2000 + 3) ∅.

Definition demo_world : mock := set_remote (fun _ => demo_memory) mock_init.

Lemma one_remote_slot_readable (s : vmi_session) (m : vmi_memslot) (w : mock) :
  memslots s = [m] -> wf_slot m -> slot_remote m = true -> readable s w.
Proof.
  intros Hm Hwf Hr. split; rewrite Hm.
  - by constructor.
  - intros [|i] [|j] m1 m2 g H1 H2; cbn in *; simplify_eq; done.
  - intros m' off Hin. apply list_elem_of_singleton in Hin as ->. by rewrite Hr.
Qed.

Lemma demo_readable w : readable demo_session w.
Proof.
  apply (one_remote_slot_readable _ demo_slot); [done| |done]. split; cbn; lia.
Qed.

Lemma vmi_read_physical_exact_witness :
  exists ok buf' w',
    vmi_read_physical demo_session 0x5000 [0; 0; 0] demo_world = Some ((ok, buf'), w') /\
    ok = true /\ buf' = [0x00; 0x99; 0xaa].
Proof.
  destruct (vmi_read_physical_exact demo_session 0x5000 [0; 0; 0] demo_world
              (demo_readable _) ltac:(cbn; lia) ltac:(cbn; lia)) as (ok & b & w' & Hr & Hm).
  exists ok, b, w'. split; [exact Hr|]. vm_compute in Hm. exact Hm.
Defined.

(** The memory component of the executable host answers so. *)
Lemma demo_answers :
  answers_entries demo_session (fun w => readable demo_session w /\ same_mem demo_world w) (phys_u64 demo_session demo_world).
Proof.
  intros a w [H1 H2]. destruct (read_entry_exact demo_session (readable demo_session) a w H1) as (e & w' & Hr & H3 & H4 & ->).
  exists w'. rewrite (phys_u64_same demo_session demo_world) in Hr by done. split; [done|]. split; [done|by transitivity w].
Qed.

Lemma vmi_gva_to_gpa_refines_walk_witness :
  exists w', vmi_gva_to_gpa demo_session 0x1000 demo_gva demo_world = Some (Some 0x6ffc, w').
Proof.
  destruct (vmi_gva_to_gpa_refines_walk demo_session (fun w => readable demo_session w /\ same_mem demo_world w)
    (phys_u64 demo_session demo_world) 0x1000 demo_gva demo_world) as (g & w' & Hr & _ & Hg & _).
  - exact demo_answers.
  - split; [apply demo_readable|reflexivity].
  - exists w'. rewrite Hr, Hg. vm_compute. reflexivity.
Defined.

Lemma vmi_read_virtual_exact_witness :
  exists ok buf' w',
    vmi_read_virtual demo_session 0x1000 demo_gva (replicate 8 0) demo_world
      = Some ((ok, buf'), w') /\
    ok = true /\ buf' = [0x55; 0x66; 0x77; 0x88; 0x00; 0x99; 0xaa; 0xbb].
Proof.
  destruct (vmi_read_virtual_exact demo_session 0x1000 demo_gva (replicate 8 0) demo_world
              (demo_readable _) ltac:(cbn; lia) ltac:(unfold is_u64, demo_gva; lia)
              ltac:(cbn; lia)) as (ok & b & w' & Hr & Hm).
  exists ok, b, w'. split; [exact Hr|]. vm_compute in Hm. exact Hm.
Defined.
