(* ===== verification/Bridge.v ===== *)
(** * The cross-layer alert bridge (release_payload/src/vmi/src/bridge.c)

    The alert queue, the per-process threat policy (escalation and
    duplicate suppression), the alert stream with its reconnection back-off,
    and the public entry points that the detectors call.

    The static variables of bridge.c are the fields of [bridge].  The queue is
    the first [alert_count] entries of the C array.  [attempts] is a history
    variable: the calls of [emit_alert], in order, each with the results of its two
    outputs, which may both have failed. *)

From S2P Require Import Prelude CStrings HostOS.
From stdpp Require Import prelude strings list.
From Stdlib Require Import ZArith Lia Ascii.
#[local] Open Scope string_scope.
#[local] Open Scope list_scope.
#[local] Open Scope Z_scope.

(** ** Data (include/vmi_alert_map.h and bridge.c) *)

Definition VMI_ALERT_REASON_MAX : nat := 64.
Definition VMI_THREAT_CLEAN : Z := 0.
Definition VMI_THREAT_SUSPICIOUS : Z := 1.
Definition VMI_THREAT_MALICIOUS : Z := 2.
Definition VMI_ALERT_MAP_PATH : string := "/sys/fs/bpf/vmi_alert_map".
Definition VMI_ALERT_FALLBACK_PATH : string := "/tmp/vmi_alerts.log".

Definition ALERT_QUEUE_SIZE : nat := 256.
Definition PID_POLICY_TABLE_SIZE : nat := 1024.
Definition POLICY_ESCALATION_COUNT : Z := 3.
Definition POLICY_ESCALATION_WINDOW_NS : Z := 10 * 1000000000.
Definition POLICY_DEDUP_WINDOW_NS : Z := 1 * 1000000000.
Definition STREAM_DEFAULT_HOST : string := "127.0.0.1".
Definition STREAM_DEFAULT_PORT : Z := 8421.
Definition STREAM_MODE_TCP : string := "tcp".
Definition STREAM_MODE_HELPER : string := "helper".
Definition STREAM_RECONNECT_BASE_NS : Z := 1 * 1000000000.
Definition STREAM_RECONNECT_MAX_NS : Z := 30 * 1000000000.

Record vmi_alert := Alert {
  al_pid : Z;
  threat_level : Z;
  timestamp_ns : Z;
  reason : string;
}.

Record queued_alert := Queued {
  alert : vmi_alert;
  sent_immediately : bool;
}.

Record pid_policy_state := PolicyState {
  ps_pid : Z;
  last_effective_threat : Z;
  suspicious_burst : Z;
  burst_window_start_ns : Z;
  last_emit_ns : Z;
  used : bool;
}.

Definition policy_zero : pid_policy_state := PolicyState 0 0 0 0 0 false.

Record stream_state := Stream {
  stream_enabled : bool;
  stream_fd : Z;
  stream_host : string;
  stream_port : Z;
  stream_mode : string;
  stream_helper_cmd : string;
  stream_helper_fp : option Z;
  stream_helper_include_metadata : bool;
  stream_next_reconnect_ns : Z;
  stream_reconnect_backoff_ns : Z;
}.

(** One call of [emit_alert]: the alert, the return code of the map and whether the
    stream took it. *)
Record attempt := Attempt {
  at_alert : vmi_alert;
  at_map : Z;
  at_sent : bool;
}.

Record bridge := Bridge {
  alert_queue : list queued_alert;
  bpf_map_fd : Z;
  total_alerts_processed : Z;
  policy_table : list pid_policy_state;
  stream : stream_state;
  attempts : list attempt;
}.

Definition with_queue (q : list queued_alert) (b : bridge) : bridge :=
  Bridge q (bpf_map_fd b) (total_alerts_processed b) (policy_table b) (stream b) (attempts b).
Definition with_map_fd (fd : Z) (b : bridge) : bridge :=
  Bridge (alert_queue b) fd (total_alerts_processed b) (policy_table b) (stream b) (attempts b).
Definition with_table (t : list pid_policy_state) (b : bridge) : bridge :=
  Bridge (alert_queue b) (bpf_map_fd b) (total_alerts_processed b) t (stream b) (attempts b).
Definition with_stream (s : stream_state) (b : bridge) : bridge :=
  Bridge (alert_queue b) (bpf_map_fd b) (total_alerts_processed b) (policy_table b) s (attempts b).
Definition with_attempt (x : attempt) (b : bridge) : bridge :=
  Bridge (alert_queue b) (bpf_map_fd b) (u64 (total_alerts_processed b + 1)) (policy_table b)
    (stream b) (attempts b ++ [x]).

(** The alerts that were handed to [emit_alert], in order. *)
Definition attempted (b : bridge) : list vmi_alert := at_alert <$> attempts b.

(** Connection fields of the stream: descriptor, helper, next attempt, back-off. *)
Definition with_conn (fd : Z) (fp : option Z) (next backoff : Z) (s : stream_state)
  : stream_state :=
  Stream (stream_enabled s) fd (stream_host s) (stream_port s) (stream_mode s)
    (stream_helper_cmd s) fp (stream_helper_include_metadata s) next backoff.

Definition helper_mode (s : stream_state) : bool := streq (stream_mode s) STREAM_MODE_HELPER.

(** The state at program start: zeroed statics with their initialisers. *)
Definition bridge_boot : bridge :=
  Bridge [] (-1) 0 (replicate PID_POLICY_TABLE_SIZE policy_zero)
    (Stream false (-1) EmptyString STREAM_DEFAULT_PORT EmptyString EmptyString None false 0
       STREAM_RECONNECT_BASE_NS) [].

(** ** Text *)

Definition threat_type_from_level (level : Z) : string :=
  if level =? VMI_THREAT_MALICIOUS then "malicious"
  else if level =? VMI_THREAT_SUSPICIOUS then "suspicious"
  else "clean".

(** [%.2f] of the confidence constants. *)
Definition threat_confidence_from_level (level : Z) : string :=
  if level =? VMI_THREAT_MALICIOUS then "0.98"
  else if level =? VMI_THREAT_SUSPICIOUS then "0.65"
  else "0.10".

Definition dquote : ascii := "034"%char.
Definition backslash : ascii := "092"%char.
Definition newline : ascii := "010"%char.

(** What the loop writes for the characters of [src] with the write index at
    [w] in a buffer of [dst_size] bytes (the terminator is not shown). *)
Fixpoint json_escape_from (src : string) (w dst_size : nat) : string :=
  match src with
  | EmptyString => EmptyString
  | String c rest =>
      if (w + 1 <? dst_size)%nat then
        if (Ascii.eqb c dquote || Ascii.eqb c backslash)%bool then
          if (dst_size <=? w + 2)%nat then EmptyString
          else String backslash (String c (json_escape_from rest (w + 2) dst_size))
        else if Ascii.eqb c newline then
          if (dst_size <=? w + 2)%nat then EmptyString
          else String backslash (String "n"%char (json_escape_from rest (w + 2) dst_size))
        else if (nat_of_ascii c <? 32)%nat then
          if (dst_size <=? w + 1)%nat then EmptyString
          else String "?"%char (json_escape_from rest (w + 1) dst_size)
        else String c (json_escape_from rest (w + 1) dst_size)
      else EmptyString
  end.

Definition json_escape_string (src : string) (dst_size : nat) : string :=
  json_escape_from src 0 dst_size.

(** A quoted JSON key or value. *)
Definition quoted (s : string) : string := String dquote (s +:+ String dquote EmptyString).

Definition helper_payload (a : vmi_alert) : string :=
  "{" +:+ quoted "pid" +:+ ":" +:+ fmt_u (al_pid a) +:+ "," +:+
  quoted "threat_type" +:+ ":" +:+ quoted (threat_type_from_level (threat_level a)) +:+ "," +:+
  quoted "confidence" +:+ ":" +:+ threat_confidence_from_level (threat_level a) +:+ "}" +:+
  String newline EmptyString.

Definition full_payload (a : vmi_alert) (reason_json : string) : string :=
  "{" +:+ quoted "pid" +:+ ":" +:+ fmt_u (al_pid a) +:+ "," +:+
  quoted "threat_level" +:+ ":" +:+ fmt_u (threat_level a) +:+ "," +:+
  quoted "threat_type" +:+ ":" +:+ quoted (threat_type_from_level (threat_level a)) +:+ "," +:+
  quoted "confidence" +:+ ":" +:+ threat_confidence_from_level (threat_level a) +:+ "," +:+
  quoted "timestamp_ns" +:+ ":" +:+ fmt_u (timestamp_ns a) +:+ "," +:+
  quoted "reason" +:+ ":" +:+ quoted reason_json +:+ "}" +:+ String newline EmptyString.

(** The line of the file fallback. *)
Definition alert_line (a : vmi_alert) : string :=
  "ALERT pid=" +:+ fmt_u (al_pid a) +:+ " threat=" +:+ fmt_u (threat_level a) +:+
  " ts=" +:+ fmt_u (timestamp_ns a) +:+ " reason=" +:+ reason a +:+ String newline EmptyString.

Section bridge.
Context {W : Type} `{OS : HostOS W}.
(** The build: [true] with libbpf, [false] with the file fallback. *)
Context (have_libbpf : bool).

Abbreviation B := (bridge * W)%type.

Definition os {A} (f : W -> A * W) : M B A :=
  fun st => let '(a, w) := f st.2 in Some (a, (st.1, w)).
Definition os_ (f : W -> W) : M B unit := fun st => Some (tt, (st.1, f st.2)).
Definition bget {A} (f : bridge -> A) : M B A := gets (fun st => f st.1).
Definition bset (f : bridge -> bridge) : M B unit := modify (fun st => (f st.1, st.2)).
Definition env (key : string) : M B (option string) := gets (fun st => getenv key st.2).

(** ** The alert map *)

Definition open_bpf_map : M B bool :=
  r ← os (if have_libbpf then bpf_obj_get VMI_ALERT_MAP_PATH
          else sys_open VMI_ALERT_FALLBACK_PATH O_APPEND_CREAT);
  match r with
  | SysOk fd => _ ← bset (with_map_fd fd); mret (negb (fd <? 0))
  | SysErr _ => _ ← bset (with_map_fd (-1)); mret false
  end.

(** The return code; the file fallback formats into [char line\[256\]] and
    writes [n] bytes of it, which is undefined when the text was truncated. *)
Definition write_alert_to_map (a : vmi_alert) : M B Z :=
  fd ← bget bpf_map_fd;
  if fd <? 0 then mret (-1)
  else if have_libbpf then os (bpf_map_update fd (al_pid a) (threat_level a))
  else
    let line := alert_line a in
    if (256 <=? strlen line)%nat then stuck
    else
      r ← os (sys_write fd line);
      match r with SysOk _ => mret 0 | SysErr _ => mret (-1) end.

(** ** Configuration *)

Definition env_enabled (key : string) (default_value : bool) : M B bool :=
  v ← env key;
  mret match v with
       | None => default_value
       | Some EmptyString => default_value
       | Some value =>
           if streq value "1" || streq value "true" || streq value "yes" then true
           else if streq value "0" || streq value "false" || streq value "no" then false
           else default_value
       end.

(** [getenv], with the default for a variable that is unset or empty. *)
Definition env_or (key default_value : string) : M B string :=
  v ← env key;
  mret match v with
       | None => default_value
       | Some EmptyString => default_value
       | Some value => value
       end.

Definition parse_stream_config : M B unit :=
  enabled ← env_enabled "VMI_ALERT_STREAM_ENABLE" false;
  mode ← env_or "VMI_ALERT_STREAM_MODE" STREAM_MODE_TCP;
  let mode := strncpyz 16 mode in
  metadata ← env_enabled "VMI_ALERT_HELPER_INCLUDE_METADATA" false;
  let mode := if negb (streq mode STREAM_MODE_TCP) && negb (streq mode STREAM_MODE_HELPER)
              then STREAM_MODE_TCP else mode in
  host ← env_or "VMI_ALERT_STREAM_HOST" STREAM_DEFAULT_HOST;
  let host := strncpyz 64 host in
  port_env ← env "VMI_ALERT_STREAM_PORT";
  let port := match port_env with
              | None => STREAM_DEFAULT_PORT
              | Some EmptyString => STREAM_DEFAULT_PORT
              | Some p => match strto_value (strtoull 10 p) with
                          | Some v => if (0 <? v) && (v <=? 65535) then v
                                      else STREAM_DEFAULT_PORT
                          | None => STREAM_DEFAULT_PORT
                          end
              end in
  cmd ← env_or "VMI_ALERT_GRPC_HELPER_CMD" EmptyString;
  let cmd := strncpyz 256 cmd in
  let enabled := enabled || negb (streq cmd EmptyString) in
  let enabled := if enabled && streq mode STREAM_MODE_HELPER && streq cmd EmptyString
                 then false else enabled in
  bset (with_stream (Stream enabled (-1) host port mode cmd None metadata 0
                       STREAM_RECONNECT_BASE_NS)).

(** ** The alert stream *)

Definition stream_disconnect : M B unit :=
  s ← bget stream;
  _ ← (if 0 <=? stream_fd s then os_ (sys_close (stream_fd s)) else mret tt);
  _ ← (match stream_helper_fp s with Some h => os_ (pclose h) | None => mret tt end);
  bset (fun b => with_stream
    (with_conn (if 0 <=? stream_fd s then -1 else stream_fd s) None
       (stream_next_reconnect_ns (stream b)) (stream_reconnect_backoff_ns (stream b))
       (stream b)) b).

Definition next_backoff (backoff : Z) : Z :=
  if backoff <? STREAM_RECONNECT_MAX_NS / 2 then u64 (backoff * 2)
  else STREAM_RECONNECT_MAX_NS.

Definition schedule_stream_reconnect (now_ns : Z) : M B unit :=
  bset (fun b =>
    let s := stream b in
    with_stream (with_conn (stream_fd s) (stream_helper_fp s)
      (u64 (now_ns + stream_reconnect_backoff_ns s))
      (next_backoff (stream_reconnect_backoff_ns s)) s) b).

Definition stream_connected (fd : Z) (fp : option Z) : M B unit :=
  bset (fun b => with_stream (with_conn fd fp 0 STREAM_RECONNECT_BASE_NS (stream b)) b).

Definition stream_connect_if_needed (now_ns : Z) : M B bool :=
  s ← bget stream;
  if negb (stream_enabled s) then mret false
  else if helper_mode s && (match stream_helper_fp s with Some _ => true | None => false end)
  then mret true
  else if negb (helper_mode s) && (0 <=? stream_fd s) then mret true
  else if negb (stream_next_reconnect_ns s =? 0) && (now_ns <? stream_next_reconnect_ns s)
  then mret false
  else if helper_mode s then
    h ← os (popen_w (stream_helper_cmd s));
    match h with
    | None => _ ← schedule_stream_reconnect now_ns; mret false
    | Some h => _ ← stream_connected (stream_fd s) (Some h); mret true
    end
  else
    f ← os sys_socket;
    match f with
    | SysErr _ => _ ← schedule_stream_reconnect now_ns; mret false
    | SysOk fd =>
        let connect_host := if streq (stream_host s) "localhost" then "127.0.0.1"
                            else stream_host s in
        match inet_pton connect_host with
        | None => _ ← os_ (sys_close fd); _ ← schedule_stream_reconnect now_ns; mret false
        | Some addr =>
            c ← os (sys_connect fd addr (stream_port s));
            match c with
            | SysErr _ => _ ← os_ (sys_close fd); _ ← schedule_stream_reconnect now_ns; mret false
            | SysOk _ => _ ← stream_connected fd (stream_helper_fp s); mret true
            end
        end
    end.

Definition stream_payload (s : stream_state) (a : vmi_alert) : string :=
  if helper_mode s && negb (stream_helper_include_metadata s) then helper_payload a
  else full_payload a (json_escape_string (reason a) (2 * VMI_ALERT_REASON_MAX + 8)).

Definition stream_send_alert (a : vmi_alert) : M B bool :=
  up ← stream_connect_if_needed (timestamp_ns a);
  if negb up then mret false else
  s ← bget stream;
  let payload := stream_payload s a in
  if (512 <=? strlen payload)%nat then mret false
  else if helper_mode s then
    match stream_helper_fp s with
    | None => mret false
    | Some h =>
        ok ← os (fputs_flush h payload);
        if ok : bool then mret true
        else _ ← stream_disconnect; _ ← schedule_stream_reconnect (timestamp_ns a); mret false
    end
  else
    r ← os (sys_write (stream_fd s) payload);
    match r with
    | SysOk n =>
        if n =? Z.of_nat (strlen payload) then mret true
        else _ ← stream_disconnect; _ ← schedule_stream_reconnect (timestamp_ns a); mret false
    | SysErr _ =>
        _ ← stream_disconnect; _ ← schedule_stream_reconnect (timestamp_ns a); mret false
    end.

(** [CLOCK_MONOTONIC] in nanoseconds; a failing clock would leave the
    [timespec] uninitialised. *)
Definition get_timestamp_ns : M B Z :=
  t ← os clock_monotonic;
  match t with
  | Some (sec, nsec) => mret (u64 (u64 (u64 sec * 1000000000) + u64 nsec))
  | None => stuck
  end.

(** ** Threat policy *)

(** The scan of [get_policy_state]: the slot of [pid], or the first free slot. *)
Fixpoint policy_scan (tbl : list pid_policy_state) (pid : Z) (i : nat) (free_slot : option nat)
  : nat + option nat :=
  match tbl with
  | [] => inr free_slot
  | e :: rest =>
      if used e && (ps_pid e =? pid) then inl i
      else policy_scan rest pid (S i)
             (if negb (used e) && (match free_slot with None => true | Some _ => false end)
              then Some i else free_slot)
  end.

(** The index of the slot and the table with a new slot initialised. *)
Definition get_policy_state (tbl : list pid_policy_state) (pid : Z)
  : nat * list pid_policy_state :=
  match policy_scan tbl pid 0 None with
  | inl i => (i, tbl)
  | inr free =>
      let i := match free with
               | Some i => i
               | None => Z.to_nat (pid mod Z.of_nat PID_POLICY_TABLE_SIZE)
               end in
      (i, <[i := PolicyState pid 0 0 0 0 true]> tbl)
  end.

Record verdict := Verdict { effective : Z; suppress_emit : bool; escalated : bool }.

(** The policy on the state of one process. *)
Definition threat_policy_step (st : pid_policy_state) (requested_threat now_ns : Z)
  : verdict * pid_policy_state :=
  let '(eff, esc, burst, start) :=
    if requested_threat =? VMI_THREAT_SUSPICIOUS then
      let fresh := (burst_window_start_ns st =? 0) ||
                   (POLICY_ESCALATION_WINDOW_NS <? u64 (now_ns - burst_window_start_ns st)) in
      let start := if fresh then now_ns else burst_window_start_ns st in
      let burst := u32 ((if fresh then 0 else suspicious_burst st) + 1) in
      if POLICY_ESCALATION_COUNT <=? burst
      then (VMI_THREAT_MALICIOUS, true, burst, start)
      else (requested_threat, false, burst, start)
    else (requested_threat, false, 0, now_ns) in
  let sup := (eff =? last_effective_threat st) &&
             (u64 (now_ns - last_emit_ns st) <? POLICY_DEDUP_WINDOW_NS) && negb esc in
  (Verdict eff sup esc,
   PolicyState (ps_pid st) (if sup then last_effective_threat st else eff) burst start
     (if sup then last_emit_ns st else now_ns) (used st)).

Definition apply_threat_policy (pid requested_threat now_ns : Z) : M B verdict :=
  tbl ← bget policy_table;
  let '(i, tbl1) := get_policy_state tbl pid in
  match tbl1 !! i with
  | None => stuck
  | Some st =>
      let '(v, st') := threat_policy_step st requested_threat now_ns in
      _ ← bset (with_table (<[i := st']> tbl1));
      mret v
  end.

(** ** Queue *)

Definition emit_alert (a : vmi_alert) : M B Z :=
  map_rc ← write_alert_to_map a;
  sent ← stream_send_alert a;
  _ ← bset (with_attempt (Attempt a map_rc sent));
  mret map_rc.

Definition bridge_flush_alerts : M B unit :=
  q ← bget alert_queue;
  if (length q =? 0)%nat then mret tt
  else
    _ ← forM q (fun e => if sent_immediately e then mret tt
                         else _ ← emit_alert (alert e); mret tt);
    bset (with_queue []).

Definition enqueue_alert (pid threat : Z) (why : string) (immediate : bool) : M B unit :=
  q ← bget alert_queue;
  _ ← (if (ALERT_QUEUE_SIZE <=? length q)%nat then bridge_flush_alerts else mret tt);
  q ← bget alert_queue;
  if (ALERT_QUEUE_SIZE <=? length q)%nat then mret tt
  else
    ts ← get_timestamp_ns;
    let a := Alert pid threat ts (strncpyz VMI_ALERT_REASON_MAX why) in
    if immediate then
      _ ← bset (with_queue (q ++ [Queued a false]));
      _ ← emit_alert a;
      bset (fun b => with_queue (q ++ [Queued a true]) b)
    else bset (with_queue (q ++ [Queued a false])).

(** ** Public entry points *)

Definition bridge_init : M B bool :=
  _ ← parse_stream_config;
  _ ← bset (fun b => Bridge [] (bpf_map_fd b) 0 (replicate PID_POLICY_TABLE_SIZE policy_zero)
                       (stream b) (attempts b));
  _ ← open_bpf_map;
  mret true.

Definition bridge_teardown : M B unit :=
  _ ← bridge_flush_alerts;
  fd ← bget bpf_map_fd;
  _ ← (if 0 <=? fd then _ ← os_ (sys_close fd); bset (with_map_fd (-1)) else mret tt);
  stream_disconnect.

Definition bridge_signal_malicious (pid : Z) (why : string) : M B unit :=
  now_ns ← get_timestamp_ns;
  v ← apply_threat_policy pid VMI_THREAT_MALICIOUS now_ns;
  if suppress_emit v then mret tt
  else enqueue_alert pid (effective v) why true.

Definition bridge_signal_suspicious (pid : Z) (why : string) : M B unit :=
  now_ns ← get_timestamp_ns;
  v ← apply_threat_policy pid VMI_THREAT_SUSPICIOUS now_ns;
  if suppress_emit v then mret tt
  else enqueue_alert pid (effective v) why (effective v =? VMI_THREAT_MALICIOUS).
End bridge.
