(* ===== verification/BridgeProofs.v ===== *)
(** * Correctness of the alert bridge

    Text formatting stays inside its buffers and produces well-formed JSON;
    every operation keeps the bridge invariant and never gets stuck; accepted
    alerts are handed out exactly once; the threat policy escalates and suppresses
    as its constants say; the reconnection back-off stays in its range. *)

From S2P Require Import Prelude CStrings SlotTable HostOS MockHost Bridge.
From stdpp Require Import prelude gmap strings list.
From Stdlib Require Import ZArith Lia Ascii.
#[local] Open Scope string_scope.
#[local] Open Scope list_scope.
#[local] Open Scope Z_scope.

(** ** JSON escaping *)

(** The body of a JSON string as a reader decodes it. *)
Fixpoint json_unescape (s : string) : option string :=
  match s with
  | EmptyString => Some EmptyString
  | String c rest =>
      if Ascii.eqb c dquote then None
      else if (nat_of_ascii c <? 32)%nat then None
      else if Ascii.eqb c backslash then
        match rest with
        | String e rest' =>
            if Ascii.eqb e dquote || Ascii.eqb e backslash
            then String e <$> json_unescape rest'
            else if Ascii.eqb e "n"%char then String newline <$> json_unescape rest'
            else None
        | EmptyString => None
        end
      else String c <$> json_unescape rest
  end.

(** What the bridge transmits of a character: control characters other than
    the newline become a question mark. *)
Definition json_clean (c : ascii) : ascii :=
  if Ascii.eqb c newline then c
  else if (nat_of_ascii c <? 32)%nat then "?"%char else c.

Fixpoint str_map (f : ascii -> ascii) (s : string) : string :=
  match s with
  | EmptyString => EmptyString
  | String c rest => String (f c) (str_map f rest)
  end.

Lemma json_escape_len src w n :
  (w < n)%nat -> (strlen (json_escape_from src w n) + w < n)%nat.
Proof.
  revert w. induction src as [|c src IH]; intros w Hw; cbn [json_escape_from]; [cbn; lia|].
  repeat case_match; boolify; cbn [String.length]; try lia.
  - specialize (IH (w + 2)%nat). lia.
  - specialize (IH (w + 2)%nat). lia.
  - specialize (IH (w + 1)%nat). lia.
  - specialize (IH (w + 1)%nat). lia.
Qed.

(** The escaped text decodes, to a cleaned prefix of the source; the whole
    source when the buffer has two bytes per character. *)
Lemma json_escape_decodes src w n :
  exists m, json_unescape (json_escape_from src w n) =
            Some (str_map json_clean (String.substring 0 m src)) /\
            ((w + 2 * strlen src < n)%nat -> m = strlen src).
Proof.
  revert w. induction src as [|c src IH]; intros w; cbn [json_escape_from].
  { by exists 0%nat. }
  destruct (w + 1 <? n)%nat eqn:E1; boolify; cycle 1.
  { exists 0%nat. split; [done | cbn; lia]. }
  destruct (Ascii.eqb c dquote || Ascii.eqb c backslash) eqn:E2.
  { destruct (n <=? w + 2)%nat eqn:E3; boolify.
    { exists 0%nat. split; [done | cbn; lia]. }
    destruct (IH (w + 2)%nat) as (m & Hm & Hl). exists (S m). split; [|cbn; lia].
    cbn -[Ascii.eqb dquote backslash newline nat_of_ascii].
    change (Ascii.eqb backslash dquote) with false. change (nat_of_ascii backslash <? 32)%nat with false.
    change (Ascii.eqb backslash backslash) with true. cbv iota. rewrite E2, Hm. cbn.
    f_equal. f_equal. unfold json_clean.
    apply orb_true_iff in E2 as [E2|E2]; apply Ascii.eqb_eq in E2 as ->; done. }
  apply orb_false_iff in E2 as [Eq Eb].
  destruct (Ascii.eqb c newline) eqn:En.
  { destruct (n <=? w + 2)%nat eqn:E3; boolify.
    { exists 0%nat. split; [done | cbn; lia]. }
    destruct (IH (w + 2)%nat) as (m & Hm & Hl). exists (S m). split; [|cbn; lia].
    cbn -[Ascii.eqb nat_of_ascii json_unescape]. apply Ascii.eqb_eq in En as ->.
    cbn [json_unescape]. cbn -[json_unescape str_map]. by rewrite Hm. }
  destruct (IH (w + 1)%nat) as (m & Hm & Hl). exists (S m).
  destruct (nat_of_ascii c <? 32)%nat eqn:E4.
  - rewrite (proj2 (Nat.leb_gt n (w + 1))) by lia. split; [|cbn; lia].
    cbn -[nat_of_ascii json_unescape]. cbn [json_unescape]. cbn -[nat_of_ascii json_unescape].
    rewrite Hm. unfold json_clean at 2. by rewrite En, E4.
  - split; [|cbn; lia]. cbn [json_unescape]. rewrite Eq, E4, Eb, Hm. cbn -[nat_of_ascii].
    unfold json_clean at 2. by rewrite En, E4.
Qed.

(** ** Formatted text fits its buffers *)

Record wf_alert (a : vmi_alert) : Prop := {
  wa_pid : is_u32 (al_pid a);
  wa_threat : is_u32 (threat_level a);
  wa_ts : is_u64 (timestamp_ns a);
  wa_reason : (strlen (reason a) < VMI_ALERT_REASON_MAX)%nat;
}.

Lemma threat_type_len l : (strlen (threat_type_from_level l) <= 10)%nat.
Proof. unfold threat_type_from_level. repeat case_match; cbn; lia. Qed.

Lemma confidence_len l : (strlen (threat_confidence_from_level l) = 4)%nat.
Proof. unfold threat_confidence_from_level. by repeat case_match. Qed.

Lemma quoted_len s : strlen (quoted s) = (strlen s + 2)%nat.
Proof. unfold quoted. cbn [String.length]. rewrite strlen_app. cbn. lia. Qed.

Lemma alert_line_fits a : wf_alert a -> (strlen (alert_line a) < 256)%nat.
Proof.
  intros [Hp Ht Hs Hr]. unfold alert_line. rewrite !strlen_app.
  apply fmt_u_len_u32 in Hp, Ht. apply fmt_u_len_u64 in Hs.
  unfold VMI_ALERT_REASON_MAX in Hr. cbn [String.length]. lia.
Qed.

Lemma stream_payload_fits s a : wf_alert a -> (strlen (stream_payload s a) < 512)%nat.
Proof.
  intros [Hp Ht Hs Hr]. apply fmt_u_len_u32 in Hp, Ht. apply fmt_u_len_u64 in Hs.
  pose proof (threat_type_len (threat_level a)). pose proof (confidence_len (threat_level a)).
  pose proof (json_escape_len (reason a) 0 (2 * VMI_ALERT_REASON_MAX + 8) ltac:(cbv; lia)) as Hj.
  unfold VMI_ALERT_REASON_MAX in Hj. unfold stream_payload, helper_payload, full_payload.
  destruct (_ && _)%bool; rewrite !strlen_app, !quoted_len; cbn [String.length]; [lia|].
  unfold json_escape_string, VMI_ALERT_REASON_MAX. lia.
Qed.

(** ** The invariant of the bridge *)

Definition backoff_ok (s : stream_state) : Prop :=
  STREAM_RECONNECT_BASE_NS <= stream_reconnect_backoff_ns s <= STREAM_RECONNECT_MAX_NS.

(** No process has two live policy slots. *)
Definition policy_unique (tbl : list pid_policy_state) : Prop := slots_unique used ps_pid tbl.

Record wf_bridge (b : bridge) : Prop := {
  wb_queue : (length (alert_queue b) <= ALERT_QUEUE_SIZE)%nat;
  wb_alerts : Forall (fun q => wf_alert (alert q)) (alert_queue b);
  wb_table : length (policy_table b) = PID_POLICY_TABLE_SIZE;
  wb_unique : policy_unique (policy_table b);
  wb_backoff : backoff_ok (stream b);
}.

(** The alerts of the queue that wait for a flush. *)
Definition pending (b : bridge) : list vmi_alert :=
  omap (fun q => if sent_immediately q then None else Some (alert q)) (alert_queue b).

(** The monotonic clock works and is a pair of machine integers. *)
Class ClockWorks (W : Type) `{HostOS W} := {
  clock_works w : exists sec nsec w', clock_monotonic w = (Some (sec, nsec), w');
}.

#[global] Instance mock_clock_works : ClockWorks mock.
Proof. split. intros w. cbn. destruct (mk_clock w) as [|[a b] l]; [destruct (mk_now w)|]; eauto. Qed.

Section ops.
Context {W : Type} `{OS : HostOS W} (have_libbpf : bool).
Implicit Types (b : bridge) (w : W).

Lemma wp_os {A} (f : W -> A * W) st (Q : A -> bridge * W -> Prop) :
  Q (f st.2).1 (st.1, (f st.2).2) -> wp (os f) st Q.
Proof. intros HQ. eexists _, _. split; [|exact HQ]. unfold os. by destruct (f st.2). Qed.

Lemma wp_os_ (f : W -> W) st (Q : unit -> bridge * W -> Prop) :
  Q tt (st.1, f st.2) -> wp (os_ f) st Q.
Proof. intros HQ. by eexists _, _. Qed.

Lemma wp_bget {A} (f : bridge -> A) (st : bridge * W) (Q : A -> bridge * W -> Prop) :
  Q (f st.1) st -> wp (bget f) st Q.
Proof. intros HQ. by exists (f st.1), st. Qed.

Lemma wp_bset (f : bridge -> bridge) (st : bridge * W) (Q : unit -> bridge * W -> Prop) :
  Q tt (f st.1, st.2) -> wp (bset f) st Q.
Proof. intros HQ. by exists tt, (f st.1, st.2). Qed.
End ops.

(** [bstep]: one step of a bridge computation. *)
Ltac bstep :=
  match goal with
  | |- wp (os _) _ _ => apply wp_os
  | |- wp (os_ _) _ _ => apply wp_os_
  | |- wp (bget _) _ _ => apply wp_bget
  | |- wp (bset _) _ _ => apply wp_bset
  | |- wp (env _) _ _ => apply wp_gets
  | _ => wp_step
  end; cbn [fst snd].

Section stream.
Context {W : Type} `{OS : HostOS W} (have_libbpf : bool).
Implicit Types (b : bridge) (w : W).

(** An operation that changes the stream and nothing else of the bridge. *)
Definition stream_only b (st' : bridge * W) : Prop :=
  exists s', st'.1 = with_stream s' b /\ (backoff_ok (stream b) -> backoff_ok s').

Lemma stream_only_refl b w : stream_only b (b, w).
Proof. exists (stream b). by destruct b. Qed.

Lemma stream_only_trans b1 b2 w2 st3 :
  stream_only b1 (b2, w2) -> stream_only b2 st3 -> stream_only b1 st3.
Proof.
  intros (s1 & H1 & HB1) (s2 & H2 & HB2). cbn in *. subst b2. exists s2. split; [done|]. auto.
Qed.

Lemma next_backoff_ok x :
  STREAM_RECONNECT_BASE_NS <= x <= STREAM_RECONNECT_MAX_NS ->
  STREAM_RECONNECT_BASE_NS <= next_backoff x <= STREAM_RECONNECT_MAX_NS /\ x <= next_backoff x.
Proof.
  unfold next_backoff, STREAM_RECONNECT_BASE_NS, STREAM_RECONNECT_MAX_NS.
  intros Hx. destruct (_ <? _) eqn:E; boolify; unfold u64; lia.
Qed.

Lemma stream_disconnect_spec b w :
  wp (stream_disconnect (W := W)) (b, w) (fun _ st' => stream_only b st').
Proof.
  unfold stream_disconnect. do 2 bstep.
  repeat bstep; eexists; split; done.
Qed.

Lemma schedule_reconnect_spec now b w :
  wp (schedule_stream_reconnect (W := W) now) (b, w) (fun _ st' => stream_only b st').
Proof.
  unfold schedule_stream_reconnect. bstep. eexists. split; [done|].
  unfold backoff_ok. cbn. intros H. by apply next_backoff_ok in H as [? _].
Qed.

Lemma stream_connected_spec fd fp b w :
  wp (stream_connected (W := W) fd fp) (b, w) (fun _ st' => stream_only b st').
Proof.
  unfold stream_connected. bstep. eexists. split; [done|]. intros _.
  unfold backoff_ok, STREAM_RECONNECT_BASE_NS, STREAM_RECONNECT_MAX_NS. cbn. lia.
Qed.

Lemma stream_connect_spec now b w :
  wp (stream_connect_if_needed (W := W) now) (b, w) (fun _ st' => stream_only b st').
Proof.
  unfold stream_connect_if_needed. do 2 bstep.
  repeat (bstep || (eapply wp_mono; [apply schedule_reconnect_spec|]; intros)
                || (eapply wp_mono; [apply stream_connected_spec|]; intros)).
  all: try by apply stream_only_refl.
  all: done.
Qed.

(** A failed transmission disconnects and schedules the next attempt. *)
Lemma stream_drop_spec now b0 b w (Q : bool -> bridge * W -> Prop) :
  stream_only b0 (b, w) -> (forall st', stream_only b0 st' -> Q false st') ->
  wp (_ ← stream_disconnect; _ ← schedule_stream_reconnect now; mret false) (b, w) Q.
Proof.
  intros H0 HQ. bstep. eapply wp_mono; [apply stream_disconnect_spec|]. intros ? [b1 w1] H1.
  bstep. eapply wp_mono; [apply schedule_reconnect_spec|]. intros ? st2 H2. bstep. apply HQ.
  eapply stream_only_trans; [|exact H2]. by eapply stream_only_trans.
Qed.

Lemma stream_send_spec a b w :
  wp (stream_send_alert (W := W) a) (b, w) (fun _ st' => stream_only b st').
Proof.
  unfold stream_send_alert. bstep. eapply wp_mono; [apply stream_connect_spec|].
  intros up [b1 w1] H1. bstep; [by bstep|]. do 3 bstep; [by bstep|].
  assert (forall w', stream_only b (b1, w')) as Hw by done.
  repeat ((apply (stream_drop_spec _ b); [by apply Hw|]) || bstep); done.
Qed.

(** [b'] has, after the attempts of [b], one for each alert of [l], in order. *)
Definition tried (l : list vmi_alert) b b' : Prop :=
  exists xs, attempts b' = attempts b ++ xs /\ at_alert <$> xs = l.

Lemma tried_attempted l b b' : tried l b b' -> attempted b' = attempted b ++ l.
Proof. intros (xs & H1 & H2). unfold attempted. by rewrite H1, fmap_app, H2. Qed.

Lemma tried_nil b b' : attempts b' = attempts b -> tried [] b b'.
Proof. intros H. exists []. by rewrite app_nil_r. Qed.

Lemma tried_app l1 l2 b1 b2 b3 : tried l1 b1 b2 -> tried l2 b2 b3 -> tried (l1 ++ l2) b1 b3.
Proof.
  intros (xs & H1 & H2) (ys & H3 & H4). exists (xs ++ ys). by rewrite H3, H1, fmap_app, H2, H4, app_assoc.
Qed.

Lemma tried_prefix l b b' : tried l b b' -> attempts b `prefix_of` attempts b'.
Proof. intros (xs & H & _). by exists xs. Qed.

(** The map, or the log file, takes this alert. *)
Definition map_takes b a : Prop :=
  0 <= bpf_map_fd b /\
  forall w : W, if have_libbpf then (bpf_map_update (bpf_map_fd b) (al_pid a) (threat_level a) w).1 = 0
                else exists n, (sys_write (bpf_map_fd b) (alert_line a) w).1 = SysOk n.

(** [l] was handed out, in order; the queue and the policy table are untouched. *)
Record emits (l : list vmi_alert) b b' : Prop := {
  em_queue : alert_queue b' = alert_queue b;
  em_table : policy_table b' = policy_table b;
  em_map : bpf_map_fd b' = bpf_map_fd b;
  em_tried : tried l b b';
  em_backoff : backoff_ok (stream b) -> backoff_ok (stream b');
}.

Lemma write_map_spec a b w :
  wf_alert a ->
  wp (write_alert_to_map (W := W) have_libbpf a) (b, w) (fun rc st' => st'.1 = b /\ (map_takes b a -> rc = 0)).
Proof.
  intros Hwf. pose proof (alert_line_fits a Hwf). unfold write_alert_to_map, map_takes. bstep. bstep.
  destruct (bpf_map_fd b <? 0) eqn:E; boolify; [bstep; split; [done|lia]|]. destruct have_libbpf.
  - bstep. split; [done|]. intros [_ H']. apply H'.
  - cbv zeta. rewrite (proj2 (Nat.leb_gt _ _)) by done. bstep. bstep.
    destruct (sys_write _ _ w).1 as [n|e] eqn:Ew; bstep; (split; [done|]); [done|].
    intros [_ H']. destruct (H' w) as [n Hn]. congruence.
Qed.

Lemma emit_alert_spec a b w :
  wf_alert a ->
  wp (emit_alert (W := W) have_libbpf a) (b, w) (fun rc st' => emits [a] b st'.1 /\
    (exists sent, attempts st'.1 = attempts b ++ [Attempt a rc sent]) /\ (map_takes b a -> rc = 0)).
Proof.
  intros Hwf. unfold emit_alert. bstep.
  eapply wp_mono; [by apply write_map_spec|]. intros rc [b1 w1] [Hb Hrc]. cbn in Hb. subst b1.
  bstep. eapply wp_mono; [apply stream_send_spec|]. intros sent [b2 w2] (s' & Hb2 & Hbo).
  cbn in Hb2. subst b2. do 3 bstep. split; [|by split; [exists sent|]].
  split; cbn; [done..| |done]. by exists [Attempt a rc sent].
Qed.

Lemma flush_loop_spec q b w :
  Forall (fun e => wf_alert (alert e)) q ->
  wp (forM (S := bridge * W) q (fun e => if sent_immediately e then mret tt
                       else _ ← emit_alert have_libbpf (alert e); mret tt)) (b, w)
     (fun _ st' => emits (omap (fun e => if sent_immediately e then None else Some (alert e)) q)
                     b st'.1).
Proof.
  intros Hq. revert b w. induction Hq as [|e q He _ IH]; intros b w; cbn [forM].
  { bstep. split; cbn; [done..|by apply tried_nil|done]. }
  bstep. destruct (sent_immediately e) eqn:Es; cbn; rewrite ?Es; bstep; [by apply IH|].
  eapply wp_mono; [by apply emit_alert_spec|]. intros ? [b1 w1] [[H1 H2 H3 H4 H5] _]. bstep.
  eapply wp_mono; [apply IH|]. intros ? st' [G1 G2 G3 G4 G5]. cbn in *. split; try congruence.
  - by apply (tried_app [alert e] _ b b1).
  - auto.
Qed.

Lemma flush_spec b w :
  wf_bridge b ->
  wp (bridge_flush_alerts (W := W) have_libbpf) (b, w)
     (fun _ st' => wf_bridge st'.1 /\ alert_queue st'.1 = [] /\
        tried (pending b) b st'.1 /\ policy_table st'.1 = policy_table b /\
        bpf_map_fd st'.1 = bpf_map_fd b).
Proof.
  intros [Hq Ha Ht Hu Hb]. unfold bridge_flush_alerts. do 3 bstep; boolify.
  - apply nil_length_inv in E. bstep. unfold pending. rewrite E. cbn.
    split_and!; try done. by apply tried_nil.
  - bstep. eapply wp_mono; [by apply flush_loop_spec|].
    intros ? [b1 w1] [H1 H2 H3 H4 H5]. bstep. cbn in *. split_and!; try done.
    split; cbn; [lia|done|by rewrite H2|by rewrite H2|auto].
Qed.
End stream.

(** ** The policy table as a map from processes to policy states *)

Definition policy_fresh (pid : Z) : pid_policy_state := PolicyState pid 0 0 0 0 true.

#[local] Abbreviation owns := (owns used ps_pid).

(** The abstract policy state of a process: its slot, or the initial state. *)
Definition policy_of (tbl : list pid_policy_state) (pid : Z) : pid_policy_state :=
  default (policy_fresh pid) (find_key used ps_pid tbl pid).

Lemma policy_of_at tbl (i : nat) e :
  policy_unique tbl -> tbl !! i = Some e -> used e = true -> policy_of tbl (ps_pid e) = e.
Proof. intros Hu Hi Hl. unfold policy_of. by rewrite (find_key_at _ _ _ i e). Qed.

Lemma policy_scan_spec tbl pid i free :
  match policy_scan tbl pid i free with
  | inl k => exists j e, k = (i + j)%nat /\ tbl !! j = Some e /\ owns pid e
  | inr r =>
      (forall j e, tbl !! j = Some e -> ~ owns pid e) /\
      match free, r with
      | Some f, _ => r = Some f
      | None, Some k => exists j e, k = (i + j)%nat /\ tbl !! j = Some e /\ used e = false
      | None, None => Forall (fun e => used e = true) tbl
      end
  end.
Proof.
  revert i free. induction tbl as [|e tbl IH]; intros i free; cbn [policy_scan].
  { by destruct free. }
  destruct (used e && (ps_pid e =? pid)) eqn:E.
  { boolify. exists 0%nat, e. split_and!; [lia|done|done]. }
  assert (~ owns pid e) as Hno.
  { intros [Hu Hp]. rewrite Hu, Hp, Z.eqb_refl in E. done. }
  specialize (IH (S i) (if negb (used e) && (match free with None => true | Some _ => false end)
              then Some i else free)).
  destruct (policy_scan _ _ _ _) as [k|r].
  { destruct IH as (j & e' & -> & ? & ?). exists (S j), e'. split_and!; [lia|done|done]. }
  destruct IH as [Hn Hr]. split; [intros [|j] e'; cbn; [congruence|apply Hn]|].
  destruct (used e) eqn:Hused, free as [f|], r as [k|]; cbn in Hr; try done.
  - destruct Hr as (j & e' & -> & ? & ?). exists (S j), e'. split_and!; [lia|done|done].
  - by constructor.
  - simplify_eq. exists 0%nat, e. split_and!; [lia|done|done].
Qed.

Lemma get_policy_state_spec tbl pid :
  policy_unique tbl -> length tbl = PID_POLICY_TABLE_SIZE ->
  let '(i, tbl1) := get_policy_state tbl pid in
  slot_of used ps_pid tbl pid i tbl1 (policy_of tbl pid) /\
  (forall e, tbl !! i = Some e -> used e = true -> ps_pid e <> pid ->
     Forall (fun e => used e = true) tbl /\
     i = Z.to_nat (pid mod Z.of_nat PID_POLICY_TABLE_SIZE)).
Proof.
  intros Hu Hlen. unfold get_policy_state.
  pose proof (policy_scan_spec tbl pid 0 None) as Hs.
  destruct (policy_scan tbl pid 0 None) as [k|r].
  { destruct Hs as (j & e & -> & Hj & Ho). rewrite Nat.add_0_l. pose proof Ho as [Hl <-].
    rewrite (policy_of_at tbl j e) by done.
    split; [by apply slot_of_existing|]. congruence. }
  destruct Hs as [Hn Hr]. apply find_key_None in Hn.
  unfold policy_of. rewrite Hn. cbn [default]. split.
  - apply slot_of_taken; [done| |done]. destruct r as [k|].
    + destruct Hr as (j & e & -> & Hj & _). by apply lookup_lt_Some in Hj.
    + rewrite Hlen. unfold PID_POLICY_TABLE_SIZE. lia.
  - intros e He Hl _. destruct r as [k|]; [|done].
    destruct Hr as (j & e' & -> & Hj & ?). cbn in He. congruence.
Qed.

Section signal.
Context {W : Type} `{OS : HostOS W} (have_libbpf : bool).
Implicit Types (b : bridge) (w : W).

Lemma threat_step_owns pid st req now :
  owns pid st -> owns pid (threat_policy_step st req now).2.
Proof. intros [? ?]. unfold threat_policy_step. repeat case_match; done. Qed.

(** What one application of the policy does to the table of the bridge. *)
Record policy_applied pid req now b v b' : Prop := {
  pa_step : (v, policy_of (policy_table b') pid) =
            threat_policy_step (policy_of (policy_table b) pid) req now;
  pa_other : forall pid', pid' <> pid ->
     policy_of (policy_table b') pid' = policy_of (policy_table b) pid' \/
     (Forall (fun e => used e = true) (policy_table b) /\
      exists e, policy_table b !! Z.to_nat (pid mod Z.of_nat PID_POLICY_TABLE_SIZE) = Some e /\
                ps_pid e = pid');
  pa_live : forall (j : nat) e, policy_table b' !! j = Some e -> used e = true ->
     ps_pid e <> pid -> policy_table b !! j = Some e;
  pa_frame : b' = with_table (policy_table b') b;
}.

Lemma apply_policy_spec pid req now b w :
  wf_bridge b ->
  wp (apply_threat_policy (W := W) pid req now) (b, w)
     (fun v st' => policy_applied pid req now b v st'.1 /\ wf_bridge st'.1 /\ st'.2 = w).
Proof.
  intros [Hq Ha Ht Hu Hb]. unfold apply_threat_policy. do 2 bstep.
  pose proof (get_policy_state_spec _ pid Hu Ht) as Hs.
  destruct (get_policy_state _ pid) as [i tbl1]. destruct Hs as [Hs Hold].
  rewrite (so_at _ _ _ _ _ _ _ Hs).
  pose proof (threat_step_owns pid _ req now (so_owns _ _ _ _ _ _ _ Hs)) as Ho.
  destruct (threat_policy_step _ req now) as [v st'] eqn:Estep. cbn [snd] in Ho.
  do 3 bstep. pose proof (so_len _ _ _ _ _ _ _ Hs) as Hlen.
  pose proof (slot_update_unique _ _ _ _ _ _ _ _ Hu Hs Ho) as Hu'.
  split; [|by split; [split; cbn; rewrite ?length_insert, ?Hlen|]].
  split; cbn [policy_table with_table]; [| | |done].
  - unfold policy_of at 1. by rewrite Estep, (slot_update_find _ _ _ _ _ _ _ _ Hu Hs Ho).
  - intros pid' Hne. unfold policy_of.
    destruct (slot_update_other _ _ _ _ _ _ _ _ Hu Hs Ho pid' Hne) as [->|(e & He & [Hl <-] & _)].
    + by left.
    + right. destruct (Hold e He Hl Hne) as [? <-]. eauto.
  - intros j e Hj Hl Hne. by apply (slot_update_live _ _ _ _ _ _ _ _ Hs Ho) in Hj as [_ ?].
Qed.

(** ** The queue *)

(** Accepting [a]: nothing else is lost, reordered out or duplicated. *)
Record accepts (a : vmi_alert) b b' : Prop := {
  ac_conserve : attempted b' ++ pending b' ≡ₚ attempted b ++ pending b ++ [a];
  ac_history : attempts b `prefix_of` attempts b';
  ac_table : policy_table b' = policy_table b;
}.

Lemma pending_push a s b1 b2 :
  pending (with_queue (alert_queue b1 ++ [Queued a s]) b2) =
  pending b1 ++ (if s then [] else [a]).
Proof. unfold pending. cbn [alert_queue with_queue]. rewrite omap_app. by destruct s. Qed.

(** The flush at the head of [enqueue_alert]: afterwards there is room. *)
Lemma make_room_spec b w :
  wf_bridge b ->
  wp (if (ALERT_QUEUE_SIZE <=? length (alert_queue b))%nat
      then bridge_flush_alerts (W := W) have_libbpf else mret tt) (b, w)
     (fun _ st' => wf_bridge st'.1 /\ (length (alert_queue st'.1) < ALERT_QUEUE_SIZE)%nat /\
        attempted st'.1 ++ pending st'.1 = attempted b ++ pending b /\
        tried (if (ALERT_QUEUE_SIZE <=? length (alert_queue b))%nat then pending b else []) b st'.1 /\
        policy_table st'.1 = policy_table b /\ bpf_map_fd st'.1 = bpf_map_fd b).
Proof.
  intros Hwf. bstep; boolify.
  - eapply wp_mono; [by apply flush_spec|]. intros ? [b1 w1] (H1 & H2 & H3 & H4 & H5). cbn in *.
    unfold pending at 1. rewrite H2, (tried_attempted _ _ _ H3). cbn. rewrite app_nil_r.
    split_and!; [done|unfold ALERT_QUEUE_SIZE; lia|done..].
  - bstep. split_and!; try done. by apply tried_nil.
Qed.

Lemma enqueue_spec `{!ClockWorks W} pid threat why imm b w :
  wf_bridge b -> is_u32 pid -> is_u32 threat ->
  wp (enqueue_alert (W := W) have_libbpf pid threat why imm) (b, w)
     (fun _ st' => wf_bridge st'.1 /\ exists a, wf_alert a /\ accepts a b st'.1 /\
        al_pid a = pid /\ threat_level a = threat /\ reason a = strncpyz VMI_ALERT_REASON_MAX why /\
        (imm = true -> exists xs rc sent, attempts st'.1 = attempts b ++ xs ++ [Attempt a rc sent] /\
           at_alert <$> xs = (if (ALERT_QUEUE_SIZE <=? length (alert_queue b))%nat then pending b else []) /\
           (map_takes have_libbpf b a -> rc = 0) /\ last (alert_queue st'.1) = Some (Queued a true))).
Proof.
  intros Hwf Hp Ht. unfold enqueue_alert. do 3 bstep.
  eapply wp_mono; [by apply make_room_spec|]. intros u0 [b1 w1] (Hwf1 & Hroom & Hem & (xs & Hxs & Hal0) & Htbl & Hfd).
  cbn [fst] in *. do 2 bstep. rewrite (proj2 (Nat.leb_gt _ _)) by done. bstep.
  unfold get_timestamp_ns. do 2 bstep. destruct (clock_works w1) as (sec & nsec & w2 & Hc).
  rewrite Hc. cbn [fst snd]. bstep.
  set (a := Alert pid threat _ _).
  assert (wf_alert a) as Ha.
  { split; cbn; [done|done|apply u64_is_u64|]. pose proof (strlen_strncpyz VMI_ALERT_REASON_MAX why).
    unfold VMI_ALERT_REASON_MAX in *. lia. }
  destruct Hwf1 as [Hq Hal Hl Hu Hb].
  assert (forall s, Forall (fun q => wf_alert (alert q)) (alert_queue b1 ++ [Queued a s])) as Hal'.
  { intros s. by apply Forall_app_2; [|constructor]. }
  destruct imm.
  - do 3 bstep. eapply wp_mono; [by apply emit_alert_spec|].
    intros rc [b2 w3] [[E1 E2 E3 E4 E5] [(sent & E6) Hrc]]. bstep. cbn in *.
    split; [split; cbn; [rewrite length_app; cbn; lia|done|by rewrite E2|by rewrite E2|auto]|].
    exists a. split_and!; try done.
    + split; cbn [attempts with_queue policy_table]; [| |congruence].
      * change (attempted (with_queue _ b2)) with (attempted b2). rewrite (tried_attempted _ _ _ E4).
        change (attempted (with_queue _ b1)) with (attempted b1).
        rewrite pending_push, app_nil_r, (app_assoc (attempted b)), <- Hem. solve_Permutation.
      * rewrite E6, Hxs. exists (xs ++ [Attempt a rc sent]). by rewrite app_assoc.
    + intros _. exists xs, rc, sent. rewrite E6, Hxs, <- app_assoc. split_and!; try done.
      * intros [T1 T2]. apply Hrc. unfold map_takes. cbn. by rewrite Hfd.
      * apply last_snoc.
  - bstep. cbn in *.
    split; [split; cbn; [rewrite length_app; cbn; lia|done..]|].
    exists a. split_and!; try done.
    split; cbn [attempts with_queue policy_table]; [|by exists xs|done].
    change (attempted (with_queue _ b1)) with (attempted b1). by rewrite pending_push, !app_assoc, Hem.
Qed.

(** ** Signals *)

(** An alert of level [lvl] for the process was handed out, or, below the
    malicious level, waits in the queue. *)
Definition delivered b pid lvl : Prop :=
  exists a, (a ∈ attempted b \/ (lvl <> VMI_THREAT_MALICIOUS /\ a ∈ pending b)) /\
            al_pid a = pid /\ threat_level a = lvl.

(** The level a policy slot remembers was delivered. *)
Definition accounted b : Prop :=
  forall (j : nat) e, policy_table b !! j = Some e -> used e = true ->
    last_effective_threat e <> VMI_THREAT_CLEAN -> delivered b (ps_pid e) (last_effective_threat e).

Lemma accepts_delivered a b b' pid lvl :
  accepts a b b' -> delivered b pid lvl -> delivered b' pid lvl.
Proof.
  intros [Hc [l Hh] _] (x & Hx & Hp & Hl). exists x. split; [|done].
  destruct Hx as [Hx|[Hm Hx]]; [left; unfold attempted in *; rewrite Hh, fmap_app; set_solver|].
  assert (x ∈ attempted b' ++ pending b') as Hx' by (rewrite Hc; set_solver).
  apply elem_of_app in Hx' as [?|?]; auto.
Qed.

Definition alarm_level (lvl : Z) : Prop :=
  lvl = VMI_THREAT_SUSPICIOUS \/ lvl = VMI_THREAT_MALICIOUS.

Lemma threat_step_levels st req now v st' :
  alarm_level req -> threat_policy_step st req now = (v, st') ->
  alarm_level (effective v) /\ (req = VMI_THREAT_MALICIOUS -> effective v = VMI_THREAT_MALICIOUS) /\
  last_effective_threat st' = effective v /\
  (suppress_emit v = true -> last_effective_threat st = effective v).
Proof.
  unfold threat_policy_step, alarm_level, VMI_THREAT_SUSPICIOUS, VMI_THREAT_MALICIOUS.
  intros Hreq Hs. repeat case_match; simplify_eq/=; boolify; split_and!; intros; boolify; lia.
Qed.

Lemma delivered_table b t pid lvl :
  delivered (with_table t b) pid lvl <-> delivered b pid lvl.
Proof. done. Qed.

(** The slot of [pid] after the policy, and the others, are accounted for. *)
Lemma accounted_table pid req now b v b1 b' :
  accounted b -> wf_bridge b1 -> policy_applied pid req now b v b1 ->
  policy_table b' = policy_table b1 ->
  last_effective_threat (policy_of (policy_table b1) pid) = effective v ->
  delivered b' pid (effective v) ->
  (forall p l, delivered b p l -> delivered b' p l) -> accounted b'.
Proof.
  intros Hacc Hwf [Hst Ho Hlive Hf] Ht Hl Hd Hmono j e Hj Hused Hlvl. rewrite Ht in Hj.
  destruct (decide (ps_pid e = pid)) as [<-|Hne].
  - rewrite (policy_of_at _ j e) in Hl by (done || apply Hwf). by rewrite Hl.
  - apply Hmono. eapply (Hacc j); eauto.
Qed.

(** What a signal does: the policy decides, and the alert is delivered now, or
    a previous one of the same level was. *)
Record signalled pid req b b' : Prop := {
  sg_wf : wf_bridge b';
  sg_accounted : accounted b';
  sg_delivered : exists now, delivered b' pid
     (effective (threat_policy_step (policy_of (policy_table b) pid) req now).1);
  sg_mono : forall p l, delivered b p l -> delivered b' p l;
  sg_history : attempts b `prefix_of` attempts b';
}.

Lemma policy_enqueue_spec `{!ClockWorks W} pid req now why (imm : verdict -> bool) b w :
  wf_bridge b -> accounted b -> is_u32 pid -> alarm_level req ->
  (forall v, effective v = VMI_THREAT_MALICIOUS -> imm v = true) ->
  wp (v ← apply_threat_policy (W := W) pid req now;
      if suppress_emit v then mret tt
      else enqueue_alert have_libbpf pid (effective v) why (imm v)) (b, w)
     (fun _ st' => signalled pid req b st'.1).
Proof.
  intros Hwf Hacc Hpid Hreq Himm. bstep.
  eapply wp_mono; [by apply apply_policy_spec|]. intros v [b1 w1] (Hpa & Hwf1 & _). cbn [fst] in *.
  pose proof (pa_step _ _ _ _ _ _ Hpa) as Hst.
  destruct (threat_step_levels _ _ _ _ _ Hreq (eq_sym Hst)) as (Hlvl & Hmal & Hlast & Hsup).
  pose proof (pa_frame _ _ _ _ _ _ Hpa) as Hf.
  assert (forall p l, delivered b p l -> delivered b1 p l) as Hmono1 by (rewrite Hf; done).
  assert (is_u32 (effective v)) as Heff.
  { destruct Hlvl as [->| ->]; done. }
  bstep.
  - bstep. cbn [fst].
    assert (delivered b1 pid (effective v)) as Hd.
    { apply Hmono1. specialize (Hsup eq_refl).
      unfold policy_of in Hsup.
      destruct (find_key _ _ (policy_table b) pid) as [e|] eqn:Ef; cbn in Hsup.
      - apply find_key_Some in Ef as (j & Hj & Hl & <-). rewrite <- Hsup.
        apply (Hacc j); [done|done|]. rewrite Hsup. by destruct Hlvl as [->| ->].
      - rewrite <- Hsup in Hlvl. by destruct Hlvl. }
    split; [done| |exists now; by rewrite <- Hst|done|by rewrite Hf]. by eapply accounted_table.
  - eapply wp_mono; [by apply enqueue_spec|].
    intros u [b2 w2] (Hwf2 & a & Ha & Hac & Hap & Hat & _ & Hem). cbn [fst] in *.
    assert (delivered b2 pid (effective v)) as Hd.
    { exists a. split; [|done]. destruct Hlvl as [Hl|Hl]; [|left].
      2:{ destruct (Hem (Himm v Hl)) as (xs & rc & sent & Ex & _). unfold attempted. rewrite Ex, !fmap_app. set_solver. }
      assert (a ∈ attempted b2 ++ pending b2) as Hin.
      { rewrite (ac_conserve _ _ _ Hac). set_solver. }
      apply elem_of_app in Hin as [?|?]; [by left|right; by rewrite Hl]. }
    assert (forall p l, delivered b p l -> delivered b2 p l) as Hmono2.
    { intros p l Hpl. eapply accepts_delivered; [done|]. by apply Hmono1. }
    split; [done| |exists now; by rewrite <- Hst|done|by rewrite Hf in Hac; apply Hac].
    pose proof (ac_table _ _ _ Hac) as Htbl.
    eapply (accounted_table pid req now b v b1); done.
Qed.

Lemma wp_timestamp `{!ClockWorks W} b w (Q : Z -> bridge * W -> Prop) :
  (forall t w', is_u64 t -> Q t (b, w')) -> wp (get_timestamp_ns (W := W)) (b, w) Q.
Proof.
  intros HQ. unfold get_timestamp_ns. do 2 bstep.
  destruct (clock_works w) as (sec & nsec & w2 & ->). cbn [fst snd]. bstep.
  apply HQ, u64_is_u64.
Qed.

Lemma signal_malicious_spec `{!ClockWorks W} pid why b w :
  wf_bridge b -> accounted b -> is_u32 pid ->
  wp (bridge_signal_malicious (W := W) have_libbpf pid why) (b, w)
     (fun _ st' => signalled pid VMI_THREAT_MALICIOUS b st'.1).
Proof.
  intros Hwf Hacc Hp. unfold bridge_signal_malicious. bstep. apply wp_timestamp. intros t w1 Ht.
  apply (policy_enqueue_spec pid VMI_THREAT_MALICIOUS t why (fun _ => true));
    [done..|by right|done].
Qed.

Lemma signal_suspicious_spec `{!ClockWorks W} pid why b w :
  wf_bridge b -> accounted b -> is_u32 pid ->
  wp (bridge_signal_suspicious (W := W) have_libbpf pid why) (b, w)
     (fun _ st' => signalled pid VMI_THREAT_SUSPICIOUS b st'.1).
Proof.
  intros Hwf Hacc Hp. unfold bridge_signal_suspicious. bstep. apply wp_timestamp. intros t w1 Ht.
  apply (policy_enqueue_spec pid VMI_THREAT_SUSPICIOUS t why
           (fun v => effective v =? VMI_THREAT_MALICIOUS)); [done..|by left|].
  intros v ->. done.
Qed.

Lemma signalled_level pid req b b' :
  alarm_level req -> signalled pid req b b' ->
  exists l, alarm_level l /\ (req = VMI_THREAT_MALICIOUS -> l = VMI_THREAT_MALICIOUS) /\
            delivered b' pid l.
Proof.
  intros Hreq [_ _ (now & Hd) _ _]. destruct (threat_policy_step _ _ _) as [v st'] eqn:Es.
  destruct (threat_step_levels _ _ _ _ _ Hreq Es) as (? & ? & _). by exists (effective v).
Qed.
End signal.

(** ** What the bridge promises to the detectors

    [ok] is the invariant of the sink; [reported st pid lvl] that an alert of
    that level for the process has been taken.  A report is total, keeps the
    invariant, is recorded, and never withdraws an earlier one. *)

Class AlertSink {W : Type} `{OS : HostOS W} (have_libbpf : bool)
    (ok : bridge * W -> Prop) (reported : bridge * W -> Z -> Z -> Prop) := {
  sink_suspicious pid why st : ok st -> is_u32 pid ->
    wp (bridge_signal_suspicious have_libbpf pid why) st (fun _ st' => ok st' /\
       (exists l, alarm_level l /\ reported st' pid l) /\
       forall p l, reported st p l -> reported st' p l);
  sink_malicious pid why st : ok st -> is_u32 pid ->
    wp (bridge_signal_malicious have_libbpf pid why) st (fun _ st' => ok st' /\
       reported st' pid VMI_THREAT_MALICIOUS /\
       forall p l, reported st p l -> reported st' p l);
}.

Definition bridge_ok {W} (st : bridge * W) : Prop := wf_bridge st.1 /\ accounted st.1.
Definition bridge_reported {W} (st : bridge * W) (pid lvl : Z) : Prop := delivered st.1 pid lvl.

#[global] Instance bridge_alert_sink {W} `{OS : HostOS W, !ClockWorks W} have_libbpf :
  AlertSink (W := W) have_libbpf bridge_ok bridge_reported.
Proof.
  split; intros pid why [b w] [Hwf Hacc] Hp.
  - eapply wp_mono; [by apply signal_suspicious_spec|]. intros u [b' w'] Hs.
    destruct (signalled_level _ _ _ _ ltac:(by left) Hs) as (l & Hl & _ & Hd), Hs as [? ? _ Hm _].
    split_and!; [done|by exists l|done].
  - eapply wp_mono; [by apply signal_malicious_spec|]. intros u [b' w'] Hs.
    destruct (signalled_level _ _ _ _ ltac:(by right) Hs) as (l & Hl & Hlm & Hd).
    rewrite Hlm in Hd by done. destruct Hs as [? ? _ Hm _]. by split_and!.
Qed.

(** The same sink, with the attempts made since some moment. *)
Definition bridge_since {W} (base : list attempt) (st : bridge * W) : Prop :=
  bridge_ok st /\ base `prefix_of` attempts st.1.

#[global] Instance bridge_history_sink {W} `{OS : HostOS W, !ClockWorks W} have_libbpf base :
  AlertSink (W := W) have_libbpf (bridge_since base) bridge_reported.
Proof.
  split; intros pid why [b w] [[Hwf Hacc] Hb] Hp.
  - eapply wp_mono; [by apply signal_suspicious_spec|]. intros u [b' w'] Hs.
    destruct (signalled_level _ _ _ _ ltac:(by left) Hs) as (l & Hl & _ & Hd), Hs as [? ? _ Hm Hh].
    split_and!; [split; [done|by etransitivity]|by exists l|done].
  - eapply wp_mono; [by apply signal_malicious_spec|]. intros u [b' w'] Hs.
    destruct (signalled_level _ _ _ _ ltac:(by right) Hs) as (l & Hl & Hlm & Hd).
    rewrite Hlm in Hd by done. destruct Hs as [? ? _ Hm Hh]. split_and!; [split; [done|by etransitivity]|done|done].
Qed.

(** ** Bursts *)

(** The verdicts of a sequence of requests (level, time) for one process. *)
Fixpoint policy_run (st : pid_policy_state) (reqs : list (Z * Z))
  : list verdict * pid_policy_state :=
  match reqs with
  | [] => ([], st)
  | (lvl, now) :: reqs' =>
      let '(v, st1) := threat_policy_step st lvl now in
      let '(vs, st2) := policy_run st1 reqs' in
      (v :: vs, st2)
  end.

Lemma suspicious_step_in_window st t0 now k :
  burst_window_start_ns st = t0 -> suspicious_burst st = k -> 0 < t0 -> 0 <= k < 4294967295 ->
  t0 <= now <= t0 + POLICY_ESCALATION_WINDOW_NS -> is_u64 now ->
  let '(v, st') := threat_policy_step st VMI_THREAT_SUSPICIOUS now in
  burst_window_start_ns st' = t0 /\ suspicious_burst st' = k + 1 /\
  escalated v = (3 <=? k + 1) /\
  effective v = (if 3 <=? k + 1 then VMI_THREAT_MALICIOUS else VMI_THREAT_SUSPICIOUS) /\
  (escalated v = true -> suppress_emit v = false).
Proof.
  intros H1 H2 Hpos Hk Hnow Hu. unfold threat_policy_step. rewrite Z.eqb_refl, H1, H2.
  assert ((t0 =? 0) = false) as -> by lia.
  assert ((POLICY_ESCALATION_WINDOW_NS <? u64 (now - t0)) = false) as ->.
  { apply Z.ltb_ge. unfold POLICY_ESCALATION_WINDOW_NS in *. ulia. }
  cbn [orb]. cbv iota. assert (u32 (k + 1) = k + 1) as -> by ulia.
  change POLICY_ESCALATION_COUNT with 3. destruct (3 <=? k + 1); cbn; rewrite ?andb_false_r; done.
Qed.

(** The first suspicious request of a new window opens it. *)
Lemma suspicious_step_opens st now :
  (burst_window_start_ns st = 0 \/
   POLICY_ESCALATION_WINDOW_NS < u64 (now - burst_window_start_ns st)) ->
  let '(v, st') := threat_policy_step st VMI_THREAT_SUSPICIOUS now in
  burst_window_start_ns st' = now /\ suspicious_burst st' = 1 /\
  escalated v = false /\ effective v = VMI_THREAT_SUSPICIOUS.
Proof.
  intros Hw. unfold threat_policy_step. rewrite Z.eqb_refl.
  assert ((burst_window_start_ns st =? 0) ||
          (POLICY_ESCALATION_WINDOW_NS <? u64 (now - burst_window_start_ns st)) = true) as ->.
  { destruct Hw as [->|Hw]; [done|]. apply orb_true_iff. right. by apply Z.ltb_lt. }
  done.
Qed.

Lemma burst_index_shift k : (3 <=? k + 1) = (2 <=? k + Z.of_nat 0).
Proof. apply Bool.eq_iff_eq_true. rewrite !Z.leb_le. lia. Qed.

Lemma burst_tail st t0 k ts i v :
  burst_window_start_ns st = t0 -> suspicious_burst st = k -> 0 < t0 -> 0 <= k ->
  k + Z.of_nat (length ts) < 4294967295 ->
  Forall (fun t => is_u64 t /\ t0 <= t <= t0 + POLICY_ESCALATION_WINDOW_NS) ts ->
  (policy_run st (map (pair VMI_THREAT_SUSPICIOUS) ts)).1 !! i = Some v ->
  escalated v = (2 <=? k + Z.of_nat i) /\
  effective v = (if 2 <=? k + Z.of_nat i then VMI_THREAT_MALICIOUS else VMI_THREAT_SUSPICIOUS) /\
  (escalated v = true -> suppress_emit v = false).
Proof.
  intros H1 H2 Hpos Hk Hlen Hts. revert st k i H1 H2 Hk Hlen.
  induction Hts as [|t ts [Hu Ht] _ IH]; intros st k i H1 H2 Hk Hlen Hi; [done|].
  cbn [map policy_run] in Hi. cbn [length] in Hlen.
  pose proof (suspicious_step_in_window st t0 t k H1 H2 Hpos ltac:(lia) Ht Hu) as Hs.
  destruct (threat_policy_step _ _ _) as [v0 st1]. destruct Hs as (G1 & G2 & G3 & G4 & G5).
  specialize (IH st1 (k + 1)).
  destruct (policy_run st1 _) as [vs st2]. destruct i as [|i]; cbn in Hi.
  - simplify_eq. rewrite G3 in *. rewrite G4.
    by rewrite (burst_index_shift (suspicious_burst st)) in *.
  - replace (k + Z.of_nat (S i)) with (k + 1 + Z.of_nat i) by lia.
    apply IH; [done|done|lia|lia|done].
Qed.

(** ** The claims *)

(** Escalation: in a fresh observation window, the n-th suspicious request
    for a process within ten seconds of the first is raised to malicious exactly
    when n is at least three, and a raised request is never suppressed as a
    duplicate.  (The clock is a nonzero 64-bit value and there are fewer than
    2^32 - 1 requests.) *)
Theorem suspicious_burst_escalates st t0 ts i v :
  0 < t0 -> is_u64 t0 ->
  (burst_window_start_ns st = 0 \/
   POLICY_ESCALATION_WINDOW_NS < u64 (t0 - burst_window_start_ns st)) ->
  Forall (fun t => is_u64 t /\ t0 <= t <= t0 + POLICY_ESCALATION_WINDOW_NS) ts ->
  Z.of_nat (length ts) < 4294967294 ->
  (policy_run st (map (pair VMI_THREAT_SUSPICIOUS) (t0 :: ts))).1 !! i = Some v ->
  (escalated v = true <-> (2 <= i)%nat) /\
  effective v = (if (2 <=? i)%nat then VMI_THREAT_MALICIOUS else VMI_THREAT_SUSPICIOUS) /\
  (escalated v = true -> suppress_emit v = false).
Proof.
  intros Hpos Hu Hopen Hts Hlen Hi. cbn [map policy_run] in Hi.
  pose proof (suspicious_step_opens st t0 Hopen) as Hs.
  destruct (threat_policy_step _ _ _) as [v0 st1]. destruct Hs as (G1 & G2 & G3 & G4).
  pose proof (burst_tail st1 t0 1 ts (pred i) v G1 G2 Hpos ltac:(lia) ltac:(lia) Hts) as IH.
  destruct (policy_run st1 _) as [vs st2]. destruct i as [|i]; cbn in Hi.
  - simplify_eq. rewrite G3, G4. split_and!; [split; [done|lia]|done|done].
  - destruct (IH Hi) as (E1 & E2 & E3). cbn [pred] in *. split_and!; [|rewrite E2|done].
    + rewrite E1, Z.leb_le. lia.
    + destruct (2 <=? 1 + Z.of_nat i) eqn:Ea, (2 <=? S i)%nat eqn:Eb; boolify; (done || lia).
Qed.

Lemma suspicious_burst_escalates_witness :
  exists v, (policy_run policy_zero (map (pair VMI_THREAT_SUSPICIOUS) [5; 7; 9])).1 !! 2%nat = Some v /\
            effective v = VMI_THREAT_MALICIOUS.
Proof.
  exists (Verdict VMI_THREAT_MALICIOUS false true). split; [reflexivity|].
  apply (suspicious_burst_escalates policy_zero 5 [7; 9] 2
           (Verdict VMI_THREAT_MALICIOUS false true)).
  - lia.
  - ulia.
  - by left.
  - repeat constructor; unfold POLICY_ESCALATION_WINDOW_NS; ulia.
  - cbn. lia.
  - reflexivity.
Defined.

(** The state at program start satisfies the invariants. *)
Lemma bridge_boot_wf : wf_bridge bridge_boot.
Proof.
  split; cbn -[replicate].
  - unfold ALERT_QUEUE_SIZE. lia.
  - done.
  - apply length_replicate.
  - by apply slots_unique_dead.
  - unfold backoff_ok, STREAM_RECONNECT_BASE_NS, STREAM_RECONNECT_MAX_NS. cbn. lia.
Qed.

Lemma zero_table_accounted b :
  policy_table b = replicate PID_POLICY_TABLE_SIZE policy_zero -> accounted b.
Proof. intros Ht j e Hj Hu. rewrite Ht in Hj. apply lookup_replicate in Hj as [-> _]. done. Qed.

(** A malicious signal whose alert the policy does not suppress. *)
Lemma malicious_exact {W} `{OS : HostOS W, !ClockWorks W} have_libbpf pid why b (w : W) :
  wf_bridge b -> is_u32 pid ->
  exists now w1 b' w', get_timestamp_ns (b, w) = Some (now, (b, w1)) /\
    bridge_signal_malicious have_libbpf pid why (b, w) = Some (tt, (b', w')) /\ wf_bridge b' /\
    let p := policy_of (policy_table b) pid in
    let p' := policy_of (policy_table b') pid in
    last_effective_threat p' = VMI_THREAT_MALICIOUS /\
    if (VMI_THREAT_MALICIOUS =? last_effective_threat p) && (u64 (now - last_emit_ns p) <? POLICY_DEDUP_WINDOW_NS)
    then attempts b' = attempts b /\ alert_queue b' = alert_queue b /\ last_emit_ns p' = last_emit_ns p
    else last_emit_ns p' = now /\
      exists a xs rc sent, attempts b' = attempts b ++ xs ++ [Attempt a rc sent] /\
        at_alert <$> xs = (if (ALERT_QUEUE_SIZE <=? length (alert_queue b))%nat then pending b else []) /\
        al_pid a = pid /\ threat_level a = VMI_THREAT_MALICIOUS /\ reason a = strncpyz VMI_ALERT_REASON_MAX why /\
        (map_takes (W := W) have_libbpf b a -> rc = 0) /\ last (alert_queue b') = Some (Queued a true).
Proof.
  intros Hwf Hp.
  assert (exists now w1, is_u64 now /\ get_timestamp_ns (b, w) = Some (now, (b, w1))) as (now & w1 & Hn & Ht).
  { destruct (wp_timestamp b w (fun t st => is_u64 t /\ st.1 = b)) as (t & [b1 w1] & Hr & Hu & Hb); [done|].
    cbn in Hb. subst b1. by exists t, w1. }
  cut (wp (bridge_signal_malicious have_libbpf pid why) (b, w) (fun _ st' => wf_bridge st'.1 /\
    let p := policy_of (policy_table b) pid in
    let p' := policy_of (policy_table st'.1) pid in
    last_effective_threat p' = VMI_THREAT_MALICIOUS /\
    if (VMI_THREAT_MALICIOUS =? last_effective_threat p) && (u64 (now - last_emit_ns p) <? POLICY_DEDUP_WINDOW_NS)
    then attempts st'.1 = attempts b /\ alert_queue st'.1 = alert_queue b /\ last_emit_ns p' = last_emit_ns p
    else last_emit_ns p' = now /\
      exists a xs rc sent, attempts st'.1 = attempts b ++ xs ++ [Attempt a rc sent] /\
        at_alert <$> xs = (if (ALERT_QUEUE_SIZE <=? length (alert_queue b))%nat then pending b else []) /\
        al_pid a = pid /\ threat_level a = VMI_THREAT_MALICIOUS /\ reason a = strncpyz VMI_ALERT_REASON_MAX why /\
        (map_takes (W := W) have_libbpf b a -> rc = 0) /\ last (alert_queue st'.1) = Some (Queued a true))).
  { intros ([] & [b' w'] & Hr & H1 & H2). exists now, w1, b', w'. by split_and!. }
  unfold bridge_signal_malicious. bstep. exists now, (b, w1). split; [exact Ht|]. bstep.
  eapply wp_mono; [by apply apply_policy_spec|]. intros v [b1 w2] (Hpa & Hwf1 & _). cbn [fst] in *.
  pose proof (pa_step _ _ _ _ _ _ Hpa) as Hst. pose proof (pa_frame _ _ _ _ _ _ Hpa) as Hf.
  unfold threat_policy_step in Hst. change (VMI_THREAT_MALICIOUS =? VMI_THREAT_SUSPICIOUS) with false in Hst.
  cbv beta iota in Hst. set (p := policy_of (policy_table b) pid) in *. rewrite andb_true_r in Hst.
  destruct ((VMI_THREAT_MALICIOUS =? last_effective_threat p) && _) eqn:Es; injection Hst as Hv Hp1; rewrite Hv; cbn [suppress_emit effective].
  - bstep. cbn [fst]. split; [done|]. cbv zeta. rewrite Hp1. cbn [last_effective_threat last_emit_ns].
    boolify. split; [congruence|]. rewrite Hf. by split_and!.
  - eapply wp_mono; [by apply enqueue_spec|].
    intros u [b2 w3] (Hwf2 & a & Ha & Hac & Hap & Hat & Hre & Hem). cbn [fst] in *. split; [done|]. cbv zeta.
    rewrite (ac_table _ _ _ Hac), Hp1. cbn [last_effective_threat last_emit_ns]. split; [done|]. split; [done|].
    destruct (Hem eq_refl) as (xs & rc & sent & E1 & E2 & E3 & E4). rewrite Hf in E1, E2, E3.
    exists a, xs, rc, sent. by split_and!.
Qed.

(** C33. A malicious signal is handed out at once, and suppressed only as a duplicate:
    [bridge_signal_malicious] returns for any queue, policy table and stream.  When the
    last alert for the process was malicious and less than one second old, nothing is
    handed out; otherwise this call hands exactly one new alert, with the process, the
    malicious level and the reason, to the map and then to the stream, after the waiting
    alerts if the queue was full.  The results of both outputs are recorded, a failure is
    not repeated, and the map's result is 0 when the map takes the alert. *)
Theorem bridge_signal_malicious_exact {W} `{OS : HostOS W, !ClockWorks W} have_libbpf pid why b (w : W) :
  wf_bridge b -> is_u32 pid ->
  exists now w1 b' w', get_timestamp_ns (b, w) = Some (now, (b, w1)) /\
    bridge_signal_malicious have_libbpf pid why (b, w) = Some (tt, (b', w')) /\ wf_bridge b' /\
    let p := policy_of (policy_table b) pid in
    let p' := policy_of (policy_table b') pid in
    last_effective_threat p' = VMI_THREAT_MALICIOUS /\
    if (VMI_THREAT_MALICIOUS =? last_effective_threat p) && (u64 (now - last_emit_ns p) <? 1000000000)
    then attempts b' = attempts b /\ alert_queue b' = alert_queue b /\ last_emit_ns p' = last_emit_ns p
    else last_emit_ns p' = now /\
      exists a xs rc sent, attempts b' = attempts b ++ xs ++ [Attempt a rc sent] /\
        at_alert <$> xs = (if (ALERT_QUEUE_SIZE <=? length (alert_queue b))%nat then pending b else []) /\
        al_pid a = pid /\ threat_level a = VMI_THREAT_MALICIOUS /\ reason a = strncpyz VMI_ALERT_REASON_MAX why /\
        (map_takes (W := W) have_libbpf b a -> rc = 0) /\ last (alert_queue b') = Some (Queued a true).
Proof. apply malicious_exact. Qed.

Lemma bridge_signal_malicious_exact_witness :
  exists b' w' a rc sent, bridge_signal_malicious (W := mock) false 42 "pt write" (bridge_boot, mock_init)
      = Some (tt, (b', w')) /\ attempts b' = [Attempt a rc sent] /\ al_pid a = 42.
Proof.
  destruct (bridge_signal_malicious_exact (W := mock) false 42 "pt write" bridge_boot mock_init)
    as (now & w1 & b' & w' & _ & Hr & _ & _ & Hx).
  - exact bridge_boot_wf.
  - ulia.
  - destruct Hx as (_ & a & xs & rc & sent & E1 & E2 & E3 & _). destruct xs as [|x xs]; [|discriminate E2].
    exists b', w', a, rc, sent. exact (conj Hr (conj E1 E3)).
Defined.

(** A suspicious signal runs to completion on every state, keeps the
    invariants, and leaves an alert for the process, at the level the policy
    decides, handed out or waiting in the queue; if the policy raises it to
    malicious, it was handed out at once. *)
Theorem bridge_signal_suspicious_accounts {W} `{OS : HostOS W, !ClockWorks W}
    have_libbpf pid why b w :
  wf_bridge b -> accounted b -> is_u32 pid ->
  exists b' w' now, bridge_signal_suspicious have_libbpf pid why (b, w) = Some (tt, (b', w')) /\
    wf_bridge b' /\ accounted b' /\
    delivered b' pid (effective (threat_policy_step (policy_of (policy_table b) pid)
                                   VMI_THREAT_SUSPICIOUS now).1) /\
    (forall p l, delivered b p l -> delivered b' p l).
Proof.
  intros Hwf Hacc Hp.
  destruct (signal_suspicious_spec have_libbpf pid why b w Hwf Hacc Hp)
    as ([] & [b' w'] & Hr & [H1 H2 (now & Hd) H4]).
  by exists b', w', now.
Qed.

Lemma bridge_signal_suspicious_accounts_witness :
  exists b' w', bridge_signal_suspicious (W := mock) false 42 "orphan" (bridge_boot, mock_init)
    = Some (tt, (b', w')) /\ accounted b'.
Proof.
  destruct (bridge_signal_suspicious_accounts (W := mock) false 42 "orphan" bridge_boot mock_init)
    as (b' & w' & now & H1 & _ & H2 & _).
  - exact bridge_boot_wf.
  - by apply zero_table_accounted.
  - ulia.
  - exists b', w'. exact (conj H1 H2).
Defined.

(** Conservation of alerts: [enqueue_alert] on a well-formed bridge runs to
    completion; it accepts exactly one new alert, with the caller's process,
    level and (truncated) reason; every alert that was handed out or waiting still
    is, exactly once, history is only extended, and an immediate alert is handed out
    before the call returns.  A full queue is flushed, never dropped, and the
    queue stays within its 256 entries. *)
Theorem enqueue_alert_conserves {W} `{OS : HostOS W, !ClockWorks W}
    have_libbpf pid threat why imm b w :
  wf_bridge b -> is_u32 pid -> is_u32 threat ->
  exists b' w' a, enqueue_alert have_libbpf pid threat why imm (b, w) = Some (tt, (b', w')) /\
    al_pid a = pid /\ threat_level a = threat /\ reason a = strncpyz VMI_ALERT_REASON_MAX why /\
    attempted b' ++ pending b' ≡ₚ attempted b ++ pending b ++ [a] /\
    attempted b `prefix_of` attempted b' /\ (imm = true -> a ∈ attempted b') /\
    (length (alert_queue b') <= ALERT_QUEUE_SIZE)%nat /\ wf_bridge b'.
Proof.
  intros Hwf Hp Ht.
  destruct (enqueue_spec have_libbpf pid threat why imm b w Hwf Hp Ht)
    as ([] & [b' w'] & Hr & Hwf' & a & Ha & [H1 H2 H3] & H4 & H5 & H6 & H7).
  cbn [fst] in *. exists b', w', a. split_and!; try done; [| |apply Hwf'].
  - destruct H2 as [xs E]. unfold attempted. rewrite E, fmap_app. by exists (at_alert <$> xs).
  - intros ->. destruct (H7 eq_refl) as (xs & rc & sent & E & _). unfold attempted. rewrite E, !fmap_app. set_solver.
Qed.

Lemma enqueue_alert_conserves_witness :
  exists b' w' a, enqueue_alert (W := mock) false 7 1 "x" true (bridge_boot, mock_init)
    = Some (tt, (b', w')) /\ a ∈ attempted b'.
Proof.
  destruct (enqueue_alert_conserves (W := mock) false 7 1 "x" true bridge_boot mock_init)
    as (b' & w' & a & H1 & _ & _ & _ & _ & _ & H2 & _).
  - exact bridge_boot_wf.
  - ulia.
  - ulia.
  - exists b', w', a. exact (conj H1 (H2 eq_refl)).
Defined.

(** A flush empties the queue and hands out exactly the alerts that were
    waiting, in queue order, skipping those already sent; a bridge teardown does
    the same and closes the alert map. *)
Theorem bridge_flush_emits_pending {W} `{OS : HostOS W} have_libbpf b w :
  wf_bridge b ->
  exists b' w', bridge_flush_alerts have_libbpf (b, w) = Some (tt, (b', w')) /\
    alert_queue b' = [] /\ attempted b' = attempted b ++ pending b /\ wf_bridge b' /\
    exists b2 w2, bridge_teardown have_libbpf (b, w) = Some (tt, (b2, w2)) /\
      attempted b2 = attempted b ++ pending b /\ alert_queue b2 = [] /\ bpf_map_fd b2 < 0.
Proof.
  intros Hwf. destruct (flush_spec have_libbpf b w Hwf) as ([] & [b' w'] & Hr & H1 & H2 & H3%tried_attempted & _ & H4).
  exists b', w'. split_and!; try done. cbn in *.
  cut (wp (bridge_teardown have_libbpf) (b, w) (fun _ st' => attempted st'.1 = attempted b ++ pending b /\
         alert_queue st'.1 = [] /\ bpf_map_fd st'.1 < 0)).
  { intros ([] & [b2 w2] & ? & ?). by exists b2, w2. }
  unfold bridge_teardown. bstep. exists tt, (b', w'). split; [done|]. do 2 bstep.
  bstep. bstep; boolify.
  - do 2 bstep. bstep. eapply wp_mono; [apply stream_disconnect_spec|].
    intros u [b2 w2] (s & -> & _). done.
  - bstep. eapply wp_mono; [apply stream_disconnect_spec|].
    intros u [b2 w2] (s & -> & _). cbn. split_and!; [done|done|lia].
Qed.

Lemma bridge_flush_emits_pending_witness :
  exists b' w', bridge_flush_alerts (W := mock) false
     (with_queue [Queued (Alert 1 1 9 "a") false] bridge_boot, mock_init) = Some (tt, (b', w')) /\
     attempted b' = [Alert 1 1 9 "a"].
Proof.
  destruct (bridge_flush_emits_pending (W := mock) false
     (with_queue [Queued (Alert 1 1 9 "a") false] bridge_boot) mock_init)
    as (b' & w' & H1 & _ & H2 & _).
  - destruct bridge_boot_wf. split; [cbn; unfold ALERT_QUEUE_SIZE; lia| |done..].
    repeat constructor; cbn; unfold VMI_ALERT_REASON_MAX; ulia.
  - exists b', w'. exact (conj H1 H2).
Defined.

(** C15. The 1024-slot policy table implements a map from processes to policy
    states: applying the policy to a process steps the abstract state of that
    process, keeps at most one live slot per process, and leaves the state of
    every other process alone, except that a full table evicts the process in
    slot [pid mod 1024].  It never gets stuck on an index. *)
Theorem apply_threat_policy_refines {W} `{OS : HostOS W} pid req now b w :
  wf_bridge b ->
  exists v b', apply_threat_policy (W := W) pid req now (b, w) = Some (v, (b', w)) /\
    (v, policy_of (policy_table b') pid) =
      threat_policy_step (policy_of (policy_table b) pid) req now /\
    policy_unique (policy_table b') /\
    (forall pid', pid' <> pid ->
       policy_of (policy_table b') pid' = policy_of (policy_table b) pid' \/
       (Forall (fun e => used e = true) (policy_table b) /\
        exists e, policy_table b !! Z.to_nat (pid mod Z.of_nat PID_POLICY_TABLE_SIZE) = Some e /\
                  ps_pid e = pid')) /\
    b' = with_table (policy_table b') b.
Proof.
  intros Hwf. destruct (apply_policy_spec pid req now b w Hwf) as (v & [b' w'] & Hr & [H1 H2 _ H4] & H5 & Hw).
  cbn in Hw. subst w'.
  exists v, b'. split_and!; try done. apply H5.
Qed.

Lemma apply_threat_policy_refines_witness :
  exists v b', apply_threat_policy (W := mock) 5 VMI_THREAT_MALICIOUS 100 (bridge_boot, mock_init)
    = Some (v, (b', mock_init)) /\ policy_unique (policy_table b').
Proof.
  destruct (apply_threat_policy_refines (W := mock) 5 VMI_THREAT_MALICIOUS 100 bridge_boot mock_init)
    as (v & b' & H1 & _ & H2 & _).
  - exact bridge_boot_wf.
  - exists v, b'. exact (conj H1 H2).
Defined.

(** What the alert stream transmits for a well-formed alert: the escaped
    reason is a JSON string body that decodes to the reason with its control
    characters replaced, it fits the 136-byte escape buffer with its
    terminator, and the whole message fits the 512-byte payload buffer in both
    stream modes, as the fallback line fits its 256 bytes. *)
Theorem stream_reason_roundtrip s a :
  wf_alert a ->
  json_unescape (json_escape_string (reason a) (2 * VMI_ALERT_REASON_MAX + 8)) =
    Some (str_map json_clean (reason a)) /\
  (strlen (json_escape_string (reason a) (2 * VMI_ALERT_REASON_MAX + 8)) < 136)%nat /\
  (strlen (stream_payload s a) < 512)%nat /\ (strlen (alert_line a) < 256)%nat.
Proof.
  intros Hwf. pose proof (wa_reason _ Hwf) as Hr. unfold VMI_ALERT_REASON_MAX in *.
  split_and!; [| |by apply stream_payload_fits|by apply alert_line_fits].
  - destruct (json_escape_decodes (reason a) 0 (2 * 64 + 8)) as (m & Hm & Hl).
    unfold json_escape_string. rewrite Hm, (Hl ltac:(lia)). do 2 f_equal.
    pose proof (strncpyz_id (S (strlen (reason a))) (reason a) ltac:(lia)) as Hid.
    unfold strncpyz in Hid. cbn [Nat.sub] in Hid. by rewrite Nat.sub_0_r in Hid.
  - pose proof (json_escape_len (reason a) 0 (2 * 64 + 8) ltac:(lia)).
    unfold json_escape_string. lia.
Qed.

Lemma stream_reason_roundtrip_witness :
  json_unescape (json_escape_string "a\b" (2 * VMI_ALERT_REASON_MAX + 8)) = Some "a\b"%string.
Proof.
  apply (stream_reason_roundtrip (stream bridge_boot) (Alert 1 2 3 "a\b")).
  split; cbn; unfold VMI_ALERT_REASON_MAX; ulia.
Defined.

(** ** Reconnection *)

Lemma next_backoff_min n :
  next_backoff (Z.min (2 ^ Z.of_nat n) 30 * 1000000000) =
  Z.min (2 ^ Z.of_nat (S n)) 30 * 1000000000.
Proof.
  rewrite Nat2Z.inj_succ, Z.pow_succ_r by lia. pose proof (Z.pow_pos_nonneg 2 (Z.of_nat n)).
  unfold next_backoff, STREAM_RECONNECT_MAX_NS.
  destruct (_ <? _) eqn:E; boolify; unfold u64; lia.
Qed.

(** Reconnection back-off: after n failed attempts in a row, starting from
    the base delay, the delay is the smaller of 2^n and 30 seconds, the next
    attempt is not before the last failure plus the delay that was in force, and
    nothing else of the bridge changes. *)
Theorem reconnect_backoff_doubles {W} `{OS : HostOS W} ts t b w :
  stream_reconnect_backoff_ns (stream b) = STREAM_RECONNECT_BASE_NS ->
  exists b', forM (S := bridge * W) (ts ++ [t]) schedule_stream_reconnect (b, w) = Some (tt, (b', w)) /\
    stream_reconnect_backoff_ns (stream b') = Z.min (2 ^ Z.of_nat (S (length ts))) 30 * 1000000000 /\
    stream_next_reconnect_ns (stream b') =
      u64 (t + Z.min (2 ^ Z.of_nat (length ts)) 30 * 1000000000) /\
    b' = with_stream (stream b') b.
Proof.
  intros Hb.
  cut (forall n, stream_reconnect_backoff_ns (stream b) = Z.min (2 ^ Z.of_nat n) 30 * 1000000000 ->
    exists b', forM (S := bridge * W) (ts ++ [t]) schedule_stream_reconnect (b, w) = Some (tt, (b', w)) /\
    stream_reconnect_backoff_ns (stream b') =
      Z.min (2 ^ Z.of_nat (S (n + length ts))) 30 * 1000000000 /\
    stream_next_reconnect_ns (stream b') =
      u64 (t + Z.min (2 ^ Z.of_nat (n + length ts)) 30 * 1000000000) /\
    b' = with_stream (stream b') b).
  { intros Hgen. apply (Hgen 0%nat). rewrite Hb. reflexivity. }
  clear Hb. revert b. induction ts as [|t0 ts IH]; intros b n Hn.
  - eexists. split_and!; [reflexivity| | |]; cbn [fst snd stream with_stream with_conn
      stream_reconnect_backoff_ns stream_next_reconnect_ns length]; [| |by destruct b].
    + by rewrite Hn, Nat.add_0_r, next_backoff_min.
    + by rewrite Hn, Nat.add_0_r.
  - destruct (IH (with_stream (with_conn (stream_fd (stream b)) (stream_helper_fp (stream b))
        (u64 (t0 + stream_reconnect_backoff_ns (stream b)))
        (next_backoff (stream_reconnect_backoff_ns (stream b))) (stream b)) b) (S n))
      as (b' & H1 & H2 & H3 & H4).
    { cbn [stream with_stream with_conn stream_reconnect_backoff_ns]. by rewrite Hn, next_backoff_min. }
    exists b'. split_and!; [exact H1| | |].
    + rewrite H2. cbn [length]. by rewrite Nat.add_succ_r.
    + rewrite H3. cbn [length]. by rewrite Nat.add_succ_r.
    + by rewrite H4.
Qed.

Lemma reconnect_backoff_doubles_witness :
  exists b', forM (S := bridge * mock) [5; 6; 7] schedule_stream_reconnect (bridge_boot, mock_init)
      = Some (tt, (b', mock_init)) /\
    stream_reconnect_backoff_ns (stream b') = 8000000000.
Proof.
  destruct (reconnect_backoff_doubles (W := mock) [5; 6] 7 bridge_boot mock_init)
    as (b' & H1 & H2 & _).
  - reflexivity.
  - exists b'. exact (conj H1 H2).
Defined.

(** ** Initialisation *)

Definition wf_stream_config (s : stream_state) : Prop :=
  1 <= stream_port s <= 65535 /\
  (stream_mode s = STREAM_MODE_TCP \/ stream_mode s = STREAM_MODE_HELPER) /\
  (strlen (stream_host s) < 64)%nat /\ (strlen (stream_helper_cmd s) < 256)%nat /\
  (stream_enabled s = true -> stream_mode s = STREAM_MODE_HELPER ->
   stream_helper_cmd s <> EmptyString) /\
  stream_fd s = -1 /\ stream_helper_fp s = None /\ backoff_ok s.

Lemma streq_true a b : streq a b = true -> a = b.
Proof. apply String.eqb_eq. Qed.

Section init.
Context {W : Type} `{OS : HostOS W} (have_libbpf : bool).
Implicit Types (b : bridge) (w : W).

Lemma wp_env_value {A} key (f : option string -> A) b w (Q : A -> bridge * W -> Prop) :
  Q (f (getenv key w)) (b, w) -> wp (v ← env key; mret (f v)) (b, w) Q.
Proof. intros HQ. do 3 bstep. exact HQ. Qed.

Lemma parse_stream_config_spec b w :
  wp (parse_stream_config (W := W)) (b, w) (fun _ st' =>
     exists s, st' = (with_stream s b, w) /\ wf_stream_config s).
Proof.
  unfold parse_stream_config.
  do 3 (bstep; apply wp_env_value). bstep. apply wp_env_value. do 2 bstep.
  bstep. apply wp_env_value. bstep. eexists. split; [reflexivity|].
  unfold wf_stream_config, backoff_ok.
  cbn [stream_port stream_mode stream_host stream_helper_cmd stream_enabled stream_fd
       stream_helper_fp stream_reconnect_backoff_ns fst snd].
  match goal with |- context [strncpyz 16 ?m] => set (mode := strncpyz 16 m) end.
  match goal with |- context [strncpyz 64 ?h] => pose proof (strlen_strncpyz 64 h) end.
  match goal with |- context [strncpyz 256 ?c] =>
    pose proof (strlen_strncpyz 256 c); set (cmd := strncpyz 256 c) in * end.
  split_and!; try done; try lia.
  - unfold STREAM_DEFAULT_PORT. repeat case_match; boolify; lia.
  - unfold STREAM_DEFAULT_PORT. repeat case_match; boolify; lia.
  - destruct (streq mode STREAM_MODE_TCP) eqn:E1; [left; by apply streq_true|].
    destruct (streq mode STREAM_MODE_HELPER) eqn:E2; [right; by apply streq_true|by left].
  - intros Hen Hm Hc. rewrite Hc, Hm in Hen. cbn in Hen. rewrite orb_false_r, andb_true_r in Hen.
    repeat case_match; simplify_eq.
Qed.

Lemma bridge_init_spec b w :
  wp (bridge_init (W := W) have_libbpf) (b, w) (fun r st' =>
    r = true /\ wf_bridge st'.1 /\ accounted st'.1 /\ alert_queue st'.1 = [] /\
    attempted st'.1 = attempted b /\ wf_stream_config (stream st'.1)).
Proof.
  unfold bridge_init. bstep. eapply wp_mono; [apply parse_stream_config_spec|].
  intros u ? (s & -> & Hs). do 2 bstep. cbn [fst snd]. bstep.
  pose proof bridge_boot_wf as [? ? ? ? _].
  assert (forall fd, wf_bridge (Bridge [] fd 0 (replicate PID_POLICY_TABLE_SIZE policy_zero) s (attempts b)))
    as Hwf by (intros fd; split; try done; apply Hs).
  unfold open_bpf_map. do 2 bstep.
  bstep; repeat bstep; (split_and!; [done|apply Hwf|by apply zero_table_accounted|done..]).
Qed.
End init.

(** [bridge_init] succeeds in every environment and from every state. It
    establishes the invariants of the bridge and a valid stream configuration
    (a port in range, one of the two modes, bounded host and command, helper
    mode only with a command).  It empties the queue without emitting it: the
    alerts that waited there before are never delivered. *)
Theorem bridge_init_establishes {W} `{OS : HostOS W} have_libbpf b w :
  exists b' w', bridge_init have_libbpf (b, w) = Some (true, (b', w')) /\
    wf_bridge b' /\ accounted b' /\ wf_stream_config (stream b') /\
    attempted b' = attempted b /\ pending b' = [].
Proof.
  destruct (bridge_init_spec have_libbpf b w) as (r & [b' w'] & Hr & -> & H1 & H2 & H3 & H4 & H5).
  exists b', w'. split_and!; try done. unfold pending. cbn in H3. by rewrite H3.
Qed.
