(* ===== verification/BridgeMemory.v ===== *)
(** * Reporting does not disturb guest memory

    The system calls that the bridge makes (clock, files, sockets, pipes, BPF
    maps) leave the memory that introspection observes as it was, so the whole
    bridge does.  This discharges the sink interface with an invariant that
    also speaks about guest memory. *)

From S2P Require Import Prelude CStrings HostOS MockHost VmiMemory VmiMemoryProofs Bridge.
From S2P Require Import BridgeProofs.
From stdpp Require Import prelude strings list.
From Stdlib Require Import ZArith Lia.
#[local] Open Scope Z_scope.

(** Calls that do not write to any address space the daemon introspects. *)
Class QuietIO (W : Type) `{OS : HostOS W, SM : !StableMemory W} := {
  io_clock w : same_mem w (clock_monotonic w).2;
  io_write fd x w : same_mem w (sys_write fd x w).2;
  io_read fd n w : same_mem w (sys_read fd n w).2;
  io_close fd w : same_mem w (sys_close fd w);
  io_socket w : same_mem w (sys_socket w).2;
  io_connect fd a p w : same_mem w (sys_connect fd a p w).2;
  io_accept fd w : same_mem w (sys_accept fd w).2;
  io_popen c w : same_mem w (popen_w c w).2;
  io_fputs h x w : same_mem w (fputs_flush h x w).2;
  io_pclose h w : same_mem w (pclose h w);
  io_map fd k v w : same_mem w (bpf_map_update fd k v w).2;
  io_region fd r w : same_mem w (kvm_set_user_memory_region fd r w).2;
  io_rand w : same_mem w (sys_rand w).2;
}.

(** While the daemon sleeps the guest runs and may write its memory; what is
    mapped into the daemon stays mapped. *)
Class SleepMaps (W : Type) `{OS : HostOS W} := {
  sleep_mapped n w a : is_Some (own_byte w a) -> is_Some (own_byte (usleep n w) a);
}.

(** A condition that survives a sleep. *)
Class SleepSafe {W : Type} `{OS : HostOS W} (P : W -> Prop) := {
  sleep_safe n w : P w -> P (usleep n w);
}.

#[global] Instance mock_sleep_maps : SleepMaps mock.
Proof. by split. Qed.

#[global] Instance mock_quiet_io : QuietIO mock.
Proof.
  split; intros; try done; cbn.
  - by destruct (mk_clock w).
  - destruct (mk_clients w) as [|[] ?]; [done|]. by case_match.
  - by destruct (mk_clients w) as [|[] ?].
Qed.

Section keeps.
Context {W : Type} `{OS : HostOS W} `{SM : !StableMemory W} `{QI : !QuietIO W}.
Abbreviation B := (bridge * W)%type.

(** A computation of the bridge that, if it finishes, left memory alone. *)
Definition keeps {A} (m : M B A) : Prop :=
  forall st a st', m st = Some (a, st') -> same_mem st.2 st'.2.

Lemma keeps_ret {A} (a : A) : keeps (mret a).
Proof. intros st b st' [= <- <-]. done. Qed.

Lemma keeps_bind {A C} (m : M B A) (f : A -> M B C) :
  keeps m -> (forall a, keeps (f a)) -> keeps (m ≫= f).
Proof.
  intros Hm Hf st c st' Hr. apply bind_run in Hr as (a & st1 & H1 & H2).
  transitivity (st1.2); [by eapply Hm|by eapply Hf].
Qed.

Lemma keeps_os {A} (f : W -> A * W) : (forall w, same_mem w (f w).2) -> keeps (os f).
Proof.
  intros Hf st a st' Hr. unfold os in Hr. specialize (Hf st.2). destruct (f st.2). by simplify_eq/=.
Qed.

Lemma keeps_os_ (f : W -> W) : (forall w, same_mem w (f w)) -> keeps (os_ f).
Proof. intros Hf st a st' Hr. unfold os_ in Hr. simplify_eq/=. apply Hf. Qed.

Lemma keeps_bget {A} (f : bridge -> A) : keeps (bget f).
Proof. intros st a st' [= <- <-]. done. Qed.

Lemma keeps_bset f : keeps (bset f).
Proof. intros st a st' [= <- <-]. done. Qed.

Lemma keeps_stuck {A} : keeps (@stuck B A).
Proof. done. Qed.

Lemma keeps_forM {A} (l : list A) f : (forall x, keeps (f x)) -> keeps (forM l f).
Proof. intros Hf. induction l; cbn [forM]; [apply keeps_ret|by apply keeps_bind]. Qed.
End keeps.

(** [keep]: the memory argument, along the structure of the code. *)
Ltac keep :=
  repeat first
    [ apply keeps_ret | apply keeps_bget | apply keeps_bset | apply keeps_stuck
    | solve [auto 2 with nocore]
    | apply keeps_bind; [|intros ?]
    | apply keeps_forM; intros ?
    | match goal with
      | |- keeps (os _) => apply keeps_os; intros ?
      | |- keeps (os_ _) => apply keeps_os_; intros ?
      | |- keeps (if ?b then _ else _) => destruct b
      | |- keeps (match ?x with _ => _ end) => destruct x
      | |- same_mem _ _ =>
          first [ apply io_clock | apply io_write | apply io_close | apply io_socket
                | apply io_connect | apply io_popen | apply io_fputs | apply io_pclose
                | apply io_map | done ]
      end ].

Section bridge_keeps.
Context {W : Type} `{OS : HostOS W} `{SM : !StableMemory W} `{QI : !QuietIO W}.
Context (have_libbpf : bool).

Lemma keeps_disconnect : keeps (stream_disconnect (W := W)).
Proof. unfold stream_disconnect. keep. Qed.

Lemma keeps_schedule now : keeps (schedule_stream_reconnect (W := W) now).
Proof. unfold schedule_stream_reconnect. keep. Qed.

Lemma keeps_connect now : keeps (stream_connect_if_needed (W := W) now).
Proof. unfold stream_connect_if_needed, stream_connected. pose proof keeps_schedule. keep; done. Qed.

Lemma keeps_send a : keeps (stream_send_alert (W := W) a).
Proof.
  unfold stream_send_alert. pose proof (keeps_connect (timestamp_ns a)).
  pose proof keeps_disconnect. pose proof (keeps_schedule (timestamp_ns a)). keep.
Qed.

Lemma keeps_emit a : keeps (emit_alert (W := W) have_libbpf a).
Proof. unfold emit_alert, write_alert_to_map. pose proof (keeps_send a). keep. Qed.

Lemma keeps_flush : keeps (bridge_flush_alerts (W := W) have_libbpf).
Proof. unfold bridge_flush_alerts. pose proof keeps_emit. keep; done. Qed.

Lemma keeps_timestamp : keeps (get_timestamp_ns (W := W)).
Proof. unfold get_timestamp_ns. keep. Qed.

Lemma keeps_enqueue pid threat why imm : keeps (enqueue_alert (W := W) have_libbpf pid threat why imm).
Proof.
  unfold enqueue_alert. pose proof keeps_flush. pose proof keeps_timestamp. pose proof keeps_emit.
  keep; done.
Qed.

Lemma keeps_policy pid req now : keeps (apply_threat_policy (W := W) pid req now).
Proof.
  unfold apply_threat_policy. apply keeps_bind; [keep|]. intros tbl.
  destruct (get_policy_state tbl pid) as [i t]. destruct (t !! i); [|keep].
  destruct (threat_policy_step _ _ _). keep.
Qed.

Lemma keeps_suspicious pid why : keeps (bridge_signal_suspicious (W := W) have_libbpf pid why).
Proof.
  unfold bridge_signal_suspicious. pose proof keeps_timestamp. pose proof keeps_policy.
  pose proof keeps_enqueue. keep; done.
Qed.

Lemma keeps_malicious pid why : keeps (bridge_signal_malicious (W := W) have_libbpf pid why).
Proof.
  unfold bridge_signal_malicious. pose proof keeps_timestamp. pose proof keeps_policy.
  pose proof keeps_enqueue. keep; done.
Qed.

(** A condition on the world that depends on memory only. *)
Class MemoryOnly (P : W -> Prop) := { memory_only w w' : same_mem w w' -> P w -> P w' }.

(** Any sink may be strengthened with such a condition. *)
Lemma memory_sink ok reported (P : W -> Prop) `{MO : !MemoryOnly P} :
  AlertSink (W := W) have_libbpf ok reported ->
  AlertSink (W := W) have_libbpf (fun st => ok st /\ P st.2) reported.
Proof.
  intros AS. split; intros pid why st [Hok HP] Hp.
  - destruct (sink_suspicious pid why st Hok Hp) as (u & st' & Hr & H1 & H2 & H3).
    exists u, st'. split_and!; try done. eapply memory_only; [by eapply keeps_suspicious|done].
  - destruct (sink_malicious pid why st Hok Hp) as (u & st' & Hr & H1 & H2 & H3).
    exists u, st'. split_and!; try done. eapply memory_only; [by eapply keeps_malicious|done].
Qed.

#[global] Instance bridge_memory_sink `{CW : !ClockWorks W} (P : W -> Prop) `{MO : !MemoryOnly P} :
  AlertSink (W := W) have_libbpf (fun st => bridge_ok st /\ P st.2) bridge_reported.
Proof. apply memory_sink; apply _. Qed.

#[global] Instance history_memory_sink `{CW : !ClockWorks W} base (P : W -> Prop) `{MO : !MemoryOnly P} :
  AlertSink (W := W) have_libbpf (fun st => bridge_since base st /\ P st.2) bridge_reported.
Proof. apply memory_sink; apply _. Qed.
End bridge_keeps.

#[global] Instance readable_memory_only {W} `{OS : HostOS W, SM : !StableMemory W} s :
  MemoryOnly (readable s).
Proof. split. intros w w' Hs. by apply readable_same. Qed.

#[global] Instance readable_sleep_safe {W} `{OS : HostOS W, SM : !StableMemory W, SL : !SleepMaps W} s :
  SleepSafe (readable s).
Proof. split. intros n w [H1 H2 H3]. split; [done..|]. intros m off Hm Hr Ho. by apply sleep_mapped, (H3 m). Qed.
