(* ===== verification/TaskWalker.v ===== *)
(** * The guest process list (release_payload/src/vmi/src/task_walker.c)

    Selection of the task_struct layout (built-in profiles, or offsets parsed
    from a BTF dump), extraction of process records from guest memory, the walk
    of the kernel's circular task list, and the four behavioural detectors.

    The static variables of task_walker.c are the fields of [walker]; a
    detector runs over the walker, the bridge it reports to and the host. *)

From S2P Require Import Prelude CStrings HostOS VmiMemory Bridge.
From stdpp Require Import prelude strings list.
From Stdlib Require Import ZArith Lia Ascii.
#[local] Open Scope string_scope.
#[local] Open Scope list_scope.
#[local] Open Scope Z_scope.

(** ** Layout profiles (include/task_offsets.h) *)

Record task_offsets := TaskOffsets {
  kernel_version : string;
  tasks_offset : Z;
  pid_offset : Z;
  tgid_offset : Z;
  real_parent_offset : Z;
  comm_offset : Z;
  mm_offset : Z;
  files_offset : Z;
  nsproxy_offset : Z;
  start_time_offset : Z;
  flags_offset : Z;
  cred_offset : Z;
  cred_uid_offset : Z;
  cred_gid_offset : Z;
  cred_euid_offset : Z;
  cred_egid_offset : Z;
  cred_cap_effective_offset : Z;
}.

Definition OFFSETS_6_6 : task_offsets :=
  TaskOffsets "6.6" 0x298 0x398 0x39c 0x2b0 0x558 0x268 0x2a0 0x540 0x4f0 0x070 0x538
    0x04 0x08 0x14 0x18 0x28.

Definition OFFSETS_6_1 : task_offsets :=
  TaskOffsets "6.1" 0x290 0x390 0x394 0x2a8 0x550 0x260 0x298 0x530 0x4e8 0x070 0x530
    0x04 0x08 0x14 0x18 0x28.

(** ** Records (include/sentinel_vmi.h and task_walker.c) *)

Definition TASK_COMM_LEN : nat := 16.
Definition MAX_TASK_SNAPSHOT : nat := Z.to_nat 4096.
Definition MAX_PRIV_BASELINE : nat := Z.to_nat 8192.
Definition DEFAULT_FORK_BOMB_THRESHOLD : Z := 256.

Record vmi_process := Process {
  task_addr : Z;
  p_pid : Z;
  p_tgid : Z;
  p_ppid : Z;
  p_uid : Z;
  p_gid : Z;
  p_euid : Z;
  p_egid : Z;
  p_comm : string;
  mm_addr : Z;
  cred_addr : Z;
  files_addr : Z;
  nsproxy_addr : Z;
  start_time : Z;
  p_flags : Z;
  cap_effective : Z;
}.

Record privilege_baseline_entry := Baseline {
  b_pid : Z;
  b_uid : Z;
  b_euid : Z;
  b_cap_effective : Z;
  b_comm : string;
  generation : Z;
  b_used : bool;
}.

Definition baseline_zero : privilege_baseline_entry := Baseline 0 0 0 0 EmptyString 0 false.

Record walker := Walker {
  active_offsets : task_offsets;
  offsets_initialized : bool;
  btf_offsets : option task_offsets;
  privilege_baseline : list privilege_baseline_entry;
  privilege_generation : Z;
}.

Definition walker_boot : walker :=
  Walker OFFSETS_6_6 false None (replicate MAX_PRIV_BASELINE baseline_zero) 0.

Definition legitimate_transition_names : list string := ["sudo"; "su"; "sshd"; "login"; "systemd"].
Definition web_tier_names : list string := ["nginx"; "apache2"; "httpd"; "php-fpm"].
Definition shell_names : list string := ["sh"; "bash"; "dash"; "zsh"].

Definition string_in_list (value : string) (l : list string) : bool :=
  existsb (fun x => strneq TASK_COMM_LEN value x) l.

(** ** Offsets from a BTF dump *)

Definition quote : ascii := "'"%char.

(** The member name and its byte offset. *)
Definition parse_btf_member_line (line : string) (member_sz : nat) : option (string * Z) :=
  match strchr line quote with
  | None => None
  | Some q1 =>
      let name_on := String.substring 1 (strlen q1 - 1) q1 in
      match strchr name_on quote with
      | None => None
      | Some q2 =>
          let len := (strlen name_on - strlen q2)%nat in
          if (len =? 0)%nat || (member_sz <=? len)%nat then None
          else
            let member := String.substring 0 len name_on in
            match strstr q2 "bits_offset=" with
            | None => None
            | Some bits =>
                let bits := String.substring 12 (strlen bits - 12) bits in
                match strto_value (strtoull 10 bits) with
                | None => None
                | Some bit_val => Some (member, bit_val / 8)
                end
            end
      end
  end.

Definition set_version (v : string) (o : task_offsets) : task_offsets :=
  TaskOffsets v (tasks_offset o) (pid_offset o) (tgid_offset o) (real_parent_offset o)
    (comm_offset o) (mm_offset o) (files_offset o) (nsproxy_offset o) (start_time_offset o)
    (flags_offset o) (cred_offset o) (cred_uid_offset o) (cred_gid_offset o)
    (cred_euid_offset o) (cred_egid_offset o) (cred_cap_effective_offset o).

Definition set_task_member (m : string) (off : Z) (o : task_offsets) : task_offsets :=
  let f name old := if streq m name then off else old in
  TaskOffsets (kernel_version o) (f "tasks" (tasks_offset o)) (f "pid" (pid_offset o))
    (f "tgid" (tgid_offset o)) (f "real_parent" (real_parent_offset o))
    (f "comm" (comm_offset o)) (f "mm" (mm_offset o)) (f "files" (files_offset o))
    (f "nsproxy" (nsproxy_offset o)) (f "start_time" (start_time_offset o))
    (f "flags" (flags_offset o)) (f "cred" (cred_offset o)) (cred_uid_offset o)
    (cred_gid_offset o) (cred_euid_offset o) (cred_egid_offset o) (cred_cap_effective_offset o).

Definition set_cred_member (m : string) (off : Z) (o : task_offsets) : task_offsets :=
  let f name old := if streq m name then off else old in
  TaskOffsets (kernel_version o) (tasks_offset o) (pid_offset o) (tgid_offset o)
    (real_parent_offset o) (comm_offset o) (mm_offset o) (files_offset o) (nsproxy_offset o)
    (start_time_offset o) (flags_offset o) (cred_offset o) (f "uid" (cred_uid_offset o))
    (f "gid" (cred_gid_offset o)) (f "euid" (cred_euid_offset o)) (f "egid" (cred_egid_offset o))
    (f "cap_effective" (cred_cap_effective_offset o)).

(** The bit a required member sets in its mask. *)
Definition task_seen (m : string) : Z :=
  if streq m "tasks" then 1 else if streq m "pid" then 2 else if streq m "tgid" then 4
  else if streq m "comm" then 8 else if streq m "mm" then 16 else if streq m "cred" then 32 else 0.

Definition cred_seen (m : string) : Z :=
  if streq m "uid" then 1 else if streq m "gid" then 2 else if streq m "euid" then 4 else 0.

Inductive btf_scope := InTask | InCred | Outside.

Record btf_scan := BtfScan {
  bs_tmp : task_offsets;
  task_mask : Z;
  cred_mask : Z;
  bs_in : btf_scope;
}.

Definition btf_leave (sc : btf_scope) (st : btf_scan) : btf_scan :=
  BtfScan (bs_tmp st) (task_mask st) (cred_mask st) sc.

(** One line of the dump. *)
Definition btf_line (st : btf_scan) (line : string) : btf_scan :=
  if contains line "STRUCT 'task_struct'" then btf_leave InTask st
  else if contains line "STRUCT 'cred'" then btf_leave InCred st
  else if negb (match line with
                | String c _ => Ascii.eqb c "009"%char || Ascii.eqb c " "%char
                | EmptyString => false
                end)
  then btf_leave Outside st
  else
    match parse_btf_member_line line 128 with
    | None => st
    | Some (m, off) =>
        match bs_in st with
        | InTask => BtfScan (set_task_member m off (bs_tmp st))
                      (Z.lor (task_mask st) (task_seen m)) (cred_mask st) InTask
        | InCred => BtfScan (set_cred_member m off (bs_tmp st))
                      (task_mask st) (Z.lor (cred_mask st) (cred_seen m)) InCred
        | Outside => st
        end
    end.

Definition btf_accept (st : btf_scan) : option task_offsets :=
  if negb (Z.land (task_mask st) 63 =? 63) || negb (Z.land (cred_mask st) 7 =? 7)
  then None else Some (bs_tmp st).

Definition btf_command : string :=
  "bpftool btf dump file /sys/kernel/btf/vmlinux format raw 2>/dev/null".

Section walker.
Context {W : Type} `{OS : HostOS W}.
Context (have_libbpf : bool).

Abbreviation T := (walker * (bridge * W))%type.

(** Calls into memory.c and bridge.c. *)
Definition mem {A} (m : M W A) : M T A :=
  zoom (fun st => st.2.2) (fun w st => (st.1, (st.2.1, w))) m.
Definition brg {A} (m : M (bridge * W) A) : M T A :=
  zoom snd (fun b st => (st.1, b)) m.
Definition wget {A} (f : walker -> A) : M T A := gets (fun st => f st.1).
Definition wset (f : walker -> walker) : M T unit := modify (fun st => (f st.1, st.2)).

Definition try_load_offsets_from_btf : M T (option task_offsets) :=
  ok ← mem (gets (access_r "/sys/kernel/btf/vmlinux"));
  if negb ok then mret None
  else
    r ← mem (lift (popen_lines btf_command));
    match r with
    | None => mret None
    | Some (lines, rc) =>
        let st := fold_left btf_line lines
                    (BtfScan (set_version "btf-auto" OFFSETS_6_6) 0 0 Outside) in
        mret (if rc =? -1 then None else btf_accept st)
    end.

Definition select_offsets_profile (version : string) : M T (option task_offsets) :=
  if streq version EmptyString then mret None
  else if contains version "btf" then
    cached ← wget btf_offsets;
    match cached with
    | Some o => mret (Some o)
    | None =>
        r ← try_load_offsets_from_btf;
        match r with
        | Some o =>
            _ ← wset (fun t => Walker (active_offsets t) (offsets_initialized t) (Some o)
                                 (privilege_baseline t) (privilege_generation t));
            mret (Some o)
        | None => mret None
        end
    end
  else if contains version "6.6" then mret (Some OFFSETS_6_6)
  else if contains version "6.1" then mret (Some OFFSETS_6_1)
  else mret None.

Definition task_walker_set_offsets_profile (version : string) : M T bool :=
  p ← select_offsets_profile version;
  match p with
  | None => mret false
  | Some profile =>
      _ ← wset (fun t => Walker profile true (btf_offsets t) (privilege_baseline t)
                           (privilege_generation t));
      mret true
  end.

Definition task_walker_get_offsets_profile : M T string :=
  wget (fun t => kernel_version (active_offsets t)).

Definition mark_initialized : M T unit :=
  wset (fun t => Walker (active_offsets t) true (btf_offsets t) (privilege_baseline t)
                   (privilege_generation t)).

Definition ensure_offsets_profile_selected : M T unit :=
  init ← wget offsets_initialized;
  if init : bool then mret tt
  else
    env_profile ← mem (gets (getenv "VMI_GUEST_KERNEL_VERSION"));
    set ← (match env_profile with
           | Some v => task_walker_set_offsets_profile v
           | None => mret false
           end);
    if set : bool then mret tt
    else
      disable_btf ← mem (gets (getenv "VMI_DISABLE_BTF_OFFSETS"));
      set ← (if match disable_btf with Some v => negb (streq v "1") | None => true end
             then task_walker_set_offsets_profile "btf-auto" else mret false);
      if set : bool then mret tt else mark_initialized.

(** ** Process records *)

(** [vmi_read_virtual] into a zeroed object of [n] bytes: the return code and
    the bytes left there, also by a read that failed half-way. *)
Definition fetch (s : vmi_session) (gva : Z) (n : nat) : M T (bool * list Z) :=
  mem (vmi_read_virtual s (kernel_pgd s) (u64 gva) (replicate n 0)).

Definition read_task_field (s : vmi_session) (task_gva offset : Z) (n : nat)
  : M T (bool * list Z) := fetch s (task_gva + offset) n.

(** A 32-bit and a 64-bit integer object. *)
Definition as_u32 (bs : list Z) : Z := u32 (le_decode bs).
Definition as_u64 (bs : list Z) : Z := u64 (le_decode bs).

(** The optional 64-bit fields: read when the profile has an offset; a failure
    is ignored. *)
Definition read_optional (s : vmi_session) (task_gva offset : Z) : M T Z :=
  if offset =? 0 then mret 0
  else r ← read_task_field s task_gva offset 8; mret (as_u64 r.2).

(** [uint64_t list_next; read; *next = list_next - tasks_offset]. *)
Definition read_tasks_next (s : vmi_session) (task_gva : Z) : M T (option Z) :=
  o ← wget active_offsets;
  r ← read_task_field s task_gva (tasks_offset o) 8;
  mret (if r.1 : bool then Some (u64 (as_u64 r.2 - tasks_offset o)) else None).

(** The parent's pid through real_parent; 0 when there is none. *)
Definition read_ppid (s : vmi_session) (o : task_offsets) (task_gva : Z) : M T Z :=
  if real_parent_offset o =? 0 then mret 0
  else
    r ← read_task_field s task_gva (real_parent_offset o) 8;
    let parent_task := as_u64 r.2 in
    if (r.1 : bool) && negb (parent_task =? 0) then
      p ← fetch s (parent_task + pid_offset o) 4; mret (as_u32 p.2)
    else mret 0.

(** uid, gid, euid, egid and cap_effective from the cred structure. *)
Definition read_creds (s : vmi_session) (o : task_offsets) (cred : Z)
  : M T (Z * Z * Z * Z * Z) :=
  if cred =? 0 then mret (0, 0, 0, 0, 0)
  else
    uid ← fetch s (cred + cred_uid_offset o) 4;
    gid ← fetch s (cred + cred_gid_offset o) 4;
    euid ← fetch s (cred + cred_euid_offset o) 4;
    egid ← (if cred_egid_offset o =? 0 then mret (false, replicate 4 0)
            else fetch s (cred + cred_egid_offset o) 4);
    cap ← (if cred_cap_effective_offset o =? 0 then mret (false, replicate 8 0)
           else fetch s (cred + cred_cap_effective_offset o) 8);
    mret (as_u32 uid.2, as_u32 gid.2, as_u32 euid.2, as_u32 egid.2, as_u64 cap.2).

Definition task_walker_read_process (s : vmi_session) (task_gva : Z) : M T (option vmi_process) :=
  _ ← ensure_offsets_profile_selected;
  o ← wget active_offsets;
  pid ← read_task_field s task_gva (pid_offset o) 4;
  if negb pid.1 then mret None else
  tgid ← read_task_field s task_gva (tgid_offset o) 4;
  if negb tgid.1 then mret None else
  ppid ← read_ppid s o task_gva;
  comm ← read_task_field s task_gva (comm_offset o) TASK_COMM_LEN;
  if negb comm.1 then mret None else
  mm ← read_task_field s task_gva (mm_offset o) 8;
  if negb mm.1 then mret None else
  files ← read_optional s task_gva (files_offset o);
  nsproxy ← read_optional s task_gva (nsproxy_offset o);
  start ← read_optional s task_gva (start_time_offset o);
  flags ← read_optional s task_gva (flags_offset o);
  cred ← read_task_field s task_gva (cred_offset o) 8;
  if negb cred.1 then mret None else
  ids ← read_creds s o (as_u64 cred.2);
  let '(uid, gid, euid, egid, cap) := ids in
  mret (Some (Process task_gva (as_u32 pid.2) (as_u32 tgid.2) ppid uid gid euid egid
                (cstr_of_bytes (take (TASK_COMM_LEN - 1) comm.2)) (as_u64 mm.2) (as_u64 cred.2)
                files nsproxy start flags cap)).

(** ** Walks of the task list *)

(** The do-while loop of [snapshot_processes]: [room] is what is left of the
    output array. *)
Fixpoint snapshot_loop (room : nat) (s : vmi_session) (current : Z) : M T (list vmi_process) :=
  match room with
  | O => mret []
  | S room' =>
      p ← task_walker_read_process s current;
      match p with
      | None => mret []
      | Some proc =>
          n ← read_tasks_next s current;
          match n with
          | None => mret []
          | Some next =>
              if next =? init_task_addr s then mret [proc]
              else rest ← snapshot_loop room' s next; mret (proc :: rest)
          end
      end
  end.

Definition snapshot_processes (s : vmi_session) (max_tasks : nat) : M T (option (list vmi_process)) :=
  if (max_tasks =? 0)%nat || (init_task_addr s =? 0) then mret None
  else l ← snapshot_loop max_tasks s (init_task_addr s); mret (Some l).

(** The listing of [task_walker_dump]: the rows printed, and the total. *)
Fixpoint dump_loop (left : nat) (s : vmi_session) (current count : Z)
  : M T (list vmi_process * Z) :=
  match left with
  | O => stuck
  | S left' =>
      p ← task_walker_read_process s current;
      match p with
      | None => mret ([], count)
      | Some proc =>
          n ← read_tasks_next s current;
          match n with
          | None => mret ([proc], count)
          | Some next =>
              if 4096 <=? count + 1 then mret ([proc], count + 1)
              else if next =? init_task_addr s then mret ([proc], count + 1)
              else r ← dump_loop left' s next (count + 1); mret (proc :: r.1, r.2)
          end
      end
  end.

Definition task_walker_dump (s : vmi_session) : M T (option (list vmi_process * Z)) :=
  _ ← ensure_offsets_profile_selected;
  if init_task_addr s =? 0 then mret None
  else r ← dump_loop MAX_TASK_SNAPSHOT s (init_task_addr s) 0; mret (Some r).

Fixpoint find_pid_loop (fuel : nat) (s : vmi_session) (pid current count : Z) : M T (option Z) :=
  match fuel with
  | O => stuck
  | S fuel' =>
      o ← wget active_offsets;
      r ← read_task_field s current (pid_offset o) 4;
      if negb r.1 then mret None
      else if as_u32 r.2 =? pid then mret (Some current)
      else
        n ← read_tasks_next s current;
        match n with
        | None => mret None
        | Some next =>
            if negb (next =? init_task_addr s) && (count + 1 <? 4096)
            then find_pid_loop fuel' s pid next (count + 1)
            else mret None
        end
  end.

Definition task_walker_find_pid (s : vmi_session) (pid : Z) : M T (option Z) :=
  if init_task_addr s =? 0 then mret None
  else
    _ ← ensure_offsets_profile_selected;
    find_pid_loop MAX_TASK_SNAPSHOT s pid (init_task_addr s) 0.

(** ** The privilege baseline *)

Definition pid_exists (procs : list vmi_process) (pid : Z) : bool :=
  existsb (fun p => p_pid p =? pid) procs.

Definition find_process_by_pid (procs : list vmi_process) (pid : Z) : option vmi_process :=
  List.find (fun p => p_pid p =? pid) procs.

Fixpoint find_baseline (tbl : list privilege_baseline_entry) (pid : Z) : option nat :=
  match tbl with
  | [] => None
  | e :: rest => if b_used e && (b_pid e =? pid) then Some 0%nat else S <$> find_baseline rest pid
  end.

Fixpoint first_free (tbl : list privilege_baseline_entry) : option nat :=
  match tbl with
  | [] => None
  | e :: rest => if negb (b_used e) then Some 0%nat else S <$> first_free rest
  end.

(** The scan for the smallest generation, from index [i] on. *)
Fixpoint scan_oldest (rest : list privilege_baseline_entry) (i oldest : nat) (g : Z) : nat :=
  match rest with
  | [] => oldest
  | e :: rest' => if generation e <? g then scan_oldest rest' (S i) i (generation e)
                  else scan_oldest rest' (S i) oldest g
  end.

Definition oldest_entry (tbl : list privilege_baseline_entry) : nat :=
  match tbl with
  | [] => 0%nat
  | e :: rest => scan_oldest rest 1 0 (generation e)
  end.

Definition baseline_fresh (pid : Z) : privilege_baseline_entry :=
  Baseline pid 0 0 0 EmptyString 0 true.

(** The slot, and the table with it initialised. *)
Definition alloc_baseline (tbl : list privilege_baseline_entry) (pid : Z)
  : nat * list privilege_baseline_entry :=
  let i := match first_free tbl with Some i => i | None => oldest_entry tbl end in
  (i, <[i := baseline_fresh pid]> tbl).

Definition is_legitimate_priv_transition (p : vmi_process) : bool :=
  string_in_list (p_comm p) legitimate_transition_names.

(** ** Detectors *)

(** [snprintf] into [char reason\[96\]]. *)
Definition reason96 (text : string) : string := strncpyz 96 text.

Definition signal (pid : Z) (why : string) : M T unit :=
  brg (bridge_signal_suspicious have_libbpf pid (reason96 why)).

(** The entry for a process: found, or allocated. *)
Definition baseline_slot (tbl : list privilege_baseline_entry) (pid : Z)
  : nat * list privilege_baseline_entry :=
  match find_baseline tbl pid with
  | Some i => (i, tbl)
  | None => alloc_baseline tbl pid
  end.

Definition root_transition (e : privilege_baseline_entry) (p : vmi_process) : bool :=
  negb (generation e =? 0) && negb (b_euid e =? 0) && (p_euid p =? 0) &&
  negb (is_legitimate_priv_transition p).

Definition caps_expanded (e : privilege_baseline_entry) (p : vmi_process) : bool :=
  negb (generation e =? 0) &&
  negb (Z.land (cap_effective p) (u64 (Z.lnot (b_cap_effective e))) =? 0) &&
  negb (is_legitimate_priv_transition p).

Definition set_baseline (tbl : list privilege_baseline_entry) : M T unit :=
  wset (fun t => Walker (active_offsets t) (offsets_initialized t) (btf_offsets t) tbl
                   (privilege_generation t)).

(** One process of the privilege detector: the detections it adds. *)
Definition check_privilege (p : vmi_process) : M T Z :=
  if (p_pid p <=? 1) || (mm_addr p =? 0) then mret 0
  else
    tbl ← wget privilege_baseline;
    let '(i, tbl1) := baseline_slot tbl (p_pid p) in
    _ ← set_baseline tbl1;
    match tbl1 !! i with
    | None => stuck
    | Some e =>
        d1 ← (if root_transition e p then
                _ ← signal (p_pid p) ("priv_escalation pid=" +:+ fmt_u (p_pid p) +:+
                                      " comm=" +:+ p_comm p);
                mret 1
              else mret 0);
        d2 ← (if caps_expanded e p then
                _ ← signal (p_pid p) ("cap_expansion pid=" +:+ fmt_u (p_pid p) +:+
                                      " comm=" +:+ p_comm p);
                mret 1
              else mret 0);
        g ← wget privilege_generation;
        _ ← set_baseline (<[i := Baseline (b_pid e) (p_uid p) (p_euid p) (cap_effective p)
                                   (strncpyz TASK_COMM_LEN (p_comm p)) g true]> tbl1);
        mret (d1 + d2)
    end.

(** Sum of the detections over a list. *)
Fixpoint count_detections (l : list vmi_process) (f : vmi_process -> M T Z) : M T Z :=
  match l with
  | [] => mret 0
  | p :: rest => d ← f p; n ← count_detections rest f; mret (d + n)
  end.

(** The frame of a detector: [None] is the error return -1. *)
Definition with_snapshot (s : vmi_session) (body : list vmi_process -> M T Z) : M T (option Z) :=
  if init_task_addr s =? 0 then mret None
  else
    _ ← ensure_offsets_profile_selected;
    allocated ← mem (lift calloc_ok);
    if negb allocated then mret None
    else
      procs ← snapshot_processes s MAX_TASK_SNAPSHOT;
      match procs with
      | None => mret None
      | Some l => n ← body l; mret (Some n)
      end.

Definition task_walker_detect_privilege_escalation (s : vmi_session) : M T (option Z) :=
  with_snapshot s (fun procs =>
    _ ← wset (fun t => Walker (active_offsets t) (offsets_initialized t) (btf_offsets t)
                         (privilege_baseline t) (u32 (privilege_generation t + 1)));
    count_detections procs check_privilege).

Definition task_walker_detect_orphans (s : vmi_session) : M T (option Z) :=
  with_snapshot s (fun procs =>
    count_detections procs (fun p =>
      if p_ppid p <=? 1 then mret 0
      else if negb (pid_exists procs (p_ppid p)) then
        _ ← signal (p_pid p) ("orphan_process pid=" +:+ fmt_u (p_pid p) +:+
                              " ppid=" +:+ fmt_u (p_ppid p));
        mret 1
      else mret 0)).

Definition children_of (procs : list vmi_process) (pid : Z) : Z :=
  u32 (Z.of_nat (length (List.filter (fun p => p_ppid p =? pid) procs))).

(** The loop of the fork-bomb detector; [seen] are the processes before. *)
Fixpoint fork_bomb_loop (procs : list vmi_process) (threshold : Z) (seen l : list vmi_process)
  : M T Z :=
  match l with
  | [] => mret 0
  | p :: rest =>
      let parent_pid := p_pid p in
      d ← (if (parent_pid =? 0) || pid_exists seen parent_pid then mret 0
           else
             let children := children_of procs parent_pid in
             if threshold <=? children then
               _ ← signal parent_pid ("fork_bomb pid=" +:+ fmt_u parent_pid +:+
                                      " children=" +:+ fmt_u children);
               mret 1
             else mret 0);
      n ← fork_bomb_loop procs threshold (seen ++ [p]) rest;
      mret (d + n)
  end.

Definition task_walker_detect_fork_bomb (s : vmi_session) (threshold : Z) : M T (option Z) :=
  let threshold := if threshold =? 0 then DEFAULT_FORK_BOMB_THRESHOLD else threshold in
  with_snapshot s (fun procs => fork_bomb_loop procs threshold [] procs).

Definition task_walker_detect_suspicious_ancestry (s : vmi_session) : M T (option Z) :=
  with_snapshot s (fun procs =>
    count_detections procs (fun p =>
      if negb (string_in_list (p_comm p) shell_names) then mret 0
      else if p_ppid p =? 0 then mret 0
      else
        match find_process_by_pid procs (p_ppid p) with
        | None => mret 0
        | Some parent =>
            if string_in_list (p_comm parent) web_tier_names then
              _ ← signal (p_pid p) ("suspicious_ancestry pid=" +:+ fmt_u (p_pid p) +:+
                                    " parent=" +:+ fmt_u (p_pid parent));
              mret 1
            else mret 0
        end)).
End walker.
