(* ===== verification/TaskWalkerProofs.v ===== *)
(** * Correctness of the process-list walk and of the detectors

    Reads of process records are exact with respect to guest memory; the walks
    terminate on any guest memory and deliver the circular task list when the
    memory holds one; the detectors report exactly the processes that their
    declarative conditions describe; the privilege baseline is a map. *)

From S2P Require Import Prelude CStrings SlotTable HostOS MockHost VmiMemory VmiMemoryProofs.
From S2P Require Import PageWalk Bridge BridgeProofs TaskWalker.
From stdpp Require Import prelude gmap strings list list_monad.
From Stdlib Require Import ZArith Lia Ascii.
#[local] Open Scope string_scope.
#[local] Open Scope list_scope.
#[local] Open Scope Z_scope.

Section reads.
Context {W : Type} `{OS : HostOS W} `{SM : !StableMemory W}.
Context (s : vmi_session) (P : W -> Prop) `{PR : !PhysReads s P} `{PL : !PhysLive s P}.
Abbreviation T := (walker * (bridge * W))%type.
Implicit Types (w : W) (st : T) (o : task_offsets) (p : vmi_process).

(** Kernel-virtual memory of the guest. *)
Definition kbytes w (a : Z) (n : nat) : option (list Z) :=
  mapM (virt_view s w (kernel_pgd s) (u64 a)) (seq 0 n).
Definition ku32 w (a : Z) : option Z := as_u32 <$> kbytes w a 4.
Definition ku64 w (a : Z) : option Z := as_u64 <$> kbytes w a 8.

(** A step that only reads memory. *)
Record quiet st st' : Prop := {
  q_walker : st'.1 = st.1;
  q_bridge : st'.2.1 = st.2.1;
  q_ok : P st'.2.2;
  q_same : same_mem st.2.2 st'.2.2;
}.

Lemma quiet_trans st1 st2 st3 : quiet st1 st2 -> quiet st2 st3 -> quiet st1 st3.
Proof.
  intros [? ? ? ?] [? ? ? ?]. split; [congruence..|done|by transitivity (st2.2.2)].
Qed.

Lemma quiet_refl st : P st.2.2 -> quiet st st.
Proof. done. Qed.

Lemma kbytes_same w w' a n : same_mem w w' -> kbytes w' a n = kbytes w a n.
Proof. intros Hs. unfold kbytes. apply mapM_ext. intros i. by apply virt_view_same. Qed.

Lemma quiet_kbytes st st' a n : quiet st st' -> kbytes st'.2.2 a n = kbytes st.2.2 a n.
Proof. intros Hq. apply kbytes_same, Hq. Qed.

(** Every fetch delivers the bytes of guest memory, or fails. *)
Lemma fetch_exact a n st :
  P st.2.2 -> (0 < n)%nat ->
  wp (fetch s a n) st (fun r st' => quiet st st' /\
     match kbytes st.2.2 a n with Some bs => r = (true, bs) | None => r.1 = false end).
Proof.
  intros Hp Hn. unfold fetch, mem. apply wp_zoom.
  eapply wp_mono.
  { apply (read_virtual_exact s P); [done|apply u64_is_u64|by rewrite length_replicate]. }
  intros r w' (Hp' & Hs & _ & Hr). rewrite length_replicate in Hr. split; [by split|exact Hr].
Qed.

Lemma wp_wget {A} (f : walker -> A) st (Q : A -> T -> Prop) : Q (f st.1) st -> wp (wget f) st Q.
Proof. intros HQ. by exists (f st.1), st. Qed.

Lemma wp_wset (f : walker -> walker) st (Q : unit -> T -> Prop) :
  Q tt (f st.1, st.2) -> wp (wset f) st Q.
Proof. intros HQ. by exists tt, (f st.1, st.2). Qed.

(** The next task, as list_head arithmetic gives it. *)
Definition next_of w o (a : Z) : option Z :=
  (fun v => u64 (v - tasks_offset o)) <$> ku64 w (a + tasks_offset o).

Lemma read_tasks_next_exact a st :
  P st.2.2 ->
  wp (read_tasks_next s a) st (fun r st' =>
    quiet st st' /\ r = next_of st.2.2 (active_offsets st.1) a).
Proof.
  intros Hp. unfold read_tasks_next. wp_step. apply wp_wget. wp_step.
  eapply wp_mono; [apply fetch_exact; [done|lia]|]. intros r st' [Hq Hr]. wp_step.
  split; [done|]. unfold next_of, ku64. destruct (kbytes _ _ 8) as [bs|]; by rewrite Hr.
Qed.

(** A 64-bit field that the profile may not have. *)
Definition opt_field w (a off v : Z) : Prop :=
  if off =? 0 then v = 0 else ku64 w (a + off) = Some v.

Definition ppid_at w o (a v : Z) : Prop :=
  if real_parent_offset o =? 0 then v = 0
  else exists par, ku64 w (a + real_parent_offset o) = Some par /\
         if par =? 0 then v = 0 else ku32 w (par + pid_offset o) = Some v.

Record creds_at w o (c : Z) p : Prop := {
  ca_uid : ku32 w (c + cred_uid_offset o) = Some (p_uid p);
  ca_gid : ku32 w (c + cred_gid_offset o) = Some (p_gid p);
  ca_euid : ku32 w (c + cred_euid_offset o) = Some (p_euid p);
  ca_egid : if cred_egid_offset o =? 0 then p_egid p = 0
            else ku32 w (c + cred_egid_offset o) = Some (p_egid p);
  ca_cap : opt_field w c (cred_cap_effective_offset o) (cap_effective p);
}.

(** Guest memory holds, at [a], the task that [p] describes. *)
Record task_at w o (a : Z) p : Prop := {
  ta_addr : task_addr p = a;
  ta_pid : ku32 w (a + pid_offset o) = Some (p_pid p);
  ta_tgid : ku32 w (a + tgid_offset o) = Some (p_tgid p);
  ta_ppid : ppid_at w o a (p_ppid p);
  ta_comm : (fun bs => cstr_of_bytes (take 15 bs)) <$> kbytes w (a + comm_offset o) 16 = Some (p_comm p);
  ta_mm : ku64 w (a + mm_offset o) = Some (mm_addr p);
  ta_files : opt_field w a (files_offset o) (files_addr p);
  ta_nsproxy : opt_field w a (nsproxy_offset o) (nsproxy_addr p);
  ta_start : opt_field w a (start_time_offset o) (start_time p);
  ta_flags : opt_field w a (flags_offset o) (p_flags p);
  ta_cred : ku64 w (a + cred_offset o) = Some (cred_addr p);
  ta_creds : if cred_addr p =? 0
             then (p_uid p, p_gid p, p_euid p, p_egid p, cap_effective p) = (0, 0, 0, 0, 0)
             else creds_at w o (cred_addr p) p;
}.

Lemma fmap_kbytes_Some {A} (f : list Z -> A) w a n v :
  f <$> kbytes w a n = Some v -> exists bs, kbytes w a n = Some bs /\ f bs = v.
Proof. destruct (kbytes w a n) as [bs|]; cbn; intros [= <-]. eauto. Qed.

(** A fetch of a field whose value is known. *)
Lemma fetch_field {A} (f : list Z -> A) a n v st0 st (Q : bool * list Z -> T -> Prop) :
  quiet st0 st -> (0 < n)%nat -> f <$> kbytes st0.2.2 a n = Some v ->
  (forall bs st', quiet st0 st' -> f bs = v -> Q (true, bs) st') ->
  wp (fetch s a n) st Q.
Proof.
  intros Hq Hn Hv HQ. apply fmap_kbytes_Some in Hv as (bs & Hk & Hf).
  eapply wp_mono; [apply fetch_exact; [apply Hq|done]|]. intros r st' [Hq' Hr].
  rewrite (quiet_kbytes _ _ _ _ Hq), Hk in Hr. subst r.
  apply HQ; [by eapply quiet_trans|done].
Qed.

Lemma read_optional_field a off v st0 st (Q : Z -> T -> Prop) :
  quiet st0 st -> opt_field st0.2.2 a off v -> (forall st', quiet st0 st' -> Q v st') ->
  wp (read_optional s a off) st Q.
Proof.
  intros Hq Hv HQ. unfold read_optional, opt_field in *. destruct (off =? 0).
  - subst v. wp_step. by apply HQ.
  - wp_step. eapply fetch_field; [done|lia|exact Hv|]. intros bs st' Hq' <-. wp_step. by apply HQ.
Qed.

Lemma read_ppid_at o a v st0 st (Q : Z -> T -> Prop) :
  quiet st0 st -> ppid_at st0.2.2 o a v -> (forall st', quiet st0 st' -> Q v st') ->
  wp (read_ppid s o a) st Q.
Proof.
  intros Hq Hv HQ. unfold read_ppid, ppid_at in *. destruct (real_parent_offset o =? 0).
  { subst v. wp_step. by apply HQ. }
  destruct Hv as (par & Hpar & Hv). wp_step.
  eapply fetch_field; [done|lia|exact Hpar|]. intros bs st' Hq' Hbs. cbn [fst snd]. rewrite Hbs.
  destruct (par =? 0); cbn [negb andb].
  - subst v. wp_step. by apply HQ.
  - wp_step. eapply fetch_field; [done|lia|exact Hv|]. intros bs' st'' Hq'' <-. wp_step. by apply HQ.
Qed.

Lemma read_creds_at o p st0 st (Q : Z * Z * Z * Z * Z -> T -> Prop) :
  quiet st0 st ->
  (if cred_addr p =? 0
   then (p_uid p, p_gid p, p_euid p, p_egid p, cap_effective p) = (0, 0, 0, 0, 0)
   else creds_at st0.2.2 o (cred_addr p) p) ->
  (forall st', quiet st0 st' -> Q (p_uid p, p_gid p, p_euid p, p_egid p, cap_effective p) st') ->
  wp (read_creds s o (cred_addr p)) st Q.
Proof.
  intros Hq Hc HQ. unfold read_creds. destruct (cred_addr p =? 0).
  { wp_step. rewrite <- Hc. by apply HQ. }
  destruct Hc as [H1 H2 H3 H4 H5]. unfold opt_field in H5.
  wp_step. eapply fetch_field; [done|lia|exact H1|]. intros b1 st1 Hq1 E1.
  wp_step. eapply fetch_field; [done|lia|exact H2|]. intros b2 st2 Hq2 E2.
  wp_step. eapply fetch_field; [done|lia|exact H3|]. intros b3 st3 Hq3 E3.
  wp_step. destruct (cred_egid_offset o =? 0);
    [wp_step; rename Hq3 into Hq4; rename st3 into st4
    |eapply fetch_field; [done|lia|exact H4|]; intros b4 st4 Hq4 E4];
    (wp_step; destruct (cred_cap_effective_offset o =? 0);
      [wp_step|eapply fetch_field; [done|lia|exact H5|]; intros b5 st5 Hq5 E5]);
    wp_step; cbn [snd]; rewrite E1, E2, E3, ?E4, ?E5; try (rewrite ?H4, ?H5 in HQ; by apply HQ).
Qed.

Lemma ensure_done st (Q : unit -> T -> Prop) :
  offsets_initialized st.1 = true -> Q tt st -> wp ensure_offsets_profile_selected st Q.
Proof.
  intros Hi HQ. unfold ensure_offsets_profile_selected. wp_step. apply wp_wget. rewrite Hi. by wp_step.
Qed.

Ltac field H :=
  wp_step; eapply fetch_field; [done|unfold TASK_COMM_LEN; lia|exact H|];
  let bs := fresh "bs" in let st := fresh "st" in let E := fresh "E" in
  intros bs st ? E; cbn [fst snd negb].

(** The record that is read is the record in guest memory. *)
Lemma read_process_at a p st :
  P st.2.2 -> offsets_initialized st.1 = true -> task_at st.2.2 (active_offsets st.1) a p ->
  wp (task_walker_read_process s a) st (fun r st' => r = Some p /\ quiet st st').
Proof.
  intros Hp Hi []. pose proof (quiet_refl st Hp) as Hq0. unfold task_walker_read_process.
  wp_step. apply ensure_done; [done|]. wp_step. apply wp_wget.
  field ta_pid0. field ta_tgid0. wp_step. eapply read_ppid_at; [done..|]. intros st2 Hq2.
  field ta_comm0. field ta_mm0.
  do 4 (wp_step; eapply read_optional_field; [done..|]; intros ? ?).
  field ta_cred0. wp_step. rewrite E3. eapply read_creds_at; [done..|]. intros ? ?.
  wp_step. split; [|done]. rewrite E, E0, E2. change (TASK_COMM_LEN - 1)%nat with 15%nat.
  rewrite E1, <- ta_addr0. by destruct p.
Qed.

(** [x] was computed by reading memory only, whatever was found there. *)
Lemma quiet_fetch a n st0 st (Q : bool * list Z -> T -> Prop) :
  quiet st0 st -> (0 < n)%nat -> (forall r st', quiet st0 st' -> Q r st') -> wp (fetch s a n) st Q.
Proof.
  intros Hq Hn HQ. eapply wp_mono; [apply fetch_exact; [apply Hq|done]|].
  intros r st' [Hq' _]. apply HQ. by eapply quiet_trans.
Qed.

Ltac quiet_step :=
  match goal with
  | |- wp (wget _) _ _ => apply wp_wget
  | |- wp (fetch _ _ _) _ _ => eapply quiet_fetch; [done|unfold TASK_COMM_LEN; lia|]; intros ? ? ?
  | |- wp (read_task_field _ _ _ _) _ _ => unfold read_task_field
  | |- wp (read_optional _ _ _) _ _ => unfold read_optional
  | |- wp (read_ppid _ _ _) _ _ => unfold read_ppid
  | |- wp (read_creds _ _ _) _ _ => unfold read_creds
  | _ => wp_step
  end.

Lemma read_process_total a st0 st (Q : option vmi_process -> T -> Prop) :
  quiet st0 st -> offsets_initialized st.1 = true ->
  (forall r st', quiet st0 st' -> (forall p, r = Some p -> is_u32 (p_pid p)) -> Q r st') ->
  wp (task_walker_read_process s a) st Q.
Proof.
  intros Hq Hi HQ. unfold task_walker_read_process. wp_step. apply ensure_done; [done|].
  repeat quiet_step; (apply HQ; [done|]; intros p [= <-]; apply u32_is_u32).
Qed.

Lemma read_tasks_next_total a st0 st (Q : option Z -> T -> Prop) :
  quiet st0 st -> (forall r st', quiet st0 st' -> Q r st') -> wp (read_tasks_next s a) st Q.
Proof. intros Hq HQ. unfold read_tasks_next. repeat quiet_step; by apply HQ. Qed.

Lemma quiet_initialized st st' :
  quiet st st' -> offsets_initialized st.1 = true -> offsets_initialized st'.1 = true.
Proof. intros [-> _ _ _]. done. Qed.

Lemma snapshot_loop_total room a st0 st :
  quiet st0 st -> offsets_initialized st0.1 = true ->
  wp (snapshot_loop room s a) st (fun l st' => quiet st0 st' /\ (length l <= room)%nat /\
    Forall (fun p => is_u32 (p_pid p)) l).
Proof.
  intros Hq Hi. revert a st Hq. induction room as [|room IH]; intros a st Hq; cbn [snapshot_loop].
  { by wp_step. }
  wp_step. eapply read_process_total; [done|by eapply quiet_initialized|]. intros [p|] st1 Hq1 Hpid;
    [|wp_step; split_and!; [done|cbn; lia|done]].
  specialize (Hpid p eq_refl).
  wp_step. eapply read_tasks_next_total; [done|]. intros [b|] st2 Hq2;
    [|wp_step; split_and!; [done|cbn; lia|done]].
  wp_step; [wp_step; split_and!; [done|cbn; lia|by constructor]|].
  wp_step. eapply wp_mono; [by apply IH|]. intros l st3 (Hq3 & Hl & Hp). wp_step.
  split_and!; [done|cbn; lia|by constructor].
Qed.

(** The kernel's circular list from the task at [a] on, up to [init]. *)
Inductive task_ring w o (init : Z) : Z -> list vmi_process -> Prop :=
| ring_last a p : task_at w o a p -> next_of w o a = Some init -> task_ring w o init a [p]
| ring_more a p b ps : task_at w o a p -> next_of w o a = Some b -> b <> init ->
    task_ring w o init b ps -> task_ring w o init a (p :: ps).

Lemma field_same {A} (f : list Z -> A) w w' a n v :
  same_mem w w' -> f <$> kbytes w a n = Some v -> f <$> kbytes w' a n = Some v.
Proof. intros Hs. by rewrite (kbytes_same w w'). Qed.

Lemma opt_field_same w w' a off v : same_mem w w' -> opt_field w a off v -> opt_field w' a off v.
Proof. intros Hs. unfold opt_field. destruct (off =? 0); [done|]. by apply field_same. Qed.

Lemma creds_same w w' o c p : same_mem w w' -> creds_at w o c p -> creds_at w' o c p.
Proof.
  intros Hs []. split; [by eapply field_same..| |by eapply opt_field_same].
  destruct (cred_egid_offset o =? 0); [done|]. by eapply field_same.
Qed.

Lemma task_at_same w w' o a p : same_mem w w' -> task_at w o a p -> task_at w' o a p.
Proof.
  intros Hs []. split; try done; try (by eapply field_same); try (by eapply opt_field_same).
  - revert ta_ppid0. unfold ppid_at. destruct (real_parent_offset o =? 0); [done|].
    intros (par & H1 & H2). exists par. split; [by eapply field_same|].
    destruct (par =? 0); [done|]. by eapply field_same.
  - destruct (cred_addr p =? 0); [done|]. by eapply creds_same.
Qed.

Lemma next_same w w' o a : same_mem w w' -> next_of w' o a = next_of w o a.
Proof. intros Hs. unfold next_of, ku64. by rewrite (kbytes_same w w'). Qed.

Lemma task_ring_same w w' o init a ps :
  same_mem w w' -> task_ring w o init a ps -> task_ring w' o init a ps.
Proof.
  intros Hs. induction 1; [eapply ring_last|eapply ring_more]; try done;
    try (by eapply task_at_same); by rewrite (next_same w).
Qed.

Lemma snapshot_loop_ring room a ps st0 st :
  quiet st0 st -> offsets_initialized st0.1 = true ->
  task_ring st0.2.2 (active_offsets st0.1) (init_task_addr s) a ps ->
  wp (snapshot_loop room s a) st (fun l st' => quiet st0 st' /\ l = take room ps).
Proof.
  intros Hq Hi Hring. revert room st Hq. induction Hring as [a p Hat Hn|a p b ps Hat Hn Hb Hring IH];
    intros [|room] st Hq; cbn [snapshot_loop take]; try by wp_step.
  all: assert (Hat' : task_at st.2.2 (active_offsets st.1) a p)
    by (rewrite (q_walker _ _ Hq); eapply task_at_same; [apply Hq|done]).
  all: wp_step; eapply wp_mono;
    [apply read_process_at; [apply Hq|by eapply quiet_initialized|exact Hat']|].
  all: intros r st1 [-> Hq1]; wp_step; eapply wp_mono; [apply read_tasks_next_exact, Hq1|].
  all: intros r st2 [Hq2 ->]; pose proof (quiet_trans _ _ _ Hq Hq1) as Hq01;
    pose proof (quiet_trans _ _ _ Hq01 Hq2) as Hq02;
    rewrite (next_same st0.2.2), (q_walker _ _ Hq01), Hn by apply Hq01.
  - rewrite Z.eqb_refl. wp_step. split; [done|]. by destruct room.
  - rewrite (proj2 (Z.eqb_neq _ _)) by done. wp_step. eapply wp_mono; [by apply IH|].
    intros l st3 [Hq3 ->]. by wp_step.
Qed.

Lemma find_pid_loop_ring fuel pid a ps c st0 st :
  quiet st0 st -> (Z.of_nat fuel + c = 4096) -> 0 <= c < 4096 ->
  task_ring st0.2.2 (active_offsets st0.1) (init_task_addr s) a ps ->
  wp (find_pid_loop fuel s pid a c) st (fun r st' => quiet st0 st' /\
     r = task_addr <$> find_process_by_pid (take fuel ps) pid).
Proof.
  intros Hq Hf Hc Hring. revert fuel c st Hq Hf Hc.
  induction Hring as [a p Hat Hn|a p b ps Hat Hn Hb Hring IH];
    intros [|fuel] c st Hq Hf Hc; cbn [find_pid_loop take]; try lia.
  all: unfold find_process_by_pid; cbn [List.find].
  all: wp_step; apply wp_wget; rewrite (q_walker _ _ Hq);
    wp_step; eapply fetch_field; [done|lia|exact (ta_pid _ _ _ _ Hat)|].
  all: intros bs st1 Hq1 E; cbn [fst snd negb]; rewrite E.
  all: destruct (p_pid p =? pid); [wp_step; split; [done|]; cbn; f_equal; symmetry; apply Hat|].
  all: wp_step; eapply wp_mono; [apply read_tasks_next_exact, Hq1|].
  all: intros r st2 [Hq2 ->]; pose proof (quiet_trans _ _ _ Hq1 Hq2) as Hq02;
    rewrite (next_same st0.2.2), (q_walker _ _ Hq1), Hn by apply Hq1.
  - rewrite Z.eqb_refl. cbn [negb andb]. wp_step. split; [done|]. by destruct fuel.
  - rewrite (proj2 (Z.eqb_neq _ _)) by done. cbn [negb andb]. wp_step; boolify.
    + eapply wp_mono; [apply IH; [done|lia|lia]|]. intros r st3 [? ->]. done.
    + assert (fuel = 0%nat) as -> by lia. by wp_step.
Qed.

Lemma find_pid_loop_total fuel pid a c st0 st :
  quiet st0 st -> (Z.of_nat fuel + c = 4096) -> 0 <= c < 4096 ->
  wp (find_pid_loop fuel s pid a c) st (fun _ st' => quiet st0 st').
Proof.
  revert a c st. induction fuel as [|fuel IH]; intros a c st Hq Hf Hc; cbn [find_pid_loop]; [lia|].
  wp_step. apply wp_wget. wp_step. eapply quiet_fetch; [done|lia|]. intros r st1 Hq1.
  wp_step; [by wp_step|]. wp_step; [by wp_step|]. wp_step.
  eapply read_tasks_next_total; [done|]. intros [b|] st2 Hq2; [|by wp_step].
  wp_step; [|by wp_step]. boolify. apply IH; [done|lia|lia].
Qed.

Lemma dump_loop_total left a c st0 st :
  quiet st0 st -> offsets_initialized st0.1 = true -> (Z.of_nat left + c = 4096) -> 0 <= c < 4096 ->
  wp (dump_loop left s a c) st (fun _ st' => quiet st0 st').
Proof.
  intros Hq Hi. revert a c st Hq. induction left as [|left IH]; intros a c st Hq Hf Hc;
    cbn [dump_loop]; [lia|].
  wp_step. eapply read_process_total; [done|by eapply quiet_initialized|].
  intros [p|] st1 Hq1 _; [|by wp_step]. wp_step.
  eapply read_tasks_next_total; [done|]. intros [b|] st2 Hq2; [|by wp_step].
  wp_step; [by wp_step|]. wp_step; [by wp_step|]. boolify. wp_step.
  eapply wp_mono; [apply IH; [done|lia|lia]|]. intros r st3 ?. by wp_step.
Qed.
End reads.

(** ** Detectors, against the interface of the bridge *)

Section detectors.
Context {W : Type} `{OS : HostOS W} (have_libbpf : bool).
Context (ok : bridge * W -> Prop) (reported : bridge * W -> Z -> Z -> Prop).
Context `{AS : !AlertSink have_libbpf ok reported}.
Abbreviation T := (walker * (bridge * W))%type.
Implicit Types (st : T) (p : vmi_process) (l ps : list vmi_process).

Definition alarmed st (pid : Z) : Prop := exists lvl, alarm_level lvl /\ reported st.2 pid lvl.

(** A step of a detector: the sink stays in order and forgets nothing. *)
Record reports st st' : Prop := {
  r_ok : ok st'.2;
  r_mono : forall pid lvl, reported st.2 pid lvl -> reported st'.2 pid lvl;
}.

Lemma reports_refl st : ok st.2 -> reports st st.
Proof. done. Qed.

Lemma reports_trans st1 st2 st3 : reports st1 st2 -> reports st2 st3 -> reports st1 st3.
Proof. intros [? ?] [? ?]. split; auto. Qed.

Lemma reports_alarmed st st' pid : reports st st' -> alarmed st pid -> alarmed st' pid.
Proof. intros [_ Hm] (lvl & ? & ?). exists lvl. auto. Qed.

Lemma signal_spec pid why st :
  ok st.2 -> is_u32 pid ->
  wp (signal have_libbpf pid why) st
     (fun _ st' => st'.1 = st.1 /\ reports st st' /\ alarmed st' pid).
Proof.
  intros Hok Hp. unfold signal, brg. apply wp_zoom.
  eapply wp_mono; [by apply sink_suspicious|]. intros u b (H1 & H2 & H3). by split_and!.
Qed.

(** A body that raises at most one alarm, exactly when [flag] says so. *)
Definition flags_one (flag : vmi_process -> bool) (f : vmi_process -> M T Z) : Prop :=
  forall p st, ok st.2 -> is_u32 (p_pid p) ->
    wp (f p) st (fun d st' => st'.1 = st.1 /\ reports st st' /\
      d = (if flag p then 1 else 0) /\ (flag p = true -> alarmed st' (p_pid p))).

Lemma count_flagged flag f l st :
  flags_one flag f -> ok st.2 -> Forall (fun p => is_u32 (p_pid p)) l ->
  wp (count_detections l f) st (fun n st' => st'.1 = st.1 /\ reports st st' /\
    n = Z.of_nat (length (List.filter flag l)) /\
    Forall (fun p => alarmed st' (p_pid p)) (List.filter flag l)).
Proof.
  intros Hf Hok Hl. revert st Hok. induction Hl as [|p l Hp _ IH]; intros st Hok;
    cbn [count_detections List.filter].
  { wp_step. by split_and!. }
  wp_step. eapply wp_mono; [by apply Hf|]. intros d st1 (E1 & R1 & -> & A1). wp_step.
  eapply wp_mono; [apply IH, R1|]. intros n st2 (E2 & R2 & -> & A2). wp_step.
  split_and!; [congruence|by eapply reports_trans|..].
  - destruct (flag p); cbn [length]; lia.
  - destruct (flag p); [|done]. constructor; [|done]. eapply reports_alarmed; [done|]. by apply A1.
Qed.

Lemma signal_one pid why st (Q : Z -> T -> Prop) :
  ok st.2 -> is_u32 pid ->
  (forall st', st'.1 = st.1 -> reports st st' -> alarmed st' pid -> Q 1 st') ->
  wp (_ ← signal have_libbpf pid why; mret 1) st Q.
Proof.
  intros Hok Hp HQ. wp_step. eapply wp_mono; [by apply signal_spec|].
  intros u st' (? & ? & ?). wp_step. by apply HQ.
Qed.

(** The processes whose recorded parent is gone. *)
Definition is_orphan ps p : bool := (1 <? p_ppid p) && negb (pid_exists ps (p_ppid p)).

(** The shells that a web-tier process started. *)
Definition is_web_shell ps p : bool :=
  string_in_list (p_comm p) shell_names && negb (p_ppid p =? 0) &&
  match find_process_by_pid ps (p_ppid p) with
  | Some parent => string_in_list (p_comm parent) web_tier_names
  | None => false
  end.

Ltac quiet_flag := wp_step; split_and!; [done|by apply reports_refl|done|done].
Ltac raise_flag := apply signal_one; [done|done|]; intros ? ? ? ?; by split_and!.

Lemma orphan_body ps : flags_one (is_orphan ps) (fun p =>
  if p_ppid p <=? 1 then mret 0
  else if negb (pid_exists ps (p_ppid p)) then
    _ ← signal have_libbpf (p_pid p) ("orphan_process pid=" +:+ fmt_u (p_pid p) +:+
                              " ppid=" +:+ fmt_u (p_ppid p));
    mret 1
  else mret 0).
Proof.
  intros p st Hok Hp. unfold is_orphan. destruct (p_ppid p <=? 1) eqn:E; boolify.
  - rewrite (proj2 (Z.ltb_ge _ _)) by done. quiet_flag.
  - rewrite (proj2 (Z.ltb_lt _ _)) by done. cbn [andb].
    destruct (negb _); [raise_flag|quiet_flag].
Qed.

Lemma web_shell_body ps : flags_one (is_web_shell ps) (fun p =>
  if negb (string_in_list (p_comm p) shell_names) then mret 0
  else if p_ppid p =? 0 then mret 0
  else
    match find_process_by_pid ps (p_ppid p) with
    | None => mret 0
    | Some parent =>
        if string_in_list (p_comm parent) web_tier_names then
          _ ← signal have_libbpf (p_pid p) ("suspicious_ancestry pid=" +:+ fmt_u (p_pid p) +:+
                                " parent=" +:+ fmt_u (p_pid parent));
          mret 1
        else mret 0
    end).
Proof.
  intros p st Hok Hp. unfold is_web_shell.
  destruct (string_in_list (p_comm p) _); cbn [negb andb]; [|quiet_flag].
  destruct (p_ppid p =? 0); cbn [negb andb]; [quiet_flag|].
  destruct (find_process_by_pid _ _) as [parent|]; [|quiet_flag].
  destruct (string_in_list (p_comm parent) _); [raise_flag|quiet_flag].
Qed.

(** The parents the fork-bomb detector flags among [l], [seen] before it. *)
Definition fork_bomb_here ps (threshold : Z) (seen : list vmi_process) p : list Z :=
  if (p_pid p =? 0) || pid_exists seen (p_pid p) then []
  else if threshold <=? children_of ps (p_pid p) then [p_pid p] else [].

Fixpoint fork_bombs ps (threshold : Z) (seen l : list vmi_process) : list Z :=
  match l with
  | [] => []
  | p :: rest =>
      fork_bomb_here ps threshold seen p ++ fork_bombs ps threshold (seen ++ [p]) rest
  end.

Lemma fork_bomb_loop_spec ps threshold seen l st :
  ok st.2 -> Forall (fun p => is_u32 (p_pid p)) l ->
  wp (fork_bomb_loop have_libbpf ps threshold seen l) st (fun n st' =>
    st'.1 = st.1 /\ reports st st' /\
    n = Z.of_nat (length (fork_bombs ps threshold seen l)) /\
    Forall (alarmed st') (fork_bombs ps threshold seen l)).
Proof.
  intros Hok Hl. revert seen st Hok. induction Hl as [|p l Hp _ IH]; intros seen st Hok;
    cbn [fork_bomb_loop fork_bombs].
  { wp_step. by split_and!. }
  set (here := fork_bomb_here ps threshold seen p).
  wp_step. apply (wp_mono _ _ (fun d st' => st'.1 = st.1 /\ reports st st' /\
    d = Z.of_nat (length here) /\ Forall (alarmed st') here)).
  { subst here. unfold fork_bomb_here. wp_step; [wp_step; by split_and!|]. wp_step; [|wp_step; by split_and!].
    apply signal_one; [done|done|]. intros. split_and!; [done..|]. by constructor. }
  intros d st1 (E1 & R1 & -> & A1). wp_step.
  eapply wp_mono; [apply IH, R1|]. intros n st2 (E2 & R2 & -> & A2). wp_step.
  split_and!; [congruence|by eapply reports_trans|rewrite length_app; lia|].
  apply Forall_app_2; [|done]. eapply Forall_impl; [exact A1|]. intros x ?. by eapply reports_alarmed.
Qed.

End detectors.

Lemma pid_exists_In ps pid : pid_exists ps pid = true <-> pid ∈ map p_pid ps.
Proof.
  unfold pid_exists. rewrite existsb_exists, list_elem_of_In, in_map_iff.
  split; intros (p & H1 & H2); exists p; split; try done; lia.
Qed.

(** They are the distinct processes with enough children. *)
Lemma fork_bombs_spec ps threshold seen l :
  NoDup (fork_bombs ps threshold seen l) /\
  forall pid, pid ∈ fork_bombs ps threshold seen l <->
    pid ∈ map p_pid l /\ (pid ∉ map p_pid seen) /\ pid <> 0 /\ threshold <= children_of ps pid.
Proof.
  revert seen. induction l as [|p l IH]; intros seen; cbn [fork_bombs map].
  { split; [constructor|]. set_solver. }
  destruct (IH (seen ++ [p])) as [Hnd Hin]. clear IH. rewrite map_app in Hin. cbn [map] in Hin.
  assert (p_pid p ∉ fork_bombs ps threshold (seen ++ [p]) l) as Hnot by (rewrite Hin; set_solver).
  unfold fork_bomb_here. destruct ((p_pid p =? 0) || pid_exists seen (p_pid p)) eqn:E1; cbn [app].
  - split; [done|]. intros pid. rewrite Hin. apply orb_true_iff in E1 as [E1|E1].
    + boolify. set_solver.
    + apply pid_exists_In in E1. set_solver.
  - apply orb_false_iff in E1 as [E0 E1]. boolify.
    assert (p_pid p ∉ map p_pid seen) as Hs by (rewrite <- pid_exists_In, E1; done).
    destruct (threshold <=? children_of ps (p_pid p)) eqn:E2; boolify; cbn [app].
    + split; [by constructor|]. intros pid. set_unfold. rewrite Hin. set_unfold.
      destruct (decide (pid = p_pid p)) as [->|]; naive_solver.
    + split; [done|]. intros pid. rewrite Hin. set_unfold.
      destruct (decide (pid = p_pid p)) as [->|]; [|naive_solver].
      split; [naive_solver|]. intros (_ & _ & _ & ?). lia.
Qed.

(** ** The privilege baseline as a map from processes to credentials *)

Abbreviation base_of := (find_key b_used b_pid).

Lemma find_baseline_spec tbl pid :
  match find_baseline tbl pid with
  | Some i => exists e, tbl !! i = Some e /\ owns b_used b_pid pid e
  | None => base_of tbl pid = None
  end.
Proof.
  induction tbl as [|e tbl IH]; cbn [find_baseline]; [done|].
  destruct (b_used e && (b_pid e =? pid)) eqn:E; boolify; [by exists e|].
  destruct (find_baseline tbl pid) as [i|]; [exact IH|]; cbn [fmap option_fmap option_map].
  apply find_key_None. intros [|j] e' Hj; [|by eapply (proj1 (find_key_None _ _ _ _) IH)].
  cbn in Hj. simplify_eq. intros [Hl Hp]. rewrite Hl, Hp, Z.eqb_refl in E. done.
Qed.

Lemma first_free_spec tbl :
  match first_free tbl with
  | Some i => exists e, tbl !! i = Some e /\ b_used e = false
  | None => Forall (fun e => b_used e = true) tbl
  end.
Proof.
  induction tbl as [|e tbl IH]; cbn [first_free]; [done|].
  destruct (b_used e) eqn:E; cbn [negb]; [|by exists e].
  destruct (first_free tbl); cbn; [exact IH|by constructor].
Qed.

Lemma scan_oldest_spec rest i oldest g :
  (oldest < i)%nat ->
  (scan_oldest rest i oldest g = oldest /\ Forall (fun e => g <= generation e) rest) \/
  (exists j e, scan_oldest rest i oldest g = (i + j)%nat /\ rest !! j = Some e /\
     generation e < g /\ Forall (fun e' => generation e <= generation e') rest).
Proof.
  revert i oldest g. induction rest as [|x rest IH]; intros i oldest g Ho; cbn [scan_oldest]; [by left|].
  destruct (generation x <? g) eqn:E; boolify.
  - right. destruct (IH (S i) i (generation x)) as [[-> Hf]|(j & e & -> & Hj & Hg & Hf)]; [lia|..].
    + exists 0%nat, x. split_and!; [lia|done|done|]. constructor; [lia|done].
    + exists (S j), e. split_and!; [lia|done|lia|]. constructor; [lia|done].
  - destruct (IH (S i) oldest g) as [[-> Hf]|(j & e & -> & Hj & Hg & Hf)]; [lia|..].
    + left. split; [done|]. by constructor.
    + right. exists (S j), e. split_and!; [lia|done|done|]. constructor; [lia|done].
Qed.

(** The recycled slot holds an entry of the oldest generation. *)
Lemma oldest_entry_spec tbl :
  tbl <> [] -> exists e, tbl !! oldest_entry tbl = Some e /\
    Forall (fun e' => generation e <= generation e') tbl.
Proof.
  destruct tbl as [|x rest]; [done|]. intros _. cbn [oldest_entry].
  destruct (scan_oldest_spec rest 1 0 (generation x)) as [[-> Hf]|(j & e & -> & Hj & Hg & Hf)]; [lia|..].
  - exists x. split; [done|]. constructor; [lia|done].
  - exists e. split; [done|]. constructor; [lia|done].
Qed.

(** The entry to compare with: the recorded one, or a new one. *)
Definition base_or_fresh (tbl : list privilege_baseline_entry) (pid : Z) : privilege_baseline_entry :=
  default (baseline_fresh pid) (base_of tbl pid).

Lemma baseline_slot_spec tbl pid :
  slots_unique b_used b_pid tbl -> tbl <> [] ->
  let '(i, tbl1) := baseline_slot tbl pid in
  slot_of b_used b_pid tbl pid i tbl1 (base_or_fresh tbl pid) /\
  (forall e, tbl !! i = Some e -> b_used e = true -> b_pid e <> pid ->
     Forall (fun e' => b_used e' = true /\ generation e <= generation e') tbl).
Proof.
  intros Hu Hne. unfold baseline_slot. pose proof (find_baseline_spec tbl pid) as Hf.
  destruct (find_baseline tbl pid) as [i|].
  { destruct Hf as (e & Hi & Ho). pose proof Ho as [Hl <-]. unfold base_or_fresh.
    rewrite (find_key_at _ _ _ i e) by done. split; [by apply slot_of_existing|]. congruence. }
  unfold alloc_baseline, base_or_fresh. rewrite Hf. cbn [default].
  pose proof (first_free_spec tbl) as Hfree. destruct (first_free tbl) as [i|].
  - destruct Hfree as (e & Hi & Hd). split; [|congruence].
    apply slot_of_taken; [done|by eapply lookup_lt_Some|done].
  - destruct (oldest_entry_spec tbl Hne) as (e & Hi & Hmin).
    split; [apply slot_of_taken; [done|by eapply lookup_lt_Some|done]|].
    intros e' He' _ _. simplify_eq. by apply Forall_and.
Qed.

Definition used_slots (tbl : list privilege_baseline_entry) : nat := length (List.filter b_used tbl).

Lemma used_slots_insert tbl i e :
  (used_slots (<[i:=e]> tbl) <= used_slots tbl + 1)%nat.
Proof.
  unfold used_slots. revert i. induction tbl as [|x tbl IH]; intros [|i]; [cbn; lia..| |].
  - change (<[0%nat:=e]> (x :: tbl)) with (e :: tbl). cbn [List.filter].
    destruct (b_used e), (b_used x); cbn [length]; lia.
  - change (<[S i:=e]> (x :: tbl)) with (x :: <[i:=e]> tbl). cbn [List.filter].
    specialize (IH i). destruct (b_used x); cbn [length]; lia.
Qed.

Lemma used_slots_full tbl : Forall (fun e => b_used e = true) tbl -> used_slots tbl = length tbl.
Proof. unfold used_slots. induction 1 as [|e tbl He _ IH]; cbn; [done|]. rewrite He. cbn. lia. Qed.

(** What a scan records about a process. *)
Definition entry_of (g : Z) (p : vmi_process) : privilege_baseline_entry :=
  Baseline (p_pid p) (p_uid p) (p_euid p) (cap_effective p) (strncpyz TASK_COMM_LEN (p_comm p)) g true.

Definition monitored (p : vmi_process) : bool := negb ((p_pid p <=? 1) || (mm_addr p =? 0)).

(** The alarms a process raises against what is recorded about it. *)
Definition alarms (recorded : option privilege_baseline_entry) (p : vmi_process) : Z :=
  match recorded with
  | None => 0
  | Some e => Z.b2z (root_transition e p) + Z.b2z (caps_expanded e p)
  end.

Lemma alarms_fresh tbl p :
  Z.b2z (root_transition (base_or_fresh tbl (p_pid p)) p) +
  Z.b2z (caps_expanded (base_or_fresh tbl (p_pid p)) p) = alarms (base_of tbl (p_pid p)) p.
Proof. unfold base_or_fresh. by destruct (base_of tbl (p_pid p)). Qed.

Record wf_walker (t : walker) : Prop := {
  ww_len : length (privilege_baseline t) = MAX_PRIV_BASELINE;
  ww_unique : slots_unique b_used b_pid (privilege_baseline t);
}.

(** One process in the privilege detector: the record is replaced, and the
    others stay, except that a full table drops an entry of the oldest
    generation. *)
Record privilege_checked (p : vmi_process) (t t' : walker) : Prop := {
  pc_wf : wf_walker t';
  pc_gen : privilege_generation t' = privilege_generation t;
  pc_init : offsets_initialized t' = offsets_initialized t /\ active_offsets t' = active_offsets t;
  pc_entry : base_of (privilege_baseline t') (p_pid p) = Some (entry_of (privilege_generation t) p);
  pc_other : forall pid, pid <> p_pid p ->
    base_of (privilege_baseline t') pid = base_of (privilege_baseline t) pid \/
    exists e, base_of (privilege_baseline t) pid = Some e /\
      Forall (fun e' => b_used e' = true /\ generation e <= generation e') (privilege_baseline t);
  pc_used : (used_slots (privilege_baseline t') <= used_slots (privilege_baseline t) + 1)%nat;
}.

Lemma wf_walker_nonempty t : wf_walker t -> privilege_baseline t <> [].
Proof. intros [Hl _] Hn. by rewrite Hn in Hl. Qed.

Lemma baseline_written p t i tbl1 :
  wf_walker t -> baseline_slot (privilege_baseline t) (p_pid p) = (i, tbl1) ->
  privilege_checked p t (Walker (active_offsets t) (offsets_initialized t) (btf_offsets t)
    (<[i := entry_of (privilege_generation t) p]> tbl1) (privilege_generation t)).
Proof.
  intros Hwf Hb. pose proof Hwf as [Hl Hu].
  pose proof (baseline_slot_spec _ (p_pid p) Hu (wf_walker_nonempty t Hwf)) as Hs.
  rewrite Hb in Hs. destruct Hs as [Hs Hev].
  assert (owns b_used b_pid (p_pid p) (entry_of (privilege_generation t) p)) as Ho by done.
  split; cbn [privilege_baseline privilege_generation offsets_initialized active_offsets]; [|done|done| | |].
  - split; [cbn; rewrite length_insert; rewrite (so_len _ _ _ _ _ _ _ Hs); done|].
    by apply (slot_update_unique _ _ _ _ _ _ _ _ Hu Hs Ho).
  - apply (slot_update_find _ _ _ _ _ _ _ _ Hu Hs Ho).
  - intros pid Hne. destruct (slot_update_other _ _ _ _ _ _ _ _ Hu Hs Ho pid Hne)
      as [?|(e & He & [Hlive <-] & _)]; [by left|]. right. exists e.
    split; [by apply (find_key_at _ _ _ i)|]. by apply Hev.
  - unfold baseline_slot in Hb.
    destruct (find_baseline _ _); [|unfold alloc_baseline in Hb]; simplify_eq/=.
    + apply used_slots_insert.
    + rewrite list_insert_insert_eq. apply used_slots_insert.
Qed.

Section privilege.
Context {W : Type} `{OS : HostOS W} (have_libbpf : bool).
Context (ok : bridge * W -> Prop) (reported : bridge * W -> Z -> Z -> Prop).
Context `{AS : !AlertSink have_libbpf ok reported}.
Abbreviation T := (walker * (bridge * W))%type.
Implicit Types (st : T) (p : vmi_process) (l ps : list vmi_process).

(** An alarm raised under a condition. *)
Lemma signal_if (c : bool) pid why st (Q : Z -> T -> Prop) :
  ok st.2 -> is_u32 pid ->
  (forall st', st'.1 = st.1 -> reports ok reported st st' ->
     (c = true -> alarmed reported st' pid) -> (c = false -> st' = st) -> Q (Z.b2z c) st') ->
  wp (if c then _ ← signal have_libbpf pid why; mret 1 else mret 0) st Q.
Proof.
  intros Hok Hp HQ. destruct c.
  - eapply signal_one; [done..|]. intros st' ? ? ?. by apply HQ.
  - wp_step. by apply HQ.
Qed.

Lemma check_privilege_spec p st :
  ok st.2 -> is_u32 (p_pid p) -> wf_walker st.1 ->
  wp (check_privilege have_libbpf p) st (fun d st' => reports ok reported st st' /\
    if monitored p then
      d = alarms (base_of (privilege_baseline st.1) (p_pid p)) p /\
      (0 < d -> alarmed reported st' (p_pid p)) /\ (d = 0 -> st'.2 = st.2) /\
      privilege_checked p st.1 st'.1
    else d = 0 /\ st' = st).
Proof.
  intros Hok Hp Hwf. unfold check_privilege, monitored. wp_step; cbn [negb]; [by wp_step|].
  wp_step. apply wp_wget. destruct (baseline_slot _ _) as [i tbl1] eqn:Hb.
  pose proof (baseline_slot_spec _ (p_pid p) (ww_unique _ Hwf) (wf_walker_nonempty _ Hwf)) as Hs.
  rewrite Hb in Hs. destruct Hs as [Hs _]. rewrite (so_at _ _ _ _ _ _ _ Hs).
  pose proof (so_owns _ _ _ _ _ _ _ Hs) as [_ Hown].
  wp_step. apply wp_wset. wp_step.
  apply signal_if; [done|done|]. intros st1 E1 R1 A1 N1.
  wp_step. apply signal_if; [apply R1|done|]. intros st2 E2 R2 A2 N2.
  wp_step. apply wp_wget. wp_step. apply wp_wset. wp_step. rewrite alarms_fresh.
  rewrite E1 in E2. cbn [fst] in E2. rewrite E2. rewrite Hown.
  pose proof (baseline_written p st.1 i tbl1 Hwf Hb) as Hpc.
  split; [split; [apply R2|]|split_and!; [done| | |exact Hpc]].
  - intros pid lvl Hr. apply (r_mono _ _ _ _ R2), (r_mono _ _ _ _ R1). exact Hr.
  - rewrite <- alarms_fresh. intros Hd.
    destruct (caps_expanded _ p); [by apply A2|]. destruct (root_transition _ p); [|done].
    exact (reports_alarmed ok reported st1 st2 _ R2 (A1 eq_refl)).
  - rewrite <- alarms_fresh. intros Hd.
    destruct (caps_expanded _ p), (root_transition _ p); cbn in Hd; try lia.
    rewrite N2, N1 by done. done.
Qed.

Fixpoint scan_alarms (tbl : list privilege_baseline_entry) ps : Z :=
  match ps with
  | [] => 0
  | p :: rest => (if monitored p then alarms (base_of tbl (p_pid p)) p else 0) + scan_alarms tbl rest
  end.

Lemma scan_alarms_ext tbl tbl' ps :
  (forall p, p ∈ ps -> base_of tbl (p_pid p) = base_of tbl' (p_pid p)) ->
  scan_alarms tbl ps = scan_alarms tbl' ps.
Proof.
  induction ps as [|p ps IH]; intros He; cbn [scan_alarms]; [done|].
  rewrite (He p), IH by set_solver. done.
Qed.

(** While there is room, a check leaves the records of the others alone. *)
Lemma checked_room p t t' pid :
  wf_walker t -> privilege_checked p t t' -> (used_slots (privilege_baseline t) < MAX_PRIV_BASELINE)%nat ->
  pid <> p_pid p -> base_of (privilege_baseline t') pid = base_of (privilege_baseline t) pid.
Proof.
  intros Hwf Hpc Hroom Hne. destruct (pc_other _ _ _ Hpc pid Hne) as [?|(e & _ & Hall)]; [done|].
  rewrite used_slots_full, (ww_len _ Hwf) in Hroom; [lia|].
  eapply Forall_impl; [exact Hall|]. by intros ? [? _].
Qed.

(** A whole scan of distinct processes, while the table has room. *)
Record privilege_scanned ps (t t' : walker) : Prop := {
  psc_wf : wf_walker t';
  psc_gen : privilege_generation t' = privilege_generation t;
  psc_recorded : forall p, p ∈ ps -> monitored p = true ->
    base_of (privilege_baseline t') (p_pid p) = Some (entry_of (privilege_generation t) p);
  psc_other : forall pid, (pid ∉ map p_pid ps) ->
    base_of (privilege_baseline t') pid = base_of (privilege_baseline t) pid;
  psc_used : (used_slots (privilege_baseline t') <= used_slots (privilege_baseline t) + length ps)%nat;
}.

Lemma privilege_scanned_cons p ps t t1 t2 :
  (p_pid p ∉ map p_pid ps) ->
  (monitored p = true -> base_of (privilege_baseline t1) (p_pid p) = Some (entry_of (privilege_generation t) p)) ->
  privilege_generation t1 = privilege_generation t ->
  (forall pid, pid <> p_pid p -> base_of (privilege_baseline t1) pid = base_of (privilege_baseline t) pid) ->
  (used_slots (privilege_baseline t1) <= used_slots (privilege_baseline t) + 1)%nat ->
  privilege_scanned ps t1 t2 -> privilege_scanned (p :: ps) t t2.
Proof.
  intros Hnot Hentry Hgen Hoth Hused [H1 H2 H3 H4 H5]. split; [done|congruence| | |cbn; lia].
  - intros q Hq Hm. apply elem_of_cons in Hq as [->|Hq].
    + rewrite H4 by done. by apply Hentry.
    + rewrite <- Hgen. by apply H3.
  - cbn [map]. intros pid Hpid. rewrite H4, Hoth; set_solver.
Qed.

Lemma privilege_scan_spec ps st :
  ok st.2 -> Forall (fun p => is_u32 (p_pid p)) ps -> NoDup (map p_pid ps) -> wf_walker st.1 ->
  (used_slots (privilege_baseline st.1) + length ps <= MAX_PRIV_BASELINE)%nat ->
  wp (count_detections ps (check_privilege have_libbpf)) st (fun n st' => reports ok reported st st' /\
    n = scan_alarms (privilege_baseline st.1) ps /\ privilege_scanned ps st.1 st'.1 /\
    forall p, p ∈ ps -> monitored p = true ->
      0 < alarms (base_of (privilege_baseline st.1) (p_pid p)) p -> alarmed reported st' (p_pid p)).
Proof.
  intros Hok Hl. revert st Hok. induction Hl as [|p ps Hp _ IH]; intros st Hok Hnd Hwf Hroom;
    cbn [count_detections scan_alarms].
  { wp_step. split_and!; [done|done| |set_solver]. split; [done..| |done|lia]. set_solver. }
  cbn [map] in Hnd. apply NoDup_cons in Hnd as [Hnot Hnd]. cbn [length] in Hroom.
  wp_step. eapply wp_mono; [by apply check_privilege_spec|]. intros d st1 [R1 Hd]. wp_step.
  destruct (monitored p) eqn:Hm; cycle 1.
  { destruct Hd as [-> ->]. eapply wp_mono; [apply IH; [done|done|done|lia]|].
    intros n st2 (R2 & -> & Hs & Ha). wp_step. split_and!; [done|done| |].
    - eapply privilege_scanned_cons; [done|congruence|done|done|lia|done].
    - intros q Hq Hmq. apply elem_of_cons in Hq as [->|Hq]; [congruence|]. by apply Ha. }
  destruct Hd as (-> & Hal & _ & Hpc).
  assert (forall pid, pid <> p_pid p -> base_of (privilege_baseline st1.1) pid =
          base_of (privilege_baseline st.1) pid) as Hoth.
  { intros pid. eapply checked_room; [done|done|lia]. }
  pose proof (pc_used _ _ _ Hpc) as Hus.
  eapply wp_mono; [apply IH; [apply R1|done|apply Hpc|lia]|].
  intros n st2 (R2 & -> & Hs & Ha). wp_step.
  assert (forall q, q ∈ ps -> p_pid q <> p_pid p) as Hdiff.
  { intros q Hq Heq. apply Hnot. rewrite <- Heq. by apply list_elem_of_fmap_2. }
  split_and!; [by eapply reports_trans| | |].
  - f_equal. apply scan_alarms_ext. intros q Hq. by apply Hoth, Hdiff.
  - eapply privilege_scanned_cons; [done|intros _; apply Hpc|apply Hpc|done|lia|done].
  - intros q Hq Hmq Hpos. apply elem_of_cons in Hq as [->|Hq].
    + eapply (reports_alarmed ok); [exact R2|]. by apply Hal.
    + apply Ha; [done|done|]. rewrite Hoth by (by apply Hdiff). done.
Qed.
End privilege.
