(* ===== verification/TaskWalkerClaims.v ===== *)
(** * What the task walker guarantees

    The properties of the process-list walk and of the four detectors, on any
    host and any guest memory, and a small guest on which they are exercised. *)

From S2P Require Import Prelude CStrings SlotTable HostOS MockHost VmiMemory VmiMemoryProofs.
From S2P Require Import PageWalk Bridge BridgeProofs BridgeMemory TaskWalker TaskWalkerProofs.
From stdpp Require Import prelude gmap strings list list_monad.
From Stdlib Require Import ZArith Lia Ascii.
#[local] Open Scope string_scope.
#[local] Open Scope list_scope.
#[local] Open Scope Z_scope.

Section claims.
Context {W : Type} `{OS : HostOS W} `{SM : !StableMemory W}.
Context (s : vmi_session) (P : W -> Prop) `{PR : !PhysReads s P} `{PL : !PhysLive s P} `{MO : !MemoryOnly P}.
Abbreviation T := (walker * (bridge * W))%type.
Implicit Types (w : W) (b : bridge) (t : walker) (ps : list vmi_process).

(** The guest's task list, as memory holds it under the active profile. *)
Abbreviation guest_tasks w t ps :=
  (task_ring s w (active_offsets t) (init_task_addr s) (init_task_addr s) ps).

Lemma snapshot_ring t b w ps :
  P w -> offsets_initialized t = true -> init_task_addr s <> 0 -> guest_tasks w t ps ->
  wp (snapshot_processes s MAX_TASK_SNAPSHOT) (t, (b, w)) (fun r st' =>
    quiet P (t, (b, w)) st' /\ r = Some (take 4096 ps)).
Proof.
  intros Hp Hi Hinit Hring. unfold snapshot_processes.
  rewrite (proj2 (Z.eqb_neq _ _)) by done. cbn [Nat.eqb orb].
  change (MAX_TASK_SNAPSHOT =? 0)%nat with false. cbn [orb]. wp_step.
  eapply wp_mono; [eapply (snapshot_loop_ring s P); [by apply quiet_refl|done|done]|].
  intros l st' [Hq ->]. wp_step. by split.
Qed.

(** Without memory for the snapshot a detector gives up. *)
Lemma with_snapshot_oom body t b w :
  offsets_initialized t = true -> init_task_addr s <> 0 -> (calloc_ok w).1 = false ->
  with_snapshot s body (t, (b, w)) = Some (None, (t, (b, (calloc_ok w).2))).
Proof.
  intros Hi Hinit Ha. cut (wp (with_snapshot s body) (t, (b, w)) (fun r st' =>
    r = None /\ st' = (t, (b, (calloc_ok w).2)))); [by intros (r & st' & Hr & -> & ->)|].
  unfold with_snapshot. rewrite (proj2 (Z.eqb_neq _ _)) by done. wp_step. apply ensure_done; [done|].
  wp_step. unfold mem. apply wp_zoom. wp_step. cbn [snd]. rewrite Ha. cbn [negb]. by wp_step.
Qed.

(** A detector's body runs on the task list. *)
Lemma with_snapshot_ring body t b w ps (Q : option Z -> T -> Prop) :
  P w -> offsets_initialized t = true -> init_task_addr s <> 0 -> guest_tasks w t ps ->
  (calloc_ok w).1 = true ->
  (forall w', P w' -> wp (body (take 4096 ps)) (t, (b, w')) (fun n st' => Q (Some n) st')) ->
  wp (with_snapshot s body) (t, (b, w)) Q.
Proof.
  intros Hp Hi Hinit Hring Ha Hbody. unfold with_snapshot.
  rewrite (proj2 (Z.eqb_neq _ _)) by done. wp_step. apply ensure_done; [done|].
  wp_step. unfold mem at 1. apply wp_zoom. wp_step. cbn [snd]. rewrite Ha. cbn [negb fst].
  assert (same_mem w (calloc_ok w).2) as Hs by apply calloc_stable.
  wp_step. eapply wp_mono; [apply snapshot_ring; [by eapply memory_only|done|done|by eapply task_ring_same]|].
  intros r [t' [b' w']] [[E1 E2 Hp' _] ->]. cbn in E1, E2. subst t' b'.
  wp_step. eapply wp_mono; [by apply Hbody|]. intros n st' HQ. by wp_step.
Qed.

Lemma ring_pids w o init a ps : task_ring s w o init a ps -> Forall (fun p => is_u32 (p_pid p)) ps.
Proof.
  assert (forall a p, task_at s w o a p -> is_u32 (p_pid p)) as Hpid.
  { intros a' p Hat. pose proof (ta_pid _ _ _ _ _ Hat) as Hp. unfold ku32 in Hp.
    destruct (kbytes _ _ _ 4); simplify_eq/=. rewrite <- Hp. apply u32_is_u32. }
  induction 1; constructor; eauto.
Qed.

(** C24. The snapshot is the guest's task list: given the address of init_task
    (which setup leaves 0) and an offset profile, when guest memory holds the
    circular list of tasks that starts there and does not change during the scan, and
    reads of it are exact or fail and succeed where the bytes exist, the snapshot returns the
    records of these tasks, each field as memory holds it, in list order, cut at
    4096; it changes neither the walker nor the bridge. *)
Theorem snapshot_is_task_list t b w ps :
  P w -> offsets_initialized t = true -> init_task_addr s <> 0 -> guest_tasks w t ps ->
  exists w', snapshot_processes s MAX_TASK_SNAPSHOT (t, (b, w)) =
    Some (Some (take 4096 ps), (t, (b, w'))).
Proof.
  intros Hp Hi Hinit Hring.
  destruct (snapshot_ring t b w ps Hp Hi Hinit Hring) as (r & [t' [b' w']] & Hr & [E1 E2 _ _] & ->).
  cbn in E1, E2. subst. by exists w'.
Qed.

(** The walks terminate on every guest memory, also one whose list was
    corrupted into a cycle that avoids init_task: the snapshot stops after at most
    4096 records, the search for a process and the dump after at most 4096 tasks,
    and none of them gets stuck. *)
Theorem walks_terminate t b w pid :
  P w -> offsets_initialized t = true -> init_task_addr s <> 0 ->
  (exists l st', snapshot_processes s MAX_TASK_SNAPSHOT (t, (b, w)) = Some (Some l, st') /\
     (length l <= 4096)%nat) /\
  (exists r st', task_walker_find_pid s pid (t, (b, w)) = Some (r, st')) /\
  (exists r st', task_walker_dump s (t, (b, w)) = Some (r, st')).
Proof.
  intros Hp Hi Hinit. pose proof (quiet_refl P (t, (b, w)) Hp) as Hq.
  apply Z.eqb_neq in Hinit as Hz. split_and!.
  - unfold snapshot_processes. rewrite Hz. change (MAX_TASK_SNAPSHOT =? 0)%nat with false. cbn [orb].
    cut (wp (l ← snapshot_loop MAX_TASK_SNAPSHOT s (init_task_addr s); mret (Some l)) (t, (b, w))
          (fun r _ => exists l, r = Some l /\ (length l <= 4096)%nat)).
    { intros (r & st' & Hr & l & -> & Hl). eauto. }
    wp_step. eapply wp_mono; [by apply (snapshot_loop_total s P _ _ _ _ Hq)|]. intros l st' (_ & Hl & _). wp_step. eauto.
  - unfold task_walker_find_pid. rewrite Hz.
    cut (wp (_ ← ensure_offsets_profile_selected;
             find_pid_loop MAX_TASK_SNAPSHOT s pid (init_task_addr s) 0) (t, (b, w)) (fun _ _ => True)).
    { intros (r & st' & Hr & _). eauto. }
    wp_step. apply ensure_done; [done|].
    eapply wp_mono; [apply (find_pid_loop_total s P _ _ _ _ _ _ Hq); [done|lia]|]. done.
  - cut (wp (task_walker_dump s) (t, (b, w)) (fun _ _ => True)).
    { intros (r & st' & Hr & _). eauto. }
    unfold task_walker_dump. wp_step. apply ensure_done; [done|]. rewrite Hz. wp_step.
    eapply wp_mono; [apply (dump_loop_total s P _ _ _ _ _ Hq); [done|done|lia]|]. intros. by wp_step.
Qed.

(** Looking up a process finds the first task of the list with that pid,
    and fails exactly when none of the first 4096 tasks has it. *)
Theorem find_pid_finds_task t b w ps pid :
  P w -> offsets_initialized t = true -> init_task_addr s <> 0 -> guest_tasks w t ps ->
  exists w', task_walker_find_pid s pid (t, (b, w)) =
    Some (task_addr <$> find_process_by_pid (take 4096 ps) pid, (t, (b, w'))).
Proof.
  intros Hp Hi Hinit Hring. unfold task_walker_find_pid. rewrite (proj2 (Z.eqb_neq _ _)) by done.
  cut (wp (_ ← ensure_offsets_profile_selected;
           find_pid_loop MAX_TASK_SNAPSHOT s pid (init_task_addr s) 0) (t, (b, w))
        (fun r st' => quiet P (t, (b, w)) st' /\ r = task_addr <$> find_process_by_pid (take 4096 ps) pid)).
  { intros (r & [t' [b' w']] & Hr & [E1 E2 _ _] & ->). cbn in E1, E2. subst. by exists w'. }
  wp_step. apply ensure_done; [done|].
  apply (find_pid_loop_ring s P); [by apply quiet_refl|done|lia|done].
Qed.

Context (have_libbpf : bool).
Context (ok : bridge * W -> Prop) (reported : bridge * W -> Z -> Z -> Prop).
Context `{AS : !AlertSink have_libbpf ok reported}.
Context (ok_host : forall b w w', ok (b, w) -> ok (b, w')).

(** A detector that flags each process of the list by a condition. *)
Lemma detect_flagged flag (f : list vmi_process -> vmi_process -> M T Z) t b w ps :
  (forall l, flags_one ok reported (flag l) (f l)) ->
  P w -> offsets_initialized t = true -> init_task_addr s <> 0 -> guest_tasks w t ps ->
  (calloc_ok w).1 = true -> (length ps <= 4096)%nat -> ok (b, w) ->
  exists st', with_snapshot s (fun l => count_detections l (f l)) (t, (b, w)) =
      Some (Some (Z.of_nat (length (List.filter (flag ps) ps))), st') /\
    st'.1 = t /\ ok st'.2 /\
    forall p, p ∈ ps -> flag ps p = true -> alarmed reported st' (p_pid p).
Proof.
  intros Hf Hp Hi Hinit Hring Ha Hlen Hok.
  cut (wp (with_snapshot s (fun l => count_detections l (f l))) (t, (b, w)) (fun n st' =>
    n = Some (Z.of_nat (length (List.filter (flag ps) ps))) /\ st'.1 = t /\ ok st'.2 /\
    Forall (fun p => alarmed reported st' (p_pid p)) (List.filter (flag ps) ps))).
  { intros (r & st' & Hr & -> & H1 & H2 & H3). exists st'. split_and!; try done.
    intros p Hin Ho. rewrite Forall_forall in H3. apply H3, list_elem_of_In, filter_In.
    by rewrite <- list_elem_of_In. }
  eapply with_snapshot_ring; [done..|]. intros w' Hp'. rewrite take_ge by done.
  eapply wp_mono; [apply (count_flagged ok reported (flag ps)); [done|by eapply ok_host|by eapply ring_pids]|].
  intros n st' (H1 & [H2 _] & -> & H3). by split_and!.
Qed.

(** The orphan detector counts and reports exactly the processes of the
    task list whose recorded parent (other than 0 and 1) is not in the list. *)
Theorem detect_orphans_exact t b w ps :
  P w -> offsets_initialized t = true -> init_task_addr s <> 0 -> guest_tasks w t ps ->
  (calloc_ok w).1 = true -> (length ps <= 4096)%nat -> ok (b, w) ->
  exists st', task_walker_detect_orphans have_libbpf s (t, (b, w)) =
      Some (Some (Z.of_nat (length (List.filter (is_orphan ps) ps))), st') /\
    st'.1 = t /\ ok st'.2 /\
    forall p, p ∈ ps -> is_orphan ps p = true -> alarmed reported st' (p_pid p).
Proof. intros. eapply (detect_flagged is_orphan); try done. intros l. by eapply orphan_body. Qed.

(** The ancestry detector counts and reports exactly the shells whose
    parent process in the list is a web-tier program. *)
Theorem detect_ancestry_exact t b w ps :
  P w -> offsets_initialized t = true -> init_task_addr s <> 0 -> guest_tasks w t ps ->
  (calloc_ok w).1 = true -> (length ps <= 4096)%nat -> ok (b, w) ->
  exists st', task_walker_detect_suspicious_ancestry have_libbpf s (t, (b, w)) =
      Some (Some (Z.of_nat (length (List.filter (is_web_shell ps) ps))), st') /\
    st'.1 = t /\ ok st'.2 /\
    forall p, p ∈ ps -> is_web_shell ps p = true -> alarmed reported st' (p_pid p).
Proof. intros. eapply (detect_flagged is_web_shell); try done. intros l. by eapply web_shell_body. Qed.

(** The fork-bomb detector counts and reports, once each, exactly the
    processes of the list (other than pid 0) that have at least the threshold of
    children in the list; a threshold of 0 stands for 256. *)
Theorem detect_fork_bomb_exact t b w ps threshold :
  P w -> offsets_initialized t = true -> init_task_addr s <> 0 -> guest_tasks w t ps ->
  (calloc_ok w).1 = true -> (length ps <= 4096)%nat -> ok (b, w) ->
  exists st' pids, task_walker_detect_fork_bomb have_libbpf s threshold (t, (b, w)) =
      Some (Some (Z.of_nat (length pids)), st') /\
    st'.1 = t /\ ok st'.2 /\ NoDup pids /\ Forall (alarmed reported st') pids /\
    forall pid, pid ∈ pids <-> pid ∈ map p_pid ps /\ pid <> 0 /\
      (if threshold =? 0 then 256 else threshold) <=
      Z.of_nat (length (List.filter (fun p => p_ppid p =? pid) ps)).
Proof.
  intros Hp Hi Hinit Hring Ha Hlen Hok.
  set (th := if threshold =? 0 then 256 else threshold).
  cut (wp (task_walker_detect_fork_bomb have_libbpf s threshold) (t, (b, w)) (fun n st' =>
    n = Some (Z.of_nat (length (fork_bombs ps th [] ps))) /\ st'.1 = t /\ ok st'.2 /\
    Forall (alarmed reported st') (fork_bombs ps th [] ps))).
  { intros (r & st' & Hr & -> & H1 & H2 & H3). exists st', (fork_bombs ps th [] ps).
    destruct (fork_bombs_spec ps th [] ps) as [Hnd Hin]. split_and!; try done.
    intros pid. rewrite Hin. unfold children_of.
    assert (u32 (Z.of_nat (length (List.filter (fun p => p_ppid p =? pid) ps))) =
            Z.of_nat (length (List.filter (fun p => p_ppid p =? pid) ps))) as ->.
    { pose proof (List.filter_length_le (fun p => p_ppid p =? pid) ps). ulia. }
    set_solver. }
  unfold task_walker_detect_fork_bomb. change DEFAULT_FORK_BOMB_THRESHOLD with 256. fold th.
  eapply with_snapshot_ring; [done..|]. intros w' Hp'. rewrite take_ge by done.
  eapply wp_mono; [apply (fork_bomb_loop_spec _ ok reported); [by eapply ok_host|by eapply ring_pids]|].
  intros n st' (H1 & [H2 _] & -> & H3). by split_and!.
Qed.

(** C26. Privilege escalation is detected as a transition between scans.  With the
    init task's address given and the offset profile selected, on a guest whose memory
    holds a list of at most 4096 tasks with distinct pids, and while the baseline table
    has room for them: the detector raises for each monitored process exactly the alarms
    of its credentials against those recorded when it was last seen (euid became 0, or
    a capability was gained, in a program not on the allow list), and none for a
    process seen for the first time, a root process included; each alarmed process is
    reported, the new credentials are recorded, and the records of absent processes are
    kept.  If the snapshot cannot be allocated the detector returns its error and changes
    nothing. *)
Theorem detect_privilege_escalation_exact t b w ps :
  P w -> offsets_initialized t = true -> init_task_addr s <> 0 -> guest_tasks w t ps ->
  (length ps <= 4096)%nat -> ok (b, w) -> wf_walker t -> NoDup (map p_pid ps) ->
  (used_slots (privilege_baseline t) + length ps <= MAX_PRIV_BASELINE)%nat ->
  if (calloc_ok w).1 then
    exists st', task_walker_detect_privilege_escalation have_libbpf s (t, (b, w)) =
        Some (Some (scan_alarms (privilege_baseline t) ps), st') /\
      ok st'.2 /\ wf_walker st'.1 /\
      (forall p, p ∈ ps -> monitored p = true ->
         base_of (privilege_baseline st'.1) (p_pid p) =
           Some (entry_of (u32 (privilege_generation t + 1)) p) /\
         (0 < alarms (base_of (privilege_baseline t) (p_pid p)) p -> alarmed reported st' (p_pid p))) /\
      (forall pid, (pid ∉ map p_pid ps) ->
         base_of (privilege_baseline st'.1) pid = base_of (privilege_baseline t) pid)
  else task_walker_detect_privilege_escalation have_libbpf s (t, (b, w)) =
         Some (None, (t, (b, (calloc_ok w).2))).
Proof.
  intros Hp Hi Hinit Hring Hlen Hok Hwf Hnd Hroom.
  destruct ((calloc_ok w).1) eqn:Ha; [|by apply with_snapshot_oom].
  set (t1 := Walker (active_offsets t) (offsets_initialized t) (btf_offsets t)
               (privilege_baseline t) (u32 (privilege_generation t + 1))).
  cut (wp (task_walker_detect_privilege_escalation have_libbpf s) (t, (b, w)) (fun n st' =>
    n = Some (scan_alarms (privilege_baseline t) ps) /\ ok st'.2 /\ privilege_scanned ps t1 st'.1 /\
    forall p, p ∈ ps -> monitored p = true ->
      0 < alarms (base_of (privilege_baseline t) (p_pid p)) p -> alarmed reported st' (p_pid p))).
  { intros (r & st' & Hr & -> & H1 & [S1 S2 S3 S4 S5] & H3). exists st'. split_and!; try done.
    intros p Hin Hm. split; [by apply S3|by apply H3]. }
  unfold task_walker_detect_privilege_escalation.
  eapply with_snapshot_ring; [done..|]. intros w' Hp'. rewrite take_ge by done.
  wp_step. apply wp_wset. fold t1.
  eapply wp_mono; [apply (privilege_scan_spec have_libbpf ok reported);
    [by eapply ok_host|by eapply ring_pids|done|by destruct Hwf|done]|].
  intros n st' ([H1 _] & -> & H2 & H3). by split_and!.
Qed.
End claims.

(** ** A guest with two tasks

    On the page tables of the small guest: the idle task at the start of the
    first kernel page, an orphan shell (pid 100, parent 77, which is not in the
    list) half-way, their credentials in the second page. *)

Definition task_a : Z := 0xffffffff82200000.
Definition task_b : Z := 0xffffffff82200800.
Definition ghost_task : Z := 0xffffffff82201800.
Definition cred_a : Z := 0xffffffff82201000.
Definition cred_b : Z := 0xffffffff82201100.

Definition frame_of (gva : Z) : Z :=
  0x7f0000000000 + (if gva <? cred_a then 0x6000 else 0x5000) + gva mod 4096.
Definition set64 (gva v : Z) : gmap Z Z -> gmap Z Z := poke (frame_of gva) (le_encode 8 v).
Definition set32 (gva v : Z) : gmap Z Z -> gmap Z Z := poke (frame_of gva) (le_encode 4 v).

Definition two_tasks : gmap Z Z :=
  set64 (task_a + 0x298) (task_b + 0x298) $ set64 (task_b + 0x298) (task_a + 0x298) $
  set32 (task_b + 0x398) 100 $ set32 (task_b + 0x39c) 100 $ set64 (task_b + 0x2b0) ghost_task $
  set32 (ghost_task + 0x398) 77 $ poke (frame_of (task_b + 0x558)) [98; 97; 115; 104] $
  set64 (task_b + 0x268) 0x1234 $ set64 (task_a + 0x538) cred_a $ set64 (task_b + 0x538) cred_b $
  set32 (cred_b + 0x04) 1000 $ set32 (cred_b + 0x14) 1000 $
  zeros (frame_of task_a) 4096 $ zeros (frame_of cred_a) 4096 demo_memory.

Definition guest_session : vmi_session :=
  Session (-1) (-1) [] 0 [demo_slot] 4242 (-1) 0 0 false 0 task_a 0x1000.

Definition guest_world : mock := set_remote (fun _ => two_tasks) mock_init.

Definition walker_ready : walker :=
  Walker OFFSETS_6_6 true None (replicate MAX_PRIV_BASELINE baseline_zero) 0.

Definition proc_a : vmi_process :=
  Process task_a 0 0 0 0 0 0 0 EmptyString 0 cred_a 0 0 0 0 0.
Definition proc_b : vmi_process :=
  Process task_b 100 100 77 1000 0 1000 0 "bash" 0x1234 cred_b 0 0 0 0 0.

Lemma guest_readable w : readable guest_session w.
Proof. apply (one_remote_slot_readable _ demo_slot); [done| |done]. split; cbn; lia. Qed.

(** [task_in par]: evaluate the fields of a task whose real_parent is [par]. *)
Ltac task_in par :=
  split; [..|split; vm_compute; reflexivity];
  match goal with
  | |- ppid_at _ _ _ _ _ => exists par; split; vm_compute; reflexivity
  | _ => vm_compute; reflexivity
  end.

Lemma two_tasks_ring :
  task_ring guest_session guest_world OFFSETS_6_6 task_a task_a [proc_a; proc_b].
Proof.
  apply (ring_more _ _ _ _ _ _ task_b); [|vm_compute; reflexivity|done|apply ring_last].
  - task_in 0.
  - task_in ghost_task.
  - vm_compute. reflexivity.
Qed.

Lemma bridge_boot_ok (w : mock) : bridge_ok (bridge_boot, w).
Proof. split; [exact bridge_boot_wf|by apply zero_table_accounted]. Qed.

Lemma walker_ready_wf : wf_walker walker_ready.
Proof. split; [apply length_replicate|by apply slots_unique_dead]. Qed.

Lemma proc_b_listed : proc_b ∈ [proc_a; proc_b].
Proof. set_solver. Qed.

Lemma snapshot_is_task_list_witness :
  exists w', snapshot_processes guest_session MAX_TASK_SNAPSHOT (walker_ready, (bridge_boot, guest_world)) =
    Some (Some [proc_a; proc_b], (walker_ready, (bridge_boot, w'))).
Proof.
  apply (snapshot_is_task_list guest_session (readable guest_session) walker_ready bridge_boot
           guest_world [proc_a; proc_b]).
  - apply guest_readable.
  - reflexivity.
  - done.
  - exact two_tasks_ring.
Defined.

Lemma walks_terminate_witness :
  exists r st', task_walker_dump guest_session (walker_ready, (bridge_boot, guest_world)) = Some (r, st').
Proof.
  refine (proj2 (proj2 (walks_terminate guest_session (readable guest_session) walker_ready bridge_boot
           guest_world 100 _ _ _))).
  - apply guest_readable.
  - reflexivity.
  - done.
Defined.

Lemma find_pid_finds_task_witness :
  exists w', task_walker_find_pid guest_session 100 (walker_ready, (bridge_boot, guest_world)) =
    Some (Some task_b, (walker_ready, (bridge_boot, w'))).
Proof.
  apply (find_pid_finds_task guest_session (readable guest_session) walker_ready bridge_boot
           guest_world [proc_a; proc_b] 100).
  - apply guest_readable.
  - reflexivity.
  - done.
  - exact two_tasks_ring.
Defined.

Lemma detect_orphans_exact_witness :
  exists st', task_walker_detect_orphans false guest_session (walker_ready, (bridge_boot, guest_world)) =
    Some (Some 1, st') /\ alarmed bridge_reported st' 100.
Proof.
  destruct (detect_orphans_exact guest_session (readable guest_session) false bridge_ok bridge_reported
              ltac:(done) walker_ready bridge_boot guest_world [proc_a; proc_b])
    as (st' & H1 & _ & _ & H2).
  - apply guest_readable.
  - reflexivity.
  - done.
  - exact two_tasks_ring.
  - reflexivity.
  - cbn. lia.
  - apply bridge_boot_ok.
  - exists st'. split; [exact H1|]. apply (H2 proc_b proc_b_listed). reflexivity.
Defined.

Lemma detect_ancestry_exact_witness :
  exists st', task_walker_detect_suspicious_ancestry false guest_session
    (walker_ready, (bridge_boot, guest_world)) = Some (Some 0, st').
Proof.
  destruct (detect_ancestry_exact guest_session (readable guest_session) false bridge_ok bridge_reported
              ltac:(done) walker_ready bridge_boot guest_world [proc_a; proc_b])
    as (st' & H1 & _).
  - apply guest_readable.
  - reflexivity.
  - done.
  - exact two_tasks_ring.
  - reflexivity.
  - cbn. lia.
  - apply bridge_boot_ok.
  - exists st'. exact H1.
Defined.

Lemma detect_fork_bomb_exact_witness :
  exists st' (pids : list Z), task_walker_detect_fork_bomb false guest_session 1
    (walker_ready, (bridge_boot, guest_world)) = Some (Some (Z.of_nat (length pids)), st') /\ NoDup pids.
Proof.
  destruct (detect_fork_bomb_exact guest_session (readable guest_session) false bridge_ok bridge_reported
              ltac:(done) walker_ready bridge_boot guest_world [proc_a; proc_b] 1)
    as (st' & pids & H1 & _ & _ & H2 & _).
  - apply guest_readable.
  - reflexivity.
  - done.
  - exact two_tasks_ring.
  - reflexivity.
  - cbn. lia.
  - apply bridge_boot_ok.
  - exists st', pids. exact (conj H1 H2).
Defined.

Lemma detect_privilege_escalation_exact_witness :
  exists st', task_walker_detect_privilege_escalation false guest_session
    (walker_ready, (bridge_boot, guest_world)) = Some (Some 0, st') /\
    base_of (privilege_baseline st'.1) 100 = Some (entry_of 1 proc_b).
Proof.
  destruct (detect_privilege_escalation_exact guest_session (readable guest_session) false bridge_ok
              bridge_reported ltac:(done) walker_ready bridge_boot guest_world [proc_a; proc_b])
    as (st' & H1 & _ & _ & H2 & _).
  - apply guest_readable.
  - reflexivity.
  - done.
  - exact two_tasks_ring.
  - cbn. lia.
  - apply bridge_boot_ok.
  - exact walker_ready_wf.
  - vm_compute. repeat constructor; set_solver.
  - vm_compute. lia.
  - exists st'. split.
    + rewrite H1. vm_compute scan_alarms. reflexivity.
    + apply (H2 proc_b proc_b_listed). reflexivity.
Defined.

(** ** BTF dumps *)

(** A member line of [bpftool btf dump ... format raw]. *)
Definition btf_member_text (name : string) (type_id bits : Z) : string :=
  String "009"%char (String quote (name +:+ String quote (" type_id=" +:+ fmt_u type_id +:+
    " bits_offset=" +:+ fmt_u bits +:+ String newline EmptyString))).

(** A member line that bpftool prints parses back to the member's name and
    its byte offset, for every name of 1 to 127 characters without a quote and
    every 64-bit bit offset. *)
Theorem parse_btf_member_line_roundtrip name type_id bits :
  str_forall (fun c => negb (Ascii.eqb quote c)) name = true ->
  (1 <= strlen name < 128)%nat -> is_u64 type_id -> is_u64 bits ->
  parse_btf_member_line (btf_member_text name type_id bits) 128 = Some (name, bits / 8).
Proof.
  intros Hname Hlen Hid Hbits. unfold parse_btf_member_line, btf_member_text.
  set (tail := " type_id=" +:+ fmt_u type_id +:+ _).
  change (strchr (String "009" (String quote (name +:+ String quote tail))) quote)
    with (Some (String quote (name +:+ String quote tail))).
  cbv iota zeta. set (on := name +:+ String quote tail).
  assert (String.substring 1 (strlen (String quote on) - 1) (String quote on) = on) as ->
    by exact (substring_after (String quote EmptyString) on).
  unfold on.
  rewrite strchr_app by done. cbv iota.
  rewrite strlen_app. replace (strlen name + strlen (String quote tail) - strlen (String quote tail))%nat
    with (strlen name) by lia.
  rewrite (proj2 (Nat.eqb_neq _ _)), (proj2 (Nat.leb_gt _ _)) by lia. cbn [orb].
  rewrite substring_prefix.
  assert (strstr (String quote tail) "bits_offset=" =
          Some ("bits_offset=" +:+ fmt_u bits +:+ String newline EmptyString)) as ->.
  { unfold tail. change "bits_offset="%string with (String "b" "its_offset=") at 1.
    etransitivity; [|apply (strstr_here "bits_offset=")].
    etransitivity; [|apply (strstr_app (String quote (" type_id=" +:+ fmt_u type_id +:+ " ")) "b"%char
      "its_offset=" ("bits_offset=" +:+ fmt_u bits +:+ String newline EmptyString))].
    - change (String quote (" type_id=" +:+ fmt_u type_id +:+ " ")) with
        (String quote " type_id=" +:+ (fmt_u type_id +:+ " ")). by rewrite !str_app_assoc.
    - cbn [str_forall]. rewrite !str_forall_app.
      rewrite (fmt_digits_chars 20 type_id EmptyString); [done| |done|ulia].
      intros d Hd. by apply (digit_char_cases d (fun x => negb (Ascii.eqb "b" x) = true)). }
  cbv iota. set (num := fmt_u bits +:+ _).
  assert (String.substring 12 (strlen ("bits_offset=" +:+ num) - 12) ("bits_offset=" +:+ num) = num)
    as -> by exact (substring_after "bits_offset=" num).
  unfold num.
  rewrite strtoull_fmt_u by (done || (vm_compute; congruence)). done.
Qed.

Lemma parse_btf_member_line_roundtrip_witness :
  parse_btf_member_line (btf_member_text "tasks" 77 5312) 128 = Some ("tasks"%string, 664).
Proof.
  apply (parse_btf_member_line_roundtrip "tasks" 77 5312).
  - reflexivity.
  - cbn. lia.
  - ulia.
  - ulia.
Defined.
