(* ===== verification/NptRegions.v ===== *)
(** * Guarded regions (release_payload/src/vmi/src/npt_guard.c, first part)

    The state of the protection layer (npt_guard.c, npf_handler.c,
    cpuid_handler.c and heki_server.c share it through the session and a few
    statics), the region table, hashing of guest memory, baselines, read-only
    pages, arming, and the bounds check that the fault handler consults. *)

From S2P Require Import Prelude CStrings HostOS VmiMemory Bridge.
From stdpp Require Import prelude strings list.
From Stdlib Require Import ZArith Lia Ascii.
#[local] Open Scope string_scope.
#[local] Open Scope list_scope.
#[local] Open Scope Z_scope.

Definition KVM_MEM_READONLY : Z := 2.
Definition MAX_GUARD_REGIONS : nat := 16.
Definition REGION_NAME_MAX : nat := 32.
Definition INTEGRITY_CHECK_INTERVAL_US : Z := 500000.
Definition SYS_CALL_TABLE_BASE_6_6 : Z := 0xffffffff82200300.
Definition SYS_CALL_TABLE_SIZE : Z := 4096.
Definition DEFAULT_IDT_SIZE : Z := 0x1000.
Definition DEFAULT_GDT_SIZE : Z := 0x1000.
Definition DEFAULT_LSTAR_SIZE : Z := 0x100.
Definition DEFAULT_KERNEL_TEXT_SIZE : Z := 0x200000.

Record guard_region := Region {
  r_name : string;
  r_gpa : Z;
  r_size : Z;
  critical : bool;
  baseline_hash : Z;
  baseline_valid : bool;
  last_alert_hash : Z;
}.

(** The statics of the protection layer; [guard_regions] is the prefix of the
    C array that [guard_region_count] covers. *)
Record guard_state := Guard {
  session : vmi_session;
  clean_syscall_table : list Z;
  snapshot_taken : bool;
  clean_syscall_hash : Z;
  last_integrity_check_us : Z;
  guard_regions : list guard_region;
  authorized_cr3 : Z;
  authorized_pid : Z;
  heki_listen_fd : Z;
  heki_active_nonce : Z;
}.

Definition with_session (s : vmi_session) (g : guard_state) : guard_state :=
  Guard s (clean_syscall_table g) (snapshot_taken g) (clean_syscall_hash g)
    (last_integrity_check_us g) (guard_regions g) (authorized_cr3 g) (authorized_pid g)
    (heki_listen_fd g) (heki_active_nonce g).
Definition with_regions (rs : list guard_region) (g : guard_state) : guard_state :=
  Guard (session g) (clean_syscall_table g) (snapshot_taken g) (clean_syscall_hash g)
    (last_integrity_check_us g) rs (authorized_cr3 g) (authorized_pid g)
    (heki_listen_fd g) (heki_active_nonce g).
Definition with_snapshot_state (tbl : list Z) (taken : bool) (h : Z) (g : guard_state) : guard_state :=
  Guard (session g) tbl taken h (last_integrity_check_us g) (guard_regions g)
    (authorized_cr3 g) (authorized_pid g) (heki_listen_fd g) (heki_active_nonce g).
Definition with_last_check (t : Z) (g : guard_state) : guard_state :=
  Guard (session g) (clean_syscall_table g) (snapshot_taken g) (clean_syscall_hash g) t
    (guard_regions g) (authorized_cr3 g) (authorized_pid g) (heki_listen_fd g) (heki_active_nonce g).
Definition with_authorized (cr3 pid : Z) (g : guard_state) : guard_state :=
  Guard (session g) (clean_syscall_table g) (snapshot_taken g) (clean_syscall_hash g)
    (last_integrity_check_us g) (guard_regions g) cr3 pid (heki_listen_fd g) (heki_active_nonce g).
Definition with_nonce (n : Z) (g : guard_state) : guard_state :=
  Guard (session g) (clean_syscall_table g) (snapshot_taken g) (clean_syscall_hash g)
    (last_integrity_check_us g) (guard_regions g) (authorized_cr3 g) (authorized_pid g)
    (heki_listen_fd g) n.

(** Fields of the session that the guard writes. *)
Definition set_table_gva (gva : Z) (s : vmi_session) : vmi_session :=
  Session (kvm_fd s) (vm_fd s) (vcpu_fds s) (nr_vcpus s) (memslots s) (qemu_pid s) (control_fd s)
    (syscall_table_gpa s) gva (npt_armed s) (kaslr_offset s) (init_task_addr s) (kernel_pgd s).
Definition set_table_gpa (gpa : Z) (s : vmi_session) : vmi_session :=
  Session (kvm_fd s) (vm_fd s) (vcpu_fds s) (nr_vcpus s) (memslots s) (qemu_pid s) (control_fd s)
    gpa (syscall_table_gva s) (npt_armed s) (kaslr_offset s) (init_task_addr s) (kernel_pgd s).
Definition set_armed (a : bool) (s : vmi_session) : vmi_session :=
  Session (kvm_fd s) (vm_fd s) (vcpu_fds s) (nr_vcpus s) (memslots s) (qemu_pid s) (control_fd s)
    (syscall_table_gpa s) (syscall_table_gva s) a (kaslr_offset s) (init_task_addr s) (kernel_pgd s).

(** ** FNV-1a *)

Definition FNV_PRIME : Z := 1099511628211.
Definition fnv1a64_init : Z := 1469598103934665603.
Definition fnv1a64_step (h b : Z) : Z := u64 (Z.lxor h b * FNV_PRIME).
Definition fnv1a64_update (h : Z) (data : list Z) : Z := fold_left fnv1a64_step data h.

Definition page_down (a : Z) : Z := Z.land a (u64 (Z.lnot 4095)).

Section regions.
Context {W : Type} `{OS : HostOS W}.
Abbreviation G := (guard_state * (bridge * W))%type.

Definition gmem {A} (m : M W A) : M G A :=
  zoom (fun st => st.2.2) (fun w st => (st.1, (st.2.1, w))) m.
Definition gbrg {A} (m : M (bridge * W) A) : M G A := zoom snd (fun b st => (st.1, b)) m.
Definition guard_get {A} (f : guard_state -> A) : M G A := gets (fun st => f st.1).
Definition guard_set (f : guard_state -> guard_state) : M G unit := modify (fun st => (f st.1, st.2)).

(** ** Hashing guest memory *)

(** One page-sized chunk per iteration; the chunk buffer is overwritten by
    every successful read. *)
Fixpoint hash_loop (fuel : nat) (s : vmi_session) (gpa remaining offset h : Z) : M G (option Z) :=
  if 0 <? remaining then
    match fuel with
    | O => stuck
    | S fuel' =>
        let chunk := Z.min remaining VMI_PAGE_SIZE in
        r ← gmem (vmi_read_physical s (u64 (gpa + offset)) (replicate (Z.to_nat chunk) 0));
        if negb r.1 then mret None
        else hash_loop fuel' s gpa (remaining - chunk) (u64 (offset + chunk))
               (fnv1a64_update h r.2)
    end
  else mret (Some h).

Definition hash_guest_region (s : vmi_session) (gpa size : Z) : M G (option Z) :=
  if size =? 0 then mret None
  else hash_loop (Z.to_nat (size / VMI_PAGE_SIZE) + 1) s gpa size 0 fnv1a64_init.

Definition monotonic_time_us : M G Z :=
  t ← gmem (lift clock_monotonic);
  mret match t with
       | Some (sec, nsec) => u64 (u64 (u64 sec * 1000000) + u64 nsec / 1000)
       | None => 0
       end.

Definition parse_env_u64 (key : string) : M G (option Z) :=
  v ← gmem (gets (getenv key));
  mret match v with
       | None | Some EmptyString => None
       | Some value => match strtoull 0 value with
                       | Converted n => Some n
                       | NoConversion | OutOfRange => None
                       end
       end.

(** ** The region table *)

Definition clear_guard_regions : M G unit :=
  guard_set (fun g => with_last_check 0 (with_regions [] g)).

Definition add_guard_region (name : string) (gpa size : Z) (crit : bool) : M G bool :=
  rs ← guard_get guard_regions;
  if size =? 0 then mret false
  else if (MAX_GUARD_REGIONS <=? length rs)%nat then mret false
  else
    _ ← guard_set (with_regions (rs ++ [Region (strncpyz REGION_NAME_MAX name) gpa size crit 0 false 0]));
    mret true.

(** [resolve_syscall_table]: translate the table's address. *)
Definition resolve_syscall_table : M G bool :=
  _ ← guard_set (fun g => with_session
        (set_table_gva (u64 (SYS_CALL_TABLE_BASE_6_6 + kaslr_offset (session g))) (session g)) g);
  s ← guard_get session;
  if kernel_pgd s =? 0 then mret false
  else
    r ← gmem (vmi_gva_to_gpa s (kernel_pgd s) (syscall_table_gva s));
    match r with
    | None => mret false
    | Some gpa => _ ← guard_set (with_session (set_table_gpa gpa s)); mret true
    end.

(** -1, 0 and 1 of the code are [Some false], [None] and [Some true]. *)
Definition add_env_guard_region (name gva_env size_env : string) (default_size : Z) (crit : bool)
  : M G (option bool) :=
  gva ← parse_env_u64 gva_env;
  match gva with
  | None => mret None
  | Some gva =>
      configured ← parse_env_u64 size_env;
      let size := match configured with
                  | Some c => if 0 <? c then c else default_size
                  | None => default_size
                  end in
      s ← guard_get session;
      r ← gmem (vmi_gva_to_gpa s (kernel_pgd s) gva);
      match r with
      | None => mret (Some false)
      | Some gpa => ok ← add_guard_region name gpa size crit; mret (Some ok)
      end
  end.

Definition register_optional_signature_regions : M G unit :=
  _ ← add_env_guard_region "idt" "VMI_IDT_GVA" "VMI_IDT_SIZE" DEFAULT_IDT_SIZE true;
  _ ← add_env_guard_region "gdt" "VMI_GDT_GVA" "VMI_GDT_SIZE" DEFAULT_GDT_SIZE true;
  _ ← add_env_guard_region "lstar" "VMI_LSTAR_GVA" "VMI_LSTAR_SIZE" DEFAULT_LSTAR_SIZE true;
  _ ← add_env_guard_region "kernel_text" "VMI_KERNEL_TEXT_GVA" "VMI_KERNEL_TEXT_SIZE"
        DEFAULT_KERNEL_TEXT_SIZE true;
  mret tt.

(** ** Baselines *)

(** [uint64_t table\[512\]] from its bytes. *)
Fixpoint words (n : nat) (bs : list Z) : list Z :=
  match n with
  | O => []
  | S n' => le_decode (take 8 bs) :: words n' (drop 8 bs)
  end.

(** A failed read leaves what it read in the static array. *)
Definition snapshot_syscall_table : M G bool :=
  g ← guard_get id;
  r ← gmem (vmi_read_physical (session g) (syscall_table_gpa (session g)) (clean_syscall_table g));
  if negb r.1 then
    _ ← guard_set (with_snapshot_state r.2 (snapshot_taken g) (clean_syscall_hash g)); mret false
  else
    _ ← guard_set (with_snapshot_state r.2 true (fnv1a64_update fnv1a64_init r.2)); mret true.

Definition set_baseline_hash (h : Z) (r : guard_region) : guard_region :=
  Region (r_name r) (r_gpa r) (r_size r) (critical r) h true 0.

Definition snapshot_guard_region (i : nat) : M G bool :=
  g ← guard_get id;
  match guard_regions g !! i with
  | None => stuck
  | Some region =>
      if streq (r_name region) "sys_call_table" then
        ok ← snapshot_syscall_table;
        if negb ok then mret false
        else
          _ ← guard_set (fun g => with_regions
                (<[i := set_baseline_hash (clean_syscall_hash g) region]> (guard_regions g)) g);
          mret true
      else
        h ← hash_guest_region (session g) (r_gpa region) (r_size region);
        match h with
        | None => mret false
        | Some h =>
            _ ← guard_set (fun g => with_regions (<[i := set_baseline_hash h region]> (guard_regions g)) g);
            mret true
        end
  end.

(** ** Read-only pages *)

Fixpoint find_page_slot (slots : list vmi_memslot) (gpa page_gpa : Z) : option (Z * Z) :=
  match slots with
  | [] => None
  | m :: rest =>
      if in_slot m gpa
      then Some (slot m, u64 (userspace_addr m + u64 (page_gpa - guest_phys_addr m)))
      else find_page_slot rest gpa page_gpa
  end.

Definition set_page_readonly (s : vmi_session) (gpa : Z) : M G bool :=
  let page_gpa := page_down gpa in
  match find_page_slot (memslots s) gpa page_gpa with
  | None => mret false
  | Some (sl, ua) =>
      if 0 <=? vm_fd s then
        _ ← gmem (lift (kvm_set_user_memory_region (vm_fd s)
                          (KvmRegion sl KVM_MEM_READONLY page_gpa VMI_PAGE_SIZE ua)));
        mret true
      else mret true
  end.

(** The page loop shared by arming, re-protection and dynamic registration:
    [while (page < end) { set_page_readonly(s, page); page += 4096; }].  The fuel
    covers the pages of a region that does not wrap around the address space. *)
Fixpoint protect_pages (fuel : nat) (s : vmi_session) (page end_ : Z) : M G unit :=
  if page <? end_ then
    match fuel with
    | O => stuck
    | S fuel' =>
        _ ← set_page_readonly s page;
        protect_pages fuel' s (u64 (page + VMI_PAGE_SIZE)) end_
    end
  else mret tt.

Definition reprotect_region_pages (s : vmi_session) (region : guard_region) : M G unit :=
  let start := r_gpa region in
  let end_ := u64 (start + r_size region) in
  let page := page_down start in
  protect_pages (Z.to_nat ((end_ - page) / VMI_PAGE_SIZE) + 1) s page end_.

Definition arm_guard_regions : M G unit :=
  g ← guard_get id;
  forM (guard_regions g) (reprotect_region_pages (session g)).

(** ** Arming *)

(** The baseline loop of [npt_guard_arm]: it fails only on sys_call_table. *)
Fixpoint baseline_loop (l : list nat) : M G bool :=
  match l with
  | [] => mret true
  | i :: rest =>
      ok ← snapshot_guard_region i;
      name ← guard_get (fun g => match guard_regions g !! i with
                            | Some r => r_name r
                            | None => EmptyString
                            end);
      if negb ok && streq name "sys_call_table" then mret false
      else baseline_loop rest
  end.

(** [true] is return code 0. *)
Definition npt_guard_arm : M G bool :=
  _ ← clear_guard_regions;
  ok ← resolve_syscall_table;
  if negb ok then mret true
  else
    gpa ← guard_get (fun g => syscall_table_gpa (session g));
    added ← add_guard_region "sys_call_table" gpa SYS_CALL_TABLE_SIZE true;
    if negb added then mret false
    else
      _ ← register_optional_signature_regions;
      n ← guard_get (fun g => length (guard_regions g));
      ok ← baseline_loop (seq 0 n);
      if negb ok then mret false
      else
        _ ← arm_guard_regions;
        _ ← guard_set (fun g => with_session (set_armed true (session g)) g);
        mret true.

Definition npt_guard_disarm : M G unit :=
  armed ← guard_get (fun g => npt_armed (session g));
  if negb armed then mret tt
  else
    _ ← clear_guard_regions;
    guard_set (fun g => with_session (set_armed false (session g))
                     (with_snapshot_state (clean_syscall_table g) false (clean_syscall_hash g) g)).
End regions.

(** ** Bounds *)

Inductive bounds := Unknown | DirectHit | Collateral.

Definition bounds_code (b : bounds) : Z :=
  match b with Unknown => 0 | DirectHit => 1 | Collateral => 2 end.

(** The region whose pages hold the address, and where it lies in it. *)
Fixpoint npt_guard_check_bounds (regions : list guard_region) (gpa : Z)
  : bounds * option guard_region :=
  match regions with
  | [] => (Unknown, None)
  | r :: rest =>
      let start := r_gpa r in
      let end_ := u64 (start + r_size r) in
      let page_start := page_down start in
      let page_end := page_down (u64 (end_ + VMI_PAGE_SIZE - 1)) in
      if (page_start <=? gpa) && (gpa <? page_end) then
        (if (start <=? gpa) && (gpa <? end_) then DirectHit else Collateral, Some r)
      else npt_guard_check_bounds rest gpa
  end.
