(* ===== verification/NpfHandler.v ===== *)
(** * Nested page faults (npf_handler.c and cpuid_handler.c)

    Classification of a write to a guarded page, authorisation through the
    CPUID drawbridge, and the alerts that a hostile write raises. *)

From S2P Require Import Prelude CStrings HostOS VmiMemory Bridge NptRegions.
From stdpp Require Import prelude strings list.
From Stdlib Require Import ZArith Lia Ascii.
#[local] Open Scope string_scope.
#[local] Open Scope list_scope.
#[local] Open Scope Z_scope.

Definition SYSCALL_TABLE_SIZE : Z := 4096.
Definition HEKI_MAGIC : Z := 0x48454B49.

Inductive fault_classification :=
| FAULT_IGNORE
| FAULT_LEGITIMATE
| FAULT_SUSPICIOUS
| FAULT_MALICIOUS.

#[global] Instance fault_classification_eq_dec : EqDecision fault_classification.
Proof. solve_decision. Defined.

Record classified := Classified {
  verdict_of : fault_classification;
  region_of : string;
  critical_of : bool;
  collateral_of : bool;
}.

Definition in_syscall_table (s : vmi_session) (gpa : Z) : bool :=
  negb (syscall_table_gpa s =? 0) && (syscall_table_gpa s <=? gpa) &&
  (gpa <? u64 (syscall_table_gpa s + SYSCALL_TABLE_SIZE)).

Section handler.
Context {W : Type} `{OS : HostOS W}.
Context (have_libbpf : bool).
Abbreviation G := (guard_state * (bridge * W))%type.

(** ** cpuid_handler.c *)

(** The placeholder of the source: the pid is not known. *)
Definition identify_malicious_pid : Z := 0.

Definition npf_handler_cpuid_intercept (eax ecx cr3 : Z) : M G unit :=
  nonce ← guard_get heki_active_nonce;
  if eax =? HEKI_MAGIC then
    if (ecx =? nonce) && negb (nonce =? 0)
    then guard_set (with_authorized cr3 identify_malicious_pid)
    else mret tt
  else mret tt.

Definition npf_handler_is_authorized (g : guard_state) (cr3 pid : Z) : bool :=
  (negb (cr3 =? 0) && (authorized_cr3 g =? cr3)) ||
  (negb (pid =? 0) && (authorized_pid g =? pid)).

Definition npf_handler_clear_authorized : M G unit := guard_set (with_authorized 0 0).

(** ** npf_handler.c *)

Definition is_legitimate_fault (region_name : string) : M G bool :=
  v ← gmem (gets (getenv "VMI_ALLOW_LEGIT_KERNEL_PATCH"));
  mret (match v with Some x => streq x "1" | None => false end &&
        (streq region_name "sys_call_table" || streq region_name "kernel_text")).

Definition classify_fault (gpa : Z) (write_access : bool) : M G classified :=
  if negb write_access then mret (Classified FAULT_IGNORE "none" false false)
  else
    g ← guard_get id;
    let '(region, crit, collateral) :=
      match npt_guard_check_bounds (guard_regions g) gpa with
      | (Collateral, Some r) => (r_name r, critical r, true)
      | (_, Some r) => (r_name r, critical r, false)
      | (_, None) => if in_syscall_table (session g) gpa then ("sys_call_table", true, false)
                     else ("protected_page", false, false)
      end in
    if collateral : bool then mret (Classified FAULT_LEGITIMATE region crit true)
    else
      legit ← is_legitimate_fault region;
      mret (Classified (if legit : bool then FAULT_LEGITIMATE
                        else if crit : bool then FAULT_MALICIOUS else FAULT_SUSPICIOUS)
              region crit false).

(** The alert for a hostile write. *)
Definition signal_hostile (c : classified) (gpa : Z) (syscall_target : bool) : M G unit :=
  if syscall_target then
    gbrg (bridge_signal_malicious have_libbpf identify_malicious_pid
            (strncpyz 128 ("syscall_table_write: GPA=0x" +:+ fmt_x gpa)))
  else
    let reason := strncpyz 128 (region_of c +:+ "_write: GPA=0x" +:+ fmt_x gpa) in
    if bool_decide (verdict_of c = FAULT_MALICIOUS) || critical_of c
    then gbrg (bridge_signal_malicious have_libbpf identify_malicious_pid reason)
    else gbrg (bridge_signal_suspicious have_libbpf identify_malicious_pid reason).

Definition npf_handler_process (gpa : Z) (write_access : bool) : M G unit :=
  if negb write_access then mret tt
  else
    c ← classify_fault gpa write_access;
    if bool_decide (verdict_of c = FAULT_IGNORE) then mret tt
    else if collateral_of c then mret tt
    else
      g ← guard_get id;
      let syscall_target := in_syscall_table (session g) gpa in
      if bool_decide (verdict_of c = FAULT_LEGITIMATE) then mret tt
      else if npf_handler_is_authorized g (kernel_pgd (session g)) identify_malicious_pid
      then npf_handler_clear_authorized
      else signal_hostile c gpa syscall_target.

Definition npf_handler_report_integrity_violation (region_name : string)
    (gpa expected_hash actual_hash : Z) (crit : bool) : M G unit :=
  let reason := strncpyz 160 (region_name +:+ "_integrity_violation: GPA=0x" +:+ fmt_x gpa +:+
    " baseline=0x" +:+ fmt_x expected_hash +:+ " current=0x" +:+ fmt_x actual_hash) in
  if crit then gbrg (bridge_signal_malicious have_libbpf identify_malicious_pid reason)
  else gbrg (bridge_signal_suspicious have_libbpf identify_malicious_pid reason).
End handler.
