(* ===== verification/NptGuard.v ===== *)
(** * The integrity loop of the page guard (npt_guard.c, second part)

    Periodic re-hashing of the guarded regions, reporting of changes through
    the fault handler, re-protection, and regions registered at run time. *)

From S2P Require Import Prelude CStrings HostOS VmiMemory Bridge NptRegions NpfHandler.
From stdpp Require Import prelude strings list.
From Stdlib Require Import ZArith Lia Ascii.
#[local] Open Scope string_scope.
#[local] Open Scope list_scope.
#[local] Open Scope Z_scope.

Definition set_last_alert (h : Z) (r : guard_region) : guard_region :=
  Region (r_name r) (r_gpa r) (r_size r) (critical r) (baseline_hash r) (baseline_valid r) h.

Section loop.
Context {W : Type} `{OS : HostOS W}.
Context (have_libbpf : bool).
Abbreviation G := (guard_state * (bridge * W))%type.

(** One fault per changed entry of the system call table. *)
Definition report_syscall_table_diffs : M G unit :=
  g ← guard_get id;
  let s := session g in
  if negb (snapshot_taken g) || (syscall_table_gpa s =? 0) then mret tt
  else
    r ← gmem (vmi_read_physical s (syscall_table_gpa s)
                (replicate (Z.to_nat SYS_CALL_TABLE_SIZE) 0));
    if negb r.1 then mret tt
    else
      forM (zip (seq 0 512) (zip (words 512 r.2) (words 512 (clean_syscall_table g))))
        (fun '(i, (now, clean)) =>
           if now =? clean then mret tt
           else npf_handler_process have_libbpf
                  (u64 (syscall_table_gpa s + Z.of_nat i * 8)) true).

(** One region of the loop. *)
Definition check_region (i : nat) : M G unit :=
  g ← guard_get id;
  match guard_regions g !! i with
  | None => stuck
  | Some region =>
      if negb (baseline_valid region) then mret tt
      else
        h ← hash_guest_region (session g) (r_gpa region) (r_size region);
        match h with
        | None => mret tt
        | Some current_hash =>
            let set_alert v := guard_set (fun g =>
              with_regions (<[i := set_last_alert v region]> (guard_regions g)) g) in
            if current_hash =? baseline_hash region then set_alert 0
            else if last_alert_hash region =? current_hash then mret tt
            else
              _ ← set_alert current_hash;
              _ ← (if streq (r_name region) "sys_call_table" then report_syscall_table_diffs
                   else npf_handler_report_integrity_violation have_libbpf (r_name region)
                          (r_gpa region) (baseline_hash region) current_hash (critical region));
              reprotect_region_pages (session g) region
        end
  end.

Definition npt_guard_handle_events : M G unit :=
  g ← guard_get id;
  if negb (npt_armed (session g)) then mret tt
  else
    now ← monotonic_time_us;
    if negb (last_integrity_check_us g =? 0) && negb (now =? 0) &&
       (u64 (now - last_integrity_check_us g) <? INTEGRITY_CHECK_INTERVAL_US)
    then gmem (modify (usleep 100000))
    else
      _ ← (if now =? 0 then mret tt else guard_set (with_last_check now));
      _ ← forM (seq 0 (length (guard_regions g))) check_region;
      gmem (modify (usleep 100000)).

(** [true] is return code 0. *)
Definition npt_guard_protect_dynamic (gpa size : Z) (crit : bool) (name : string) : M G bool :=
  added ← add_guard_region name gpa size crit;
  if negb added then mret false
  else
    n ← guard_get (fun g => length (guard_regions g));
    ok ← snapshot_guard_region (n - 1);
    if negb ok then mret false
    else
      g ← guard_get id;
      if npt_armed (session g) then
        match guard_regions g !! (n - 1)%nat with
        | None => stuck
        | Some region => _ ← reprotect_region_pages (session g) region; mret true
        end
      else mret true.
End loop.
