(* ===== verification/GuardProofs.v ===== *)
(** * Correctness of the page guard and of the fault handler

    Hashing of guest regions is exact and sees every single-byte change; the
    region table stays within its bounds; arming covers every page of every
    region; the fault handler reports hostile writes and honours a one-shot
    authorisation; the integrity loop reports each change once. *)

From S2P Require Import Prelude CStrings HostOS MockHost VmiMemory VmiMemoryProofs PageWalk.
From S2P Require Import Bridge BridgeProofs BridgeMemory NptRegions NpfHandler NptGuard.
From stdpp Require Import prelude gmap strings list list_monad.
From Stdlib Require Import ZArith Lia Ascii.
#[local] Open Scope string_scope.
#[local] Open Scope list_scope.
#[local] Open Scope Z_scope.

(** ** FNV-1a *)

Definition FNV_PRIME_INV : Z := 14886173955864302971.

Lemma fnv_prime_inverse x : is_u64 x -> u64 (u64 (x * FNV_PRIME) * FNV_PRIME_INV) = x.
Proof.
  intros Hx. unfold u64. rewrite Z.mul_mod_idemp_l, <- Z.mul_assoc, <- Z.mul_mod_idemp_r by lia.
  change ((FNV_PRIME * FNV_PRIME_INV) mod 18446744073709551616) with 1.
  rewrite Z.mul_1_r. apply Z.mod_small. exact Hx.
Qed.

Lemma lxor_u64 a b : is_u64 a -> is_u64 b -> is_u64 (Z.lxor a b).
Proof.
  unfold is_u64. change 18446744073709551616 with (2 ^ 64). intros [Ha1 Ha2] [Hb1 Hb2].
  assert (0 <= Z.lxor a b) as Hp by (apply Z.lxor_nonneg; split; lia).
  split; [done|]. destruct (decide (Z.lxor a b = 0)) as [->|Hn]; [lia|].
  apply Z.log2_lt_pow2; [lia|]. pose proof (Z.log2_lxor a b Ha1 Hb1).
  pose proof (Z.log2_le_mono a (2 ^ 64 - 1) ltac:(lia)) as L1.
  pose proof (Z.log2_le_mono b (2 ^ 64 - 1) ltac:(lia)) as L2.
  change (Z.log2 (2 ^ 64 - 1)) with 63 in *. lia.
Qed.

Lemma lxor_cancel_l a b c : Z.lxor a b = Z.lxor a c -> b = c.
Proof.
  intros H. apply (f_equal (Z.lxor a)) in H.
  by rewrite <- !Z.lxor_assoc, !Z.lxor_nilpotent, !Z.lxor_0_l in H.
Qed.

Lemma u8_u64 b : is_u8 b -> is_u64 b.
Proof. ulia. Qed.

Lemma fnv_mul_inj x y : is_u64 x -> is_u64 y -> u64 (x * FNV_PRIME) = u64 (y * FNV_PRIME) -> x = y.
Proof. intros Hx Hy H. by rewrite <- (fnv_prime_inverse x), <- (fnv_prime_inverse y), H. Qed.

(** The multiplier is odd, so a step loses nothing of the state or the byte. *)
Lemma fnv_step_inj_state h h' b :
  is_u64 h -> is_u64 h' -> is_u8 b -> fnv1a64_step h b = fnv1a64_step h' b -> h = h'.
Proof.
  intros Hh Hh' Hb H. apply fnv_mul_inj in H; [|by apply lxor_u64, u8_u64..].
  rewrite (Z.lxor_comm h), (Z.lxor_comm h') in H. by apply lxor_cancel_l in H.
Qed.

Lemma fnv_step_inj_byte h b b' :
  is_u64 h -> is_u8 b -> is_u8 b' -> fnv1a64_step h b = fnv1a64_step h b' -> b = b'.
Proof.
  intros Hh Hb Hb' H. apply fnv_mul_inj in H; [|by apply lxor_u64, u8_u64..].
  by apply lxor_cancel_l in H.
Qed.

Lemma fnv_step_u64 h b : is_u64 (fnv1a64_step h b).
Proof. apply u64_is_u64. Qed.

Lemma fnv_update_u64 h l : is_u64 h -> is_u64 (fnv1a64_update h l).
Proof.
  unfold fnv1a64_update. revert h. induction l as [|b l IH]; intros h Hh; cbn; [done|].
  apply IH, fnv_step_u64.
Qed.

Lemma fnv_update_inj h h' l :
  is_u64 h -> is_u64 h' -> Forall is_u8 l ->
  fnv1a64_update h l = fnv1a64_update h' l -> h = h'.
Proof.
  intros Hh Hh' Hl. revert h h' Hh Hh'. unfold fnv1a64_update.
  induction Hl as [|b l Hb _ IH]; intros h h' Hh Hh' H; cbn in H; [done|].
  apply IH in H; [|apply fnv_step_u64..]. by apply fnv_step_inj_state in H.
Qed.

Lemma fnv_update_app h l1 l2 : fnv1a64_update h (l1 ++ l2) = fnv1a64_update (fnv1a64_update h l1) l2.
Proof. apply fold_left_app. Qed.

Lemma fnv_init_u64 : is_u64 fnv1a64_init.
Proof. unfold fnv1a64_init. ulia. Qed.

(** One changed byte changes the hash. *)
Lemma fnv_single_byte l1 x y l2 :
  is_u8 x -> is_u8 y -> Forall is_u8 l2 -> x <> y ->
  fnv1a64_update fnv1a64_init (l1 ++ x :: l2) <> fnv1a64_update fnv1a64_init (l1 ++ y :: l2).
Proof.
  intros Hx Hy Hl Hne H. rewrite !fnv_update_app in H. unfold fnv1a64_update at 1 3 in H. cbn in H.
  apply fnv_update_inj in H; [|apply fnv_step_u64..|done].
  apply fnv_step_inj_byte in H; [done|apply fnv_update_u64, fnv_init_u64|done|done].
Qed.

(** ** Hashing guest memory *)

Section hash.
Context {W : Type} `{OS : HostOS W} `{SM : !StableMemory W}.
Context (s : vmi_session) (P : W -> Prop) `{PR : !PhysReads s P} `{PL : !PhysLive s P}.
Abbreviation G := (guard_state * (bridge * W))%type.
Implicit Types (w : W) (st : G).

(** A step that only reads guest memory. *)
Record gquiet st st' : Prop := {
  gq_guard : st'.1 = st.1;
  gq_bridge : st'.2.1 = st.2.1;
  gq_ok : P st'.2.2;
  gq_same : same_mem st.2.2 st'.2.2;
}.

Lemma gquiet_trans st1 st2 st3 : gquiet st1 st2 -> gquiet st2 st3 -> gquiet st1 st3.
Proof. intros [? ? ? ?] [? ? ? ?]. split; [congruence..|done|by transitivity (st2.2.2)]. Qed.

Lemma phys_view_shift w gpa a i : phys_view s w (u64 (gpa + Z.of_nat a)) i = phys_view s w gpa (a + i).
Proof. unfold phys_view. f_equal. rewrite u64_add_l. f_equal. lia. Qed.

Lemma phys_bytes_app w gpa a b :
  phys_bytes s w gpa (a + b) =
  match phys_bytes s w gpa a, phys_bytes s w (u64 (gpa + Z.of_nat a)) b with
  | Some x, Some y => Some (x ++ y)
  | _, _ => None
  end.
Proof.
  unfold phys_bytes. rewrite seq_app, mapM_app. cbn [Nat.add].
  rewrite (mapM_seq_shift _ a). by rewrite (mapM_ext _ _ (seq 0 b) (phys_view_shift w gpa a)).
Qed.

Lemma length_phys_bytes w gpa n bs : phys_bytes s w gpa n = Some bs -> length bs = n.
Proof. intros H. apply length_mapM in H. by rewrite length_seq in H. Qed.

Lemma hash_loop_exact fuel gpa n off h st :
  P st.2.2 -> Z.of_nat n <= 4096 * Z.of_nat fuel -> Z.of_nat (off + n) < 18446744073709551616 ->
  wp (hash_loop fuel s gpa (Z.of_nat n) (Z.of_nat off) h) st (fun r st' => gquiet st st' /\
    r = fnv1a64_update h <$> phys_bytes s st.2.2 (u64 (gpa + Z.of_nat off)) n).
Proof.
  revert n off h st. induction fuel as [|fuel IH]; intros n off h st Hp Hf Hb;
    cbn [hash_loop]; wp_step; boolify; [lia| | |].
  1,3: assert (n = 0%nat) as -> by lia; wp_step; split; [by split|done].
  unfold VMI_PAGE_SIZE. remember (Nat.min n 4096) as c eqn:Hcm.
  assert (Z.min (Z.of_nat n) 4096 = Z.of_nat c) as -> by lia. rewrite Nat2Z.id.
  assert (0 < c <= n)%nat as Hc by lia.
  wp_step. unfold gmem. apply wp_zoom.
  eapply wp_mono; [apply (read_physical_exact s P); [done|rewrite length_replicate; lia]|].
  intros [ok bs] w' (Hp' & Hs & Hl & Hr). rewrite length_replicate in Hl, Hr.
  replace n with (c + (n - c))%nat by lia. rewrite phys_bytes_app. cbn [fst snd].
  destruct (phys_bytes s st.2.2 (u64 (gpa + Z.of_nat off)) c) as [bs'|]; cycle 1.
  { cbn in Hr. subst ok. cbn [negb]. by wp_step. }
  injection Hr as -> ->. cbn [negb].
  replace (Z.of_nat (c + (n - c)) - Z.of_nat c) with (Z.of_nat (n - c)) by lia.
  assert (u64 (Z.of_nat off + Z.of_nat c) = Z.of_nat (off + c)) as -> by ulia.
  eapply wp_mono; [apply IH; [done|lia|lia]|].
  intros r st' [Hq ->]. split; [by eapply gquiet_trans; [|exact Hq]|]. cbn [snd].
  rewrite u64_add_l, <- Z.add_assoc, <- Nat2Z.inj_add.
  rewrite (phys_bytes_same s st.2.2 w') by done.
  destruct (phys_bytes s st.2.2 (u64 (gpa + Z.of_nat (off + c))) (n - c)); cbn; [|done].
  by rewrite fnv_update_app.
Qed.

(** The hash of a region is the hash of its bytes, however it is chunked. *)
Lemma hash_region_exact gpa size st :
  P st.2.2 -> is_u64 gpa -> 0 < size -> is_u64 size ->
  wp (hash_guest_region s gpa size) st (fun r st' => gquiet st st' /\
    r = fnv1a64_update fnv1a64_init <$> phys_bytes s st.2.2 gpa (Z.to_nat size)).
Proof.
  intros Hp Hg Hpos Hsz. unfold hash_guest_region. rewrite (proj2 (Z.eqb_neq _ _)) by lia.
  rewrite <- (Z2Nat.id size) at 2 by lia. change 0 with (Z.of_nat 0) at 1.
  eapply wp_mono; [apply hash_loop_exact; [done|unfold VMI_PAGE_SIZE; lia|ulia]|].
  intros r st' [Hq ->]. split; [done|]. change (Z.of_nat 0) with 0.
  by rewrite Z.add_0_r, u64_id.
Qed.
End hash.

(** ** Pages and bounds *)

Lemma page_down_eq a : is_u64 a -> page_down a = a - a mod 4096.
Proof.
  intros Ha. unfold page_down. change (u64 (Z.lnot 4095)) with (Z.shiftl (Z.ones 52) 12).
  rewrite land_field by lia. change (2 ^ 12) with 4096. change (2 ^ 52) with 4503599627370496. ulia.
Qed.

(** A region that ends at least a page before the end of the address space. *)
Record wf_region (r : guard_region) : Prop := {
  wr_gpa : 0 <= r_gpa r;
  wr_size : 0 < r_size r;
  wr_end : r_gpa r + r_size r + 4096 <= 18446744073709551616;
  wr_name : (strlen (r_name r) < REGION_NAME_MAX)%nat;
}.

Definition in_region (r : guard_region) (a : Z) : Prop := r_gpa r <= a < r_gpa r + r_size r.

(** The address is on a page of the region. *)
Definition on_page_of (r : guard_region) (a : Z) : Prop :=
  exists x, in_region r x /\ x / 4096 = a / 4096.

Lemma page_down_div a : is_u64 a -> page_down a = 4096 * (a / 4096).
Proof. intros Ha. rewrite page_down_eq by done. lia. Qed.

Lemma region_span r a :
  wf_region r -> is_u64 a ->
  (page_down (r_gpa r) <=? a) && (a <? page_down (u64 (u64 (r_gpa r + r_size r) + VMI_PAGE_SIZE - 1))) = true
  <-> on_page_of r a.
Proof.
  intros [H1 H2 H3 _] Ha. unfold VMI_PAGE_SIZE.
  assert (u64 (r_gpa r + r_size r) = r_gpa r + r_size r) as -> by ulia.
  assert (u64 (r_gpa r + r_size r + 4096 - 1) = r_gpa r + r_size r + 4095) as -> by ulia.
  rewrite !page_down_div by ulia. rewrite andb_true_iff, Z.leb_le, Z.ltb_lt. unfold on_page_of, in_region.
  split.
  - intros [Hl Hr]. exists (Z.max (r_gpa r) (4096 * (a / 4096))). ulia.
  - intros (x & Hx & Hd). ulia.
Qed.

Lemma region_hit r a :
  wf_region r -> (r_gpa r <=? a) && (a <? u64 (r_gpa r + r_size r)) = true <-> in_region r a.
Proof.
  intros [H1 H2 H3 _]. assert (u64 (r_gpa r + r_size r) = r_gpa r + r_size r) as -> by ulia.
  rewrite andb_true_iff, Z.leb_le, Z.ltb_lt. done.
Qed.

(** What the bounds check answers: the first region with a page at the address. *)
Lemma check_bounds_spec rs a :
  Forall wf_region rs -> is_u64 a ->
  match npt_guard_check_bounds rs a with
  | (Unknown, o) => o = None /\ Forall (fun r => ~ on_page_of r a) rs
  | (DirectHit, o) => exists i r, o = Some r /\ rs !! i = Some r /\ in_region r a /\
      forall j r', (j < i)%nat -> rs !! j = Some r' -> ~ on_page_of r' a
  | (Collateral, o) => exists i r, o = Some r /\ rs !! i = Some r /\ on_page_of r a /\ ~ in_region r a /\
      forall j r', (j < i)%nat -> rs !! j = Some r' -> ~ on_page_of r' a
  end.
Proof.
  intros Hwf Ha. induction Hwf as [|r rs Hr _ IH]; cbn [npt_guard_check_bounds]; [done|].
  destruct ((page_down (r_gpa r) <=? a) && _) eqn:E1.
  - apply region_span in E1; [|done|done].
    destruct ((r_gpa r <=? a) && _) eqn:E2.
    + apply region_hit in E2; [|done]. exists 0%nat, r. split_and!; [done..|]. lia.
    + exists 0%nat, r. split_and!; [done|done|done| |lia]. rewrite <- region_hit by done. congruence.
  - assert (~ on_page_of r a) as Hno by (rewrite <- region_span by done; congruence).
    destruct (npt_guard_check_bounds rs a) as [[] o].
    + destruct IH as [-> Hf]. split; [done|]. by constructor.
    + destruct IH as (i & r' & -> & Hi & Hin & Hb). exists (S i), r'. split_and!; [done..|].
      intros [|j] x Hj Hx; [by simplify_eq/=|]. apply (Hb j); [lia|done].
    + destruct IH as (i & r' & -> & Hi & Hin & Hni & Hb). exists (S i), r'. split_and!; [done..|].
      intros [|j] x Hj Hx; [by simplify_eq/=|]. apply (Hb j); [lia|done].
Qed.

(** Pages from [page] up to [end_]. *)
Definition pages_from (page end_ : Z) : list Z :=
  map (fun i => page + 4096 * Z.of_nat i) (seq 0 (Z.to_nat ((end_ - page + 4095) / 4096))).

Lemma pages_from_cons page end_ :
  page < end_ -> pages_from page end_ = page :: pages_from (page + 4096) end_.
Proof.
  intros Hlt. unfold pages_from.
  replace (Z.to_nat ((end_ - page + 4095) / 4096)) with
    (S (Z.to_nat ((end_ - (page + 4096) + 4095) / 4096))) by lia.
  cbn [seq map]. f_equal; [lia|]. rewrite <- seq_shift, map_map.
  apply map_ext. intros i. lia.
Qed.

Lemma pages_from_nil page end_ : end_ <= page -> pages_from page end_ = [].
Proof.
  intros Hle. unfold pages_from. by replace (Z.to_nat ((end_ - page + 4095) / 4096)) with 0%nat by lia.
Qed.

Lemma protect_pages_all {W} `{OS : HostOS W} fuel s page end_ (st : guard_state * (bridge * W)) :
  0 <= page -> end_ + 4096 <= 18446744073709551616 -> (end_ - page + 4095) / 4096 <= Z.of_nat fuel ->
  protect_pages fuel s page end_ st =
  forM (pages_from page end_) (fun p => _ ← set_page_readonly s p; mret tt) st.
Proof.
  revert page st. induction fuel as [|fuel IH]; intros page st Hp He Hf; cbn [protect_pages];
    destruct (page <? end_) eqn:E; boolify; [lia|by rewrite pages_from_nil| |by rewrite pages_from_nil].
  rewrite pages_from_cons by done. cbn [forM]. unfold mbind, M_bind.
  destruct (set_page_readonly s page st) as [[b st1]|]; [|done]. cbn.
  unfold VMI_PAGE_SIZE. assert (u64 (page + 4096) = page + 4096) as -> by ulia.
  apply IH; lia.
Qed.

(** Re-protection of a region visits exactly the pages it touches. *)
Lemma reprotect_pages {W} `{OS : HostOS W} s r (st : guard_state * (bridge * W)) :
  wf_region r ->
  reprotect_region_pages s r st =
  forM (pages_from (page_down (r_gpa r)) (r_gpa r + r_size r))
       (fun p => _ ← set_page_readonly s p; mret tt) st.
Proof.
  intros [H1 H2 H3 _]. unfold reprotect_region_pages.
  assert (u64 (r_gpa r + r_size r) = r_gpa r + r_size r) as -> by ulia.
  rewrite page_down_div by ulia. apply protect_pages_all; unfold VMI_PAGE_SIZE; lia.
Qed.

Lemma region_pages_spec r p :
  wf_region r ->
  p ∈ pages_from (page_down (r_gpa r)) (r_gpa r + r_size r) <->
  p mod 4096 = 0 /\ exists a, in_region r a /\ p <= a < p + 4096.
Proof.
  intros [H1 H2 H3 _]. rewrite page_down_div by ulia. unfold pages_from.
  rewrite list_elem_of_In, in_map_iff. unfold in_region. split.
  - intros (i & <- & Hi). apply in_seq in Hi. split; [lia|].
    exists (Z.max (r_gpa r) (4096 * (r_gpa r / 4096) + 4096 * Z.of_nat i)). lia.
  - intros [Hm (a & Ha & Hp)]. exists (Z.to_nat (p / 4096 - r_gpa r / 4096)).
    split; [lia|]. apply in_seq. lia.
Qed.

(** ** The fault handler, against the interface of the bridge *)

Section handler.
Context {W : Type} `{OS : HostOS W} (have_libbpf : bool).
Context (ok : bridge * W -> Prop) (reported : bridge * W -> Z -> Z -> Prop).
Context `{AS : !AlertSink have_libbpf ok reported}.
Abbreviation G := (guard_state * (bridge * W))%type.
Implicit Types (st : G) (g : guard_state) (w : W).

(** The sink stays in order and forgets nothing. *)
Record breports (bw bw' : bridge * W) : Prop := {
  br_ok : ok bw';
  br_mono : forall pid lvl, reported bw pid lvl -> reported bw' pid lvl;
}.

Lemma breports_refl bw : ok bw -> breports bw bw.
Proof. done. Qed.

Lemma breports_trans a b c : breports a b -> breports b c -> breports a c.
Proof. intros [? ?] [? ?]. split; auto. Qed.

Lemma wp_guard_get {A} (f : guard_state -> A) st (Q : A -> G -> Prop) : Q (f st.1) st -> wp (guard_get f) st Q.
Proof. intros HQ. by exists (f st.1), st. Qed.

Lemma wp_guard_set (f : guard_state -> guard_state) st (Q : unit -> G -> Prop) :
  Q tt (f st.1, st.2) -> wp (guard_set f) st Q.
Proof. intros HQ. by exists tt, (f st.1, st.2). Qed.

Lemma signal_guard_malicious pid why st (Q : unit -> G -> Prop) :
  ok st.2 -> is_u32 pid ->
  (forall bw, breports st.2 bw -> reported bw pid VMI_THREAT_MALICIOUS -> Q tt (st.1, bw)) ->
  wp (gbrg (bridge_signal_malicious have_libbpf pid why)) st Q.
Proof.
  intros Hok Hp HQ. unfold gbrg. apply wp_zoom.
  eapply wp_mono; [by apply sink_malicious|]. intros [] bw (H1 & H2 & H3). by apply HQ.
Qed.

Lemma signal_guard_suspicious pid why st (Q : unit -> G -> Prop) :
  ok st.2 -> is_u32 pid ->
  (forall bw, breports st.2 bw -> (exists l, alarm_level l /\ reported bw pid l) -> Q tt (st.1, bw)) ->
  wp (gbrg (bridge_signal_suspicious have_libbpf pid why)) st Q.
Proof.
  intros Hok Hp HQ. unfold gbrg. apply wp_zoom.
  eapply wp_mono; [by apply sink_suspicious|]. intros [] bw (H1 & H2 & H3). by apply HQ.
Qed.

Lemma unknown_pid_u32 : is_u32 identify_malicious_pid.
Proof. unfold identify_malicious_pid. ulia. Qed.

(** The staging override of the environment. *)
Definition patch_allowed w (region : string) : bool :=
  match getenv "VMI_ALLOW_LEGIT_KERNEL_PATCH" w with Some x => streq x "1" | None => false end &&
  (streq region "sys_call_table" || streq region "kernel_text").

(** The region a write is attributed to, and whether it is critical. *)
Definition attributed g (gpa : Z) : string * bool * bool :=
  match npt_guard_check_bounds (guard_regions g) gpa with
  | (Collateral, Some r) => (r_name r, critical r, true)
  | (_, Some r) => (r_name r, critical r, false)
  | (_, None) => if in_syscall_table (session g) gpa then ("sys_call_table", true, false)
                 else ("protected_page", false, false)
  end.

(** What an alarm about a write says: the level it must have. *)
Definition write_alarm (bw : bridge * W) (must_be_malicious : bool) : Prop :=
  if must_be_malicious then reported bw 0 VMI_THREAT_MALICIOUS
  else exists l, alarm_level l /\ reported bw 0 l.

(** Everything [npf_handler_process] does with a write. *)
Lemma process_write_spec gpa st :
  ok st.2 ->
  let '(region, crit, collateral) := attributed st.1 gpa in
  wp (npf_handler_process have_libbpf gpa true) st (fun _ st' =>
    breports st.2 st'.2 /\
    if collateral || patch_allowed st.2.2 region then st' = st
    else if npf_handler_is_authorized st.1 (kernel_pgd (session st.1)) 0
    then st' = (with_authorized 0 0 st.1, st.2)
    else st'.1 = st.1 /\ write_alarm st'.2 (crit || in_syscall_table (session st.1) gpa)).
Proof.
  intros Hok. destruct (attributed st.1 gpa) as [[region crit] collateral] eqn:Ea.
  unfold npf_handler_process. cbn [negb]. wp_step. unfold classify_fault. cbn [negb].
  wp_step. apply wp_guard_get. change (id st.1) with st.1. unfold attributed in Ea. rewrite Ea.
  destruct collateral; cbn [orb].
  { wp_step. cbn [verdict_of collateral_of]. rewrite bool_decide_eq_false_2 by done. by wp_step. }
  wp_step. unfold is_legitimate_fault, gmem. wp_step. apply wp_zoom. wp_step. wp_step. wp_step.
  fold (patch_allowed st.2.2 region). destruct st as [g [b w]]. cbn [fst snd] in *.
  destruct (patch_allowed w region) eqn:El; cbn [verdict_of collateral_of region_of critical_of].
  { rewrite bool_decide_eq_false_2 by done. wp_step. apply wp_guard_get.
    rewrite bool_decide_eq_true_2 by done. by wp_step. }
  rewrite bool_decide_eq_false_2 by (by destruct crit).
  wp_step. apply wp_guard_get. change (id _) with g.
  rewrite bool_decide_eq_false_2 by (by destruct crit).
  cbn [fst]. change identify_malicious_pid with 0.
  destruct (npf_handler_is_authorized g (kernel_pgd (session g)) 0).
  { unfold npf_handler_clear_authorized. apply wp_guard_set. by split. }
  unfold signal_hostile. destruct (in_syscall_table (session g) gpa).
  { apply signal_guard_malicious; [done|exact unknown_pid_u32|]. intros bw Hbr Hr. by rewrite orb_true_r. }
  rewrite orb_false_r. cbn [verdict_of critical_of]. destruct crit; cbn [orb];
    [rewrite orb_true_r|rewrite bool_decide_eq_false_2 by done; cbn [orb]].
  - apply signal_guard_malicious; [done|exact unknown_pid_u32|]. intros bw Hbr Hr. done.
  - apply signal_guard_suspicious; [done|exact unknown_pid_u32|]. intros bw Hbr Hr. done.
Qed.

(** A write never gets the handler stuck, and it leaves the guard alone
    except for the authorisation. *)
Lemma process_write_total gpa st (Q : unit -> G -> Prop) :
  ok st.2 ->
  (forall st', breports st.2 st'.2 -> guard_regions st'.1 = guard_regions st.1 ->
     session st'.1 = session st.1 -> clean_syscall_table st'.1 = clean_syscall_table st.1 -> Q tt st') ->
  wp (npf_handler_process have_libbpf gpa true) st Q.
Proof.
  intros Hok HQ. pose proof (process_write_spec gpa st Hok) as Hs.
  destruct (attributed st.1 gpa) as [[region crit] collateral].
  eapply wp_mono; [exact Hs|]. intros [] st' [Hbr Hc].
  destruct (collateral || _); [subst st'; by apply HQ|].
  destruct (npf_handler_is_authorized _ _ _); [subst st'; by apply HQ|].
  destruct Hc as [Hg _]. apply HQ; [done|by rewrite Hg..].
Qed.

Lemma report_violation_spec name gpa h h' crit st (Q : unit -> G -> Prop) :
  ok st.2 ->
  (forall bw, breports st.2 bw -> write_alarm bw crit -> Q tt (st.1, bw)) ->
  wp (npf_handler_report_integrity_violation have_libbpf name gpa h h' crit) st Q.
Proof.
  intros Hok HQ. unfold npf_handler_report_integrity_violation. destruct crit.
  - apply signal_guard_malicious; [done|exact unknown_pid_u32|]. intros. by apply HQ.
  - apply signal_guard_suspicious; [done|exact unknown_pid_u32|]. intros. by apply HQ.
Qed.
End handler.

Lemma check_bounds_first r rs a :
  wf_region r -> is_u64 a -> in_region r a ->
  npt_guard_check_bounds (r :: rs) a = (DirectHit, Some r).
Proof.
  intros Hwf Ha Hin. cbn [npt_guard_check_bounds].
  rewrite (proj2 (region_span r a Hwf Ha)) by (by exists a).
  by rewrite (proj2 (region_hit r a Hwf)).
Qed.

(** ** The integrity loop *)

Section integrity.
Context {W : Type} `{OS : HostOS W} `{SM : !StableMemory W} `{QI : !QuietIO W} (have_libbpf : bool).
Context (s : vmi_session) (P : W -> Prop) `{PR : !PhysReads s P} `{PL : !PhysLive s P}.
Context (ok : bridge * W -> Prop) (reported : bridge * W -> Z -> Z -> Prop).
Context `{AS : !AlertSink have_libbpf ok reported}.
Context (ok_mem : forall bw, ok bw -> P bw.2).
Context (ok_same : forall b w w', same_mem w w' -> ok (b, w) -> ok (b, w')).
Context (reported_same : forall b w w' pid l, reported (b, w) pid l -> reported (b, w') pid l).
Abbreviation G := (guard_state * (bridge * W))%type.
Implicit Types (st : G) (g : guard_state) (w : W) (r : guard_region).

(** Memory and environment as they were, the sink in order. *)
Lemma same_breports b w w' : same_mem w w' -> ok (b, w) -> breports ok reported (b, w) (b, w').
Proof. intros Hs Hok. split; [by eapply ok_same|]. intros pid l. by apply reported_same. Qed.

Lemma gquiet_breports st st' : ok st.2 -> gquiet P st st' -> breports ok reported st.2 st'.2.
Proof.
  destruct st as [g [b w]], st' as [g' [b' w']]. intros Hok [H1 H2 H3 H4]. cbn in *. subst.
  by apply same_breports.
Qed.

Lemma set_page_spec page st (Q : bool -> G -> Prop) :
  (forall x w', same_mem st.2.2 w' -> Q x (st.1, (st.2.1, w'))) -> wp (set_page_readonly s page) st Q.
Proof.
  intros HQ. unfold set_page_readonly, gmem. destruct st as [g [b w]]. cbn [fst snd] in *.
  repeat wp_step; try by apply HQ. apply wp_zoom. wp_step. apply wp_ret, HQ, io_region.
Qed.

Lemma protect_loop_spec pages st :
  wp (forM pages (fun p => _ ← set_page_readonly s p; mret tt)) st
     (fun _ st' => st'.1 = st.1 /\ st'.2.1 = st.2.1 /\ same_mem st.2.2 st'.2.2).
Proof.
  revert st. induction pages as [|p pages IH]; intros st; cbn [forM]; [by wp_step|].
  do 2 wp_step. apply set_page_spec. intros x w' Hs. wp_step.
  eapply wp_mono; [apply IH|]. intros [] st' (H1 & H2 & H3). cbn in *.
  split_and!; [done|done|by transitivity w'].
Qed.

(** Re-protection terminates on a well-formed region and reports nothing. *)
Lemma reprotect_spec r st (Q : unit -> G -> Prop) :
  wf_region r -> (forall w', same_mem st.2.2 w' -> Q tt (st.1, (st.2.1, w'))) ->
  wp (reprotect_region_pages s r) st Q.
Proof.
  intros Hwf HQ. destruct (protect_loop_spec (pages_from (page_down (r_gpa r)) (r_gpa r + r_size r)) st)
    as ([] & [g [b w]] & Hr & H1 & H2 & H3). cbn in *. subst.
  exists tt, (st.1, (st.2.1, w)). rewrite reprotect_pages by done. split; [exact Hr|by apply HQ].
Qed.

Lemma length_words n bs : length (words n bs) = n.
Proof. revert bs. induction n as [|n IH]; intros bs; cbn; [done|]. by rewrite IH. Qed.

(** The invariant of the guard. *)
Record guard_wf g : Prop := {
  wg_session : session g = s;
  wg_count : (length (guard_regions g) <= MAX_GUARD_REGIONS)%nat;
  wg_regions : Forall wf_region (guard_regions g);
  wg_table : length (clean_syscall_table g) = 4096%nat;
}.

(** The system call table is guarded, as arming leaves it. *)
Record table_guarded g : Prop := {
  tg_region : exists r rs, guard_regions g = r :: rs /\ r_gpa r = syscall_table_gpa s /\
                r_size r = SYS_CALL_TABLE_SIZE /\ r_name r = "sys_call_table" /\ wf_region r;
  tg_nonzero : syscall_table_gpa s <> 0;
}.

Lemma table_entry_attributed g i :
  session g = s -> table_guarded g -> (i < 512)%nat ->
  let gpa := u64 (syscall_table_gpa s + Z.of_nat i * 8) in
  in_syscall_table s gpa = true /\ exists c, attributed g gpa = ("sys_call_table", c, false).
Proof.
  intros Hs [(r & rs & Hr & Hg & Hsz & Hn & Hwf) Hnz] Hi gpa. pose proof Hwf as [H1 H2 H3 _].
  rewrite Hg, Hsz in *. unfold SYS_CALL_TABLE_SIZE in *.
  assert (gpa = syscall_table_gpa s + Z.of_nat i * 8) as Hgpa by (unfold gpa; ulia).
  split.
  - unfold in_syscall_table, SYSCALL_TABLE_SIZE. rewrite (proj2 (Z.eqb_neq _ _)) by done. cbn [negb andb].
    apply andb_true_iff. split; [apply Z.leb_le; lia|apply Z.ltb_lt; ulia].
  - exists (critical r). unfold attributed. rewrite Hr, check_bounds_first; [by rewrite Hn|done|ulia|].
    unfold in_region. rewrite Hg, Hsz. lia.
Qed.

(** Writes to the table are not excused. *)
Definition table_hostile g w : Prop :=
  npf_handler_is_authorized g (kernel_pgd s) 0 = false /\ patch_allowed w "sys_call_table" = false.

Lemma diffs_loop_spec base l st :
  ok st.2 -> session st.1 = s -> base = syscall_table_gpa s ->
  Forall (fun x => (x.1 < 512)%nat) l ->
  wp (forM l (fun '(i, (now, clean)) =>
        if now =? clean then mret tt
        else npf_handler_process have_libbpf (u64 (base + Z.of_nat i * 8)) true)) st
     (fun _ st' => breports ok reported st.2 st'.2 /\
        guard_regions st'.1 = guard_regions st.1 /\ session st'.1 = s /\
        clean_syscall_table st'.1 = clean_syscall_table st.1 /\
        heki_listen_fd st'.1 = heki_listen_fd st.1 /\
        (table_guarded st.1 -> table_hostile st.1 st.2.2 -> Exists (fun x => x.2.1 <> x.2.2) l ->
         reported st'.2 0 VMI_THREAT_MALICIOUS)).
Proof.
  intros Hok Hs -> Hl. revert st Hok Hs. induction Hl as [|[i [now clean]] l Hi _ IH]; intros st Hok Hs;
    cbn [forM].
  { wp_step. split_and!; try done. intros _ _ Hex. by apply Exists_nil in Hex. }
  wp_step. destruct (now =? clean) eqn:E; boolify.
  { wp_step. eapply wp_mono; [by apply IH|]. intros [] st' (H1 & H2 & H3 & H4 & H5 & H6).
    split_and!; try done. intros Hg Hh Hex. apply H6; [done|done|].
    apply Exists_cons in Hex as [?|?]; [done|done]. }
  pose proof (process_write_spec have_libbpf ok reported (u64 (syscall_table_gpa s + Z.of_nat i * 8)) st Hok) as Hps.
  destruct (attributed st.1 _) as [[region crit] coll] eqn:Ea.
  eapply wp_mono; [exact Hps|]. clear Hps. intros [] st1 [Hbr Hc].
  assert (session st1.1 = s /\ guard_regions st1.1 = guard_regions st.1 /\
          clean_syscall_table st1.1 = clean_syscall_table st.1 /\
          heki_listen_fd st1.1 = heki_listen_fd st.1) as (G1 & G2 & G3 & G4).
  { destruct (coll || _); [by subst st1|].
    destruct (npf_handler_is_authorized _ _ _); [by subst st1|]. destruct Hc as [-> _]. done. }
  eapply wp_mono; [apply IH; [apply Hbr|done]|]. intros [] st' (H1 & H2 & H3 & H4 & H5 & _).
  split_and!; [by eapply breports_trans|congruence|done|congruence|congruence|].
  intros Hg [Ha Hp] _. apply (br_mono _ _ _ _ H1).
  destruct (table_entry_attributed _ i Hs Hg Hi) as [Hin [c Hat]].
  rewrite Hat in Ea. simplify_eq. cbn [orb] in Hc. rewrite Hs, Hp, Ha, Hin, orb_true_r in Hc.
  by destruct Hc as [_ ?].
Qed.

Lemma read_table_spec st (Q : bool * list Z -> G -> Prop) :
  ok st.2 ->
  (forall x st', gquiet P st st' ->
     match phys_bytes s st.2.2 (syscall_table_gpa s) 4096 with
     | Some bs => x = (true, bs)
     | None => x.1 = false
     end -> Q x st') ->
  wp (gmem (vmi_read_physical s (syscall_table_gpa s) (replicate (Z.to_nat SYS_CALL_TABLE_SIZE) 0))) st Q.
Proof.
  intros Hok HQ. unfold gmem. apply wp_zoom.
  eapply wp_mono; [apply (read_physical_exact s P); [by apply ok_mem|rewrite length_replicate; unfold SYS_CALL_TABLE_SIZE; lia]|].
  intros x w' (H1 & H2 & H3 & H4). rewrite length_replicate in H4. by apply HQ.
Qed.

(** What the diff report leaves alone, and when it must raise an alert. *)
Lemma report_diffs_spec st :
  ok st.2 -> session st.1 = s ->
  wp (report_syscall_table_diffs have_libbpf) st (fun _ st' =>
    breports ok reported st.2 st'.2 /\
    guard_regions st'.1 = guard_regions st.1 /\ session st'.1 = s /\
    clean_syscall_table st'.1 = clean_syscall_table st.1 /\
    heki_listen_fd st'.1 = heki_listen_fd st.1 /\
    (table_guarded st.1 -> table_hostile st.1 st.2.2 -> snapshot_taken st.1 = true ->
     forall cur, phys_bytes s st.2.2 (syscall_table_gpa s) 4096 = Some cur ->
       words 512 cur <> words 512 (clean_syscall_table st.1) ->
       reported st'.2 0 VMI_THREAT_MALICIOUS)).
Proof.
  intros Hok Hs. unfold report_syscall_table_diffs. wp_step. apply wp_guard_get.
  change (id st.1) with st.1. rewrite Hs. cbv zeta. wp_step.
  { wp_step. split_and!; try done. intros [_ Hnz] _ Ht. rewrite Ht in E. cbn in E. boolify. done. }
  wp_step. apply read_table_spec; [done|]. intros x st1 Hq Hx.
  pose proof (gquiet_breports st st1 Hok Hq) as Hbr. pose proof Hq as [Q1 Q2 Q3 Q4].
  wp_step.
  { wp_step. rewrite Q1. split_and!; try done. intros _ _ _ cur Hc. rewrite Hc in Hx.
    rewrite Hx in E0. done. }
  eapply wp_mono; [apply (diffs_loop_spec (syscall_table_gpa s)); [apply Hbr|by rewrite Q1|done|]|].
  { apply Forall_forall. intros [i y] Hin. apply elem_of_zip_l in Hin. apply elem_of_seq in Hin. cbn. lia. }
  intros [] st' (H1 & H2 & H3 & H4 & H5 & H6). rewrite Q1 in *.
  split_and!; [by eapply breports_trans|done|done|done|done|].
  intros Hg [Ha Hp] _ cur Hc Hne. rewrite Hc in Hx. subst x. apply H6; [done| |].
  - split; [done|]. unfold patch_allowed in *. destruct Q4 as (_ & _ & ->). done.
  - cbn [snd]. apply not_Forall_Exists; [apply _|]. intros Hall. apply Hne.
    apply (list_eq_same_length _ _ 512); [by rewrite !length_words..|].
    intros i a b Hi Ha' Hb'. rewrite Forall_forall in Hall.
    apply (Hall (i, (a, b))). apply list_elem_of_lookup. exists i.
    rewrite !lookup_zip_with, Ha', Hb'. by rewrite lookup_seq_lt.
Qed.

Definition region_hash w r : option Z :=
  fnv1a64_update fnv1a64_init <$> phys_bytes s w (r_gpa r) (Z.to_nat (r_size r)).

(** What one pass over region [i] does, by what the memory holds now. *)
Definition region_checked (i : nat) r st st' : Prop :=
  match (if baseline_valid r then region_hash st.2.2 r else None) with
  | None => st'.1 = st.1 /\ st'.2.1 = st.2.1
  | Some h =>
      if h =? baseline_hash r then
        guard_regions st'.1 = <[i := set_last_alert 0 r]> (guard_regions st.1) /\ st'.2.1 = st.2.1
      else if last_alert_hash r =? h then st'.1 = st.1 /\ st'.2.1 = st.2.1
      else
        guard_regions st'.1 = <[i := set_last_alert h r]> (guard_regions st.1) /\
        (r_name r <> "sys_call_table" -> write_alarm reported st'.2 (critical r)) /\
        (r_name r = "sys_call_table" -> table_guarded st.1 -> table_hostile st.1 st.2.2 ->
         snapshot_taken st.1 = true ->
         forall cur, phys_bytes s st.2.2 (syscall_table_gpa s) 4096 = Some cur ->
           words 512 cur <> words 512 (clean_syscall_table st.1) ->
           reported st'.2 0 VMI_THREAT_MALICIOUS)
  end.

Lemma wf_region_alert h r : wf_region r -> wf_region (set_last_alert h r).
Proof. intros []. by split. Qed.

Lemma guard_wf_alert g i h r :
  guard_wf g -> guard_regions g !! i = Some r ->
  guard_wf (with_regions (<[i := set_last_alert h r]> (guard_regions g)) g).
Proof.
  intros [H1 H2 H3 H4] Hi. split; cbn; [done|by rewrite length_insert| |done].
  apply Forall_insert; [done|]. apply wf_region_alert. by eapply Forall_lookup_1 in Hi.
Qed.

Lemma table_guarded_alert g i h r :
  guard_regions g !! i = Some r -> table_guarded g ->
  table_guarded (with_regions (<[i := set_last_alert h r]> (guard_regions g)) g).
Proof.
  intros Hi [(r0 & rs & Hr & Hg & Hsz & Hn & Hwf) Hnz]. split; [|done]. cbn [guard_regions with_regions].
  rewrite Hr in *. destruct i as [|i]; cbn in Hi |- *.
  - simplify_eq. exists (set_last_alert h r), rs. split_and!; try done. by apply wf_region_alert.
  - by eexists r0, _.
Qed.

(** The state of the guard, after a pass that only moved the alert hashes. *)
Lemma guard_wf_same g g' :
  guard_wf g -> guard_regions g' = guard_regions g -> session g' = s ->
  clean_syscall_table g' = clean_syscall_table g -> guard_wf g'.
Proof. intros [H1 H2 H3 H4] E1 E2 E3. split; [done|by rewrite E1..|by rewrite E3]. Qed.

Lemma check_region_spec i r st :
  ok st.2 -> guard_wf st.1 -> guard_regions st.1 !! i = Some r ->
  wp (check_region have_libbpf i) st (fun _ st' =>
    breports ok reported st.2 st'.2 /\ guard_wf st'.1 /\
    length (guard_regions st'.1) = length (guard_regions st.1) /\
    heki_listen_fd st'.1 = heki_listen_fd st.1 /\ region_checked i r st st').
Proof.
  intros Hok Hwf Hi. pose proof (wg_session _ Hwf) as Hs.
  assert (wf_region r) as Hwr by (eapply Forall_lookup_1; [apply Hwf|done]).
  unfold check_region, region_checked. wp_step. apply wp_guard_get. change (id st.1) with st.1.
  rewrite Hi, Hs. destruct (baseline_valid r) eqn:Hb; cbn [negb]; [|by wp_step].
  wp_step. eapply wp_mono; [apply (hash_region_exact s P); [by apply ok_mem|..]; destruct Hwr; ulia|].
  intros h st1 [Hq ->]. fold (region_hash st.2.2 r). pose proof (gquiet_breports st st1 Hok Hq) as Hbr.
  pose proof Hq as [Q1 Q2 Q3 Q4].
  destruct (region_hash st.2.2 r) as [h|]; [|wp_step; by rewrite Q1].
  cbv zeta. destruct (h =? baseline_hash r).
  { apply wp_guard_set. rewrite Q1. cbn [fst snd guard_regions with_regions]. rewrite length_insert.
    split_and!; try done. by apply guard_wf_alert. }
  destruct (last_alert_hash r =? h); [wp_step; by rewrite Q1|].
  wp_step. apply wp_guard_set. rewrite Q1. set (g1 := with_regions _ st.1).
  pose proof (guard_wf_alert st.1 i h r Hwf Hi) as Hwf1. fold g1 in Hwf1.
  wp_step. apply (wp_mono _ _ (fun _ st' => breports ok reported st.2 st'.2 /\ guard_wf st'.1 /\
      guard_regions st'.1 = guard_regions g1 /\ heki_listen_fd st'.1 = heki_listen_fd st.1 /\
      (r_name r <> "sys_call_table" -> write_alarm reported st'.2 (critical r)) /\
      (r_name r = "sys_call_table" -> table_guarded st.1 -> table_hostile st.1 st.2.2 ->
         snapshot_taken st.1 = true ->
         forall cur, phys_bytes s st.2.2 (syscall_table_gpa s) 4096 = Some cur ->
           words 512 cur <> words 512 (clean_syscall_table st.1) ->
           reported st'.2 0 VMI_THREAT_MALICIOUS))).
  - destruct (streq (r_name r) "sys_call_table") eqn:En.
    + apply streq_eq in En. eapply wp_mono; [apply report_diffs_spec; [apply Hbr|apply Hwf1]|].
      cbn [fst snd]. intros [] st' (H1 & H2 & H3 & H4 & Hfd & H5).
      split_and!; [by eapply breports_trans| |done|done|done|].
      * by eapply guard_wf_same.
      * intros _ Hg [Ha Hp] Ht cur Hc Hne. apply (H5 (table_guarded_alert _ _ h _ Hi Hg)) with (cur := cur);
          [|done| |done].
        -- split; [done|]. unfold patch_allowed in *. destruct Q4 as (_ & _ & ->). done.
        -- by rewrite (phys_bytes_same s st.2.2).
    + apply streq_neq in En. apply (report_violation_spec _ ok reported); [apply Hbr|].
      intros bw Hbr' Ha. cbn [fst snd] in *. split_and!; [by eapply breports_trans|done..].
  - intros [] st2 (H1 & H2 & H3 & Hfd & H4 & H5). apply reprotect_spec; [done|]. intros w' Hs2.
    destruct st2 as [g2 [b2 w2]]. cbn [fst snd] in *.
    assert (breports ok reported (b2, w2) (b2, w')) as Hbr2 by (apply same_breports; [done|apply H1]).
    rewrite H3. cbn [g1 guard_regions with_regions]. rewrite length_insert.
    split_and!; [by eapply breports_trans|done|done|done|done| |].
    + intros Hn. specialize (H4 Hn). unfold write_alarm in *. destruct (critical r).
      * by apply (br_mono _ _ _ _ Hbr2).
      * destruct H4 as (l & Hl & Hr). exists l. split; [done|]. by apply (br_mono _ _ _ _ Hbr2).
    + intros. apply (br_mono _ _ _ _ Hbr2). by eapply H5.
Qed.

Lemma check_loop_spec l st :
  ok st.2 -> guard_wf st.1 -> Forall (fun i => (i < length (guard_regions st.1))%nat) l ->
  wp (forM l (check_region have_libbpf)) st (fun _ st' =>
    breports ok reported st.2 st'.2 /\ guard_wf st'.1 /\
    length (guard_regions st'.1) = length (guard_regions st.1) /\
    heki_listen_fd st'.1 = heki_listen_fd st.1).
Proof.
  revert st. induction l as [|i l IH]; intros st Hok Hwf Hl; cbn [forM]; [by wp_step|].
  apply Forall_cons in Hl as [Hi Hl]. apply lookup_lt_is_Some in Hi as [r Hi].
  wp_step. eapply wp_mono; [by apply check_region_spec|]. intros [] st1 (H1 & H2 & H3 & H4 & _).
  eapply wp_mono; [apply IH; [apply H1|done|by rewrite H3]|]. intros [] st2 (G1 & G2 & G3 & G4).
  split_and!; [by eapply breports_trans|done|congruence|congruence].
Qed.

(** ** One call of the event handler *)

Definition time_us w : Z :=
  match (clock_monotonic w).1 with
  | Some (sec, nsec) => u64 (u64 (u64 sec * 1000000) + u64 nsec / 1000)
  | None => 0
  end.

(** The time of the next integrity check has come. *)
Definition check_due g w : bool :=
  (last_integrity_check_us g =? 0) || (time_us w =? 0) ||
  (INTEGRITY_CHECK_INTERVAL_US <=? u64 (time_us w - last_integrity_check_us g)).

Definition noted_time g w : guard_state :=
  if time_us w =? 0 then g else with_last_check (time_us w) g.

Lemma noted_time_frame g w :
  guard_regions (noted_time g w) = guard_regions g /\ heki_listen_fd (noted_time g w) = heki_listen_fd g /\
  session (noted_time g w) = session g /\ clean_syscall_table (noted_time g w) = clean_syscall_table g.
Proof. unfold noted_time. by destruct (time_us w =? 0). Qed.

Lemma guard_wf_noted g w : guard_wf g -> guard_wf (noted_time g w).
Proof.
  destruct (noted_time_frame g w) as (E1 & _ & E3 & E4). intros Hwf. pose proof (wg_session _ Hwf).
  by eapply guard_wf_same; [| |congruence|].
Qed.

(** The handler does nothing while the guard is not armed, only sleeps before the next
    check is due, and otherwise goes over all regions and then sleeps. *)
Lemma events_wp st (Q : unit -> G -> Prop) :
  (if npt_armed (session st.1) then
     let w1 := (clock_monotonic st.2.2).2 in
     if check_due st.1 st.2.2 then
       wp (forM (seq 0 (length (guard_regions st.1))) (check_region have_libbpf))
          (noted_time st.1 st.2.2, (st.2.1, w1))
          (fun _ st' => Q tt (st'.1, (st'.2.1, usleep 100000 st'.2.2)))
     else Q tt (st.1, (st.2.1, usleep 100000 w1))
   else Q tt st) ->
  wp (npt_guard_handle_events have_libbpf) st Q.
Proof.
  destruct st as [g [b w]]. intros HQ. unfold npt_guard_handle_events. cbn [fst snd] in *.
  wp_step. apply wp_guard_get. cbn [fst snd id]. destruct (npt_armed (session g)); cbn [negb]; [|by wp_step].
  wp_step. unfold monotonic_time_us. wp_step. unfold gmem at 1. apply wp_zoom. wp_step. wp_step.
  cbn [fst snd]. fold (time_us w). unfold check_due in HQ. rewrite Z.leb_antisym in HQ.
  unfold noted_time in HQ. cbv zeta in HQ. destruct (last_integrity_check_us g =? 0), (time_us w =? 0),
    (u64 (time_us w - last_integrity_check_us g) <? INTEGRITY_CHECK_INTERVAL_US); cbn [negb andb orb] in HQ |- *;
  first [ unfold gmem at 1; apply wp_zoom; wp_step; exact HQ
        | wp_step; first [apply wp_ret|apply wp_guard_set]; cbn [fst snd]; wp_step;
          eapply wp_mono; [exact HQ|]; intros [] st' HQ'; unfold gmem; apply wp_zoom; wp_step; exact HQ' ].
Qed.

Lemma regions_range g : Forall (fun i => (i < length (guard_regions g))%nat) (seq 0 (length (guard_regions g))).
Proof. apply Forall_forall. intros i Hi. apply elem_of_seq in Hi. lia. Qed.

Lemma handle_events_spec (ok_sleep : forall b w n, ok (b, w) -> ok (b, usleep n w)) st :
  ok st.2 -> guard_wf st.1 ->
  wp (npt_guard_handle_events have_libbpf) st (fun _ st' =>
    breports ok reported st.2 st'.2 /\ guard_wf st'.1 /\
    heki_listen_fd st'.1 = heki_listen_fd st.1).
Proof.
  destruct st as [g [b w]]. intros Hok Hwf. cbn [fst snd] in *.
  assert (same_mem w (clock_monotonic w).2) as Hs1 by apply io_clock.
  assert (forall b w n, ok (b, w) -> breports ok reported (b, w) (b, usleep n w)) as Hsl.
  { intros. split; [by apply ok_sleep|]. intros pid l. by apply reported_same. }
  pose proof (same_breports b w _ Hs1 Hok) as Hbr1. destruct (noted_time_frame g w) as (E1 & E2 & _).
  apply events_wp. cbn [fst snd]. cbv zeta. destruct (npt_armed (session g)); [|done].
  destruct (check_due g w).
  - eapply wp_mono; [apply check_loop_spec; cbn [fst snd]; [apply Hbr1|by apply guard_wf_noted|]|].
    { rewrite E1. apply regions_range. }
    intros [] [g3 [b3 w3]] (H1 & H2 & _ & Hfd3). cbn [fst snd] in *. split_and!; [|done|congruence].
    eapply breports_trans; [exact Hbr1|]. eapply breports_trans; [exact H1|]. apply Hsl, H1.
  - split_and!; [|done|done]. eapply breports_trans; [exact Hbr1|]. apply Hsl, Hbr1.
Qed.

(** ** What a pass over all regions does *)

(** A region after a pass: its reported content is cleared when it is as in the
    baseline and set when it differs; a region without a baseline or with unreadable
    bytes is left alone. *)
Definition region_after w r : guard_region :=
  match (if baseline_valid r then region_hash w r else None) with
  | None => r
  | Some h => set_last_alert (if h =? baseline_hash r then 0 else h) r
  end.

(** A changed content that was not reported yet. *)
Definition newly_changed w r : Prop :=
  baseline_valid r = true /\
  exists h, region_hash w r = Some h /\ h <> baseline_hash r /\ last_alert_hash r <> h.

Lemma checked_regions i r st st' :
  region_checked i r st st' -> guard_regions st.1 !! i = Some r ->
  guard_regions st'.1 = <[i := region_after st.2.2 r]> (guard_regions st.1).
Proof.
  intros Hc Hi. unfold region_checked, region_after in *.
  destruct (if baseline_valid r then _ else _) as [h|]; [|destruct Hc as [-> _]; by rewrite list_insert_id].
  destruct (h =? baseline_hash r); [by destruct Hc|].
  destruct (last_alert_hash r =? h) eqn:E; [|by destruct Hc]. boolify. destruct Hc as [-> _].
  rewrite list_insert_id; [done|]. subst h. by destruct r.
Qed.

Lemma checked_alarm i r st st' :
  region_checked i r st st' -> newly_changed st.2.2 r -> r_name r <> "sys_call_table" ->
  write_alarm reported st'.2 (critical r).
Proof.
  intros Hc (Hv & h & E & D1 & D2) Hn. unfold region_checked in Hc. rewrite Hv, E in Hc.
  rewrite (proj2 (Z.eqb_neq _ _) D1), (proj2 (Z.eqb_neq _ _) D2) in Hc. by apply Hc.
Qed.

Lemma alarm_kept bw bw' c : breports ok reported bw bw' -> write_alarm reported bw c -> write_alarm reported bw' c.
Proof.
  intros Hb. unfold write_alarm. destruct c; [by apply Hb|]. intros (l & Hl & Hr). exists l.
  split; [done|by apply Hb].
Qed.

Lemma region_after_same w w' r : same_mem w w' -> region_after w' r = region_after w r.
Proof. intros Hs. unfold region_after, region_hash. by rewrite (phys_bytes_same s w). Qed.

Lemma newly_changed_same w w' r : same_mem w w' -> newly_changed w r <-> newly_changed w' r.
Proof. intros Hs. unfold newly_changed, region_hash. by rewrite (phys_bytes_same s w w'). Qed.

(** While memory stays as it is in [w0], a pass takes every region to [region_after],
    and reports the changed ones. *)
Lemma check_loop_exact (w0 : W) (ok_w0 : forall bw, ok bw -> same_mem w0 bw.2) l st :
  ok st.2 -> guard_wf st.1 -> Forall (fun i => (i < length (guard_regions st.1))%nat) l -> NoDup l ->
  wp (forM l (check_region have_libbpf)) st (fun _ st' =>
    breports ok reported st.2 st'.2 /\ guard_wf st'.1 /\
    heki_listen_fd st'.1 = heki_listen_fd st.1 /\
    (forall j, guard_regions st'.1 !! j =
       (if bool_decide (j ∈ l) then region_after w0 else id) <$> guard_regions st.1 !! j) /\
    (forall j r, j ∈ l -> guard_regions st.1 !! j = Some r -> newly_changed w0 r ->
       r_name r <> "sys_call_table" -> write_alarm reported st'.2 (critical r))).
Proof.
  revert st. induction l as [|i l IH]; intros st Hok Hwf Hl Hnd; cbn [forM].
  { wp_step. split_and!; [done..| |by intros ?? ?%not_elem_of_nil].
    intros j. rewrite bool_decide_eq_false_2 by apply not_elem_of_nil. by rewrite option_fmap_id. }
  apply Forall_cons in Hl as [Hi Hl]. apply lookup_lt_is_Some in Hi as [r Hi]. apply NoDup_cons in Hnd as [Hni Hnd].
  wp_step. eapply wp_mono; [by apply check_region_spec|]. intros [] st1 (H1 & H2 & H3 & H4 & H5).
  pose proof (checked_regions _ _ _ _ H5 Hi) as Hg. pose proof (ok_w0 _ Hok) as Hs0.
  eapply wp_mono; [apply IH; [apply H1|done|by rewrite H3|done]|]. intros [] st2 (G1 & G2 & G4 & G5 & G6).
  split_and!; [by eapply breports_trans|done|congruence| |].
  - intros j. rewrite G5, Hg. destruct (decide (j = i)) as [->|Hne].
    + rewrite bool_decide_eq_false_2, bool_decide_eq_true_2 by set_solver.
      rewrite list_lookup_insert_eq by (by eapply lookup_lt_Some). rewrite Hi. cbn.
      f_equal. by apply region_after_same.
    + rewrite list_lookup_insert_ne by done. rewrite (bool_decide_ext (j ∈ i :: l) (j ∈ l)) by set_solver. done.
  - intros j rj [->|Hj]%elem_of_cons Hr Hc Hn.
    + rewrite Hi in Hr. injection Hr as <-. eapply alarm_kept; [exact G1|].
      eapply checked_alarm; [done| |done]. by apply (newly_changed_same w0).
    + apply (G6 j rj); [done| |done..]. rewrite Hg, list_lookup_insert_ne; [done|]. by intros ->.
Qed.

(** ** Registration at run time *)

Lemma add_region_spec name gpa size crit g bw :
  exists x g', add_guard_region (W := W) name gpa size crit (g, bw) = Some (x, (g', bw)) /\
    if x then
      guard_regions g' = guard_regions g ++
        [Region (strncpyz REGION_NAME_MAX name) gpa size crit 0 false 0] /\
      session g' = session g /\ clean_syscall_table g' = clean_syscall_table g /\
      size <> 0 /\ (length (guard_regions g) < MAX_GUARD_REGIONS)%nat
    else g' = g /\ (size = 0 \/ (MAX_GUARD_REGIONS <= length (guard_regions g))%nat).
Proof.
  unfold add_guard_region, guard_get, gets, mbind, M_bind. cbn [fst].
  destruct (size =? 0) eqn:E1; boolify; [exists false, g; split; [reflexivity|]; split; [reflexivity|auto]|].
  destruct (MAX_GUARD_REGIONS <=? length (guard_regions g))%nat eqn:E2; boolify; [exists false, g; split; [reflexivity|]; split; [reflexivity|auto]|].
  eexists true, _. split; [reflexivity|]. by split_and!.
Qed.

Lemma guard_wf_push g g' name gpa size crit h v :
  guard_wf g -> session g' = session g -> clean_syscall_table g' = clean_syscall_table g ->
  (length (guard_regions g) < MAX_GUARD_REGIONS)%nat ->
  0 <= gpa -> 0 < size -> gpa + size + 4096 <= 18446744073709551616 ->
  guard_regions g' = guard_regions g ++ [Region (strncpyz REGION_NAME_MAX name) gpa size crit h v 0] ->
  guard_wf g'.
Proof.
  intros [H1 H2 H3 H4] E1 E2 Hl Hg Hs He E3. pose proof (strlen_strncpyz REGION_NAME_MAX name).
  split; [congruence|rewrite E3, length_app; cbn; lia| |congruence].
  rewrite E3. apply Forall_app. split; [done|]. constructor; [|done].
  split; cbn; [done|done|done|]. unfold REGION_NAME_MAX in *. lia.
Qed.

(** A region whose name is not the reserved one: registered, baselined with
    the hash of its bytes, and protected when the guard is armed. *)
(** Refused without a change, registered with the hash of its bytes, or left
    without a baseline because a byte is missing. *)
Definition dynamic_outcome gpa size crit name w (rs : list guard_region) (x : bool)
    (rs' : list guard_region) : Prop :=
  if (size =? 0) || (MAX_GUARD_REGIONS <=? length rs)%nat then x = false /\ rs' = rs
  else
    match phys_bytes s w gpa (Z.to_nat size) with
    | Some bs => x = true /\ rs' = rs ++ [Region (strncpyz REGION_NAME_MAX name) gpa size crit
                                            (fnv1a64_update fnv1a64_init bs) true 0]
    | None => x = false /\ rs' = rs ++ [Region (strncpyz REGION_NAME_MAX name) gpa size crit 0 false 0]
    end.

Lemma protect_dynamic_spec gpa size crit name g b w :
  ok (b, w) -> guard_wf g -> 0 <= gpa -> 0 <= size -> gpa + size + 4096 <= 18446744073709551616 ->
  strncpyz REGION_NAME_MAX name <> "sys_call_table" ->
  wp (npt_guard_protect_dynamic gpa size crit name) (g, (b, w)) (fun x st' =>
    breports ok reported (b, w) st'.2 /\ st'.2.1 = b /\ guard_wf st'.1 /\
    dynamic_outcome gpa size crit name w (guard_regions g) x (guard_regions st'.1)).
Proof.
  intros Hok Hwf Hg Hsz He Hn. unfold npt_guard_protect_dynamic.
  destruct (add_region_spec name gpa size crit g (b, w)) as (x & g1 & Ha & Hx).
  wp_step. exists x, (g1, (b, w)). split; [exact Ha|]. destruct x; cbn [negb]; cycle 1.
  { wp_step. cbn [fst snd]. destruct Hx as [-> Hc]. split_and!; [done..|]. unfold dynamic_outcome.
    destruct Hc as [->|Hc]; [done|]. by rewrite (proj2 (Nat.leb_le _ _) Hc), orb_true_r. }
  destruct Hx as (E1 & E2 & E3 & Hnz & Hl). unfold dynamic_outcome.
  rewrite (proj2 (Z.eqb_neq _ _) Hnz), (proj2 (Nat.leb_gt _ _) Hl). cbn [orb].
  set (r := Region (strncpyz REGION_NAME_MAX name) gpa size crit 0 false 0) in *.
  assert (guard_wf g1) as Hwf1 by (eapply (guard_wf_push g g1 name gpa size crit 0 false); (done || lia)).
  assert (guard_regions g1 !! (length (guard_regions g1) - 1)%nat = Some r) as Hlast
    by (rewrite E1; apply lookup_last_pushed).
  wp_step. apply wp_guard_get. cbn [fst]. unfold snapshot_guard_region.
  do 2 wp_step. apply wp_guard_get. change (id _) with g1. rewrite Hlast.
  rewrite (proj2 (streq_neq _ _)) by done. rewrite E2, (wg_session _ Hwf).
  wp_step. eapply wp_mono; [apply (hash_region_exact s P); [by apply (ok_mem (b, w))|cbn; ulia..]|].
  intros o [g2 [b2 w2]] [[Q1 Q2 Q3 Q4] ->]. cbn in Q1, Q2, Q3, Q4. subst g2 b2. cbn [fst snd r_gpa r_size r].
  assert (breports ok reported (b, w) (b, w2)) as Hbr by (by apply same_breports).
  destruct (phys_bytes s w gpa (Z.to_nat size)) as [bs|]; cbn [fmap option_fmap option_map]; cycle 1.
  { wp_step. cbn [negb]. wp_step. cbn [fst snd]. split_and!; done. }
  set (h := fnv1a64_update fnv1a64_init bs).
  wp_step. apply wp_guard_set. wp_step. cbn [negb fst snd]. wp_step. apply wp_guard_get.
  cbn [fst snd id guard_regions with_regions session]. rewrite E1.
  rewrite insert_last_pushed.
  assert (guard_wf (with_regions (guard_regions g ++ [set_baseline_hash h r]) g1)) as Hwf2.
  { eapply (guard_wf_push g _ name gpa size crit h true); (done || lia). }
  wp_step.
  - replace (length (guard_regions g ++ [r]) - 1)%nat
      with (length (guard_regions g ++ [set_baseline_hash h r]) - 1)%nat by (by rewrite !length_app).
    rewrite lookup_last_pushed.
    wp_step. rewrite E2, (wg_session _ Hwf). apply reprotect_spec.
    { eapply Forall_lookup_1; [apply (wg_regions _ Hwf2)|]. apply list_lookup_middle. done. }
    cbn [fst snd]. intros w3 Hs3. wp_step. split_and!; [|done..].
    eapply breports_trans; [exact Hbr|]. apply same_breports; [done|apply Hbr].
  - wp_step. cbn [fst snd]. by split_and!.
Qed.
End integrity.

(** ** Memory of a given moment *)

Section since.
Context {W : Type} `{OS : HostOS W} `{SM : !StableMemory W} (s : vmi_session) (P : W -> Prop).

(** Readable, and with the memory of a given moment. *)
Definition since (w0 : W) : W -> Prop := fun w => P w /\ same_mem w0 w.

#[global] Instance since_reads `{PR : !PhysReads s P} w0 : PhysReads s (since w0).
Proof.
  split. intros gpa buf w [Hp Hs]. eapply wp_mono; [by apply (phys_read (P := P))|]. intros r w' (H1 & H2 & H3).
  split; [split; [done|by transitivity w]|done].
Qed.

#[global] Instance since_live `{PL : !PhysLive s P} w0 : PhysLive s (since w0).
Proof. split. intros gpa buf w r w' [Hp _]. by apply (phys_live (P := P)). Qed.

#[global] Instance since_memory `{MO : !MemoryOnly P} w0 : MemoryOnly (since w0).
Proof. split. intros w w' Hs [Hp H0]. split; [by eapply memory_only|by transitivity w]. Qed.
End since.
