(* ===== verification/HekiServer.v ===== *)
(** * The registration server (heki_server.c)

    A client registers a memory range for protection and obtains a nonce; the
    nonce, presented through CPUID, authorises one write. *)

From S2P Require Import Prelude CStrings HostOS VmiMemory Bridge NptRegions NpfHandler.
From S2P Require Import NptGuard.
From stdpp Require Import prelude strings list.
From Stdlib Require Import ZArith Lia Ascii.
#[local] Open Scope string_scope.
#[local] Open Scope list_scope.
#[local] Open Scope Z_scope.

Definition MOCK_MAGIC : Z := 0x4D4F434B.
Definition MOCK_NONCE : Z := 3039.
Definition REGISTRATION_SIZE : nat := 49.

(** The packed wire format: 4 + 8 + 4 + 1 + 32 bytes. *)
Record heki_registration := Registration {
  hk_magic : Z;
  hk_gva : Z;
  hk_size : Z;
  hk_is_critical : Z;
  hk_name : list Z;
}.

Definition decode_registration (bs : list Z) : heki_registration :=
  Registration (le_decode (take 4 bs)) (le_decode (take 8 (drop 4 bs)))
    (le_decode (take 4 (drop 12 bs))) (le_decode (take 1 (drop 16 bs))) (take 32 (drop 17 bs)).

Definition encode_registration (r : heki_registration) : list Z :=
  le_encode 4 (hk_magic r) ++ le_encode 8 (hk_gva r) ++ le_encode 4 (hk_size r) ++
  le_encode 1 (hk_is_critical r) ++ hk_name r.

(** [printf("%s", reg.name)] reads past the structure when the name has no
    terminator. *)
Definition terminated (name : list Z) : bool := existsb (fun b => b =? 0) name.

Definition string_of_bytes (bs : list Z) : string :=
  String.string_of_list_ascii (map (fun b => ascii_of_nat (Z.to_nat b)) bs).

Section heki.
Context {W : Type} `{OS : HostOS W}.
Abbreviation G := (guard_state * (bridge * W))%type.

Definition with_listen_fd (fd : Z) (g : guard_state) : guard_state :=
  Guard (session g) (clean_syscall_table g) (snapshot_taken g) (clean_syscall_hash g)
    (last_integrity_check_us g) (guard_regions g) (authorized_cr3 g) (authorized_pid g) fd
    (heki_active_nonce g).

(** [true] is return code 0.  [unix_bind] stands for the stale path being
    unlinked and the socket bound.  A failed bind or listen closes the descriptor
    and leaves its number in [heki_listen_fd]. *)
Definition heki_server_init (socket_path : string) : M G bool :=
  f ← gmem (lift unix_socket);
  match f with
  | SysErr _ => _ ← guard_set (with_listen_fd (-1)); mret false
  | SysOk fd =>
      _ ← guard_set (with_listen_fd fd);
      b ← gmem (lift (unix_bind fd (strncpyz 108 socket_path)));
      match b with
      | SysErr _ => _ ← gmem (modify (sys_close fd)); mret false
      | SysOk _ =>
          l ← gmem (lift (sys_listen fd 5));
          match l with
          | SysErr _ => _ ← gmem (modify (sys_close fd)); mret false
          | SysOk _ => mret true
          end
      end
  end.

(** The nonce of the session, drawn at the first registration. *)
Definition draw_nonce : M G Z :=
  nonce ← guard_get heki_active_nonce;
  if nonce =? 0 then
    r ← gmem (lift sys_rand);
    let n := Z.lxor (u32 r) HEKI_MAGIC in
    let n := if n =? 0 then 1 else n in
    _ ← guard_set (with_nonce n);
    mret n
  else mret nonce.

(** The reply to a registration. *)
Definition heki_register (reg : heki_registration) : M G Z :=
  if negb (terminated (hk_name reg)) then stuck
  else
    s ← guard_get session;
    if kernel_pgd s =? 0 then
      nonce ← guard_get heki_active_nonce;
      _ ← (if nonce =? 0 then guard_set (with_nonce MOCK_NONCE) else mret tt);
      guard_get heki_active_nonce
    else
      t ← gmem (vmi_gva_to_gpa s (kernel_pgd s) (hk_gva reg));
      match t with
      | None => mret 0
      | Some gpa =>
          ok ← npt_guard_protect_dynamic gpa (hk_size reg) (negb (hk_is_critical reg =? 0))
                 (cstr_of_bytes (hk_name reg));
          if ok : bool then draw_nonce else mret 0
      end.

(** [n] bytes were read: the response of [handle_heki_client]. *)
Definition heki_respond (bs : list Z) : M G Z :=
  let reg := decode_registration bs in
  if (length bs =? REGISTRATION_SIZE)%nat && (hk_magic reg =? HEKI_MAGIC) then heki_register reg
  else if (length bs =? REGISTRATION_SIZE)%nat && (hk_magic reg =? MOCK_MAGIC) then
    _ ← npf_handler_cpuid_intercept HEKI_MAGIC (Z.land (hk_gva reg) 0xFFFFFFFF) 0x12345678;
    mret 1
  else mret 0.

Definition handle_heki_client (client_fd : Z) : M G Z :=
  r ← gmem (lift (sys_read client_fd (Z.of_nat REGISTRATION_SIZE)));
  response ← (match r with SysOk bs => heki_respond bs | SysErr _ => mret 0 end);
  _ ← gmem (lift (sys_write client_fd (string_of_bytes (le_encode 4 response))));
  _ ← gmem (modify (sys_close client_fd));
  mret response.

(** The response sent to the client of this poll, if there was one. *)
Definition heki_server_poll : M G (option Z) :=
  fd ← guard_get heki_listen_fd;
  if fd <? 0 then mret None
  else
    r ← gmem (lift (sys_accept fd));
    match r with
    | SysOk client_fd => x ← handle_heki_client client_fd; mret (Some x)
    | SysErr _ => mret None
    end.
End heki.
