(* ===== verification/GuardClaims.v ===== *)
(** * What the page guard, the fault handler and the registration server guarantee *)

From S2P Require Import Prelude CStrings HostOS MockHost VmiMemory VmiMemoryProofs PageWalk.
From S2P Require Import Bridge BridgeProofs BridgeMemory NptRegions NpfHandler NptGuard.
From S2P Require Import GuardProofs HekiServer.
From stdpp Require Import prelude strings list list_monad.
From Stdlib Require Import ZArith Lia Ascii.
#[local] Open Scope string_scope.
#[local] Open Scope list_scope.
#[local] Open Scope Z_scope.

Section hashing.
Context {W : Type} `{OS : HostOS W} `{SM : !StableMemory W}.
Context (s : vmi_session) (P : W -> Prop) `{PR : !PhysReads s P} `{PL : !PhysLive s P}.
Implicit Types (w : W) (g : guard_state) (b : bridge).

(** Hashing a guest region is exact and catches every single-byte change:
    for any region of up to 2^64 - 1 bytes the hash returned is FNV-1a of the
    region's bytes, whatever its alignment to the 4 KiB chunks, and fails exactly
    when a byte is missing; and if in another state of guest memory the region
    differs in one byte, the two hashes differ. *)
Theorem hash_guest_region_detects_byte gpa size g b w g' b' w' l1 x y l2 :
  P w -> P w' -> is_u64 gpa -> 0 < size -> is_u64 size ->
  phys_bytes s w gpa (Z.to_nat size) = Some (l1 ++ x :: l2) ->
  phys_bytes s w' gpa (Z.to_nat size) = Some (l1 ++ y :: l2) ->
  is_u8 x -> is_u8 y -> Forall is_u8 l2 -> x <> y ->
  exists h h' st st', hash_guest_region s gpa size (g, (b, w)) = Some (Some h, st) /\
    hash_guest_region s gpa size (g', (b', w')) = Some (Some h', st') /\
    h = fnv1a64_update fnv1a64_init (l1 ++ x :: l2) /\ h <> h'.
Proof.
  intros Hp Hp' Hg Hs1 Hs2 Hb Hb' Hx Hy Hl Hne.
  destruct (hash_region_exact s P gpa size (g, (b, w)) Hp Hg Hs1 Hs2) as (r & st & Hr & _ & ->).
  destruct (hash_region_exact s P gpa size (g', (b', w')) Hp' Hg Hs1 Hs2) as (r & st' & Hr' & _ & ->).
  cbn [fst snd] in *. rewrite Hb in Hr. rewrite Hb' in Hr'. cbn in Hr, Hr'.
  eexists _, _, st, st'. split_and!; [exact Hr|exact Hr'|reflexivity|]. by apply fnv_single_byte.
Qed.
End hashing.

(** The bounds check is right when guarded regions do not share pages: an
    address inside a region is a direct hit on that region; an address on one of
    its pages but outside it is a collateral write; any other address is
    unknown. *)
Theorem check_bounds_correct rs a i r :
  Forall wf_region rs -> is_u64 a ->
  (forall j k r1 r2 x, rs !! j = Some r1 -> rs !! k = Some r2 -> on_page_of r1 x -> on_page_of r2 x -> j = k) ->
  rs !! i = Some r ->
  (in_region r a -> npt_guard_check_bounds rs a = (DirectHit, Some r)) /\
  (on_page_of r a -> ~ in_region r a -> npt_guard_check_bounds rs a = (Collateral, Some r)) /\
  (npt_guard_check_bounds rs a = (Unknown, None) <-> Forall (fun r => ~ on_page_of r a) rs).
Proof.
  intros Hwf Ha Hdis Hi. pose proof (check_bounds_spec rs a Hwf Ha) as Hs.
  assert (in_region r a -> on_page_of r a) as Hin by (intros; by exists a).
  destruct (npt_guard_check_bounds rs a) as [[] o].
  - destruct Hs as [-> Hno]. pose proof (Forall_lookup_1 _ _ _ _ Hno Hi) as Hn.
    split_and!; [intros; by destruct Hn; auto|intros; by destruct Hn|done].
  - destruct Hs as (j & r' & -> & Hj & Hr' & _).
    assert (on_page_of r' a) as Hpg by (by exists a).
    split_and!.
    + intros Hr. assert (i = j) as -> by (eapply (Hdis _ _ _ _ a); eauto). by simplify_eq.
    + intros Hr Hn. assert (i = j) as -> by (eapply (Hdis _ _ _ _ a); eauto). by simplify_eq.
    + split; [done|]. intros Hno. by destruct (Forall_lookup_1 _ _ _ _ Hno Hj).
  - destruct Hs as (j & r' & -> & Hj & Hr' & Hnr & _).
    split_and!.
    + intros Hr. assert (i = j) as -> by (eapply (Hdis _ _ _ _ a); eauto). by simplify_eq.
    + intros Hr Hn. assert (i = j) as -> by (eapply (Hdis _ _ _ _ a); eauto). by simplify_eq.
    + split; [done|]. intros Hno. by destruct (Forall_lookup_1 _ _ _ _ Hno Hj).
Qed.

Definition idt_region : guard_region := Region "idt" 0x1000 0x100 true 0 true 0.
Definition gdt_region : guard_region := Region "gdt" 0x1200 0x100 true 0 true 0.
Definition text_region : guard_region := Region "kernel_text" 0x4000 0x1000 true 0 true 0.

Lemma regions_wf : Forall wf_region [idt_region; gdt_region; text_region].
Proof. repeat constructor; cbn; unfold REGION_NAME_MAX; lia. Qed.

Lemma check_bounds_correct_witness :
  npt_guard_check_bounds [idt_region; text_region] 0x4010 = (DirectHit, Some text_region).
Proof.
  apply (check_bounds_correct [idt_region; text_region] 0x4010 1 text_region).
  - repeat constructor; cbn; unfold REGION_NAME_MAX; lia.
  - ulia.
  - intros [|[|j]] [|[|k]] r1 r2 x H1 H2 (a & Ha & Ea) (c & Hc & Ec); cbn in *; simplify_eq; try done;
      unfold in_region in *; cbn in *; lia.
  - reflexivity.
  - unfold in_region. cbn. lia.
Defined.

(** Where two guarded regions share a page, the first one in the table
    decides: a write inside the second, critical region is taken for a collateral
    write near the first, and the handler lets it pass without an alert. *)
Theorem shared_page_masks_write :
  in_region gdt_region 0x1210 /\ critical gdt_region = true /\
  npt_guard_check_bounds [idt_region; gdt_region] 0x1210 = (Collateral, Some idt_region) /\
  forall have_libbpf g (bw : bridge * mock), guard_regions g = [idt_region; gdt_region] ->
    npf_handler_process have_libbpf 0x1210 true (g, bw) = Some (tt, (g, bw)).
Proof.
  split_and!; [unfold in_region; cbn; lia|reflexivity|reflexivity|].
  intros lb g bw Hg. unfold npf_handler_process, classify_fault, guard_get, gets, mbind, M_bind.
  cbn [negb fst]. change (id g) with g. rewrite Hg.
  change (npt_guard_check_bounds [idt_region; gdt_region] 0x1210) with (Collateral, Some idt_region).
  reflexivity.
Qed.

(** Arming and re-protection reach every page: for a region that does not
    run into the end of the address space, the page loop terminates and asks the
    hypervisor for exactly the 4 KiB pages that contain a byte of the region. *)
Theorem reprotect_covers_region {W} `{OS : HostOS W} s r (st : guard_state * (bridge * W)) :
  wf_region r ->
  exists pages, reprotect_region_pages s r st =
      forM pages (fun p => _ ← set_page_readonly s p; mret tt) st /\
    forall p, p ∈ pages <-> p mod 4096 = 0 /\ exists a, in_region r a /\ p <= a < p + 4096.
Proof.
  intros Hwf. exists (pages_from (page_down (r_gpa r)) (r_gpa r + r_size r)).
  split; [by apply reprotect_pages|]. intros p. by apply region_pages_spec.
Qed.

Lemma reprotect_covers_region_witness :
  exists pages, reprotect_region_pages demo_session text_region
      (Guard demo_session [] false 0 0 [] 0 0 (-1) 0, (bridge_boot, mock_init)) =
      forM pages (fun p => _ ← set_page_readonly demo_session p; mret tt)
        (Guard demo_session [] false 0 0 [] 0 0 (-1) 0, (bridge_boot, mock_init)) /\
    forall p, p ∈ pages <-> p mod 4096 = 0 /\ exists a, in_region text_region a /\ p <= a < p + 4096.
Proof.
  apply (reprotect_covers_region demo_session text_region).
  split; cbn; unfold REGION_NAME_MAX; lia.
Defined.

(** The bytes of [demo_slot] at 0x5000 before and after one is changed. *)
Definition tampered_world : mock :=
  set_remote (fun _ => poke (0x7f0000000000 + 0x5003) [0x77] demo_memory) mock_init.

Lemma hash_guest_region_detects_byte_witness :
  exists h h' st st',
    hash_guest_region demo_session 0x5000 8
      (Guard demo_session [] false 0 0 [] 0 0 (-1) 0, (bridge_boot, demo_world)) = Some (Some h, st) /\
    hash_guest_region demo_session 0x5000 8
      (Guard demo_session [] false 0 0 [] 0 0 (-1) 0, (bridge_boot, tampered_world)) = Some (Some h', st') /\
    h = fnv1a64_update fnv1a64_init ([0x00; 0x99; 0xaa] ++ 0xbb :: [0xcc; 0xdd; 0xee; 0xff]) /\ h <> h'.
Proof.
  apply (hash_guest_region_detects_byte demo_session (readable demo_session) 0x5000 8 _ _ _ _ _ _
           [0x00; 0x99; 0xaa] 0xbb 0x77 [0xcc; 0xdd; 0xee; 0xff]).
  - apply demo_readable.
  - apply demo_readable.
  - ulia.
  - lia.
  - ulia.
  - vm_compute. reflexivity.
  - vm_compute. reflexivity.
  - ulia.
  - ulia.
  - repeat constructor; ulia.
  - lia.
Defined.

Section faults.
Context {W : Type} `{OS : HostOS W} (have_libbpf : bool).
Context (ok : bridge * W -> Prop) (reported : bridge * W -> Z -> Z -> Prop).
Context `{AS : !AlertSink have_libbpf ok reported}.
Implicit Types (g : guard_state) (bw : bridge * W).

(** A write that hits a critical region is reported as malicious, unless
    the staging override or an outstanding authorisation excuses it: the handler
    runs to completion, leaves the guard as it is, and afterwards the sink holds a
    malicious alert. *)
Theorem critical_write_reported g bw gpa r :
  ok bw -> npt_guard_check_bounds (guard_regions g) gpa = (DirectHit, Some r) -> critical r = true ->
  patch_allowed bw.2 (r_name r) = false ->
  npf_handler_is_authorized g (kernel_pgd (session g)) 0 = false ->
  exists bw', npf_handler_process have_libbpf gpa true (g, bw) = Some (tt, (g, bw')) /\
    ok bw' /\ reported bw' 0 VMI_THREAT_MALICIOUS.
Proof.
  intros Hok Hb Hc Hp Ha. pose proof (process_write_spec have_libbpf ok reported gpa (g, bw) Hok) as Hs.
  unfold attributed in Hs. cbn [fst snd] in Hs. rewrite Hb, Hc, Hp, Ha in Hs. cbn [orb] in Hs.
  destruct Hs as ([] & [g' bw'] & Hr & [Hok' _] & Hg & Hal). cbn in Hg. subst g'. by exists bw'.
Qed.

(** The drawbridge opens once: after a CPUID request with the active,
    nonzero nonce for the kernel's page tables, the next hostile write passes
    without any change to the bridge, and consumes the authorisation, so that the
    write after it is reported.  A request with another nonce changes nothing. *)
Theorem authorisation_is_one_shot g bw gpa r ecx :
  ok bw -> npt_guard_check_bounds (guard_regions g) gpa = (DirectHit, Some r) -> critical r = true ->
  patch_allowed bw.2 (r_name r) = false -> kernel_pgd (session g) <> 0 ->
  (ecx = heki_active_nonce g -> heki_active_nonce g <> 0 ->
   exists g1 g2 bw3, npf_handler_cpuid_intercept HEKI_MAGIC ecx (kernel_pgd (session g)) (g, bw) =
       Some (tt, (g1, bw)) /\
     npf_handler_process have_libbpf gpa true (g1, bw) = Some (tt, (g2, bw)) /\
     npf_handler_process have_libbpf gpa true (g2, bw) = Some (tt, (g2, bw3)) /\
     reported bw3 0 VMI_THREAT_MALICIOUS) /\
  (ecx <> heki_active_nonce g \/ heki_active_nonce g = 0 ->
   forall eax cr3, npf_handler_cpuid_intercept eax ecx cr3 (g, bw) = Some (tt, (g, bw))).
Proof.
  intros Hok Hb Hc Hp Hk. split.
  - intros -> Hn. set (g1 := with_authorized (kernel_pgd (session g)) 0 g).
    set (g2 := with_authorized 0 0 g1).
    pose proof (process_write_spec have_libbpf ok reported gpa (g1, bw) Hok) as H1.
    pose proof (process_write_spec have_libbpf ok reported gpa (g2, bw) Hok) as H2.
    unfold attributed in H1, H2. cbn [fst snd guard_regions session g1 g2 with_authorized] in H1, H2.
    rewrite Hb, Hc, Hp in H1, H2. cbn [orb] in H1, H2.
    assert (npf_handler_is_authorized g1 (kernel_pgd (session g)) 0 = true) as Ha1.
    { unfold npf_handler_is_authorized. cbn. rewrite Z.eqb_refl. by apply Z.eqb_neq in Hk as ->. }
    assert (npf_handler_is_authorized g2 (kernel_pgd (session g)) 0 = false) as Ha2.
    { unfold npf_handler_is_authorized. cbn [authorized_cr3 authorized_pid g2 with_authorized].
      rewrite (Z.eqb_sym 0 (kernel_pgd _)). by apply Z.eqb_neq in Hk as ->. }
    rewrite Ha1 in H1. rewrite Ha2 in H2.
    destruct H1 as ([] & st1 & Hr1 & _ & ->), H2 as ([] & [g3 bw3] & Hr2 & _ & Hg & Hal).
    cbn [fst snd] in *. subst g3. exists g1, g2, bw3. split_and!; [|exact Hr1|exact Hr2|exact Hal].
    unfold npf_handler_cpuid_intercept, guard_get, gets, mbind, M_bind. cbn [fst].
    rewrite Z.eqb_refl, Z.eqb_refl. apply Z.eqb_neq in Hn as ->. reflexivity.
  - intros Hn eax cr3. unfold npf_handler_cpuid_intercept, guard_get, gets, mbind, M_bind. cbn [fst].
    destruct (eax =? HEKI_MAGIC); [|done].
    destruct ((ecx =? heki_active_nonce g) && negb (heki_active_nonce g =? 0)) eqn:E; [|done].
    boolify. by destruct Hn.
Qed.
End faults.

Definition one_region : guard_state :=
  Guard demo_session [] false 0 0 [text_region] 0 0 (-1) 77.

Lemma critical_write_reported_witness :
  exists bw', npf_handler_process (W := mock) false 0x4010 true (one_region, (bridge_boot, mock_init)) =
      Some (tt, (one_region, bw')) /\ bridge_ok bw' /\ bridge_reported bw' 0 VMI_THREAT_MALICIOUS.
Proof.
  apply (critical_write_reported false bridge_ok bridge_reported one_region (bridge_boot, mock_init)
           0x4010 text_region).
  - split; [exact bridge_boot_wf|by apply zero_table_accounted].
  - reflexivity.
  - reflexivity.
  - reflexivity.
  - reflexivity.
Defined.

Lemma authorisation_is_one_shot_witness :
  exists g1 g2 bw3, npf_handler_cpuid_intercept (W := mock) HEKI_MAGIC 77 0x1000
      (one_region, (bridge_boot, mock_init)) = Some (tt, (g1, (bridge_boot, mock_init))) /\
    npf_handler_process false 0x4010 true (g1, (bridge_boot, mock_init)) =
      Some (tt, (g2, (bridge_boot, mock_init))) /\
    npf_handler_process false 0x4010 true (g2, (bridge_boot, mock_init)) = Some (tt, (g2, bw3)) /\
    bridge_reported bw3 0 VMI_THREAT_MALICIOUS.
Proof.
  apply (authorisation_is_one_shot false bridge_ok bridge_reported one_region (bridge_boot, mock_init)
           0x4010 text_region 77).
  - split; [exact bridge_boot_wf|by apply zero_table_accounted].
  - reflexivity.
  - reflexivity.
  - reflexivity.
  - done.
  - reflexivity.
  - done.
Defined.

Section loop.
Context {W : Type} `{OS : HostOS W} `{SM : !StableMemory W} `{QI : !QuietIO W} `{CW : !ClockWorks W}.
Context (have_libbpf : bool) (s : vmi_session) (P : W -> Prop).
Context `{PR : !PhysReads s P} `{PL : !PhysLive s P} `{MO : !MemoryOnly P}.
Implicit Types (w : W) (g : guard_state) (b : bridge).

(** The sink of the whole daemon: the bridge in order, memory readable. *)
Abbreviation daemon_ok := (fun bw : bridge * W => bridge_ok bw /\ P bw.2).

Lemma daemon_ok_same b w w' : same_mem w w' -> daemon_ok (b, w) -> daemon_ok (b, w').
Proof. intros Hs [Hb Hp]. split; [done|]. by eapply memory_only. Qed.

(** A changed byte of a critical region is reported: if the region's
    baseline is the hash of some content and guest memory now differs from it in
    one byte, and this content was not reported before, then one pass over the
    region leaves a malicious alert with the bridge, remembers the content so that
    it is reported once, and keeps the invariants of guard and bridge. *)
Theorem tampering_reported i r g b w l1 x y l2 :
  bridge_ok (b, w) -> P w -> guard_wf s g -> guard_regions g !! i = Some r ->
  r_name r <> "sys_call_table" -> critical r = true -> baseline_valid r = true ->
  baseline_hash r = fnv1a64_update fnv1a64_init (l1 ++ x :: l2) ->
  phys_bytes s w (r_gpa r) (Z.to_nat (r_size r)) = Some (l1 ++ y :: l2) ->
  is_u8 x -> is_u8 y -> Forall is_u8 l2 -> x <> y ->
  last_alert_hash r <> fnv1a64_update fnv1a64_init (l1 ++ y :: l2) ->
  exists g' b' w', check_region have_libbpf i (g, (b, w)) = Some (tt, (g', (b', w'))) /\
    guard_wf s g' /\ bridge_ok (b', w') /\
    (exists a, a ∈ attempted b' /\ al_pid a = 0 /\ threat_level a = VMI_THREAT_MALICIOUS) /\
    guard_regions g' =
      <[i := set_last_alert (fnv1a64_update fnv1a64_init (l1 ++ y :: l2)) r]> (guard_regions g).
Proof.
  intros Hb Hp Hwf Hi Hn Hc Hv Hbase Hcur Hx Hy Hl Hne Hlast.
  destruct (check_region_spec have_libbpf s P daemon_ok bridge_reported ltac:(by intros ? [])
    daemon_ok_same ltac:(done) i r (g, (b, w)) ltac:(done) Hwf Hi)
    as ([] & [g' [b' w']] & Hr & [[Hok' _] _] & Hwf' & _ & _ & Hch).
  exists g', b', w'. unfold region_checked, region_hash in Hch. cbn [fst snd] in Hch.
  rewrite Hv, Hcur in Hch. cbn [fmap option_fmap option_map] in Hch.
  rewrite (proj2 (Z.eqb_neq _ _)) in Hch by (rewrite Hbase; apply not_eq_sym; by apply fnv_single_byte).
  rewrite (proj2 (Z.eqb_neq _ _)) in Hch by done.
  destruct Hch as (Hrs & Ha & _). specialize (Ha Hn). rewrite Hc in Ha.
  destruct Ha as (a & [Ha|[? _]] & ? & ?); [|done]. split_and!; try done. by exists a.
Qed.

(** The pass of one call, against the memory at its start. *)
Lemma pass_exact g b w :
  bridge_ok (b, w) -> P w -> guard_wf s g ->
  wp (forM (seq 0 (length (guard_regions g))) (check_region have_libbpf))
     (noted_time g w, (b, (clock_monotonic w).2)) (fun _ st' =>
    guard_wf s st'.1 /\ bridge_since (attempts b) st'.2 /\ P st'.2.2 /\
    (forall pid l, delivered b pid l -> delivered st'.2.1 pid l) /\
    guard_regions st'.1 = region_after s w <$> guard_regions g /\
    forall r, r ∈ guard_regions g -> newly_changed s w r -> r_name r <> "sys_call_table" ->
      write_alarm bridge_reported st'.2 (critical r)).
Proof.
  intros Hb Hp Hwf. set (P0 := since P w). set (ok := fun bw : bridge * W => bridge_since (attempts b) bw /\ P0 bw.2).
  assert (same_mem w (clock_monotonic w).2) as Hs by apply io_clock. destruct (noted_time_frame g w) as (E1 & _).
  assert (AlertSink have_libbpf ok bridge_reported) as AS by (unfold ok; apply memory_sink; apply _).
  assert (forall b w w', same_mem w w' -> ok (b, w) -> ok (b, w')) as Hsame.
  { intros b0 w1 w2 H12 [H1 H2]. split; [done|]. by eapply (memory_only (P := P0)). }
  eapply wp_mono; [apply (check_loop_exact have_libbpf s P0 ok bridge_reported ltac:(by intros ? []) Hsame ltac:(done) w
    ltac:(by intros ? [_ []])); cbn [fst snd]; [|by apply guard_wf_noted|rewrite E1; apply regions_range|apply NoDup_seq]|].
  { split; [by split|]. split; [by eapply memory_only|done]. }
  intros [] [g' [b' w']] ([[H1 [H1' _]] H2] & H3 & _ & H4 & H5). cbn [fst snd] in *. rewrite E1 in H4, H5.
  split_and!; [done..| |].
  - apply list_eq. intros j. rewrite H4, list_lookup_fmap. case_bool_decide as Hj; [done|].
    destruct (guard_regions g !! j) eqn:Er; [|done]. destruct Hj. apply elem_of_seq. apply lookup_lt_Some in Er. lia.
  - intros r [j Hj]%list_elem_of_lookup. apply (H5 j r); [|done]. apply elem_of_seq. apply lookup_lt_Some in Hj. lia.
Qed.

(** C35. One call of the event handler, exactly.  It returns on every well-formed guard,
    bridge and clock.  When the guard is armed and a check is due, every region is
    visited, once: a region with a baseline and readable bytes has its reported hash
    cleared if the bytes hash to the baseline, and set to the hash of the bytes if not;
    a region without baseline, or with a missing byte, is left as it was; and for each
    region whose content changed and was not reported yet (sys_call_table apart, whose
    entries are reported one by one) an alert for the kernel, malicious if the region is
    critical, has been handed out or queued (an earlier one counts: the bridge suppresses
    duplicates).  Otherwise regions and bridge are unchanged.  Nothing handed out or
    queued is withdrawn.  (Reads of guest memory are exact or fail,
    and succeed where the bytes exist; memory changes
    only while the handler sleeps.) *)
Theorem handle_events_total `{SS : !SleepSafe P} g b w :
  bridge_ok (b, w) -> P w -> guard_wf s g ->
  exists g' b' w', npt_guard_handle_events have_libbpf (g, (b, w)) = Some (tt, (g', (b', w'))) /\
    guard_wf s g' /\ bridge_ok (b', w') /\ P w' /\ attempts b `prefix_of` attempts b' /\
    (forall pid l, delivered b pid l -> delivered b' pid l) /\
    if npt_armed s && check_due g w then
      guard_regions g' = region_after s w <$> guard_regions g /\
      forall r, r ∈ guard_regions g -> newly_changed s w r -> r_name r <> "sys_call_table" ->
        write_alarm bridge_reported (b', w') (critical r)
    else guard_regions g' = guard_regions g /\ b' = b.
Proof.
  intros Hb Hp Hwf. pose proof (wg_session _ _ Hwf) as Hs.
  assert (P (clock_monotonic w).2) as Hp1 by (eapply memory_only; [apply io_clock|done]).
  cut (wp (npt_guard_handle_events have_libbpf) (g, (b, w)) (fun _ st' =>
    guard_wf s st'.1 /\ bridge_ok st'.2 /\ P st'.2.2 /\ attempts b `prefix_of` attempts st'.2.1 /\
    (forall pid l, delivered b pid l -> delivered st'.2.1 pid l) /\
    if npt_armed s && check_due g w then
      guard_regions st'.1 = region_after s w <$> guard_regions g /\
      forall r, r ∈ guard_regions g -> newly_changed s w r -> r_name r <> "sys_call_table" ->
        write_alarm bridge_reported st'.2 (critical r)
    else guard_regions st'.1 = guard_regions g /\ st'.2.1 = b)).
  { intros ([] & [g' [b' w']] & Hr & H). by exists g', b', w'. }
  apply events_wp. cbn [fst snd]. cbv zeta. rewrite Hs.
  destruct (npt_armed s); [|by split_and!]. cbn [andb]. destruct (check_due g w).
  - eapply wp_mono; [by apply pass_exact|]. intros [] [g' [b' w']] (H1 & [H2 H3] & H4 & H5 & H6 & H7).
    cbn [fst snd] in *. split_and!; try done. by apply sleep_safe.
  - split_and!; try done. by apply sleep_safe.
Qed.

(** Registration at run time: it fails without touching the table exactly
    when the size is zero or all 16 slots are taken; otherwise it appends one
    region, and succeeds exactly when all bytes of the region exist: then its
    baseline is the hash of these bytes, and if one is missing the region stays in
    the table without a baseline.  The guard's invariant, with its bound of 16
    regions, is kept.  (The name is not the reserved sys_call_table.) *)
Theorem protect_dynamic_registers gpa size crit name g b w :
  bridge_ok (b, w) -> P w -> guard_wf s g -> 0 <= gpa -> 0 <= size ->
  gpa + size + 4096 <= 18446744073709551616 ->
  strncpyz REGION_NAME_MAX name <> "sys_call_table" ->
  exists x g' w', npt_guard_protect_dynamic gpa size crit name (g, (b, w)) = Some (x, (g', (b, w'))) /\
    guard_wf s g' /\
    dynamic_outcome s gpa size crit name w (guard_regions g) x (guard_regions g').
Proof.
  intros Hb Hp Hwf Hg Hs He Hn.
  destruct (protect_dynamic_spec s P daemon_ok bridge_reported ltac:(by intros ? [])
    daemon_ok_same ltac:(done) gpa size crit name g b w ltac:(done) Hwf Hg Hs He Hn)
    as (x & [g' [b' w']] & Hr & _ & Hb' & Hwf' & Hx).
  cbn in Hb'. subst b'. by exists x, g', w'.
Qed.
End loop.

(** A guard over two critical regions of the small guest, both changed. *)
Definition changed_guard : guard_state :=
  Guard (Session (-1) (-1) [] 0 [demo_slot] 4242 (-1) 0 0 true 0 0 0x1000) (replicate 4096 0) false 0 0
    [Region "idt" 0x5000 8 true 1 true 0; Region "gdt" 0x6ff8 8 true 1 true 0] 0 0 (-1) 0.

Definition ticking_world : mock :=
  set_clock [(10, 0); (10, 0); (10, 0); (10, 0); (20, 0)] (20, 0) demo_world.

(** Both passes, and what they leave: the contents marked as reported, and the
    number of alerts emitted and queued after each. *)
Definition two_passes : option (list bool * nat * nat * nat * nat) :=
  match npt_guard_handle_events false (changed_guard, (bridge_boot, ticking_world)) with
  | Some (_, (g1, (b1, w1))) =>
      match npt_guard_handle_events false (g1, (b1, w1)) with
      | Some (_, (g2, (b2, w2))) =>
          Some (map (fun r => negb (last_alert_hash r =? 0)) (guard_regions g2),
                length (attempted b1), length (alert_queue b1), length (attempted b2), length (pending b2))
      | None => None
      end
  | None => None
  end.

(** Two regions that change between passes are reported as one: the fault
    handler does not know the process and reports both under pid 0, so the
    duplicate suppression of the bridge drops the second alert (one alert is
    emitted and queued as sent), while the guard marks both contents as reported;
    the next pass, ten seconds later, raises nothing. *)
Theorem second_region_masked : two_passes = Some ([true; true], 1%nat, 1%nat, 1%nat, 0%nat).
Proof. vm_compute. reflexivity. Qed.

(** A guard over one region of the small guest, whose first byte was 1. *)
Definition small_guard : guard_state :=
  Guard demo_session (replicate 4096 0) false 0 0
    [Region "idt" 0x5000 3 true (fnv1a64_update fnv1a64_init [1; 0x99; 0xaa]) true 0] 0 0 (-1) 0.

Lemma small_guard_wf : guard_wf demo_session small_guard.
Proof.
  split; cbn [session guard_regions clean_syscall_table small_guard length].
  - reflexivity.
  - unfold MAX_GUARD_REGIONS. lia.
  - constructor; [|done]. split; cbn; unfold REGION_NAME_MAX; lia.
  - apply length_replicate.
Qed.

Lemma bridge_boot_sink (w : mock) : bridge_ok (bridge_boot, w).
Proof. split; [exact bridge_boot_wf|by apply zero_table_accounted]. Qed.

Lemma tampering_reported_witness :
  exists g' b' w', check_region false 0 (small_guard, (bridge_boot, demo_world)) =
      Some (tt, (g', (b', w'))) /\
    exists a, a ∈ attempted b' /\ al_pid a = 0 /\ threat_level a = VMI_THREAT_MALICIOUS.
Proof.
  destruct (tampering_reported false demo_session (readable demo_session) 0
              (Region "idt" 0x5000 3 true (fnv1a64_update fnv1a64_init [1; 0x99; 0xaa]) true 0)
              small_guard bridge_boot demo_world [] 1 0 [0x99; 0xaa])
    as (g' & b' & w' & H1 & _ & _ & H2 & _).
  - apply bridge_boot_sink.
  - apply demo_readable.
  - exact small_guard_wf.
  - reflexivity.
  - done.
  - reflexivity.
  - reflexivity.
  - reflexivity.
  - vm_compute. reflexivity.
  - ulia.
  - ulia.
  - repeat constructor; ulia.
  - lia.
  - vm_compute. congruence.
  - exists g', b', w'. exact (conj H1 H2).
Defined.

Lemma changed_guard_wf : guard_wf (session changed_guard) changed_guard.
Proof.
  split; cbn [session guard_regions clean_syscall_table changed_guard length].
  - reflexivity.
  - unfold MAX_GUARD_REGIONS. lia.
  - repeat constructor; cbn; unfold REGION_NAME_MAX; lia.
  - apply length_replicate.
Qed.

Lemma handle_events_total_witness :
  exists g' b' w', npt_guard_handle_events false (changed_guard, (bridge_boot, demo_world)) =
      Some (tt, (g', (b', w'))) /\
    guard_regions g' = region_after (session changed_guard) demo_world <$> guard_regions changed_guard.
Proof.
  destruct (handle_events_total false (session changed_guard) (readable (session changed_guard)) changed_guard
              bridge_boot demo_world) as (g' & b' & w' & H1 & _ & _ & _ & _ & _ & H2).
  - apply bridge_boot_sink.
  - apply (one_remote_slot_readable _ demo_slot); [done| |done]. split; cbn; lia.
  - exact changed_guard_wf.
  - exists g', b', w'. split; [exact H1|].
    replace (npt_armed _ && _) with true in H2 by (vm_compute; reflexivity). exact (proj1 H2).
Defined.

Lemma protect_dynamic_registers_witness :
  exists x g' w', npt_guard_protect_dynamic 0x5000 8 true "telos" (small_guard, (bridge_boot, demo_world)) =
      Some (x, (g', (bridge_boot, w'))) /\ guard_wf demo_session g'.
Proof.
  destruct (protect_dynamic_registers demo_session (readable demo_session) 0x5000 8 true "telos"
              small_guard bridge_boot demo_world) as (x & g' & w' & H1 & H2 & _).
  - apply bridge_boot_sink.
  - apply demo_readable.
  - exact small_guard_wf.
  - lia.
  - lia.
  - lia.
  - done.
  - exists x, g', w'. exact (conj H1 H2).
Defined.

(** ** The registration server *)

Record wf_registration (r : heki_registration) : Prop := {
  wr_magic : is_u32 (hk_magic r);
  wr_gva : is_u64 (hk_gva r);
  wr_hsize : is_u32 (hk_size r);
  wr_crit : is_u8 (hk_is_critical r);
  wr_hname : length (hk_name r) = 32%nat;
}.

(** The packed 49-byte registration that a client sends is decoded to the
    same fields. *)
Theorem registration_roundtrip r :
  wf_registration r ->
  length (encode_registration r) = REGISTRATION_SIZE /\ decode_registration (encode_registration r) = r.
Proof.
  intros [H1 H2 H3 H4 H5]. destruct r as [m v z c n]. cbn in *. unfold encode_registration. cbn.
  split; [rewrite H5; reflexivity|].
  assert (forall k x, 0 <= x < 256 ^ Z.of_nat k -> le_decode (le_encode k x) = x) as Hd
    by (intros; by apply le_decode_encode).
  unfold decode_registration. f_equal.
  - apply (Hd 4%nat). ulia.
  - apply (Hd 8%nat). ulia.
  - apply (Hd 4%nat). ulia.
  - apply (Hd 1%nat). ulia.
  - change (take 32 (drop 17 _)) with (take 32 n). by rewrite take_ge by lia.
Qed.

Lemma registration_roundtrip_witness :
  decode_registration (encode_registration (Registration HEKI_MAGIC 0xffffffff82201000 64 1 (replicate 32 0)))
  = Registration HEKI_MAGIC 0xffffffff82201000 64 1 (replicate 32 0).
Proof.
  apply (registration_roundtrip (Registration HEKI_MAGIC 0xffffffff82201000 64 1 (replicate 32 0))).
  split; cbn; unfold HEKI_MAGIC; ulia || reflexivity.
Defined.

(** A nonce is never zero, so that a reply of 0 always means failure and no
    CPUID request can match an unset nonce: whatever the random source returns,
    drawing returns the active nonce, nonzero and of 32 bits, and keeps it for
    the session. *)
Theorem draw_nonce_nonzero {W} `{OS : HostOS W} (g : guard_state) (bw : bridge * W) :
  is_u32 (heki_active_nonce g) ->
  exists n g' bw', draw_nonce (g, bw) = Some (n, (g', bw')) /\ n <> 0 /\ is_u32 n /\
    heki_active_nonce g' = n /\ (heki_active_nonce g <> 0 -> n = heki_active_nonce g /\ g' = g) /\
    draw_nonce (g', bw') = Some (n, (g', bw')).
Proof.
  intros Hn. unfold draw_nonce, guard_get, gets, mbind, M_bind. cbn [fst].
  destruct (heki_active_nonce g =? 0) eqn:E; boolify.
  - unfold gmem, zoom, lift, guard_set, modify, mret, M_ret. cbn [fst snd].
    destruct (sys_rand bw.2) as [r w']. cbn [fst snd].
    set (n := if Z.lxor (u32 r) HEKI_MAGIC =? 0 then 1 else Z.lxor (u32 r) HEKI_MAGIC).
    assert (n <> 0 /\ is_u32 n) as [Hn0 Hn32].
    { subst n. destruct (Z.lxor (u32 r) HEKI_MAGIC =? 0) eqn:E2; boolify; [ulia|]. split; [done|].
      assert (is_u64 (Z.lxor (u32 r) HEKI_MAGIC)) by (apply lxor_u64; unfold HEKI_MAGIC; ulia).
      pose proof (Z.log2_lxor (u32 r) HEKI_MAGIC ltac:(ulia) ltac:(unfold HEKI_MAGIC; lia)) as Hlog.
      pose proof (Z.log2_le_mono (u32 r) 4294967295 ltac:(ulia)) as L1.
      change (Z.log2 4294967295) with 31 in L1. change (Z.log2 HEKI_MAGIC) with 30 in Hlog.
      unfold is_u32, is_u64 in *. split; [lia|]. change 4294967296 with (2 ^ 32).
      apply Z.log2_lt_pow2; lia. }
    eexists n, _, _. split; [reflexivity|]. cbn [heki_active_nonce with_nonce fst].
    rewrite (proj2 (Z.eqb_neq n 0)) by done. by split_and!.
  - eexists _, g, bw. split; [reflexivity|]. split_and!; try done.
    by rewrite (proj2 (Z.eqb_neq _ 0)).
Qed.

Lemma draw_nonce_nonzero_witness :
  exists n g' bw', draw_nonce (small_guard, (bridge_boot, mock_init)) = Some (n, (g', bw')) /\ n <> 0.
Proof.
  destruct (draw_nonce_nonzero small_guard (bridge_boot, mock_init)) as (n & g' & bw' & H1 & H2 & _).
  - cbn. ulia.
  - exists n, g', bw'. exact (conj H1 H2).
Defined.

(** Without the kernel's page tables a registration is acknowledged but
    nothing is protected: the client gets a nonzero nonce, as for success, while
    the region table, the session and guest memory stay as they were. *)
Theorem registration_without_pgd_unprotected {W} `{OS : HostOS W} (g : guard_state) (bw : bridge * W) reg :
  kernel_pgd (session g) = 0 -> terminated (hk_name reg) = true ->
  exists n g', heki_register reg (g, bw) = Some (n, (g', bw)) /\ n <> 0 /\
    guard_regions g' = guard_regions g /\ session g' = session g.
Proof.
  intros Hk Ht. unfold heki_register, guard_get, gets, mbind, M_bind. rewrite Ht. cbn [negb fst].
  rewrite Hk, Z.eqb_refl. cbn [fst]. destruct (heki_active_nonce g =? 0) eqn:E; boolify.
  - eexists MOCK_NONCE, _. split; [reflexivity|]. by split_and!.
  - eexists _, g. split; [reflexivity|]. by split_and!.
Qed.

Lemma registration_without_pgd_unprotected_witness :
  exists n g', heki_register (Registration HEKI_MAGIC 0 64 1 (replicate 32 0))
      (Guard (Session (-1) (-1) [] 0 [] 0 (-1) 0 0 false 0 0 0) [] false 0 0 [] 0 0 (-1) 0,
       (bridge_boot, mock_init)) = Some (n, (g', (bridge_boot, mock_init))) /\ n <> 0.
Proof.
  destruct (registration_without_pgd_unprotected
      (Guard (Session (-1) (-1) [] 0 [] 0 (-1) 0 0 false 0 0 0) [] false 0 0 [] 0 0 (-1) 0)
      (bridge_boot, mock_init) (Registration HEKI_MAGIC 0 64 1 (replicate 32 0)))
    as (n & g' & H1 & H2 & _).
  - reflexivity.
  - reflexivity.
  - exists n, g'. exact (conj H1 H2).
Defined.
