(* ===== verification/HekiProofs.v ===== *)
(** * Registrations while the daemon runs

    Totality of the registration server: whatever a client sends, as long as its name
    has a terminator, the poll ends with the guard in order.  A client that registers
    the reserved name sys_call_table renews the clean copy of the table. *)

From S2P Require Import Prelude CStrings HostOS MockHost VmiMemory VmiMemoryProofs PageWalk Bridge BridgeMemory.
From S2P Require Import NptRegions NpfHandler NptGuard HekiServer GuardProofs.
From stdpp Require Import prelude list strings.
From Stdlib Require Import ZArith Lia.
#[local] Open Scope string_scope.
#[local] Open Scope list_scope.
#[local] Open Scope Z_scope.

(** The clients send bytes, and a name with a terminator. *)
Definition clients_terminate (W : Type) `{OS : HostOS W} : Prop :=
  forall fd (w : W) bs w', sys_read fd (Z.of_nat REGISTRATION_SIZE) w = (SysOk bs, w') ->
    Forall is_u8 bs /\
    (length bs = REGISTRATION_SIZE -> terminated (hk_name (decode_registration bs)) = true).

(** Those of the executable host do. *)
Lemma mock_clients_terminate : clients_terminate mock.
Proof.
  intros fd w bs w' Hr. cbn in Hr. destruct (mk_clients w) as [|[c l] cs]; [done|].
  destruct (existsb _ _) eqn:E in Hr; cbn in Hr; [|done]. injection Hr as <- <-. split.
  - apply Forall_take, Forall_map, Forall_true. intros x. ulia.
  - intros Hl. unfold terminated, decode_registration. cbn [hk_name].
    rewrite take_ge; [exact E|]. rewrite length_drop, Hl. unfold REGISTRATION_SIZE. lia.
Qed.

Lemma wp_and {S A} (m : M S A) st (Q R : A -> S -> Prop) : wp m st Q -> wp m st R -> wp m st (fun a s => Q a s /\ R a s).
Proof. intros (a & s' & E & HQ) HR. exists a, s'. split; [done|]. split; [done|]. exact (wp_run _ _ _ _ _ HR E). Qed.

Section server.
Context {W : Type} `{OS : HostOS W} `{SM : !StableMemory W} `{QI : !QuietIO W}.
Context (s : vmi_session) (P : W -> Prop) `{PR : !PhysReads s P} `{PL : !PhysLive s P}.
Context (ok : bridge * W -> Prop) (ok_mem : forall bw, ok bw -> P bw.2).
Context (ok_same : forall b w w', same_mem w w' -> ok (b, w) -> ok (b, w')).
Abbreviation G := (guard_state * (bridge * W))%type.
Implicit Types (st : G).

(** What an operation of the server does to the daemon: the guard stays in order, only
    memory-neutral calls reach the host, no report is made or withdrawn. *)
Definition served st st' : Prop :=
  guard_wf s st'.1 /\ st'.2.1 = st.2.1 /\ same_mem st.2.2 st'.2.2.

Lemma served_trans a b c : served a b -> served b c -> served a c.
Proof. intros (A1 & A2 & A3) (B1 & B2 & B3). split_and!; [done|congruence|by transitivity b.2.2]. Qed.

Lemma served_ok st st' : ok st.2 -> served st st' -> ok st'.2.
Proof.
  destruct st as [g [b w]], st' as [g' [b' w']]. intros Hok (_ & H2 & H3). cbn in *. subst b'.
  by eapply ok_same.
Qed.

Lemma quiet_call {A} (f : W -> A * W) st (Q : A -> G -> Prop) :
  (forall w, same_mem w (f w).2) -> guard_wf s st.1 ->
  (forall st', served st st' -> Q (f st.2.2).1 st') -> wp (gmem (lift f)) st Q.
Proof.
  intros Hf Hwf HQ. destruct st as [g [b w]]. unfold gmem. apply wp_zoom. wp_step. apply HQ.
  split_and!; [done|done|apply Hf].
Qed.

(** The baseline of a region, the reserved one included. *)
Lemma snapshot_total i r st :
  ok st.2 -> guard_wf s st.1 -> guard_regions st.1 !! i = Some r ->
  wp (snapshot_guard_region i) st (fun _ st' =>
    served st st' /\ exists r', guard_regions st'.1 !! i = Some r').
Proof.
  intros Hok Hwf Hi. destruct st as [g [b w]]. cbn [fst snd] in *. pose proof (wg_session _ _ Hwf) as Hs.
  assert (wf_region r) as Hwr by (eapply Forall_lookup_1; [apply Hwf|done]).
  assert (forall h g', guard_wf s g' -> guard_regions g' = guard_regions g ->
    guard_wf s (with_regions (<[i := set_baseline_hash h r]> (guard_regions g')) g') /\
    exists r', (<[i := set_baseline_hash h r]> (guard_regions g')) !! i = Some r') as Hset.
  { intros h g' [H1 H2 H3 H4] E. split.
    - split; cbn; [done|by rewrite length_insert| |done]. apply Forall_insert; [done|]. by destruct Hwr.
    - eexists. apply list_lookup_insert_eq. rewrite E. by apply lookup_lt_Some in Hi. }
  unfold snapshot_guard_region. wp_step. apply wp_guard_get. cbn [fst snd id]. rewrite Hi.
  destruct (streq (r_name r) "sys_call_table").
  - unfold snapshot_syscall_table. wp_step. wp_step. apply wp_guard_get. cbn [fst snd id]. rewrite Hs. wp_step.
    unfold gmem. apply wp_zoom. cbn [fst snd].
    eapply wp_mono; [apply (read_physical_exact s P); [by apply (ok_mem (b, w))|rewrite (wg_table _ _ Hwf); lia]|].
    intros x w' (H1 & H2 & H3 & H4). cbn [fst snd].
    assert (forall t h, guard_wf s (with_snapshot_state x.2 t h g)) as Hsn.
    { intros t h. destruct Hwf as [W1 W2 W3 W4]. split; cbn; [done..|congruence]. }
    destruct x.1; cbn [negb]; (wp_step; apply wp_guard_set; wp_step; cbn [negb]).
    + wp_step. apply wp_guard_set. wp_step. cbn [fst snd].
      destruct (Hset (fnv1a64_update fnv1a64_init x.2) _ (Hsn true (fnv1a64_update fnv1a64_init x.2)) eq_refl) as [A B].
      split; [split_and!; [exact A|done|done]|exact B].
    + wp_step. cbn [fst snd]. split; [split_and!; [apply Hsn|done|done]|by exists r].
  - rewrite Hs. wp_step. eapply wp_mono; [apply (hash_region_exact s P); [by apply (ok_mem (b, w))|..]; destruct Hwr; ulia|].
    intros o [g2 [b2 w2]] [[Q1 Q2 Q3 Q4] ->]. cbn in Q1, Q2, Q3, Q4. subst g2 b2. cbn [fst snd].
    destruct (phys_bytes s w _ _) as [bs|]; cbn [fmap option_fmap option_map].
    + wp_step. apply wp_guard_set. wp_step. cbn [fst snd].
      destruct (Hset (fnv1a64_update fnv1a64_init bs) g Hwf eq_refl) as [A B]. by split; [split_and!|].
    + wp_step. cbn [fst snd]. split; [by split_and!|by exists r].
Qed.

(** A registration at run time, for any name. *)
Lemma protect_total gpa size crit name st :
  ok st.2 -> guard_wf s st.1 -> 0 <= gpa -> 0 <= size -> gpa + size + 4096 <= 18446744073709551616 ->
  wp (npt_guard_protect_dynamic gpa size crit name) st (fun _ st' => served st st').
Proof.
  intros Hok Hwf Hg Hsz He. destruct st as [g bw]. unfold npt_guard_protect_dynamic.
  destruct (add_region_spec name gpa size crit g bw) as (x & g1 & Ha & Hx).
  wp_step. exists x, (g1, bw). split; [exact Ha|]. destruct x; cbn [negb]; cycle 1.
  { wp_step. destruct Hx as [-> _]. by split_and!. }
  destruct Hx as (E1 & E2 & E3 & Hnz & Hl).
  assert (guard_wf s g1) as Hwf1 by (eapply (guard_wf_push s g g1 name gpa size crit 0 false); (done || lia)).
  wp_step. apply wp_guard_get. cbn [fst]. set (n := (length (guard_regions g1) - 1)%nat).
  destruct (lookup_lt_is_Some_2 (guard_regions g1) n) as [r Hr]; [subst n; rewrite E1, length_app; cbn; lia|].
  wp_step. eapply wp_mono; [by apply (snapshot_total n r)|]. intros done2 st2 [S2 [r' Hr']].
  destruct S2 as (W2 & B2 & M2). destruct done2; cbn [negb]; [|by wp_step].
  wp_step. apply wp_guard_get. unfold id. wp_step; [|by wp_step].
  rewrite Hr'. wp_step. rewrite (wg_session _ _ W2). destruct st2 as [g2 [b2 w2]]. cbn [fst snd] in *.
  apply reprotect_spec; [by eapply Forall_lookup_1; [apply (wg_regions _ _ W2)|]|]. cbn [fst snd]. intros w3 M3.
  wp_step. split_and!; [done|done|by transitivity w2].
Qed.

Lemma nonce_total st : guard_wf s st.1 -> wp draw_nonce st (fun _ st' => served st st').
Proof.
  intros Hwf. unfold draw_nonce. wp_step. apply wp_guard_get. wp_step; [|by wp_step].
  wp_step. apply quiet_call; [apply io_rand|done|]. intros st1 S1. wp_step. apply wp_guard_set. wp_step.
  destruct S1 as (W1 & B1 & M1). split_and!; [by destruct W1|done|done].
Qed.

(** ** The reserved name *)

(** A baseline under the reserved name takes the table as it is now for clean. *)
Lemma snapshot_reserved i r st cur :
  ok st.2 -> guard_wf s st.1 -> guard_regions st.1 !! i = Some r -> r_name r = "sys_call_table" ->
  phys_bytes s st.2.2 (syscall_table_gpa s) 4096 = Some cur ->
  wp (snapshot_guard_region i) st (fun x st' => x = true /\ clean_syscall_table st'.1 = cur /\
    guard_regions st'.1 = <[i := set_baseline_hash (fnv1a64_update fnv1a64_init cur) r]> (guard_regions st.1)).
Proof.
  intros Hok Hwf Hi Hn Hc. destruct st as [g [b w]]. cbn [fst snd] in *.
  unfold snapshot_guard_region. wp_step. apply wp_guard_get. cbn [fst snd id]. rewrite Hi, Hn.
  change (streq "sys_call_table" "sys_call_table") with true. unfold snapshot_syscall_table. wp_step. wp_step. apply wp_guard_get. cbn [fst snd id].
  rewrite (wg_session _ _ Hwf). wp_step. unfold gmem. apply wp_zoom. cbn [fst snd].
  eapply wp_mono; [apply (read_physical_exact s P); [by apply (ok_mem (b, w))|rewrite (wg_table _ _ Hwf); lia]|].
  intros x w' (H1 & H2 & H3 & H4). rewrite (wg_table _ _ Hwf), Hc in H4. subst x. cbn [fst snd negb].
  wp_step. apply wp_guard_set. wp_step. cbn [negb]. wp_step. apply wp_guard_set. wp_step. done.
Qed.

(** With such a copy the report of the differences finds none. *)
Lemma diffs_silent have_libbpf st cur :
  ok st.2 -> session st.1 = s -> clean_syscall_table st.1 = cur ->
  phys_bytes s st.2.2 (syscall_table_gpa s) 4096 = Some cur ->
  wp (report_syscall_table_diffs have_libbpf) st (fun _ st' => st'.1 = st.1 /\ st'.2.1 = st.2.1).
Proof.
  intros Hok Hs Hcl Hc. destruct st as [g [b w]]. cbn [fst snd] in *. unfold report_syscall_table_diffs.
  wp_step. apply wp_guard_get. cbn [fst snd id]. rewrite Hs, Hcl. cbv zeta. wp_step; [by wp_step|].
  wp_step. apply (read_table_spec s P ok ok_mem); [done|]. cbn [fst snd]. rewrite Hc.
  intros x [g1 [b1 w1]] [Q1 Q2 _ _] ->. cbn in Q1, Q2. subst g1 b1. cbn [fst snd negb].
  generalize (words 512 cur). intros l. generalize (seq 0 512). intros js.
  revert l. induction js as [|j js IH]; intros l; [by cbn; wp_step|]. destruct l as [|x l]; [by cbn; wp_step|].
  cbn [zip zip_with forM]. wp_step. rewrite Z.eqb_refl. wp_step. apply IH.
Qed.

(** The check of the table's region makes no alert then, whatever its baseline. *)
Lemma table_check_silent have_libbpf i r st cur :
  ok st.2 -> guard_wf s st.1 -> guard_regions st.1 !! i = Some r -> r_name r = "sys_call_table" ->
  clean_syscall_table st.1 = cur -> phys_bytes s st.2.2 (syscall_table_gpa s) 4096 = Some cur ->
  wp (check_region have_libbpf i) st (fun _ st' => st'.2.1 = st.2.1).
Proof.
  intros Hok Hwf Hi Hn Hcl Hc. destruct st as [g [b w]]. cbn [fst snd] in *. pose proof (wg_session _ _ Hwf) as Hs.
  assert (wf_region r) as Hwr by (eapply Forall_lookup_1; [apply Hwf|done]).
  unfold check_region. wp_step. apply wp_guard_get. cbn [fst snd id]. rewrite Hi, Hs, Hn. wp_step; [by wp_step|].
  wp_step. eapply wp_mono; [apply (hash_region_exact s P); [by apply (ok_mem (b, w))|..]; destruct Hwr; ulia|].
  intros o [g1 [b1 w1]] [[Q1 Q2 Q3 Q4] ->]. cbn in Q1, Q2, Q3, Q4. subst g1 b1. cbn [fst snd].
  destruct (_ <$> _) as [h|]; [|by wp_step].
  cbv zeta. destruct (h =? _); [by apply wp_guard_set|]. destruct (last_alert_hash r =? h); [by wp_step|].
  wp_step. apply wp_guard_set.
  wp_step. change (streq "sys_call_table" "sys_call_table") with true. cbn iota.
  eapply wp_mono; [apply (diffs_silent have_libbpf _ cur); cbn [fst snd session clean_syscall_table with_regions]; [by eapply ok_same|done|done|]|].
  { by rewrite (phys_bytes_same s w). }
  intros [] st2 [E1 E2]. apply reprotect_spec; [done|]. by intros.
Qed.

(** A registration under that name. *)
Lemma protect_reserved gpa size crit name st i r cur :
  ok st.2 -> guard_wf s st.1 -> 0 <= gpa -> 0 < size -> gpa + size + 4096 <= 18446744073709551616 ->
  name = "sys_call_table" -> (length (guard_regions st.1) < MAX_GUARD_REGIONS)%nat ->
  guard_regions st.1 !! i = Some r -> phys_bytes s st.2.2 (syscall_table_gpa s) 4096 = Some cur ->
  wp (npt_guard_protect_dynamic gpa size crit name) st (fun _ st' =>
    guard_wf s st'.1 /\ clean_syscall_table st'.1 = cur /\ guard_regions st'.1 !! i = Some r).
Proof.
  intros Hok Hwf Hg Hsz He -> Hl Hi Hc. destruct st as [g [b w]]. cbn [fst snd] in *. unfold npt_guard_protect_dynamic.
  destruct (add_region_spec "sys_call_table" gpa size crit g (b, w)) as (x & g1 & Ha & Hx).
  wp_step. exists x, (g1, (b, w)). split; [exact Ha|]. destruct x; [|lia]. cbn [negb].
  destruct Hx as (E1 & E2 & E3 & _ & _).
  assert (guard_wf s g1) as Hwf1 by (eapply (guard_wf_push s g g1 "sys_call_table" gpa size crit 0 false); (done || lia)).
  set (R := Region (strncpyz REGION_NAME_MAX "sys_call_table") gpa size crit 0 false 0) in *.
  wp_step. apply wp_guard_get. cbn [fst].
  assert (length (guard_regions g1) - 1 = length (guard_regions g))%nat as Hn by (rewrite E1, length_app; cbn; lia).
  rewrite Hn. assert (guard_regions g1 !! length (guard_regions g) = Some R) as HR by (rewrite E1; by apply list_lookup_middle).
  wp_step. eapply wp_mono; [apply wp_and; [by apply (snapshot_total _ R)|by apply (snapshot_reserved _ R _ cur)]|].
  intros x st2 (((W2 & _ & _) & [r' Hr']) & -> & C2 & R2). cbn [negb fst snd] in *.
  assert (guard_regions st2.1 !! i = Some r) as Hi2.
  { pose proof (lookup_lt_Some _ _ _ Hi). rewrite R2, E1, list_lookup_insert_ne by lia. by rewrite lookup_app_l. }
  wp_step. apply wp_guard_get. unfold id. wp_step; [|by wp_step]. rewrite Hr'. wp_step. rewrite (wg_session _ _ W2).
  apply reprotect_spec; [by eapply Forall_lookup_1; [apply (wg_regions _ _ W2)|]|]. intros w3 M3. wp_step. done.
Qed.

Lemma nonce_keeps st : wp draw_nonce st (fun _ st' =>
  clean_syscall_table st'.1 = clean_syscall_table st.1 /\ guard_regions st'.1 = guard_regions st.1).
Proof.
  unfold draw_nonce. wp_step. apply wp_guard_get. wp_step; [|by wp_step].
  wp_step. unfold gmem. apply wp_zoom. wp_step. wp_step. apply wp_guard_set. by wp_step.
Qed.

(** The registration proper: the translation puts the address below 2^52 and the size
    has 32 bits, so no sum leaves the address space. *)
Lemma register_total reg st :
  ok st.2 -> guard_wf s st.1 -> terminated (hk_name reg) = true -> is_u32 (hk_size reg) ->
  wp (heki_register reg) st (fun _ st' => served st st').
Proof.
  intros Hok Hwf Ht Hsz. unfold heki_register. rewrite Ht. cbn [negb].
  wp_step. apply wp_guard_get. rewrite (wg_session _ _ Hwf). wp_step.
  - wp_step. apply wp_guard_get. wp_step. wp_step.
    + apply wp_guard_set. apply wp_guard_get. split_and!; [by destruct Hwf|done|done].
    + wp_step. apply wp_guard_get. by split_and!.
  - wp_step. destruct st as [g [b w]]. unfold gmem at 1. apply wp_zoom. cbn [fst snd] in *.
    eapply wp_mono; [by apply (gva_to_gpa_walk s P), (ok_mem (b, w))|]. intros t w1 (P1 & M1 & ->).
    assert (served (g, (b, w)) (g, (b, w1))) as S1 by by split_and!.
    destruct (walk _ _ _ _) as [gpa|] eqn:Hw; [|by wp_step].
    apply walk_offset in Hw as [_ Hb]; [|done]. change (2 ^ 52) with 4503599627370496 in Hb.
    wp_step. eapply wp_mono; [apply protect_total; [by apply (served_ok (g, (b, w)) (g, (b, w1)) Hok S1)|done|ulia..]|].
    intros done2 st2 S2. pose proof (served_trans _ _ _ S1 S2) as S3.
    destruct done2; [|by wp_step]. eapply wp_mono; [apply nonce_total, S2|]. intros n st4 S4.
    exact (served_trans _ _ _ S3 S4).
Qed.

Lemma intercept_total eax ecx cr3 st :
  guard_wf s st.1 -> wp (npf_handler_cpuid_intercept eax ecx cr3) st (fun _ st' => served st st').
Proof.
  intros Hwf. unfold npf_handler_cpuid_intercept. wp_step. apply wp_guard_get. repeat case_match; try by wp_step.
  apply wp_guard_set. split_and!; [by destruct Hwf|done|done].
Qed.

Lemma decode_size bs : Forall is_u8 bs -> is_u32 (hk_size (decode_registration bs)).
Proof.
  intros Hb. cbn. pose proof (le_decode_bound (take 4 (drop 12 bs)) (Forall_take _ _ _ (Forall_drop _ _ _ Hb))) as H.
  assert (256 ^ Z.of_nat (length (take 4 (drop 12 bs))) <= 256 ^ 4)
    by (apply Z.pow_le_mono_r; [lia|]; rewrite length_take; lia).
  change (256 ^ 4) with 4294967296 in *. ulia.
Qed.

Lemma respond_total bs st :
  ok st.2 -> guard_wf s st.1 -> Forall is_u8 bs ->
  (length bs = REGISTRATION_SIZE -> terminated (hk_name (decode_registration bs)) = true) ->
  wp (heki_respond bs) st (fun _ st' => served st st').
Proof.
  intros Hok Hwf Hb Ht. unfold heki_respond. cbv zeta.
  destruct ((length bs =? REGISTRATION_SIZE)%nat) eqn:El; cbn [andb]; [|by wp_step].
  apply Nat.eqb_eq in El. wp_step; [apply register_total; auto using decode_size|].
  wp_step; [|by wp_step]. wp_step. eapply wp_mono; [by apply intercept_total|]. intros [] st1 S1. by wp_step.
Qed.

(** One poll of the server. *)
Lemma poll_total st :
  ok st.2 -> guard_wf s st.1 -> heki_listen_fd st.1 < 0 \/ clients_terminate W ->
  wp heki_server_poll st (fun _ st' => served st st').
Proof.
  intros Hok Hwf Hc. unfold heki_server_poll. wp_step. apply wp_guard_get. wp_step; [by wp_step|].
  boolify. destruct Hc as [?|Hc]; [lia|].
  wp_step. apply quiet_call; [apply io_accept|done|]. intros st1 S1. destruct (sys_accept _ _).1 as [fd|e]; [|by wp_step].
  pose proof (served_ok _ _ Hok S1) as Hok1. wp_step. unfold handle_heki_client.
  wp_step. apply quiet_call; [apply io_read|apply S1|]. intros st2 S2. pose proof (served_ok _ _ Hok1 S2) as Hok2.
  wp_step. apply (wp_mono _ _ (fun _ st' => served st2 st')).
  { destruct (sys_read fd _ _) as [[bs|e] w'] eqn:Er; cbn [fst]; [|wp_step; split_and!; [apply S2|done|done]].
    apply Hc in Er as [H1 H2]. apply respond_total; [done|apply S2|done|done]. }
  intros x st3 S3. wp_step. apply quiet_call; [apply io_write|apply S3|]. intros st4 S4.
  wp_step. unfold gmem. apply wp_zoom. wp_step. wp_step. wp_step.
  pose proof (served_trans _ _ _ S1 (served_trans _ _ _ S2 (served_trans _ _ _ S3 S4))) as (W5 & B5 & M5).
  split_and!; [done|done|]. transitivity st4.2.2; [done|]. apply io_close.
Qed.

(** Any client can have a tampered system call table taken for clean: it registers any
    mapped address under the reserved name.  The registration renews the clean copy from
    the table as it is, and the next check of the table's own region makes no alert. *)
Theorem reserved_name_hides_tampering have_libbpf reg i r st cur gpa :
  ok st.2 -> guard_wf s st.1 -> terminated (hk_name reg) = true -> is_u32 (hk_size reg) ->
  kernel_pgd s <> 0 -> cstr_of_bytes (hk_name reg) = "sys_call_table" -> hk_size reg <> 0 ->
  (length (guard_regions st.1) < MAX_GUARD_REGIONS)%nat ->
  walk (phys_u64 s st.2.2) 4 (frame (kernel_pgd s) 12) (hk_gva reg) = Some gpa ->
  guard_regions st.1 !! i = Some r -> r_name r = "sys_call_table" ->
  phys_bytes s st.2.2 (syscall_table_gpa s) 4096 = Some cur ->
  wp (_ ← heki_register reg; check_region have_libbpf i) st (fun _ st' => st'.2.1 = st.2.1).
Proof.
  intros Hok Hwf Ht Hsz Hk Hnm Hnz Hl Hw Hi Hn Hc. wp_step.
  apply (wp_mono _ _ (fun _ st' => served st st' /\ clean_syscall_table st'.1 = cur /\ guard_regions st'.1 !! i = Some r)).
  - apply wp_and; [by apply register_total|]. unfold heki_register. rewrite Ht. cbn [negb].
    wp_step. apply wp_guard_get. rewrite (wg_session _ _ Hwf), (proj2 (Z.eqb_neq _ _) Hk).
    wp_step. destruct st as [g [b w]]. unfold gmem at 1. apply wp_zoom. cbn [fst snd] in *.
    eapply wp_mono; [by apply (gva_to_gpa_walk s P), (ok_mem (b, w))|]. intros t w1 (P1 & M1 & ->). rewrite Hw.
    apply walk_offset in Hw as [_ Hb]; [|done]. change (2 ^ 52) with 4503599627370496 in Hb.
    wp_step. eapply wp_mono; [apply (protect_reserved _ _ _ _ (g, (b, w1)) i r cur); cbn [fst snd]; [by eapply ok_same|done|ulia..|done|done|done|]|].
    { by rewrite (phys_bytes_same s w). }
    intros x st2 (S1 & S2 & S3). destruct x; [|by wp_step].
    eapply wp_mono; [by apply (nonce_keeps st2)|]. intros n st3 (E1 & E2). by rewrite E1, E2.
  - intros n st' (S & S2 & S3). destruct (S) as (W1 & B1 & M1). rewrite <- B1.
    apply (table_check_silent have_libbpf i r st' cur); [by eapply served_ok|done..|].
    by rewrite (phys_bytes_same s st.2.2).
Qed.
End server.
