(* ===== verification/KvmiSetup.v ===== *)
(** * The introspection session (kvmi_setup.c)

    Finding the QEMU process, duplicating its KVM descriptors, the QMP
    handshake, the libkvmi runtime with its heartbeat, and the memory map that
    is read from /proc/<pid>/maps.

    The session of [VmiMemory] and the libkvmi runtime (whose address is
    [session->kvmi_runtime]) are separate values here; a runtime that exists
    has all its function pointers, because its constructor fails otherwise.
    The callbacks of libkvmi run on a thread of that library: the calls that
    arrive while the daemon sleeps are delivered at the end of the sleep. *)

From S2P Require Import Prelude CStrings HostOS VmiMemory.
From stdpp Require Import prelude strings list.
From Stdlib Require Import ZArith Lia Ascii.
#[local] Open Scope string_scope.
#[local] Open Scope list_scope.
#[local] Open Scope Z_scope.

Definition VMI_MAX_VCPUS : nat := 64.
Definition VMI_MAX_MEMSLOTS : nat := 256.
Definition QMP_REPLY_MAX : Z := 4096.
Definition MIN_RAM_MAPPING_SIZE : Z := 2 * 1024 * 1024.
Definition KVMI_CONNECT_WAIT_STEPS : nat := 20.
Definition KVMI_CONNECT_WAIT_US : Z := 100000.
Definition KVMI_HEARTBEAT_MAX_MISSES : Z := 3.
Definition KVM_API_VERSION : Z := 12.
(** the size of [sun_path] in [struct sockaddr_un] *)
Definition SUN_PATH_SIZE : nat := 108.

(** A callback that libkvmi makes: the new domain, or the name in the
    handshake. *)
Inductive kvmi_callback :=
| AcceptGuest (dom : Z)
| Handshake (guest_name : string).

(** The calls of this file that the other components do not make. *)
Class VmHost (W : Type) := {
  readdir_all : string -> W -> option (list string);
  readlink : string -> W -> option string;
  read_file : string -> W -> option string;
  access_f : string -> W -> bool;
  unix_connect : Z -> string -> W -> sysret unit * W;
  kvm_get_api_version : Z -> W -> Z;
  kvm_get_sregs_cr3 : Z -> W -> option Z;
  dlopen : string -> W -> Z * W;
  dlsym : Z -> string -> W -> bool;
  dlclose : Z -> W -> W;
  lib_init_unix_socket : string -> W -> Z * W;
  lib_uninit : Z -> W -> W;
  lib_domain_is_connected : Z -> W -> bool * W;
  lib_get_version : Z -> W -> option Z * W;
  lib_memory_mapping : Z -> W -> Z * W;
  lib_get_vcpu_count : Z -> W -> option Z * W;
  lib_callbacks : W -> list kvmi_callback * W;
}.

(** ** Text *)

(** [%d] *)
Definition fmt_d (n : Z) : string :=
  if n <? 0 then String "-" (fmt_u (- n)) else fmt_u n.

(** [snprintf(buf, sizeof(buf), ...)] followed by the check of its result. *)
Definition snprintf_fits (size : nat) (s : string) : option string :=
  if (0 <? strlen s)%nat && (strlen s <? size)%nat then Some s else None.

(** [dst] after [copy_cstr(dst, dst_sz, src)] with [dst_sz] positive. *)
Definition copy_cstr (dst_sz : nat) (src : option string) : string :=
  match src with
  | None => EmptyString
  | Some s => strncpyz dst_sz s
  end.

Definition is_digit (c : ascii) : bool :=
  let n := Z.of_nat (nat_of_ascii c) in (48 <=? n) && (n <=? 57).

Definition is_numeric_name (s : string) : bool :=
  match s with
  | EmptyString => false
  | _ => str_forall is_digit s
  end.

(** [atoi]: the low 32 bits of the saturating [strtol], as an [int]. *)
Definition atoi (s : string) : Z :=
  let s1 := skip_space s in
  let '(neg, s2) := match s1 with
                    | String "-" s' => (true, s')
                    | String "+" s' => (false, s')
                    | _ => (false, s1)
                    end in
  let v := (scan_digits 10 s2 0 false).1 in
  let l := if neg : bool then Z.max (- 9223372036854775808) (- v)
           else Z.min 9223372036854775807 v in
  let r := u32 l in
  if r <? 2147483648 then r else r - 4294967296.

(** The tokens that repeated calls of [strtok_r(.., " ", ..)] return. *)
Fixpoint tokens (s : string) : list string :=
  match s with
  | EmptyString => []
  | String c s' =>
      if Ascii.eqb c " " then tokens s'
      else match s' with
           | String c' _ =>
               if Ascii.eqb c' " " then String c EmptyString :: tokens s'
               else match tokens s' with
                    | t :: ts => String c t :: ts
                    | [] => [String c EmptyString]
                    end
           | EmptyString => [String c EmptyString]
           end
  end.

(** The first [strcspn(s, c)] characters of [s]. *)
Fixpoint until_char (c : ascii) (s : string) : string :=
  match s with
  | EmptyString => EmptyString
  | String d s' => if Ascii.eqb c d then EmptyString else String d (until_char c s')
  end.

Definition string_drop (n : nat) (s : string) : string := String.substring n (strlen s - n) s.

Definition parse_unix_socket_spec (spec : string) (path_sz : nat) : option string :=
  if negb (strneq 5 spec "unix:") then None
  else
    let path := until_char "," (string_drop 5 spec) in
    let len := strlen path in
    if (len =? 0)%nat || (path_sz <=? len)%nat || (SUN_PATH_SIZE <=? len)%nat then None
    else Some path.

Definition parse_kvmi_chardev_spec (spec : string) (path_sz : nat) : option string :=
  match strstr spec "path=" with
  | None => None
  | Some at_path =>
      let path_pos := string_drop 5 at_path in
      let path := until_char "," path_pos in
      let len := strlen path in
      if (len =? 0)%nat || (path_sz <=? len)%nat || (SUN_PATH_SIZE <=? len)%nat then None
      else if negb (contains spec "kvmi") && negb (contains path_pos "kvmi") then None
      else Some path
  end.

(** The loop over the command line: [opt] and its argument, or [opt=] in one
    token; an argument that does not parse is skipped. *)
Fixpoint scan_options (opt : string) (parse : string -> option string) (toks : list string)
  : option string :=
  match toks with
  | [] => None
  | tok :: rest =>
      if streq tok opt then
        match rest with
        | [] => None
        | arg :: rest' =>
            match parse arg with
            | Some path => Some path
            | None => scan_options opt parse rest'
            end
        end
      else if strneq (strlen opt + 1) tok (opt +:+ "=") then
        match parse (string_drop (strlen opt + 1) tok) with
        | Some path => Some path
        | None => scan_options opt parse rest
        end
      else scan_options opt parse rest
  end.

Definition extract_qmp_path_from_cmdline (cmdline : string) (path_sz : nat) : option string :=
  scan_options "-qmp" (fun spec => parse_unix_socket_spec spec path_sz)
    (tokens (copy_cstr 4096 (Some cmdline))).

Definition extract_kvmi_path_from_cmdline (cmdline : string) (path_sz : nat) : option string :=
  scan_options "-chardev" (fun spec => parse_kvmi_chardev_spec spec path_sz)
    (tokens (copy_cstr 4096 (Some cmdline))).

(** ** The memory map *)

Definition is_candidate_ram_map (perms path : string) (span : Z) : bool :=
  match perms with
  | String "r" (String "w" _) =>
      if span <? MIN_RAM_MAPPING_SIZE then false
      else if streq path EmptyString then false
      else if contains path "[stack]" || contains path "[heap]" || contains path "[vdso]" ||
              contains path "[vvar]" || contains path "[vsyscall]" then false
      else contains path "pc.ram" || contains path "memory-backend" ||
           contains path "memfd:" || contains path "/dev/zero"
  | _ => false
  end.

Definition newline : ascii := ascii_of_nat 10.
Definition tab : ascii := ascii_of_nat 9.

(** The buffers that repeated [fgets(line, size + 1, fp)] return; [room] is the
    space left in the current one. *)
Fixpoint fgets_lines (size : nat) (s : string) (room : nat) : list string :=
  match s with
  | EmptyString => []
  | String c s' =>
      if Ascii.eqb c newline || (room <=? 1)%nat then String c EmptyString :: fgets_lines size s' size
      else match fgets_lines size s' (room - 1) with
           | l :: ls => String c l :: ls
           | [] => [String c EmptyString]
           end
  end.

(** The digits at the head of [s]: their value, whether there is one, the rest. *)
Fixpoint take_digits (base : Z) (s : string) (acc : Z) (seen : bool) : Z * bool * string :=
  match s with
  | String c s' =>
      let d := digit_value c in
      if d <? base then take_digits base s' (acc * base + d) true else (acc, seen, s)
  | EmptyString => (acc, seen, s)
  end.

(** [%llx]: white space, a sign, [0x], digits; too large a value saturates. *)
Definition scan_hex (s : string) : option (Z * string) :=
  let s1 := skip_space s in
  let '(neg, s2) := match s1 with
                    | String "-" s' => (true, s')
                    | String "+" s' => (false, s')
                    | _ => (false, s1)
                    end in
  let s3 := match s2 with
            | String "0" (String "x" s') => s'
            | String "0" (String "X" s') => s'
            | _ => s2
            end in
  match take_digits 16 s3 0 false with
  | (_, false, _) => None
  | (v, true, rest) =>
      Some (if v <? 18446744073709551616 then (if neg : bool then u64 (- v) else v)
            else 18446744073709551615, rest)
  end.

(** At most [k] characters that are not white space, and the rest. *)
Fixpoint take_word (k : nat) (s : string) : string * string :=
  match k, s with
  | S k', String c s' =>
      if is_space c then (EmptyString, s)
      else let '(w, rest) := take_word k' s' in (String c w, rest)
  | _, _ => (EmptyString, s)
  end.

(** [%<k>s] *)
Definition scan_word (k : nat) (s : string) : option (string * string) :=
  match take_word k (skip_space s) with
  | (EmptyString, _) => None
  | (w, rest) => Some (w, rest)
  end.

Fixpoint skip_blanks (s : string) : string :=
  match s with
  | String c s' => if Ascii.eqb c " " || Ascii.eqb c tab then skip_blanks s' else s
  | EmptyString => s
  end.

(** The text after [%*s %*s %*s %n], or nothing when [%n] is not reached. *)
Definition after_fields (s : string) : string :=
  match scan_word (strlen s) s with
  | Some (_, s1) =>
      match scan_word (strlen s1) s1 with
      | Some (_, s2) =>
          match scan_word (strlen s2) s2 with
          | Some (_, s3) => skip_space s3
          | None => EmptyString
          end
      | None => EmptyString
      end
  | None => EmptyString
  end.

(** [sscanf(line, "%llx-%llx %4s %*s %*s %*s %n", ...)] with at least three
    conversions, and the path that is cut from the rest of the line. *)
Definition scan_maps_line (line : string) : option (Z * Z * string * string) :=
  match scan_hex line with
  | Some (start, String "-" s1) =>
      match scan_hex s1 with
      | Some (end_, s2) =>
          match scan_word 4 s2 with
          | Some (perms, s3) =>
              let rest := skip_blanks (after_fields s3) in
              Some (start, end_, perms, String.substring 0 1023 (until_char newline rest))
          | None => None
          end
      | None => None
      end
  | _ => None
  end.

(** The slot that a mapping of [span] bytes at [start] becomes. *)
Definition memslot_of (next_gpa : Z) (count : nat) (start span : Z) : vmi_memslot :=
  Memslot next_gpa span start (u32 (Z.of_nat count)) VMI_MEMSLOT_F_REMOTE_PROCESS.

Fixpoint maps_loop (lines : list string) (slots : list vmi_memslot) (next_gpa : Z)
  : list vmi_memslot :=
  match lines with
  | [] => slots
  | line :: rest =>
      if (length slots <? VMI_MAX_MEMSLOTS)%nat then
        match scan_maps_line line with
        | None => maps_loop rest slots next_gpa
        | Some (start, end_, perms, path) =>
            if end_ <=? start then maps_loop rest slots next_gpa
            else
              let span := u64 (end_ - start) in
              if negb (is_candidate_ram_map perms path span) then maps_loop rest slots next_gpa
              else if 18446744073709551615 - next_gpa <? span then slots
              else maps_loop rest (slots ++ [memslot_of next_gpa (length slots) start span])
                     (u64 (next_gpa + span))
        end
      else slots
  end.

(** ** The session *)

Definition with_memslots (m : list vmi_memslot) (s : vmi_session) : vmi_session :=
  Session (kvm_fd s) (vm_fd s) (vcpu_fds s) (nr_vcpus s) m (qemu_pid s) (control_fd s)
    (syscall_table_gpa s) (syscall_table_gva s) (npt_armed s) (kaslr_offset s)
    (init_task_addr s) (kernel_pgd s).
Definition with_vcpus (n : Z) (s : vmi_session) : vmi_session :=
  Session (kvm_fd s) (vm_fd s) (vcpu_fds s) n (memslots s) (qemu_pid s) (control_fd s)
    (syscall_table_gpa s) (syscall_table_gva s) (npt_armed s) (kaslr_offset s)
    (init_task_addr s) (kernel_pgd s).
Definition with_kernel_pgd (pgd : Z) (s : vmi_session) : vmi_session :=
  Session (kvm_fd s) (vm_fd s) (vcpu_fds s) (nr_vcpus s) (memslots s) (qemu_pid s) (control_fd s)
    (syscall_table_gpa s) (syscall_table_gva s) (npt_armed s) (kaslr_offset s)
    (init_task_addr s) pgd.

(** The state of the libkvmi connection; a null pointer is 0. *)
Record kvmi_runtime := Runtime {
  lib_handle : Z;
  listener_ctx : Z;
  rt_dom : Z;
  pending_dom : Z;
  pending_handshake : bool;
  missed_heartbeats : Z;
  rt_vm_name : string;
  rt_socket_path : string;
}.

Record kvmi_introspector2qemu := I2Q { i2q_struct_size : Z; i2q_cookie_hash : list Z }.

Definition kvmi_accept_cb (new_dom : Z) (r : kvmi_runtime) : kvmi_runtime :=
  Runtime (lib_handle r) (listener_ctx r) (rt_dom r) new_dom (pending_handshake r)
    (missed_heartbeats r) (rt_vm_name r) (rt_socket_path r).

(** A name that does not match is only reported on stderr. *)
Definition kvmi_handshake_cb (guest_name : string) (r : kvmi_runtime)
  : kvmi_introspector2qemu * kvmi_runtime :=
  (I2Q 24 (replicate 20 0),
   Runtime (lib_handle r) (listener_ctx r) (rt_dom r) (pending_dom r) true
    (missed_heartbeats r) (rt_vm_name r) (rt_socket_path r)).

Definition deliver (cb : kvmi_callback) (r : kvmi_runtime) : kvmi_runtime :=
  match cb with
  | AcceptGuest d => kvmi_accept_cb d r
  | Handshake n => (kvmi_handshake_cb n r).2
  end.

Definition deliver_all (cbs : list kvmi_callback) (r : kvmi_runtime) : kvmi_runtime :=
  fold_left (fun r cb => deliver cb r) cbs r.

Definition kvmi_symbols : list string :=
  ["kvmi_init_unix_socket"; "kvmi_uninit"; "kvmi_domain_is_connected"; "kvmi_get_version";
   "kvmi_memory_mapping"; "kvmi_get_vcpu_count"].

Definition with_listener (ctx : Z) (r : kvmi_runtime) : kvmi_runtime :=
  Runtime (lib_handle r) ctx (rt_dom r) (pending_dom r) (pending_handshake r)
    (missed_heartbeats r) (rt_vm_name r) (rt_socket_path r).
Definition with_misses (n : Z) (r : kvmi_runtime) : kvmi_runtime :=
  Runtime (lib_handle r) (listener_ctx r) (rt_dom r) (pending_dom r) (pending_handshake r)
    n (rt_vm_name r) (rt_socket_path r).

(** The fields that a new connection attempt resets. *)
Definition reset_pending (vm_name : string) (r : kvmi_runtime) : kvmi_runtime :=
  Runtime (lib_handle r) (listener_ctx r) 0 0 false (missed_heartbeats r)
    (copy_cstr 64 (Some vm_name)) (rt_socket_path r).

(** The fields that a completed handshake sets. *)
Definition adopt_pending (socket_path : string) (r : kvmi_runtime) : kvmi_runtime :=
  Runtime (lib_handle r) (listener_ctx r) (pending_dom r) (pending_dom r) (pending_handshake r) 0
    (rt_vm_name r) (copy_cstr SUN_PATH_SIZE (Some socket_path)).

Definition connected (r : kvmi_runtime) : bool := negb (pending_dom r =? 0) && pending_handshake r.

Section setup.
Context {W : Type} `{OS : HostOS W} `{VH : !VmHost W}.

(** *** /proc *)

Definition read_pid_cmdline (pid : Z) : M W (option string) :=
  if pid <=? 0 then mret None
  else
    match snprintf_fits 64 ("/proc/" +:+ fmt_d pid +:+ "/cmdline") with
    | None => mret None
    | Some path =>
        f ← lift (sys_open path O_RDONLY);
        match f with
        | SysErr _ => mret None
        | SysOk fd =>
            r ← lift (sys_read fd 4095);
            _ ← modify (sys_close fd);
            match r with
            | SysOk ((_ :: _) as bs) =>
                mret (Some (cstr_of_bytes (map (fun b => if b =? 0 then 32 else b) bs)))
            | _ => mret None
            end
        end
    end.

Fixpoint find_vm_loop (vm_name : string) (entries : list string) : M W Z :=
  match entries with
  | [] => mret (-1)
  | d_name :: rest =>
      if negb (is_numeric_name d_name) then find_vm_loop vm_name rest
      else
        let pid := atoi d_name in
        c ← read_pid_cmdline pid;
        match c with
        | Some cmdline =>
            if contains cmdline "qemu" && contains cmdline vm_name then mret pid
            else find_vm_loop vm_name rest
        | None => find_vm_loop vm_name rest
        end
  end.

Definition find_vm_pid (vm_name : string) : M W Z :=
  d ← gets (readdir_all "/proc");
  match d with
  | None => mret (-1)
  | Some entries => find_vm_loop vm_name entries
  end.

Definition open_kvm_device : M W Z :=
  f ← lift (sys_open "/dev/kvm" O_RDWR);
  match f with
  | SysErr _ => mret (-1)
  | SysOk fd =>
      v ← gets (kvm_get_api_version fd);
      if negb (v =? KVM_API_VERSION) then _ ← modify (sys_close fd); mret (-1)
      else mret fd
  end.

Definition open_pid_fd (pid : Z) (fd_name : string) : M W Z :=
  match snprintf_fits 64 ("/proc/" +:+ fmt_d pid +:+ "/fd/" +:+ fd_name) with
  | None => mret (-1)
  | Some path =>
      f ← lift (sys_open path O_RDWR);
      match f with
      | SysOk fd => mret fd
      | SysErr _ =>
          g ← lift (sys_open path O_RDONLY);
          mret (match g with SysOk fd => fd | SysErr _ => -1 end)
      end
  end.

(** The descriptor [d_name] of the process, when it links to [needle]. *)
Definition linked_fd (pid : Z) (fd_dir needle d_name : string) : M W Z :=
  if negb (is_numeric_name d_name) then mret (-1)
  else
    match snprintf_fits 128 (fd_dir +:+ "/" +:+ d_name) with
    | None => mret (-1)
    | Some link_path =>
        t ← gets (readlink link_path);
        match t with
        | None => mret (-1)
        | Some target =>
            if negb (contains (String.substring 0 511 target) needle) then mret (-1)
            else open_pid_fd pid d_name
        end
    end.

Fixpoint duplicate_fd_loop (pid : Z) (fd_dir needle : string) (entries : list string) : M W Z :=
  match entries with
  | [] => mret (-1)
  | d_name :: rest =>
      fd ← linked_fd pid fd_dir needle d_name;
      if 0 <=? fd then mret fd else duplicate_fd_loop pid fd_dir needle rest
  end.

Definition duplicate_fd_by_link_target (pid : Z) (needle : string) : M W Z :=
  match snprintf_fits 64 ("/proc/" +:+ fmt_d pid +:+ "/fd") with
  | None => mret (-1)
  | Some fd_dir =>
      d ← gets (readdir_all fd_dir);
      match d with
      | None => mret (-1)
      | Some entries => duplicate_fd_loop pid fd_dir needle entries
      end
  end.

(** The vCPU descriptors are stored in the order of the directory, at most
    [VMI_MAX_VCPUS] of them. *)
Fixpoint vcpu_fds_loop (pid : Z) (fd_dir : string) (entries : list string) (fds : list Z)
    (count : nat) : M W (list Z * nat) :=
  match entries with
  | [] => mret (fds, count)
  | d_name :: rest =>
      if negb (count <? VMI_MAX_VCPUS)%nat then mret (fds, count)
      else
        fd ← linked_fd pid fd_dir "anon_inode:kvm-vcpu" d_name;
        if fd <? 0 then vcpu_fds_loop pid fd_dir rest fds count
        else vcpu_fds_loop pid fd_dir rest (<[count := fd]> fds) (S count)
  end.

Definition discover_vcpu_fds (pid : Z) (fds : list Z) : M W (list Z * nat) :=
  match snprintf_fits 64 ("/proc/" +:+ fmt_d pid +:+ "/fd") with
  | None => mret (fds, 0%nat)
  | Some fd_dir =>
      d ← gets (readdir_all fd_dir);
      match d with
      | None => mret (fds, 0%nat)
      | Some entries => vcpu_fds_loop pid fd_dir entries fds 0
      end
  end.

Definition kvmi_socket_patterns (vm_name : string) : list string :=
  ["/run/kvmi/" +:+ vm_name +:+ ".sock"; "/var/run/kvmi/" +:+ vm_name +:+ ".sock";
   "/tmp/kvmi-" +:+ vm_name +:+ ".sock"; "/tmp/" +:+ vm_name +:+ ".kvmi.sock"].

Fixpoint first_accessible (path_sz : nat) (paths : list string) : M W (option string) :=
  match paths with
  | [] => mret None
  | p :: rest =>
      match snprintf_fits path_sz p with
      | None => first_accessible path_sz rest
      | Some path =>
          ok ← gets (access_f path);
          if ok : bool then mret (Some path) else first_accessible path_sz rest
      end
  end.

Definition discover_kvmi_socket_path (vm_name : string) (pid : Z) (path_sz : nat)
  : M W (option string) :=
  if pid <=? 0 then mret None
  else
    e ← gets (getenv "KVMI_SOCKET");
    match e with
    | Some (String _ _ as env_socket) => mret (Some (copy_cstr path_sz (Some env_socket)))
    | _ =>
        c ← read_pid_cmdline pid;
        match c ≫= fun cmdline => extract_kvmi_path_from_cmdline cmdline path_sz with
        | Some path => mret (Some path)
        | None => first_accessible path_sz (kvmi_socket_patterns vm_name)
        end
    end.

(** *** The QMP channel *)

(** [write] until everything is sent; an interrupted call is repeated, without a
    bound: [fuel] counts the calls. *)
Fixpoint socket_write_all (fuel : nat) (fd : Z) (buf : string) : M W bool :=
  if (0 <? strlen buf)%nat then
    match fuel with
    | O => stuck
    | S fuel' =>
        r ← lift (sys_write fd buf);
        match r with
        | SysErr e => if e =? EINTR then socket_write_all fuel' fd buf else mret false
        | SysOk n =>
            if n =? 0 then mret false
            else socket_write_all fuel' fd (string_drop (Z.to_nat n) buf)
        end
    end
  else mret true.

Definition socket_read_text (fd buf_sz : Z) : M W (option string) :=
  if buf_sz <? 2 then mret None
  else
    r ← lift (sys_read fd (buf_sz - 1));
    match r with
    | SysOk ((_ :: _) as bs) => mret (Some (cstr_of_bytes bs))
    | _ => mret None
    end.

Definition quote : ascii := ascii_of_nat 34.
Definition quoted (s : string) : string := String quote (s +:+ String quote EmptyString).

Definition qmp_caps : string :=
  "{" +:+ quoted "execute" +:+ ":" +:+ quoted "qmp_capabilities" +:+ "}" +:+
  String newline EmptyString.

(** How often a write may be interrupted before one of them goes through; the
    theorems hold for every such number. *)
Context (retries : nat).

(** The exchange on a connected socket: greeting, capabilities, reply. *)
Definition qmp_handshake (fd : Z) : M W bool :=
  greeting ← socket_read_text fd QMP_REPLY_MAX;
  match greeting with
  | None => mret false
  | Some _ =>
      sent ← socket_write_all (S (strlen qmp_caps) * S retries) fd qmp_caps;
      if negb sent then mret false
      else
        reply ← socket_read_text fd QMP_REPLY_MAX;
        match reply with
        | None => mret false
        | Some text => mret (contains text (quoted "return"))
        end
  end.

(** The socket is closed on every path that does not return it. *)
Definition connect_qmp_channel (pid : Z) : M W Z :=
  c ← read_pid_cmdline pid;
  match c ≫= fun cmdline => extract_qmp_path_from_cmdline cmdline SUN_PATH_SIZE with
  | None => mret (-1)
  | Some qmp_path =>
      f ← lift unix_socket;
      match f with
      | SysErr _ => mret (-1)
      | SysOk fd =>
          if (SUN_PATH_SIZE <=? strlen qmp_path)%nat then _ ← modify (sys_close fd); mret (-1)
          else
            k ← lift (unix_connect fd qmp_path);
            match k with
            | SysErr _ => _ ← modify (sys_close fd); mret (-1)
            | SysOk _ =>
                ok ← qmp_handshake fd;
                if ok : bool then mret fd else _ ← modify (sys_close fd); mret (-1)
            end
      end
  end.

(** *** The libkvmi runtime *)

Fixpoint open_first (libs : list string) : M W Z :=
  match libs with
  | [] => mret 0
  | l :: rest =>
      h ← lift (dlopen l);
      if h =? 0 then open_first rest else mret h
  end.

Fixpoint load_required_symbols (h : Z) (names : list string) : M W bool :=
  match names with
  | [] => mret true
  | n :: rest =>
      ok ← gets (dlsym h n);
      if ok : bool then load_required_symbols h rest else mret false
  end.

Definition kvmi_runtime_create : M W (option kvmi_runtime) :=
  ok ← lift calloc_ok;
  if negb ok then mret None
  else
    h ← open_first ["libkvmi.so.0"; "libkvmi.so"];
    if h =? 0 then mret None
    else
      loaded ← load_required_symbols h kvmi_symbols;
      if negb loaded then _ ← modify (dlclose h); mret None
      else mret (Some (Runtime h 0 0 0 false 0 EmptyString EmptyString)).

(** Close the listener, if there is one. *)
Definition close_listener (r : kvmi_runtime) : M W kvmi_runtime :=
  if negb (listener_ctx r =? 0) then
    _ ← modify (lib_uninit (listener_ctx r)); mret (with_listener 0 r)
  else mret r.

Definition kvmi_runtime_destroy (r : kvmi_runtime) : M W unit :=
  r' ← close_listener r;
  if negb (lib_handle r' =? 0) then modify (dlclose (lib_handle r')) else mret tt.

(** Poll for both callbacks, sleeping between the attempts. *)
Fixpoint wait_callbacks (steps : nat) (r : kvmi_runtime) : M W kvmi_runtime :=
  match steps with
  | O => mret r
  | S n =>
      if connected r then mret r
      else
        _ ← modify (usleep KVMI_CONNECT_WAIT_US);
        cbs ← lift lib_callbacks;
        wait_callbacks n (deliver_all cbs r)
  end.

Definition kvmi_runtime_connect (r : kvmi_runtime) (socket_path vm_name : string)
  : M W (bool * kvmi_runtime) :=
  r0 ← close_listener r;
  let r1 := reset_pending vm_name r0 in
  ctx ← lift (lib_init_unix_socket socket_path);
  let r2 := with_listener ctx r1 in
  if ctx =? 0 then mret (false, r2)
  else
    cbs ← lift lib_callbacks;
    r3 ← wait_callbacks KVMI_CONNECT_WAIT_STEPS (deliver_all cbs r2);
    if negb (connected r3) then
      _ ← modify (lib_uninit (listener_ctx r3)); mret (false, with_listener 0 r3)
    else
      let r4 := adopt_pending socket_path r3 in
      _ ← lift (lib_get_version (rt_dom r4));
      _ ← lift (lib_memory_mapping (rt_dom r4));
      mret (true, r4).

(** A vCPU count that libkvmi reports is used when it is in range. *)
Definition valid_vcpu_count (c : option Z) : option Z :=
  match c with
  | Some n => if (0 <? n) && (n <=? Z.of_nat VMI_MAX_VCPUS) then Some n else None
  | None => None
  end.

Definition kvmi_runtime_reconnect (s : vmi_session) (r : kvmi_runtime)
  : M W (bool * vmi_session * kvmi_runtime) :=
  match rt_socket_path r with
  | EmptyString => mret (false, s, r)
  | _ =>
      c ← kvmi_runtime_connect r (rt_socket_path r) (rt_vm_name r);
      let '(ok, r') := c in
      if negb ok then mret (false, s, r')
      else
        n ← lift (lib_get_vcpu_count (rt_dom r'));
        mret (true, match valid_vcpu_count n with Some k => with_vcpus k s | None => s end, r')
  end.

Definition attach_libkvmi (s : vmi_session) (vm_name : string)
  : M W (vmi_session * option kvmi_runtime) :=
  if qemu_pid s <=? 0 then mret (s, None)
  else
    p ← discover_kvmi_socket_path vm_name (qemu_pid s) SUN_PATH_SIZE;
    match p with
    | None => mret (s, None)
    | Some socket_path =>
        c ← kvmi_runtime_create;
        match c with
        | None => mret (s, None)
        | Some r =>
            k ← kvmi_runtime_connect r socket_path vm_name;
            let '(ok, r') := k in
            if negb ok then _ ← kvmi_runtime_destroy r'; mret (s, None)
            else
              n ← lift (lib_get_vcpu_count (rt_dom r'));
              mret (match valid_vcpu_count n with
                    | Some k => if nr_vcpus s =? 0 then with_vcpus k s else s
                    | None => s
                    end, Some r')
        end
    end.

(** [true] is return code 0. *)
Definition kvmi_session_heartbeat (s : vmi_session) (rt : option kvmi_runtime)
  : M W (bool * vmi_session * option kvmi_runtime) :=
  match rt with
  | None => mret (true, s, rt)
  | Some r =>
      if rt_dom r =? 0 then mret (true, s, rt)
      else
        c ← lift (lib_domain_is_connected (rt_dom r));
        if c : bool then mret (true, s, Some (with_misses 0 r))
        else
          let r1 := with_misses (u32 (missed_heartbeats r + 1)) r in
          if missed_heartbeats r1 <? KVMI_HEARTBEAT_MAX_MISSES then mret (false, s, Some r1)
          else
            k ← kvmi_runtime_reconnect s r1;
            let '(ok, s', r') := k in mret (ok, s', Some r')
  end.

(** *** Memory slots *)

(** [None] is -1, the failed allocation; a map without RAM leaves no slots. *)
Definition enumerate_memslots_from_maps (s : vmi_session) : M W (option vmi_session) :=
  if qemu_pid s <=? 0 then mret (Some s)
  else
    match snprintf_fits 64 ("/proc/" +:+ fmt_d (qemu_pid s) +:+ "/maps") with
    | None => mret (Some s)
    | Some path =>
        f ← gets (read_file path);
        match f with
        | None => mret (Some s)
        | Some text =>
            ok ← lift calloc_ok;
            if negb ok then mret None
            else
              let slots := maps_loop (fgets_lines 2047 text 2047) [] 0 in
              mret (Some (if (length slots =? 0)%nat then s else with_memslots slots s))
        end
    end.

Definition enumerate_memslots (s : vmi_session) : M W vmi_session :=
  let s0 := with_memslots [] s in
  if qemu_pid s0 <=? 0 then mret s0
  else
    r ← enumerate_memslots_from_maps s0;
    mret (default s0 r).

(** *** Setup and teardown *)

(** The session before anything was found. *)
Definition fresh_session : vmi_session :=
  Session (-1) (-1) (replicate VMI_MAX_VCPUS (-1)) 0 [] (-1) (-1) 0 0 false 0 0 0.

(** The descriptors and the runtime of the process [pid]. *)
Definition attach_process (vm_name : string) (pid kvm : Z)
  : M W (vmi_session * option kvmi_runtime) :=
  vm ← duplicate_fd_by_link_target pid "anon_inode:kvm-vm";
  v ← discover_vcpu_fds pid (vcpu_fds fresh_session);
  let '(fds, count) := v in
  control ← connect_qmp_channel pid;
  attach_libkvmi (Session kvm vm fds (Z.of_nat count) [] pid control 0 0 false 0 0 0) vm_name.

(** The page-table root from the first vCPU. *)
Definition capture_cr3 (s : vmi_session) : M W vmi_session :=
  let fd := default (-1) (vcpu_fds s !! 0%nat) in
  if 0 <? fd then
    c ← gets (kvm_get_sregs_cr3 fd);
    mret (match c with
          | Some cr3 => with_kernel_pgd (Z.land cr3 0x000FFFFFFFFFF000) s
          | None => s
          end)
  else mret s.

Definition kvmi_setup (vm_name : string) : M W (option (vmi_session * option kvmi_runtime)) :=
  ok ← lift calloc_ok;
  if negb ok then mret None
  else
    kvm ← open_kvm_device;
    pid ← find_vm_pid vm_name;
    a ← (if 0 <=? pid then attach_process vm_name pid kvm
         else mret (Session kvm (-1) (replicate VMI_MAX_VCPUS (-1)) 0 [] (-1) (-1) 0 0 false 0 0 0,
                    None));
    let '(s, rt) := a in
    s1 ← enumerate_memslots s;
    s2 ← capture_cr3 s1;
    mret (Some (s2, rt)).

Definition close_if_open (fd : Z) : M W unit :=
  if 0 <=? fd then modify (sys_close fd) else mret tt.

Definition kvmi_teardown (s : vmi_session) (rt : option kvmi_runtime) : M W unit :=
  _ ← (match rt with Some r => kvmi_runtime_destroy r | None => mret tt end);
  _ ← forM (vcpu_fds s) close_if_open;
  _ ← close_if_open (control_fd s);
  _ ← (if negb (vm_fd s =? kvm_fd s) then close_if_open (vm_fd s) else mret tt);
  close_if_open (kvm_fd s).
End setup.
