(* ===== verification/KvmiMapsProofs.v ===== *)
(** * The memory map of the session

    The slots that [maps_loop] builds are laid end to end from guest address 0,
    so they satisfy what the memory component needs; and on the text that the
    kernel prints for a list of mappings, the scanner recovers the mappings. *)

From S2P Require Import Prelude CStrings HostOS VmiMemory VmiMemoryProofs KvmiSetup.
From stdpp Require Import prelude strings list.
From Stdlib Require Import ZArith Lia Ascii.
#[local] Open Scope string_scope.
#[local] Open Scope list_scope.
#[local] Open Scope Z_scope.

(** ** Layout *)

(** The guest size of the slots. *)
Definition total_size (slots : list vmi_memslot) : Z :=
  foldr (fun m acc => memory_size m + acc) 0 slots.

(** Slot [i] starts where the slots before it end; all are RAM of the other
    process, of at least 2 MiB. *)
Record laid_out (slots : list vmi_memslot) : Prop := {
  lo_slot i m : slots !! i = Some m ->
    guest_phys_addr m = total_size (take i slots) /\ slot m = Z.of_nat i /\
    flags m = VMI_MEMSLOT_F_REMOTE_PROCESS /\ MIN_RAM_MAPPING_SIZE <= memory_size m /\
    0 <= userspace_addr m /\ userspace_addr m + memory_size m < 18446744073709551616;
  lo_total : total_size slots < 18446744073709551616;
  lo_count : (length slots <= VMI_MAX_MEMSLOTS)%nat;
}.

Lemma total_size_app a b : total_size (a ++ b) = total_size a + total_size b.
Proof. induction a as [|m a IH]; cbn [app total_size foldr]; [done|]. unfold total_size in *. lia. Qed.

Lemma total_size_take_S slots i m :
  slots !! i = Some m -> total_size (take (S i) slots) = total_size (take i slots) + memory_size m.
Proof.
  intros Hi. rewrite (take_S_r slots i m Hi), total_size_app. cbn. lia.
Qed.

Lemma total_size_prefix slots i j :
  Forall (fun m => 0 <= memory_size m) slots -> (i <= j)%nat ->
  total_size (take i slots) <= total_size (take j slots).
Proof.
  intros Hp. induction 1 as [|j Hij IH]; [done|]. destruct (slots !! j) as [m|] eqn:Hj.
  - rewrite (total_size_take_S _ _ _ Hj). pose proof (proj1 (Forall_lookup _ _) Hp j m Hj) as Hm.
    cbn in Hm. lia.
  - apply lookup_ge_None in Hj. rewrite (take_ge _ (S j)), (take_ge _ j) in * by lia. done.
Qed.

Section layout.
Context slots (Hl : laid_out slots).

Lemma laid_out_sizes : Forall (fun m => 0 <= memory_size m) slots.
Proof.
  apply Forall_lookup. intros i m Hi. destruct (lo_slot _ Hl i m Hi) as (_ & _ & _ & H & _).
  unfold MIN_RAM_MAPPING_SIZE in H. lia.
Qed.

(** The end of a slot is not beyond the start of a later one. *)
Lemma laid_out_ordered i j m m' :
  slots !! i = Some m -> slots !! j = Some m' -> (i < j)%nat ->
  guest_phys_addr m + memory_size m <= guest_phys_addr m'.
Proof.
  intros Hi Hj Hij. destruct (lo_slot _ Hl i m Hi) as [-> _], (lo_slot _ Hl j m' Hj) as [-> _].
  rewrite <- (total_size_take_S _ _ _ Hi). apply total_size_prefix; [apply laid_out_sizes|lia].
Qed.

Lemma laid_out_wf : Forall wf_slot slots.
Proof.
  apply Forall_lookup. intros i m Hi. destruct (lo_slot _ Hl i m Hi) as (Hg & _ & _ & Hs & Hu & He).
  pose proof (total_size_prefix slots 0 i laid_out_sizes ltac:(lia)) as H0.
  change (total_size (take 0 slots)) with 0 in H0.
  pose proof (total_size_prefix slots (S i) (length slots) laid_out_sizes (lookup_lt_Some _ _ _ Hi)) as H1.
  rewrite (total_size_take_S _ _ _ Hi), firstn_all in H1. pose proof (lo_total _ Hl).
  unfold MIN_RAM_MAPPING_SIZE in Hs. split; lia.
Qed.

Lemma laid_out_disjoint : disjoint_slots slots.
Proof.
  intros i j m m' g Hi Hj Hg Hg'. unfold in_slot in *. boolify.
  pose proof laid_out_wf as Hwf. rewrite Forall_lookup in Hwf.
  destruct (Hwf i m Hi), (Hwf j m' Hj). rewrite u64_id in * by ulia.
  destruct (decide (i = j)) as [|Hne]; [done|exfalso].
  destruct (decide (i < j)%nat).
  - pose proof (laid_out_ordered i j m m' Hi Hj). lia.
  - pose proof (laid_out_ordered j i m' m Hj Hi). lia.
Qed.

Lemma laid_out_remote : Forall (fun m => slot_remote m = true) slots.
Proof.
  apply Forall_lookup. intros i m Hi. destruct (lo_slot _ Hl i m Hi) as (_ & _ & Hf & _).
  unfold slot_remote. by rewrite Hf.
Qed.
End layout.

(** A session with such slots is readable, whatever the world. *)
Lemma laid_out_readable {W} `{OS : HostOS W} `{SM : !StableMemory W} s (w : W) :
  laid_out (memslots s) -> readable s w.
Proof.
  intros Hl. split; [by apply laid_out_wf|by apply laid_out_disjoint|].
  intros m off Hm Hr. apply list_elem_of_lookup in Hm as [i Hi].
  pose proof (proj1 (Forall_lookup _ _) (laid_out_remote _ Hl) i m Hi) as H. cbn in H. congruence.
Qed.

Lemma laid_out_nil : laid_out [].
Proof. split; cbn; [done|lia|unfold VMI_MAX_MEMSLOTS; lia]. Qed.

(** A mapping that passes the checks extends the layout. *)
Lemma laid_out_push slots start end_ :
  laid_out slots -> (length slots < VMI_MAX_MEMSLOTS)%nat -> 0 <= start < end_ ->
  end_ < 18446744073709551616 -> MIN_RAM_MAPPING_SIZE <= end_ - start ->
  end_ - start <= 18446744073709551615 - total_size slots ->
  laid_out (slots ++ [memslot_of (total_size slots) (length slots) start (end_ - start)]).
Proof.
  intros Hl Hn Hs He Hm Ht. split.
  - intros i m Hi. apply lookup_app_Some in Hi as [Hi|[Hge Hi]].
    + pose proof (lookup_lt_Some _ _ _ Hi). rewrite take_app_le by lia. by apply (lo_slot _ Hl).
    + apply list_lookup_singleton_Some in Hi as [Hi <-]. assert (i = length slots) as -> by lia.
      rewrite take_app_length. cbn. unfold VMI_MAX_MEMSLOTS in Hn. split_and!; try done; try ulia.
  - rewrite total_size_app. cbn. lia.
  - rewrite length_app. cbn. lia.
Qed.

(** ** The scanner *)

Lemma digit_value_nonneg c : 0 <= digit_value c.
Proof. unfold digit_value. repeat case_match; boolify; lia. Qed.

Lemma take_digits_nonneg base s acc seen v b r :
  0 <= base -> 0 <= acc -> take_digits base s acc seen = (v, b, r) -> 0 <= v.
Proof.
  revert acc seen. induction s as [|c s IH]; intros acc seen Hb Ha; cbn [take_digits]; [by intros [= <- _ _]|].
  destruct (digit_value c <? base); [|by intros [= <- _ _]].
  apply IH; [done|]. pose proof (digit_value_nonneg c). nia.
Qed.

Lemma scan_hex_u64 s v r : scan_hex s = Some (v, r) -> is_u64 v.
Proof.
  unfold scan_hex. destruct (match skip_space s with String _ _ => _ | _ => _ end) as [neg s2].
  destruct (take_digits 16 _ 0 false) as [[x []] rest] eqn:E; [|done].
  intros [= <- <-]. apply take_digits_nonneg in E; [|lia..].
  destruct (x <? _) eqn:El; boolify; [destruct neg|]; ulia.
Qed.

Lemma scan_maps_line_u64 l a b p q : scan_maps_line l = Some (a, b, p, q) -> is_u64 a /\ is_u64 b.
Proof.
  unfold scan_maps_line. destruct (scan_hex l) as [[x r]|] eqn:E1; [|done].
  destruct r as [|c r]; [done|]. intros H.
  assert (exists y t, scan_hex r = Some (y, t) /\ x = a /\ y = b) as (y & t & E2 & -> & ->).
  { destruct (scan_hex r) as [[y t]|]; [|by repeat case_match].
    exists y, t. repeat case_match; simplify_eq; done. }
  by split; eapply scan_hex_u64.
Qed.

Lemma candidate_large p q n : is_candidate_ram_map p q n = true -> MIN_RAM_MAPPING_SIZE <= n.
Proof.
  unfold is_candidate_ram_map. intros H. destruct (n <? MIN_RAM_MAPPING_SIZE) eqn:E; boolify; [|done].
  exfalso. by repeat case_match.
Qed.

Lemma maps_loop_laid_out lines slots :
  laid_out slots -> laid_out (maps_loop lines slots (total_size slots)).
Proof.
  revert slots. induction lines as [|l lines IH]; intros slots Hl; cbn [maps_loop]; [done|].
  destruct (length slots <? _)%nat eqn:Hn; [|done]. boolify.
  destruct (scan_maps_line l) as [[[[a b] p] q]|] eqn:Hs; [|by apply IH].
  apply scan_maps_line_u64 in Hs as [Ha Hb].
  destruct (b <=? a) eqn:Hab; [by apply IH|]. boolify.
  rewrite (u64_id (b - a)) by ulia.
  destruct (is_candidate_ram_map p q (b - a)) eqn:Hc; [|by apply IH]. cbn [negb].
  destruct (_ <? b - a) eqn:Hw; [done|]. boolify. apply candidate_large in Hc.
  assert (laid_out (slots ++ [memslot_of (total_size slots) (length slots) a (b - a)])) as Hl'.
  { apply laid_out_push; [done|done|ulia..]. }
  pose proof (lo_total _ Hl') as Ht. rewrite total_size_app in Ht. cbn in Ht.
  replace (u64 (total_size slots + (b - a)))
    with (total_size (slots ++ [memslot_of (total_size slots) (length slots) a (b - a)])); [by apply IH|].
  rewrite total_size_app. cbn.
  assert (0 <= total_size slots).
  { pose proof (total_size_prefix slots 0 (length slots) (laid_out_sizes _ Hl) ltac:(lia)) as H0.
    rewrite firstn_all in H0. exact H0. }
  ulia.
Qed.

(** ** Reading back what the kernel prints *)

Lemma hex_char_plain c :
  digit_value c < 16 ->
  is_space c = false /\ Ascii.eqb c "-" = false /\ Ascii.eqb c "+" = false /\
  Ascii.eqb c "x" = false /\ Ascii.eqb c "X" = false.
Proof. destruct c as [[] [] [] [] [] [] [] []]; vm_compute; intros H; try done; by split_and!. Qed.

Lemma digit_value_char16 d : 0 <= d < 16 -> digit_value (digit_char d) = d.
Proof.
  intros Hd. destruct (decide (d < 10)); [apply digit_value_char; lia|].
  assert (d = 10 \/ d = 11 \/ d = 12 \/ d = 13 \/ d = 14 \/ d = 15) as Hc by lia.
  by destruct_or! Hc; subst.
Qed.

Lemma take_fmt_digits fuel n acc :
  0 <= n < 16 ^ Z.of_nat fuel -> (1 <= fuel)%nat ->
  forall v seen, exists j,
    take_digits 16 (fmt_digits fuel 16 n acc) v seen =
    take_digits 16 acc (v * 16 ^ Z.of_nat j + n) true.
Proof.
  revert n acc. induction fuel as [|fuel IH]; intros n acc Hn Hf v seen; [lia|].
  cbn [fmt_digits]. destruct (n <? 16) eqn:E; boolify.
  - exists 1%nat. cbn [take_digits].
    rewrite Z.mod_small, digit_value_char16 by lia.
    rewrite (proj2 (Z.ltb_lt n 16)) by lia. done.
  - rewrite Nat2Z.inj_succ, Z.pow_succ_r in Hn by lia.
    destruct fuel as [|fuel]; [cbn in Hn; lia|].
    destruct (IH (n / 16) (String (digit_char (n mod 16)) acc)) with (v := v) (seen := seen)
      as [j ->]; [|lia|].
    { split; [apply Z.div_pos; lia | apply Z.div_lt_upper_bound; lia]. }
    exists (S j). cbn [take_digits]. rewrite digit_value_char16 by lia.
    rewrite (proj2 (Z.ltb_lt (n mod 16) 16)) by lia. f_equal.
    rewrite Nat2Z.inj_succ, Z.pow_succ_r by lia. lia.
Qed.

Definition hex_digit (c : ascii) : bool := digit_value c <? 16.

Lemma fmt_digits_hex fuel n acc :
  str_forall hex_digit acc = true -> str_forall hex_digit (fmt_digits fuel 16 n acc) = true.
Proof.
  revert n acc. induction fuel as [|fuel IH]; intros n acc Ha; cbn [fmt_digits]; [done|].
  assert (str_forall hex_digit (String (digit_char (n mod 16)) acc) = true) as H.
  { cbn [str_forall]. rewrite Ha. unfold hex_digit. rewrite digit_value_char16 by lia.
    by rewrite (proj2 (Z.ltb_lt _ _)) by lia. }
  destruct (n <? 16); [done|by apply IH].
Qed.

Lemma fmt_digits_nonempty fuel base n acc :
  (fuel <> 0)%nat -> exists c r, fmt_digits fuel base n acc = String c r.
Proof.
  revert n acc. induction fuel as [|fuel IH]; intros n acc Hf; [done|]. cbn [fmt_digits].
  destruct (n <? base); [by eexists _, _|]. destruct fuel as [|fuel]; [by eexists _, _|].
  by apply IH.
Qed.

(** A hexadecimal number is read up to the separator after it. *)
Lemma scan_hex_fmt n c rest :
  is_u64 n -> 16 <= digit_value c -> Ascii.eqb c "x" = false -> Ascii.eqb c "X" = false ->
  scan_hex (fmt_x n +:+ String c rest) = Some (n, String c rest).
Proof.
  intros Hn Hc Hx HX.
  assert (take_digits 16 (fmt_x n +:+ String c rest) 0 false = (n, true, String c rest)) as Ht.
  { unfold fmt_x. rewrite fmt_digits_app.
    change (EmptyString +:+ String c rest) with (String c rest).
    destruct (take_fmt_digits 16 n (String c rest) ltac:(cbn; ulia) ltac:(lia) 0 false) as [j ->].
    cbn [take_digits]. by rewrite (proj2 (Z.ltb_ge _ _)). }
  pose proof (fmt_digits_hex 16 n EmptyString eq_refl) as Hh. fold (fmt_x n) in Hh.
  destruct (fmt_digits_nonempty 16 16 n EmptyString) as (d & r & E); [done|].
  fold (fmt_x n) in E. rewrite E in *.
  change (String d r +:+ String c rest) with (String d (r +:+ String c rest)) in *. cbn [str_forall] in Hh.
  apply andb_prop in Hh as [Hd Hr]. unfold hex_digit in Hd. boolify.
  destruct (hex_char_plain d Hd) as (H1 & H2 & H3 & H4 & H5).
  unfold scan_hex. cbn [skip_space]. rewrite H1.
  assert (match String d (r +:+ String c rest) with
          | String "-" s' => (true, s') | String "+" s' => (false, s')
          | _ => (false, String d (r +:+ String c rest)) end
          = (false, String d (r +:+ String c rest))) as ->.
  { destruct d as [[] [] [] [] [] [] [] []]; done. }
  assert (match String d (r +:+ String c rest) with
          | String "0" (String "x" s') => s' | String "0" (String "X" s') => s'
          | _ => String d (r +:+ String c rest) end = String d (r +:+ String c rest)) as ->.
  { assert (exists e t, r +:+ String c rest = String e t /\ Ascii.eqb e "x" = false /\ Ascii.eqb e "X" = false)
      as (e & t & -> & He & HE).
    { destruct r as [|e r]; [by exists c, rest|]. cbn [str_forall] in Hr. apply andb_prop in Hr as [Hr _].
      unfold hex_digit in Hr. boolify. destruct (hex_char_plain e Hr) as (_ & _ & _ & ? & ?).
      by exists e, (r +:+ String c rest). }
    clear -He HE. destruct d as [[] [] [] [] [] [] [] []]; try done.
    destruct e as [[] [] [] [] [] [] [] []]; done. }
  rewrite Ht. by rewrite (proj2 (Z.ltb_lt _ _)) by ulia.
Qed.

Definition no_space (s : string) : bool := str_forall (fun c => negb (is_space c)) s.

Lemma take_word_app k w c rest :
  no_space w = true -> is_space c = true -> (strlen w <= k)%nat ->
  take_word k (w +:+ String c rest) = (w, String c rest).
Proof.
  unfold no_space. revert w. induction k as [|k IH]; intros w Hw Hc Hk.
  - destruct w as [|d w]; cbn in *; [done|lia].
  - destruct w as [|d w]; [change (EmptyString +:+ String c rest) with (String c rest); cbn [take_word]; by rewrite Hc|].
    change (String d w +:+ String c rest) with (String d (w +:+ String c rest)).
    cbn [take_word str_forall] in *.
    apply andb_prop in Hw as [Hd Hw]. apply negb_true_iff in Hd. rewrite Hd.
    cbn in Hk. by rewrite IH by (done || lia).
Qed.

(** A word after one space is read up to the next space. *)
Lemma scan_word_app k w c rest :
  no_space w = true -> w <> EmptyString -> is_space c = true -> (strlen w <= k)%nat ->
  scan_word k (String " " (w +:+ String c rest)) = Some (w, String c rest).
Proof.
  intros Hw Hne Hc Hk. unfold scan_word.
  assert (skip_space (String " " (w +:+ String c rest)) = w +:+ String c rest) as ->.
  { destruct w as [|d w]; [done|]. cbn in Hw. apply andb_prop in Hw as [Hd _].
    apply negb_true_iff in Hd. change (String d w +:+ String c rest) with (String d (w +:+ String c rest)).
    cbn [skip_space]. change (is_space " ") with true. cbv iota. by rewrite Hd. }
  rewrite take_word_app by done. by destruct w.
Qed.

(** A mapping of the process, and its line in /proc/<pid>/maps. *)
Record mapping := Mapping {
  mp_start : Z;
  mp_end : Z;
  mp_perms : string;
  mp_offset : string;
  mp_dev : string;
  mp_inode : string;
  mp_pad : nat;
  mp_path : string;
}.

Fixpoint spaces (n : nat) : string :=
  match n with
  | O => EmptyString
  | S n' => String " " (spaces n')
  end.

Definition maps_tail (m : mapping) : string :=
  spaces (mp_pad m) +:+ (mp_path m +:+ String newline EmptyString).

Definition maps_line (m : mapping) : string :=
  fmt_x (mp_start m) +:+ String "-" (fmt_x (mp_end m) +:+ String " " (mp_perms m +:+
  String " " (mp_offset m +:+ String " " (mp_dev m +:+ String " " (mp_inode m +:+
  String " " (maps_tail m)))))).

(** One word without white space. *)
Definition field (s : string) : Prop := no_space s = true /\ s <> EmptyString.

(** What the kernel prints: 64-bit bounds, four permission characters, fields
    without spaces, and a path that fits the buffer of the reader. *)
Record wf_mapping (m : mapping) : Prop := {
  wm_start : is_u64 (mp_start m);
  wm_end : is_u64 (mp_end m);
  wm_perms : field (mp_perms m) /\ (strlen (mp_perms m) <= 4)%nat;
  wm_offset : field (mp_offset m);
  wm_dev : field (mp_dev m);
  wm_inode : field (mp_inode m);
  wm_path : match mp_path m with EmptyString => True | String c _ => is_space c = false end;
  wm_path_line : str_forall (fun c => negb (Ascii.eqb newline c)) (mp_path m) = true;
  wm_path_len : (strlen (mp_path m) <= 1023)%nat;
  wm_line : (strlen (maps_line m) <= 2047)%nat;
}.

Lemma scan_field w rest k :
  field w -> (strlen (String " " (w +:+ String " " rest)) <= k)%nat ->
  scan_word k (String " " (w +:+ String " " rest)) = Some (w, String " " rest).
Proof.
  intros [H1 H2] Hk. apply scan_word_app; [done|done|done|].
  cbn [String.length] in Hk. rewrite strlen_app in Hk. lia.
Qed.

Lemma until_newline p rest :
  str_forall (fun c => negb (Ascii.eqb newline c)) p = true ->
  until_char newline (p +:+ String newline rest) = p.
Proof.
  induction p as [|c p IH]; [done|]. cbn [str_forall]. intros H. apply andb_prop in H as [H1 H2].
  apply negb_true_iff in H1. change (String c p +:+ ?x) with (String c (p +:+ x)).
  cbn [until_char]. rewrite H1. by rewrite IH.
Qed.

Lemma skip_spaces n s : skip_space (spaces n +:+ s) = skip_space s.
Proof. induction n as [|n IH]; [done|]. exact IH. Qed.

(** Scanning the blanks and the path of a line. *)
Lemma tail_path m :
  wf_mapping m ->
  String.substring 0 1023 (until_char newline (skip_blanks (skip_space (String " " (maps_tail m)))))
    = mp_path m.
Proof.
  intros [_ _ _ _ _ _ Hp Hl Hn _]. unfold maps_tail.
  change (skip_space (String " " ?x)) with (skip_space x). rewrite skip_spaces.
  destruct (mp_path m) as [|c p] eqn:E; [done|].
  change (String c p +:+ ?x) with (String c (p +:+ x)). cbn [skip_space]. rewrite Hp.
  assert (skip_blanks (String c (p +:+ String newline EmptyString)) = String c p +:+ String newline EmptyString)
    as ->.
  { cbn [skip_blanks]. destruct (Ascii.eqb c " " || Ascii.eqb c tab) eqn:Eb; [|done].
    apply orb_true_iff in Eb as [Eb|Eb]; apply Ascii.eqb_eq in Eb; by subst. }
  rewrite until_newline by done. by apply substring_all.
Qed.

(** The scanner recovers the mapping from its line. *)
Lemma scan_maps_line_print m :
  wf_mapping m ->
  scan_maps_line (maps_line m) = Some (mp_start m, mp_end m, mp_perms m, mp_path m).
Proof.
  intros Hm. pose proof Hm as [Hs He [[Hp1 Hp2] Hp3] Ho Hd Hi _ _ _ _].
  unfold scan_maps_line, maps_line. rewrite scan_hex_fmt by done. cbv iota beta.
  rewrite scan_hex_fmt by done. rewrite scan_word_app by done.
  unfold after_fields. do 3 rewrite scan_field by done. by rewrite tail_path.
Qed.

(** The newline is the last character and only there. *)
Definition no_newline (s : string) : bool := str_forall (fun c => negb (Ascii.eqb newline c)) s.

Fixpoint one_line (s : string) : bool :=
  match s with
  | EmptyString => false
  | String c EmptyString => Ascii.eqb c newline
  | String c s' => negb (Ascii.eqb newline c) && one_line s'
  end.

Lemma one_line_cons c s : Ascii.eqb newline c = false -> one_line s = true -> one_line (String c s) = true.
Proof. intros Hc Hs. destruct s; [done|]. cbn [one_line] in *. by rewrite Hc, Hs. Qed.

Lemma one_line_app a b : no_newline a = true -> one_line b = true -> one_line (a +:+ b) = true.
Proof.
  unfold no_newline. induction a as [|c a IH]; [done|]. cbn [str_forall]. intros H Hb.
  apply andb_prop in H as [Hc Ha]. apply negb_true_iff in Hc.
  change (String c a +:+ b) with (String c (a +:+ b)). apply one_line_cons; auto.
Qed.

Lemma one_line_field w b : field w -> one_line b = true -> one_line (w +:+ b) = true.
Proof.
  intros [Hw _] Hb. apply one_line_app; [|done]. clear -Hw. unfold no_space, no_newline in *.
  induction w as [|c w IH]; [done|]. cbn [str_forall] in *. apply andb_prop in Hw as [Hc Hw].
  rewrite IH by done. destruct (Ascii.eqb newline c) eqn:E; [|done]. apply Ascii.eqb_eq in E. by subst.
Qed.

Lemma one_line_hex n b : one_line b = true -> one_line (fmt_x n +:+ b) = true.
Proof.
  apply one_line_app. pose proof (fmt_digits_hex 16 n EmptyString eq_refl) as H. fold (fmt_x n) in H.
  unfold no_newline. induction (fmt_x n) as [|c w IH]; [done|]. cbn [str_forall] in *.
  apply andb_prop in H as [Hc Hw]. rewrite IH by done.
  destruct (Ascii.eqb newline c) eqn:E; [|done]. apply Ascii.eqb_eq in E. by subst.
Qed.

Lemma one_line_maps m : wf_mapping m -> one_line (maps_line m) = true.
Proof.
  intros [Hs He [Hp _] Ho Hd Hi _ Hl _ _]. unfold maps_line, maps_tail.
  apply one_line_hex, one_line_cons; [done|]. apply one_line_hex, one_line_cons; [done|].
  apply one_line_field, one_line_cons; [done|done|]. apply one_line_field, one_line_cons; [done|done|].
  apply one_line_field, one_line_cons; [done|done|]. apply one_line_field, one_line_cons; [done|done|].
  apply one_line_app; [|by apply one_line_app]. clear. by induction (mp_pad m).
Qed.

Lemma fgets_one_line size s rest room :
  one_line s = true -> (strlen s <= room)%nat ->
  fgets_lines size (s +:+ rest) room = s :: fgets_lines size rest size.
Proof.
  revert room. induction s as [|c s IH]; intros room Hs Hr; [done|].
  change (String c s +:+ rest) with (String c (s +:+ rest)). cbn [fgets_lines].
  destruct s as [|d s].
  - cbn [one_line] in Hs. by rewrite Hs.
  - change (one_line (String c (String d s))) with (negb (Ascii.eqb newline c) && one_line (String d s)) in Hs.
    apply andb_prop in Hs as [Hc Hs]. apply negb_true_iff in Hc. cbn [String.length] in Hr.
    rewrite Ascii.eqb_sym, Hc, (proj2 (Nat.leb_gt _ _)) by lia. cbn [orb].
    rewrite IH by (done || (cbn [String.length]; lia)). done.
Qed.

(** The file, and the lines that the reader obtains. *)
Definition maps_text (ms : list mapping) : string := foldr (fun m s => maps_line m +:+ s) EmptyString ms.

Lemma fgets_maps_text ms : Forall wf_mapping ms -> fgets_lines 2047 (maps_text ms) 2047 = map maps_line ms.
Proof.
  induction 1 as [|m ms Hm _ IH]; [done|].
  change (maps_text (m :: ms)) with (maps_line m +:+ maps_text ms). cbn [map].
  rewrite fgets_one_line; [by rewrite IH|by apply one_line_maps|apply Hm].
Qed.

(** ** The specification of the memory map *)

(** A mapping that is guest RAM. *)
Definition is_ram (m : mapping) : bool :=
  (mp_start m <? mp_end m) && is_candidate_ram_map (mp_perms m) (mp_path m) (mp_end m - mp_start m).

(** The RAM mappings, in the order of the file, laid end to end. *)
Fixpoint lay_ram (ms : list mapping) (count : nat) (gpa : Z) : list vmi_memslot :=
  match ms with
  | [] => []
  | m :: rest =>
      let span := mp_end m - mp_start m in
      memslot_of gpa count (mp_start m) span :: lay_ram rest (S count) (gpa + span)
  end.

Definition ram_bytes (ms : list mapping) : Z := foldr (fun m acc => (mp_end m - mp_start m) + acc) 0 ms.

Lemma ram_bytes_nonneg ms : 0 <= ram_bytes (List.filter is_ram ms).
Proof.
  induction ms as [|m ms IH]; cbn [List.filter]; [done|]. destruct (is_ram m) eqn:E; [|done].
  cbn [ram_bytes foldr]. unfold is_ram in E. boolify. unfold ram_bytes in IH. lia.
Qed.

Lemma maps_loop_print ms slots gpa :
  Forall wf_mapping ms -> 0 <= gpa -> (length slots + length (List.filter is_ram ms) <= VMI_MAX_MEMSLOTS)%nat ->
  gpa + ram_bytes (List.filter is_ram ms) < 18446744073709551616 ->
  maps_loop (map maps_line ms) slots gpa = slots ++ lay_ram (List.filter is_ram ms) (length slots) gpa.
Proof.
  intros Hf. revert slots gpa. induction Hf as [|m ms Hm Hms IH]; intros slots gpa Hg Hn Hb;
    cbn [map maps_loop List.filter] in *; [by rewrite app_nil_r|].
  pose proof (ram_bytes_nonneg ms). rewrite scan_maps_line_print by done.
  pose proof (wm_start _ Hm). pose proof (wm_end _ Hm). rewrite Z.leb_antisym.
  destruct (is_ram m) eqn:E; unfold is_ram in E.
  - change (ram_bytes (m :: ?l)) with ((mp_end m - mp_start m) + ram_bytes l) in Hb.
    cbn [length lay_ram] in *. apply andb_prop in E as [E1 E2]. rewrite E1. boolify.
    rewrite (proj2 (Nat.ltb_lt _ _)), (u64_id (mp_end m - mp_start m)), E2 by (lia || ulia).
    cbn [negb]. rewrite (proj2 (Z.ltb_ge _ _)), (u64_id (gpa + _)) by ulia.
    rewrite IH; [|lia|rewrite length_app; cbn; lia|lia].
    rewrite <- app_assoc, length_app. cbn [app length]. by rewrite Nat.add_1_r.
  - destruct (length slots <? VMI_MAX_MEMSLOTS)%nat eqn:El; boolify.
    + destruct (mp_start m <? mp_end m) eqn:E1; cbn [negb andb] in *; [|by apply IH]. boolify.
      rewrite (u64_id (mp_end m - mp_start m)), E by ulia. by apply IH.
    + destruct (List.filter is_ram ms); [by rewrite app_nil_r|]. cbn [length] in Hn. lia.
Qed.
