(* ===== verification/KvmiProofs.v ===== *)
(** * The session and its heartbeat: theorems

    Setup always returns a session that the other components can use, whatever
    is found on the host; the heartbeat reconnects on the third miss. *)

From S2P Require Import Prelude CStrings HostOS MockHost VmiMemory VmiMemoryProofs KvmiSetup.
From S2P Require Import KvmiMapsProofs.
From stdpp Require Import prelude gmap strings list.
From Stdlib Require Import ZArith Lia Ascii.
#[local] Open Scope string_scope.
#[local] Open Scope list_scope.
#[local] Open Scope Z_scope.

(** ** The host *)

(** The next [n] attempts at a write are all interrupted. *)
Fixpoint interrupted_for {W : Type} `{OS : HostOS W} (n : nat) (fd : Z) (s : string) (w : W) : bool :=
  match n with
  | O => true
  | S n' =>
      match (sys_write fd s w).1 with
      | SysErr e => (e =? EINTR) && interrupted_for n' fd s (sys_write fd s w).2
      | SysOk _ => false
      end
  end.

(** A write sends at most what it is given, and signals interrupt it at most
    [retries] times in a row. *)
Class QmpWrites (W : Type) `{OS : HostOS W} (retries : nat) := {
  qmp_write fd s w n : (sys_write fd s w).1 = SysOk n -> 0 <= n <= Z.of_nat (strlen s);
  qmp_progress fd s w : interrupted_for (S retries) fd s w = false;
}.

#[global] Instance mock_qmp_writes n : QmpWrites mock n.
Proof. split; [|done]. intros fd s w m [= <-]. lia. Qed.

(** The files of the concrete host are those of its environment; libkvmi
    answers while [mk_lines] is empty. *)
Definition qmp_ok : string := "{" +:+ quoted "return" +:+ ": {}}".

#[global] Instance mock_vm_host : VmHost mock := {
  readdir_all path w := tokens <$> mk_env w !! path;
  readlink path w := mk_env w !! path;
  read_file path w := mk_env w !! path;
  access_f path w := match mk_env w !! path with Some _ => true | None => false end;
  unix_connect fd path w := (SysOk tt, set_clients [(fd, bytes_of_string qmp_ok)] w);
  kvm_get_api_version fd w := 12;
  kvm_get_sregs_cr3 fd w := Some 0x1234005;
  dlopen name w := (if streq name "libkvmi.so" then 1 else 0, w);
  dlsym h name w := true;
  dlclose h w := w;
  lib_init_unix_socket path w := (2, w);
  lib_uninit h w := w;
  lib_domain_is_connected d w := (match mk_lines w with [] => true | _ => false end, w);
  lib_get_version d w := (Some 1, w);
  lib_memory_mapping d w := (0, w);
  lib_get_vcpu_count d w := (Some 2, w);
  lib_callbacks w := (match mk_lines w with [] => [AcceptGuest 5; Handshake "guest1"] | _ => [] end, w);
}.

Section setup.
Context {W : Type} `{OS : HostOS W} `{VH : !VmHost W} (retries : nat) `{QW : !QmpWrites W retries}.
Implicit Types (s : vmi_session) (r : kvmi_runtime) (w : W).

(** A computation that always finishes with a result in [Q]. *)
Definition returns {A} (m : M W A) (Q : A -> Prop) : Prop := forall w, wp m w (fun a _ => Q a).

Lemma returns_bind {A B} (m : M W A) (f : A -> M W B) P Q :
  returns m P -> (forall a, P a -> returns (f a) Q) -> returns (m ≫= f) Q.
Proof. intros Hm Hf w. apply wp_bind. eapply wp_mono; [apply Hm|]. intros a w' Ha. by apply Hf. Qed.

Lemma returns_true {A} (m : M W A) Q : returns m Q -> returns m (fun _ => True).
Proof. intros Hm w. by eapply wp_mono. Qed.

Ltac total := intros w0; repeat wp_step; try done.

Lemma read_pid_cmdline_total pid : returns (read_pid_cmdline pid) (fun _ => True).
Proof. unfold read_pid_cmdline. total. Qed.

Lemma find_vm_pid_total vm : returns (find_vm_pid vm) (fun pid => pid = -1 \/ 0 < pid).
Proof.
  unfold find_vm_pid. intros w. wp_step. wp_step. wp_step; [|wp_step; auto]. clear E. revert w.
  induction l as [|d l IH]; intros w; cbn [find_vm_loop]; [wp_step; auto|]. wp_step; [done|].
  wp_step. destruct (decide (0 < atoi d)) as [Hp|Hp].
  - eapply wp_mono; [apply read_pid_cmdline_total|]. intros c w' _. wp_step; [|apply IH].
    wp_step; [|apply IH]. wp_step. auto.
  - unfold read_pid_cmdline. rewrite (proj2 (Z.leb_le _ _)) by lia. wp_step. apply IH.
Qed.

Lemma open_kvm_device_total : returns open_kvm_device (fun _ => True).
Proof. unfold open_kvm_device. total. Qed.

Lemma linked_fd_total pid dir needle d : returns (linked_fd pid dir needle d) (fun _ => True).
Proof. unfold linked_fd, open_pid_fd. total. Qed.

Lemma duplicate_fd_total pid needle : returns (duplicate_fd_by_link_target pid needle) (fun _ => True).
Proof.
  unfold duplicate_fd_by_link_target. intros w. wp_step; [|by wp_step]. wp_step. wp_step.
  wp_step; [|by wp_step]. clear. revert w. induction l as [|d l IH]; intros w; cbn [duplicate_fd_loop];
    [by wp_step|]. wp_step. eapply wp_mono; [apply linked_fd_total|]. intros fd w' _.
  wp_step; [by wp_step|apply IH].
Qed.

(** At most [VMI_MAX_VCPUS] descriptors are stored, inside the array. *)
Lemma discover_vcpu_total pid fds :
  length fds = VMI_MAX_VCPUS ->
  returns (discover_vcpu_fds pid fds) (fun v => length v.1 = VMI_MAX_VCPUS /\ (v.2 <= VMI_MAX_VCPUS)%nat).
Proof.
  intros Hf. unfold discover_vcpu_fds. intros w. wp_step; [|wp_step; split; [done|cbn; lia]].
  wp_step. wp_step. wp_step; [|wp_step; split; [done|cbn; lia]].
  assert (0 <= VMI_MAX_VCPUS)%nat as Hc by lia. clear E E0. revert Hc Hf w. generalize 0%nat as count.
  revert fds. induction l as [|d l IH]; intros fds count Hc Hf w; cbn [vcpu_fds_loop]; [by wp_step|].
  wp_step; [by wp_step|]. boolify. wp_step. eapply wp_mono; [apply linked_fd_total|]. intros fd w' _.
  wp_step; [by apply IH|]. apply IH; [lia|by rewrite length_insert].
Qed.

Lemma string_drop_len n (s : string) : (n <= strlen s)%nat -> strlen (string_drop n s) = (strlen s - n)%nat.
Proof.
  unfold string_drop. revert s. induction n as [|n IH]; intros s Hn.
  - rewrite Nat.sub_0_r, substring_all by lia. done.
  - destruct s as [|c s]; cbn in *; [lia|]. apply IH. lia.
Qed.

(** [n] interruptions are left for the current write. *)
Lemma socket_write_all_total fuel fd buf n w :
  (n <= retries)%nat -> (strlen buf * S retries + S n <= fuel)%nat ->
  interrupted_for (S n) fd buf w = false -> wp (socket_write_all fuel fd buf) w (fun _ _ => True).
Proof.
  revert buf n w. induction fuel as [|fuel IH]; intros buf n w Hr Hf Hi; [lia|]. cbn [socket_write_all].
  wp_step; [|by wp_step]. boolify. wp_step. wp_step. cbn [interrupted_for] in Hi.
  destruct (sys_write fd buf w).1 as [k|e] eqn:Hw.
  - apply qmp_write in Hw. wp_step; [by wp_step|]. boolify. apply (IH _ retries); [lia| |apply qmp_progress].
    rewrite string_drop_len by lia. nia.
  - destruct (e =? EINTR); [|by wp_step]. destruct n as [|n]; [done|]. by apply (IH _ n); [lia..|].
Qed.

Lemma qmp_handshake_total fd : returns (qmp_handshake retries fd) (fun _ => True).
Proof.
  unfold qmp_handshake, socket_read_text. change (QMP_REPLY_MAX <? 2) with false. intros w.
  wp_step. wp_step. wp_step. apply (wp_mono _ _ (fun _ _ => True)); [by repeat wp_step|].
  intros g w1 _. wp_step; [|by wp_step]. wp_step.
  eapply wp_mono; [apply (socket_write_all_total _ _ _ retries); [lia|lia|apply qmp_progress]|]. intros sent w2 _. by repeat wp_step.
Qed.

Lemma connect_qmp_total pid : returns (connect_qmp_channel retries pid) (fun _ => True).
Proof.
  unfold connect_qmp_channel. intros w. wp_step. eapply wp_mono; [apply read_pid_cmdline_total|].
  intros c w' _. destruct (c ≫= _); [|by wp_step]. do 3 wp_step; [|by wp_step].
  wp_step; [by repeat wp_step|]. do 3 wp_step; [|by repeat wp_step]. wp_step.
  eapply wp_mono; [apply qmp_handshake_total|]. intros ok w2 _. by repeat wp_step.
Qed.

(** *** The runtime *)

(** The fields that callbacks do not touch. *)
Record rt_frame r r' : Prop := {
  rf_lib : lib_handle r' = lib_handle r;
  rf_listener : listener_ctx r' = listener_ctx r;
  rf_dom : rt_dom r' = rt_dom r;
  rf_misses : missed_heartbeats r' = missed_heartbeats r;
  rf_name : rt_vm_name r' = rt_vm_name r;
  rf_path : rt_socket_path r' = rt_socket_path r;
}.

#[global] Instance rt_frame_preorder : PreOrder rt_frame.
Proof.
  split; [done|]. intros r1 r2 r3 [] []. split; congruence.
Qed.

Lemma deliver_all_frame cbs r : rt_frame r (deliver_all cbs r).
Proof.
  unfold deliver_all. revert r. induction cbs as [|c cbs IH]; intros r; cbn [fold_left]; [done|].
  transitivity (deliver c r); [by destruct c|apply IH].
Qed.

Lemma wait_callbacks_frame n r : returns (wait_callbacks n r) (rt_frame r).
Proof.
  revert r. induction n as [|n IH]; intros r w; cbn [wait_callbacks]; [by wp_step|].
  wp_step; [by wp_step|]. wp_step. wp_step. wp_step. wp_step. eapply wp_mono; [apply IH|].
  intros r' w' Hr. cbn beta in Hr. etransitivity; [apply deliver_all_frame|done].
Qed.

(** The result of a connection attempt. *)
Record attempt r path name (ok : bool) r' : Prop := {
  at_lib : lib_handle r' = lib_handle r;
  at_name : rt_vm_name r' = strncpyz 64 name;
  at_alive : ok = true -> rt_dom r' <> 0 /\ missed_heartbeats r' = 0 /\ listener_ctx r' <> 0 /\
               rt_socket_path r' = strncpyz SUN_PATH_SIZE path;
  at_dead : ok = false -> rt_dom r' = 0 /\ missed_heartbeats r' = missed_heartbeats r /\
              listener_ctx r' = 0 /\ rt_socket_path r' = rt_socket_path r;
}.

Lemma connect_attempt r path name :
  returns (kvmi_runtime_connect r path name) (fun x => attempt r path name x.1 x.2).
Proof.
  unfold kvmi_runtime_connect. intros w. wp_step.
  apply (wp_mono _ _ (fun r0 _ => r0 = with_listener 0 r)).
  { unfold close_listener. wp_step; [by do 3 wp_step|]. wp_step. boolify.
    destruct r; cbn in *. by subst. }
  intros r0 w1 ->. wp_step. wp_step. wp_step; boolify.
  { wp_step. by rewrite E; split. }
  wp_step. wp_step. wp_step. eapply wp_mono; [apply wait_callbacks_frame|]. intros r3 w2 Hf.
  assert (rt_frame (with_listener (lib_init_unix_socket path w1).1 (reset_pending name (with_listener 0 r))) r3)
    as [H1 H2 H3 H4 H5 H6] by (etransitivity; [apply deliver_all_frame|exact Hf]).
  cbn in H1, H2, H3, H4, H5, H6. wp_step.
  { do 3 wp_step. by split. }
  boolify. unfold connected in E0. boolify. do 5 wp_step. split; cbn [fst snd adopt_pending]; try done.
  intros _. cbn. by rewrite H2.
Qed.

Lemma valid_vcpu_count_range c n : valid_vcpu_count c = Some n -> 0 < n <= Z.of_nat VMI_MAX_VCPUS.
Proof.
  unfold valid_vcpu_count. destruct c as [m|]; [|done]. destruct (_ && _) eqn:E; [|done].
  intros [= <-]. boolify. lia.
Qed.

(** Only the vCPU count of the session can change. *)
Definition vcpus_only s s' : Prop :=
  s' = s \/ exists n, 0 < n <= Z.of_nat VMI_MAX_VCPUS /\ s' = with_vcpus n s.

Lemma reconnect_spec s r :
  returns (kvmi_runtime_reconnect s r) (fun x =>
    vcpus_only s x.1.2 /\
    match rt_socket_path r with
    | EmptyString => x = (false, s, r)
    | path => attempt r path (rt_vm_name r) x.1.1 x.2
    end).
Proof.
  unfold kvmi_runtime_reconnect. intros w. destruct (rt_socket_path r) as [|c p].
  { wp_step. split; [by left|done]. }
  wp_step. eapply wp_mono; [apply connect_attempt|]. intros [ok r'] w1 Ha. cbn [fst snd] in Ha.
  wp_step; boolify; subst.
  { wp_step. split; [by left|done]. }
  do 3 wp_step. split; [|done]. cbn [fst snd]. destruct (valid_vcpu_count _) as [n|] eqn:E; [|by left].
  right. exists n. split; [by eapply valid_vcpu_count_range|done].
Qed.

(** The heartbeat always returns, and changes at most the vCPU count. *)
Lemma heartbeat_total s rt : returns (kvmi_session_heartbeat s rt) (fun x => vcpus_only s x.1.2).
Proof.
  unfold kvmi_session_heartbeat. intros w. destruct rt as [r|]; [|wp_step; by left].
  wp_step; [wp_step; by left|]. do 3 wp_step; [wp_step; by left|].
  wp_step; [wp_step; by left|]. wp_step. eapply wp_mono; [apply reconnect_spec|].
  intros [[ok s'] r'] w1 [H _]. by wp_step.
Qed.

(** *** The established session *)

Record session_established s : Prop := {
  se_slots : laid_out (memslots s);
  se_pid : memslots s <> [] -> 0 < qemu_pid s;
  se_fds : length (vcpu_fds s) = VMI_MAX_VCPUS;
  se_vcpus : 0 <= nr_vcpus s <= Z.of_nat VMI_MAX_VCPUS;
  se_pgd : kernel_pgd s mod VMI_PAGE_SIZE = 0 /\ 0 <= kernel_pgd s < 2 ^ 52;
  se_guard : npt_armed s = false /\ syscall_table_gpa s = 0 /\ syscall_table_gva s = 0;
  se_profile : init_task_addr s = 0 /\ kaslr_offset s = 0;
}.

(** A session before its memory map was read. *)
Record session_attached s : Prop := {
  sa_slots : memslots s = [];
  sa_fds : length (vcpu_fds s) = VMI_MAX_VCPUS;
  sa_vcpus : 0 <= nr_vcpus s <= Z.of_nat VMI_MAX_VCPUS;
  sa_zero : kernel_pgd s = 0 /\ npt_armed s = false /\ syscall_table_gpa s = 0 /\
              syscall_table_gva s = 0 /\ init_task_addr s = 0 /\ kaslr_offset s = 0;
}.

Lemma create_total : returns kvmi_runtime_create (fun _ => True).
Proof.
  unfold kvmi_runtime_create, load_required_symbols, kvmi_symbols. cbn [open_first].
  intros w. do 3 wp_step; [by wp_step|]. wp_step. apply (wp_mono _ _ (fun _ _ => True)).
  { by repeat wp_step. }
  intros h w1 _. by repeat wp_step.
Qed.

Lemma destroy_total r : returns (kvmi_runtime_destroy r) (fun _ => True).
Proof. unfold kvmi_runtime_destroy, close_listener. intros w. wp_step. by repeat wp_step. Qed.

Lemma first_accessible_total sz ps : returns (first_accessible sz ps) (fun _ => True).
Proof.
  induction ps as [|p ps IH]; intros w; cbn [first_accessible]; [by wp_step|].
  wp_step; [|apply IH]. do 3 wp_step; [by wp_step|apply IH].
Qed.

Lemma socket_path_total vm pid sz : returns (discover_kvmi_socket_path vm pid sz) (fun _ => True).
Proof.
  unfold discover_kvmi_socket_path. intros w. wp_step; [by wp_step|]. do 2 wp_step.
  destruct (getenv _ w) as [[|c e]|]; [|by wp_step|].
  all: wp_step; eapply wp_mono; [apply read_pid_cmdline_total|]; intros x w1 _.
  all: destruct (x ≫= _); [by wp_step|apply first_accessible_total].
Qed.

Lemma attach_libkvmi_spec s vm :
  returns (attach_libkvmi s vm) (fun x => vcpus_only s x.1).
Proof.
  unfold attach_libkvmi. intros w. wp_step; [wp_step; by left|]. wp_step.
  eapply wp_mono; [apply socket_path_total|]. intros p w1 _. wp_step; [|wp_step; by left].
  wp_step. eapply wp_mono; [apply create_total|]. intros c w2 _. wp_step; [|wp_step; by left].
  wp_step. eapply wp_mono; [apply connect_attempt|]. intros [ok r'] w3 _. wp_step.
  - wp_step. eapply wp_mono; [apply destroy_total|]. intros u w4 _. wp_step. by left.
  - do 3 wp_step. cbn [fst]. destruct (valid_vcpu_count _) as [n|] eqn:Ev; [|by left].
    destruct (nr_vcpus s =? 0); [|by left]. right. exists n. split; [by eapply valid_vcpu_count_range|done].
Qed.

Lemma attach_process_spec vm pid kvm :
  returns (attach_process retries vm pid kvm) (fun x => session_attached x.1 /\ qemu_pid x.1 = pid).
Proof.
  unfold attach_process. intros w. wp_step. eapply wp_mono; [apply duplicate_fd_total|]. intros vmfd w1 _.
  wp_step. eapply wp_mono; [by apply discover_vcpu_total|]. intros [fds n] w2 [H1 H2]. cbn [fst snd] in *.
  wp_step. eapply wp_mono; [apply connect_qmp_total|]. intros cfd w3 _.
  eapply wp_mono; [apply attach_libkvmi_spec|]. intros [s' rt] w4 H. cbn [fst] in *.
  destruct H as [->|(k & Hk & ->)]; (split; [|done]); split; cbn; try done; lia.
Qed.

Ltac no_slots := repeat wp_step; cbn; split_and!; [apply laid_out_nil|done|done].

Lemma enumerate_spec s :
  session_attached s ->
  returns (enumerate_memslots s) (fun s' =>
    laid_out (memslots s') /\ (memslots s' <> [] -> 0 < qemu_pid s) /\ s' = with_memslots (memslots s') s).
Proof.
  intros [Hs _ _ _].
  unfold enumerate_memslots, enumerate_memslots_from_maps. intros w.
  change (qemu_pid (with_memslots [] s)) with (qemu_pid s). destruct (qemu_pid s <=? 0) eqn:E.
  { no_slots. }
  boolify. wp_step. destruct (snprintf_fits _ _) as [path|]; cycle 1.
  { no_slots. }
  wp_step. wp_step. destruct (read_file path w) as [text|]; cycle 1.
  { no_slots. }
  wp_step. wp_step. destruct (calloc_ok w).1; cbn [negb]; cycle 1.
  { no_slots. }
  wp_step. wp_step. cbn [default from_option]. pose proof (maps_loop_laid_out (fgets_lines 2047 text 2047) [] laid_out_nil) as Hl.
  change (total_size []) with 0 in Hl. destruct (length _ =? 0)%nat.
  - no_slots.
  - cbn [memslots with_memslots]. split_and!; [done|done|by destruct s].
Qed.

Lemma capture_spec s :
  returns (capture_cr3 s) (fun s' =>
    s' = s \/ exists pgd, s' = with_kernel_pgd pgd s /\ pgd mod VMI_PAGE_SIZE = 0 /\ 0 <= pgd < 2 ^ 52).
Proof.
  unfold capture_cr3. intros w. wp_step; [|wp_step; by left]. do 3 wp_step.
  destruct (kvm_get_sregs_cr3 _ w) as [cr3|]; [right|by left].
  eexists. split; [done|]. change 0x000FFFFFFFFFF000 with (Z.shiftl (Z.ones 40) 12).
  rewrite land_field by lia. unfold VMI_PAGE_SIZE. change (2 ^ 12) with 4096.
  rewrite Z_mod_mult. split; [done|]. pose proof (Z.mod_pos_bound (cr3 / 4096) (2 ^ 40)).
  change (2 ^ 52) with (2 ^ 40 * 4096). lia.
Qed.

Lemma setup_session vm w :
  wp (kvmi_setup retries vm) w (fun x _ =>
    match x with
    | None => (calloc_ok w).1 = false
    | Some (s, _) => session_established s
    end).
Proof.
  unfold kvmi_setup. do 3 wp_step; boolify; [by wp_step|]. wp_step.
  eapply wp_mono; [apply open_kvm_device_total|]. intros kvm w1 _. wp_step.
  eapply wp_mono; [apply find_vm_pid_total|]. intros pid w2 Hpid. wp_step.
  apply (wp_mono _ _ (fun x _ => session_attached x.1)).
  { wp_step; [eapply wp_mono; [apply attach_process_spec|]; intros x w3 H; apply H|].
    wp_step. by split; cbn. }
  intros [s rt] w3 Hs. cbn [fst] in Hs. wp_step.
  eapply wp_mono; [by apply enumerate_spec|]. intros s1 w4 (L1 & L2 & L3). wp_step.
  eapply wp_mono; [apply capture_spec|]. intros s2 w5 H2. wp_step.
  destruct Hs as [_ F1 F2 (Z1 & Z2 & Z3 & Z4 & Z5 & Z6)]. rewrite L3 in H2.
  destruct H2 as [->|(pgd & -> & P1 & P2)]; split; cbn; try done.
  rewrite Z1. split; [done|lia].
Qed.
End setup.

(** ** A concrete host with one virtual machine *)

Definition demo_maps : list mapping := [
  Mapping 0x55d000000000 0x55d000400000 "r-xp" "00000000" "08:01" "131" 4 "/usr/bin/qemu";
  Mapping 0x7f0000000000 0x7f0000800000 "rw-p" "00000000" "00:01" "1025" 4 "/memfd:pc.ram (deleted)";
  Mapping 0x7f1000000000 0x7f1000400000 "rw-s" "00000000" "00:01" "1026" 4 "/dev/zero (deleted)";
  Mapping 0x7ffc00000000 0x7ffc00200000 "rw-p" "00000000" "00:00" "0" 4 "[stack]"].

Definition vm_host : mock := set_env (fun _ => list_to_map [
  ("/proc", "1 77 self");
  ("/proc/77/cmdline", "qemu -name guest1 -qmp unix:/tmp/qmp.sock,server");
  ("/proc/77/fd", "0 3 12");
  ("/proc/77/fd/3", "anon_inode:kvm-vm");
  ("/proc/77/fd/12", "anon_inode:kvm-vcpu:0");
  ("/proc/77/maps", maps_text demo_maps);
  ("/tmp/kvmi-guest1.sock", "socket")]) mock_init.

Example setup_demo :
  match kvmi_setup 3 "guest1" vm_host with
  | Some (Some (s, Some r), _) =>
      qemu_pid s = 77 /\ memslots s = lay_ram (List.filter is_ram demo_maps) 0 0 /\
      length (memslots s) = 2%nat /\ nr_vcpus s = 1 /\ control_fd s = 9 /\ vm_fd s = 6 /\
      kernel_pgd s = 0x1234000 /\ rt_dom r = 5 /\ rt_socket_path r = "/tmp/kvmi-guest1.sock"
  | _ => False
  end.
Proof. by vm_compute. Qed.

Lemma demo_maps_wf : Forall wf_mapping demo_maps.
Proof.
  unfold demo_maps. repeat apply Forall_cons_2; [..|apply Forall_nil_2].
  all: split; [done|done|split; [by split|cbn; lia]|by split|by split|by split|done|done|..].
  all: apply Nat.leb_le; vm_compute; reflexivity.
Qed.

(** ** Claims *)

Section claims.
Context {W : Type} `{OS : HostOS W} `{VH : !VmHost W}.
Implicit Types (s : vmi_session) (r : kvmi_runtime) (w : W).

(** C10. Setup returns, whatever /proc, QEMU and libkvmi answer, provided signals do not
    interrupt a write on the QMP socket for ever (at most any fixed number of times in a
    row; the code retries without a bound); it fails
    only when the session cannot be allocated; and the session it delivers is
    sound: the memory slots are RAM mappings of the QEMU process of at least
    2 MiB, laid end to end in guest-physical memory without overlap or
    wrap-around, so that the memory component's preconditions hold in every world;
    descriptors and vCPU counts stay inside their arrays; the page-table root is
    page aligned. *)
Theorem kvmi_setup_establishes_session retries `{QW : !QmpWrites W retries} `{SM : !StableMemory W} vm w :
  exists x w', kvmi_setup retries vm w = Some (x, w') /\
    match x with
    | None => (calloc_ok w).1 = false
    | Some (s, _) => session_established s /\ forall w2, readable s w2
    end.
Proof.
  destruct (setup_session retries vm w) as (x & w' & Hr & Hx). exists x, w'. split; [done|].
  destruct x as [[s rt]|]; [|done]. split; [done|]. intros w2. by apply laid_out_readable, Hx.
Qed.

Lemma fits_short n str : (0 < strlen str < n)%nat -> snprintf_fits n str = Some str.
Proof.
  intros H. unfold snprintf_fits.
  rewrite (proj2 (Nat.ltb_lt _ _)), (proj2 (Nat.ltb_lt _ _)) by lia. done.
Qed.

(** C37. Reading the memory map inverts the kernel's printing of it: on the text
    of /proc/<pid>/maps for any list of mappings, the slots of the session are the
    writable guest-RAM mappings in the order of the file, with their host addresses
    and sizes, laid end to end from guest address 0, provided that they are at most
    256 and fit in 64 bits. *)
Theorem enumerate_memslots_roundtrip s ms w :
  0 < qemu_pid s < 4294967296 -> Forall wf_mapping ms ->
  read_file ("/proc/" +:+ fmt_d (qemu_pid s) +:+ "/maps") w = Some (maps_text ms) ->
  (calloc_ok w).1 = true ->
  (length (List.filter is_ram ms) <= VMI_MAX_MEMSLOTS)%nat ->
  ram_bytes (List.filter is_ram ms) < 18446744073709551616 ->
  enumerate_memslots s w =
    Some (with_memslots (lay_ram (List.filter is_ram ms) 0 0) s, (calloc_ok w).2).
Proof.
  intros Hp Hms Hf Hc Hn Hb. unfold enumerate_memslots, enumerate_memslots_from_maps.
  change (qemu_pid (with_memslots [] s)) with (qemu_pid s).
  rewrite (proj2 (Z.leb_gt (qemu_pid s) 0)) by lia. rewrite fits_short; cycle 1.
  { unfold fmt_d. rewrite (proj2 (Z.ltb_ge _ _)) by lia. rewrite !strlen_app.
    pose proof (fmt_u_len_u32 (qemu_pid s) ltac:(ulia)). cbn [String.length]. lia. }
  unfold mbind, M_bind, gets, lift, mret, M_ret. rewrite Hf.
  destruct (calloc_ok w) as [ok w1]. cbn in Hc. subst ok. cbn [negb].
  rewrite fgets_maps_text by done. rewrite maps_loop_print by (done || lia). cbn [app length default from_option].
  destruct (List.filter is_ram ms); [by destruct s|]. cbn [lay_ram length Nat.eqb]. by destruct s.
Qed.

(** C36. The heartbeat tolerates two misses: a connected runtime whose domain
    stops answering reports failure twice and counts, and exactly the third miss
    starts a reconnection, which always finishes; it changes nothing of the session
    but the number of vCPUs, and either brings up a new domain with a clean miss
    counter or leaves the runtime without one. *)
Theorem heartbeat_third_miss_reconnects s r w w1 w2 w3 :
  rt_dom r <> 0 -> missed_heartbeats r = 0 -> rt_socket_path r <> EmptyString ->
  lib_domain_is_connected (rt_dom r) w = (false, w1) ->
  lib_domain_is_connected (rt_dom r) w1 = (false, w2) ->
  lib_domain_is_connected (rt_dom r) w2 = (false, w3) ->
  kvmi_session_heartbeat s (Some r) w = Some ((false, s, Some (with_misses 1 r)), w1) /\
  kvmi_session_heartbeat s (Some (with_misses 1 r)) w1 = Some ((false, s, Some (with_misses 2 r)), w2) /\
  exists ok s' r' w', kvmi_session_heartbeat s (Some (with_misses 2 r)) w2 = Some ((ok, s', Some r'), w') /\
    kvmi_runtime_reconnect s (with_misses 3 r) w3 = Some ((ok, s', r'), w') /\ vcpus_only s s' /\
    attempt (with_misses 3 r) (rt_socket_path r) (rt_vm_name r) ok r'.
Proof.
  intros Hd Hm Hp H1 H2 H3. apply Z.eqb_neq in Hd. unfold kvmi_session_heartbeat.
  change (rt_dom (with_misses ?n r)) with (rt_dom r). rewrite Hd, Hm.
  unfold mbind, M_bind, lift, mret, M_ret. rewrite H1, H2, H3. split; [done|]. split; [done|].
  destruct (reconnect_spec s (with_misses 3 r) w3) as ([[ok s'] r'] & w' & Hr & Hv & Ha).
  exists ok, s', r', w'. change (u32 (missed_heartbeats (with_misses 2 r) + 1)) with 3.
  change (with_misses 3 (with_misses 2 r)) with (with_misses 3 r).
  change (missed_heartbeats (with_misses 3 r) <? KVMI_HEARTBEAT_MAX_MISSES) with false.
  cbv beta iota. rewrite Hr. split; [done|]. split; [done|]. split; [exact Hv|].
  cbn in Ha. by destruct (rt_socket_path r).
Qed.

(** A failed reconnection silences the heartbeat: once the attempt that the
    third miss starts has failed, every later heartbeat returns success without
    asking libkvmi, in every world, and no further reconnection is made. *)
Theorem failed_reconnect_silences_heartbeat s r w s' rt' w' :
  rt_dom r <> 0 -> 2 <= missed_heartbeats r < 4294967295 -> rt_socket_path r <> EmptyString ->
  kvmi_session_heartbeat s (Some r) w = Some ((false, s', rt'), w') ->
  forall w2, kvmi_session_heartbeat s' rt' w2 = Some ((true, s', rt'), w2).
Proof.
  intros Hd Hm Hp Hr. apply Z.eqb_neq in Hd. unfold kvmi_session_heartbeat in Hr. rewrite Hd in Hr.
  apply bind_run in Hr as (c & w1 & H1 & Hr). destruct c; [done|].
  change (missed_heartbeats (with_misses ?n r)) with n in Hr.
  replace (u32 (missed_heartbeats r + 1)) with (missed_heartbeats r + 1) in Hr by ulia. unfold KVMI_HEARTBEAT_MAX_MISSES in Hr.
  rewrite (proj2 (Z.ltb_ge _ _)) in Hr by lia. apply bind_run in Hr as ([[ok s1] r1] & w3 & H3 & Hr).
  injection Hr as -> -> <- ->. pose proof (reconnect_spec s (with_misses (missed_heartbeats r + 1) r) w1) as Hs.
  eapply wp_run in Hs; [|exact H3]. destruct Hs as [_ Ha]. cbn [rt_socket_path with_misses] in Ha.
  destruct (rt_socket_path r) as [|c p]; [done|]. destruct Ha as [_ _ _ Hdead].
  destruct (Hdead eq_refl) as [Hz _]. intros w2. unfold kvmi_session_heartbeat. cbn [snd fst] in Hz. by rewrite Hz.
Qed.
End claims.

(** ** Witnesses *)

Definition demo_runtime : kvmi_runtime := Runtime 1 2 5 5 true 0 "guest1" "/tmp/kvmi-guest1.sock".
Definition attached_demo : vmi_session :=
  Session 6 6 (replicate 64 (-1)) 1 [] 77 (-1) 0 0 false 0 0 0.

(** libkvmi does not answer in this world. *)
Definition dead_host : mock :=
  Mock ∅ ∅ ∅ [] (0, 0) [] ∅ [] [] ["down"].

Lemma kvmi_setup_establishes_session_witness :
  exists s rt w', kvmi_setup 3 "guest1" vm_host = Some (Some (s, rt), w') /\
    session_established s /\ readable s vm_host /\ length (memslots s) = 2%nat.
Proof.
  destruct (kvmi_setup_establishes_session (W := mock) 3 "guest1" vm_host) as (x & w' & Hr & Hx).
  pose proof setup_demo as Hd. rewrite Hr in Hd. destruct x as [[s [r|]]|]; [|destruct Hd|destruct Hd].
  destruct Hx as [H1 H2]. exists s, (Some r), w'. split; [exact Hr|]. split; [exact H1|].
  split; [apply H2|]. apply Hd.
Defined.

Lemma enumerate_memslots_roundtrip_witness :
  enumerate_memslots attached_demo vm_host =
    Some (with_memslots (lay_ram (List.filter is_ram demo_maps) 0 0) attached_demo, (calloc_ok vm_host).2).
Proof.
  apply (enumerate_memslots_roundtrip (W := mock) attached_demo demo_maps vm_host).
  - split; reflexivity.
  - exact demo_maps_wf.
  - vm_compute. reflexivity.
  - reflexivity.
  - vm_compute. lia.
  - vm_compute. reflexivity.
Defined.

Lemma heartbeat_third_miss_reconnects_witness :
  exists ok s' r' w',
    kvmi_session_heartbeat attached_demo (Some (with_misses 2 demo_runtime)) dead_host =
      Some ((ok, s', Some r'), w').
Proof.
  destruct (heartbeat_third_miss_reconnects (W := mock) attached_demo demo_runtime dead_host dead_host
    dead_host dead_host) as (_ & _ & ok & s' & r' & w' & H & _).
  all: try done.
  by exists ok, s', r', w'.
Defined.

Lemma failed_reconnect_silences_heartbeat_witness :
  exists rt', kvmi_session_heartbeat attached_demo (Some (with_misses 2 demo_runtime)) dead_host =
      Some ((false, attached_demo, rt'), dead_host) /\
    kvmi_session_heartbeat attached_demo rt' dead_host = Some ((true, attached_demo, rt'), dead_host).
Proof.
  eexists. split; [vm_compute; reflexivity|].
  apply (failed_reconnect_silences_heartbeat (W := mock) attached_demo (with_misses 2 demo_runtime)
    dead_host attached_demo _ dead_host).
  - done.
  - cbn. lia.
  - done.
  - vm_compute. reflexivity.
Defined.
