(* ===== verification/VmiMain.v ===== *)
(** * The introspection daemon as a whole (main.c)

    The start-up phases and the event loop, composed from the components, and
    their joint invariant.  A signal handler that clears [running] is modelled by
    the number of iterations. *)

From S2P Require Import Prelude CStrings SlotTable HostOS MockHost VmiMemory VmiMemoryProofs.
From S2P Require Import PageWalk Bridge BridgeProofs BridgeMemory TaskWalker TaskWalkerProofs.
From S2P Require Import NptRegions NpfHandler NptGuard GuardProofs HekiServer HekiProofs KvmiSetup.
From S2P Require Import KvmiMapsProofs KvmiProofs.
From stdpp Require Import prelude strings list list_monad.
From Stdlib Require Import ZArith Lia Ascii.
#[local] Open Scope string_scope.
#[local] Open Scope list_scope.
#[local] Open Scope Z_scope.

Section main.
Context {W : Type} `{OS : HostOS W} `{VH : !VmHost W}.
Context (have_libbpf : bool) (retries : nat).

(** Guard, walker, bridge and host. *)
Abbreviation D := (guard_state * walker * (bridge * W))%type.

Definition on_guard {A} (m : M (guard_state * (bridge * W)) A) : M D A :=
  zoom (fun d => (d.1.1, d.2)) (fun st d => ((st.1, d.1.2), st.2)) m.
Definition on_walker {A} (m : M (walker * (bridge * W)) A) : M D A :=
  zoom (fun d => (d.1.2, d.2)) (fun st d => ((d.1.1, st.1), st.2)) m.
Definition on_bridge {A} (m : M (bridge * W) A) : M D A :=
  zoom snd (fun st d => (d.1, st)) m.
Definition on_host (f : W -> W) : M D unit := modify (fun d => (d.1, (d.2.1, f d.2.2))).
Definition the_session : M D vmi_session := gets (fun d => session d.1.1).

(** The four scans, in the order of the code. *)
Definition run_detectors : M D unit :=
  s ← the_session;
  _ ← on_walker (task_walker_detect_privilege_escalation have_libbpf s);
  _ ← on_walker (task_walker_detect_orphans have_libbpf s);
  _ ← on_walker (task_walker_detect_fork_bomb have_libbpf s 256);
  _ ← on_walker (task_walker_detect_suspicious_ancestry have_libbpf s);
  mret tt.

(** Phases 2 to 4; [false] is a fatal error. *)
Definition vmi_startup : M D bool :=
  s ← the_session;
  _ ← on_walker (task_walker_dump s);
  _ ← run_detectors;
  armed ← on_guard npt_guard_arm;
  if negb armed then mret false
  else
    ok ← on_bridge (bridge_init have_libbpf);
    if negb ok then _ ← on_guard npt_guard_disarm; mret false
    else
      heki_socket ← on_bridge (gets (fun st => getenv "TELOS_HEKI_VMI_SOCKET" st.2));
      _ ← (match heki_socket with
           | Some path => _ ← on_guard (heki_server_init path); mret tt
           | None => mret tt
           end);
      mret true.

(** The daemon with its libkvmi runtime. *)
Abbreviation K := (D * option kvmi_runtime)%type.

Definition on_daemon {A} (m : M D A) : M K A := zoom fst (fun d k => (d, k.2)) m.
Definition on_world {A} (m : M W A) : M K A :=
  zoom (fun k => k.1.2.2) (fun w k => ((k.1.1, (k.1.2.1, w)), k.2)) m.

(** The heartbeat acts on the shared session and on the runtime. *)
Definition beat : M K bool :=
  s ← gets (fun k : K => session k.1.1.1);
  rt ← gets snd;
  x ← on_world (kvmi_session_heartbeat s rt);
  let '(ok, s', rt') := x in
  _ ← modify (fun k : K => (((with_session s' k.1.1.1, k.1.1.2), k.1.2), rt'));
  mret ok.

(** The scans and the guard in one turn, without the heartbeat; [interval_us]
    is the sleep at its end. *)
Definition vmi_turn (interval_us : Z) : M D unit :=
  _ ← on_guard (npt_guard_handle_events have_libbpf);
  _ ← on_guard heki_server_poll;
  _ ← run_detectors;
  _ ← on_bridge (bridge_flush_alerts have_libbpf);
  on_host (usleep interval_us).

(** One turn of [while (running)]. *)
Definition vmi_iteration (interval_us : Z) : M K unit :=
  _ ← beat;
  on_daemon (vmi_turn interval_us).

Fixpoint vmi_loop (iterations : nat) (interval_us : Z) : M K unit :=
  match iterations with
  | O => mret tt
  | S n => _ ← vmi_iteration interval_us; vmi_loop n interval_us
  end.

(** The sleep of a turn, in microseconds; [int] arithmetic that overflows is
    undefined. *)
Definition scan_interval_us (interval_env : option string) : option Z :=
  let ms := match interval_env with Some v => atoi v | None => 250 end in
  let ms := if ms <=? 0 then 250 else ms in
  if ms * 1000 <=? 2147483647 then Some (ms * 1000) else None.

Definition vmi_shutdown : M D unit :=
  _ ← on_bridge (bridge_teardown have_libbpf);
  on_guard npt_guard_disarm.

(** The zero-initialised statics, with the session of phase 1. *)
Definition guard_boot (s : vmi_session) : guard_state :=
  Guard s (replicate (Z.to_nat SYS_CALL_TABLE_SIZE) 0) false 0 0 [] 0 0 (-1) 0.
Definition daemon_boot (s : vmi_session) (rt : option kvmi_runtime) (w : W) : K :=
  ((guard_boot s, walker_boot, (bridge_boot, w)), rt).

Definition teardown_session : M K unit :=
  s ← gets (fun k : K => session k.1.1.1);
  rt ← gets snd;
  on_world (kvmi_teardown s rt).

(** Phases 2 to 4, the loop and the shutdown; the exit status. *)
Definition vmi_run (iterations : nat) : M K Z :=
  up ← on_daemon vmi_startup;
  if negb up then _ ← teardown_session; mret 1
  else
    interval_env ← on_world (gets (getenv "VMI_SCAN_INTERVAL_MS"));
    match scan_interval_us interval_env with
    | None => stuck
    | Some us =>
        _ ← vmi_loop iterations us;
        _ ← on_daemon vmi_shutdown;
        _ ← teardown_session;
        mret 0
    end.

Definition vmi_main (vm_name : string) (iterations : nat) : M W Z := fun w =>
  match kvmi_setup retries vm_name w with
  | None => None
  | Some (None, w1) => Some (1, w1)
  | Some (Some (s, rt), w1) =>
      match vmi_run iterations (daemon_boot s rt w1) with
      | None => None
      | Some (code, k) => Some (code, k.1.2.2)
      end
  end.
End main.

(** ** The detectors on arbitrary guest memory *)

Section totality.
Context {W : Type} `{OS : HostOS W} `{SM : !StableMemory W} (have_libbpf : bool).
Context (s : vmi_session) (P : W -> Prop) `{PR : !PhysReads s P} `{PL : !PhysLive s P}.
Context (ok : bridge * W -> Prop) (reported : bridge * W -> Z -> Z -> Prop).
Context `{AS : !AlertSink have_libbpf ok reported}.
Context (ok_mem : forall bw, ok bw -> P bw.2).
Context (ok_same : forall b w w', same_mem w w' -> ok (b, w) -> ok (b, w')).
Context (reported_same : forall b w w' pid l, reported (b, w) pid l -> reported (b, w') pid l).
Abbreviation T := (walker * (bridge * W))%type.
Implicit Types (st : T) (t : walker).






End totality.

(** ** The event loop *)

Section loop.
Context {W : Type} `{OS : HostOS W} `{SM : !StableMemory W} `{QI : !QuietIO W} `{CW : !ClockWorks W}.
Context (have_libbpf : bool) (s : vmi_session) (P : W -> Prop).
Context `{PR : !PhysReads s P} `{PL : !PhysLive s P} `{MO : !MemoryOnly P} `{SS : !SleepSafe P}.
(** The attempts at delivery made up to some moment; they are history. *)
Context (base : list Bridge.attempt).
Abbreviation D := (guard_state * walker * (bridge * W))%type.
Abbreviation daemon_ok := (fun bw : bridge * W => bridge_since base bw /\ P bw.2).
Implicit Types (d : D).












End loop.

(** ** The heartbeat inside the loop *)

(** libkvmi calls leave memory and environment as they are. *)
Class QuietLib (W : Type) `{OS : HostOS W, SM : !StableMemory W, VH : !VmHost W} := {
  lib_connected_quiet d w : same_mem w (lib_domain_is_connected d w).2;
  lib_init_quiet p w : same_mem w (lib_init_unix_socket p w).2;
  lib_uninit_quiet h w : same_mem w (lib_uninit h w);
  lib_version_quiet d w : same_mem w (lib_get_version d w).2;
  lib_mapping_quiet d w : same_mem w (lib_memory_mapping d w).2;
  lib_count_quiet d w : same_mem w (lib_get_vcpu_count d w).2;
  lib_callbacks_quiet w : same_mem w (lib_callbacks w).2;
}.

#[global] Instance mock_quiet_lib : QuietLib mock.
Proof. split; intros; by split_and!. Qed.

Section heartbeat.
Context {W : Type} `{OS : HostOS W} `{SM : !StableMemory W} `{QI : !QuietIO W} `{CW : !ClockWorks W}.
Context `{VH : !VmHost W} `{QL : !QuietLib W}.
Context (P : W -> Prop) `{MO : !MemoryOnly P} `{SS : !SleepSafe P}.
Implicit Types (s : vmi_session) (r : kvmi_runtime) (w : W).

(** A computation that keeps memory readable, if it returns; it may sleep. *)
Definition calm {A} (m : M W A) : Prop := forall w a w', m w = Some (a, w') -> P w -> P w'.

Lemma calm_ret {A} (a : A) : calm (mret a).
Proof. intros w b w' [= <- <-]. done. Qed.

Lemma calm_bind {A B} (m : M W A) (f : A -> M W B) : calm m -> (forall a, calm (f a)) -> calm (m ≫= f).
Proof. intros Hm Hf w b w' Hr Hp. apply bind_run in Hr as (a & w1 & H1 & H2). eapply Hf; [done|]. by eapply Hm. Qed.

Lemma calm_lift {A} (f : W -> A * W) : (forall w, same_mem w (f w).2) -> calm (lift f).
Proof.
  intros Hf w a w' Hr Hp. unfold lift in Hr. injection Hr as Hr. pose proof (Hf w) as H. rewrite Hr in H.
  by eapply memory_only.
Qed.

Lemma calm_modify (f : W -> W) : (forall w, P w -> P (f w)) -> calm (modify f).
Proof. intros Hf w a w' [= <- <-]. apply Hf. Qed.

Ltac calm := repeat match goal with
  | |- calm (mret _) => apply calm_ret
  | |- calm (_ ≫= _) => apply calm_bind; [|intros ?]
  | |- calm (lift _) => apply calm_lift; intros ?;
      first [apply lib_connected_quiet | apply lib_init_quiet | apply lib_version_quiet
            | apply lib_mapping_quiet | apply lib_count_quiet | apply lib_callbacks_quiet]
  | |- calm (modify (usleep _)) => apply calm_modify; intros ?; apply sleep_safe
  | |- calm (modify _) => apply calm_modify; intros ?; apply memory_only, lib_uninit_quiet
  | |- calm (if ?b then _ else _) => destruct b
  | |- calm (match ?x with _ => _ end) => destruct x
  end.



End heartbeat.

Section whole.
Context {W : Type} `{OS : HostOS W} `{SM : !StableMemory W} `{QI : !QuietIO W} `{CW : !ClockWorks W}.
Context `{VH : !VmHost W} `{QL : !QuietLib W}.
Context (have_libbpf : bool) (s : vmi_session) (P : W -> Prop).
Context (PR : forall n, PhysReads (with_vcpus n s) P) (PL : forall n, PhysLive (with_vcpus n s) P).
Context `{MO : !MemoryOnly P} `{SS : !SleepSafe P}.
Abbreviation K := (guard_state * walker * (bridge * W) * option kvmi_runtime)%type.
Implicit Types (k : K).






End whole.

(** ** The session of phase 1 in the loop *)

Section established.
Context {W : Type} `{OS : HostOS W} `{VH : !VmHost W} (have_libbpf : bool).

(** The number of vCPUs does not matter to the memory component. *)
Lemma readable_vcpus `{SM : !StableMemory W} n s (w : W) : readable s w <-> readable (with_vcpus n s) w.
Proof. by split; intros [H1 H2 H3]; split. Qed.

#[global] Instance vcpus_phys_reads `{SM : !StableMemory W, RT : !ReadvTransfers W, DM : !DevMemDenied W} n s :
  PhysReads (with_vcpus n s) (readable s).
Proof.
  split. intros gpa buf w Hw. apply (readable_vcpus n) in Hw.
  eapply wp_mono; [by apply (phys_read (P := readable (with_vcpus n s)))|].
  intros r w' [H1 H2]. split; [by apply (readable_vcpus n)|done].
Qed.

#[global] Instance vcpus_phys_live
    `{SM : !StableMemory W, RT : !ReadvTransfers W, RL : !ReadvLive W, DM : !DevMemDenied W} n s :
  TCEq (0 <? qemu_pid s) true -> PhysLive (with_vcpus n s) (readable s).
Proof.
  intros Hp. split. intros gpa buf w r w' Hw. apply (readable_vcpus n) in Hw.
  by apply (phys_live (P := readable (with_vcpus n s))).
Qed.

Lemma detectors_inert (d : guard_state * walker * (bridge * W)) :
  init_task_addr (session d.1.1) = 0 -> run_detectors have_libbpf d = Some (tt, d).
Proof.
  intros Hz. unfold run_detectors, the_session, on_walker, zoom, task_walker_detect_privilege_escalation,
    task_walker_detect_orphans, task_walker_detect_fork_bomb, task_walker_detect_suspicious_ancestry,
    with_snapshot.
  unfold mbind, M_bind, gets. rewrite Hz. by destruct d as [[g t] bw].
Qed.

(** The process scans of the daemon never run: every session that setup
    delivers has no address of the guest's init task, no code of the daemon sets
    one later, and with such a session all four detectors return their error code
    without reading guest memory, without an alert and without touching any state,
    in the start-up phase as in every turn of the loop. *)
Theorem scans_inert_after_setup retries `{QW : !QmpWrites W retries} vm w s rt w' (d : guard_state * walker * (bridge * W)) :
  kvmi_setup retries vm w = Some (Some (s, rt), w') ->
  init_task_addr (session d.1.1) = init_task_addr s ->
  run_detectors have_libbpf d = Some (tt, d).
Proof.
  intros Hr Hd. apply detectors_inert. rewrite Hd.
  exact (proj1 (se_profile _ (wp_run _ _ _ _ _ (setup_session retries vm w) Hr))).
Qed.
End established.

(** ** Witnesses *)




Lemma scans_inert_after_setup_witness :
  run_detectors (W := mock) false (guard_boot attached_demo, walker_boot, (bridge_boot, vm_host)) =
    Some (tt, (guard_boot attached_demo, walker_boot, (bridge_boot, vm_host))).
Proof.
  destruct (kvmi_setup 3 "guest1" vm_host) as [[[[s rt]|] w']|] eqn:E.
  - apply (scans_inert_after_setup (W := mock) false 3 "guest1" vm_host s rt w' _ E).
    assert (match kvmi_setup 3 "guest1" vm_host with
            | Some (Some (s, _), _) => init_task_addr s = 0 | _ => False end) as H by (vm_compute; reflexivity).
    rewrite E in H. rewrite H. reflexivity.
  - assert ((match kvmi_setup 3 "guest1" vm_host with Some (None, _) => false | _ => true end) = true) as H
      by (vm_compute; reflexivity). rewrite E in H. discriminate H.
  - assert ((match kvmi_setup 3 "guest1" vm_host with None => false | _ => true end) = true) as H
      by (vm_compute; reflexivity). rewrite E in H. discriminate H.
Defined.
