(* ===== verification/VmiTamper.v ===== *)
(** * From a changed byte to the alert

    Guard, bridge and main loop composed: what one turn of the daemon's loop does about
    a guarded region that was tampered with. *)

From S2P Require Import Prelude CStrings SlotTable HostOS MockHost VmiMemory VmiMemoryProofs PageWalk Bridge BridgeProofs BridgeMemory.
From S2P Require Import NptRegions NpfHandler NptGuard HekiServer GuardProofs HekiProofs TaskWalker TaskWalkerProofs KvmiSetup VmiMain.
From stdpp Require Import prelude list strings.
From Stdlib Require Import ZArith Lia.
#[local] Open Scope string_scope.
#[local] Open Scope list_scope.
#[local] Open Scope Z_scope.




Section pass.
Context {W : Type} `{OS : HostOS W} `{SM : !StableMemory W} `{QI : !QuietIO W} `{CW : !ClockWorks W}.
Context (have_libbpf : bool) (s : vmi_session) (P : W -> Prop).
Context `{PR : !PhysReads s P} `{PL : !PhysLive s P} `{MO : !MemoryOnly P}.
Implicit Types (st : guard_state * (bridge * W)) (w : W) (b : bridge) (r : guard_region).



(** The sink with memory as in [w0] and the history [base]. *)
Definition pass_ok (w0 : W) base (bw : bridge * W) : Prop := bridge_since base bw /\ since P w0 bw.2.

#[local] Instance pass_sink w0 base : AlertSink have_libbpf (pass_ok w0 base) bridge_reported.
Proof. unfold pass_ok. apply memory_sink; apply _. Qed.








End pass.

Section turn.
Context {W : Type} `{OS : HostOS W} `{SM : !StableMemory W} `{QI : !QuietIO W} `{CW : !ClockWorks W}.
Context (have_libbpf : bool) (s : vmi_session) (P : W -> Prop).
Context `{PR : !PhysReads s P} `{PL : !PhysLive s P} `{MO : !MemoryOnly P} `{SS : !SleepSafe P}.
Implicit Types (d : guard_state * walker * (bridge * W)).


End turn.

(** ** Witness *)




