(* ===== verification/Enforcer.v ===== *)
(** * The system call enforcer (sentinel.bpf.c)

    The BPF maps, the shared check of the system call hooks, the hooks that
    deny unconditionally, fork tracking, the exit audits and the connect hook.

    A program runs to completion for one event of the kernel, described by a
    [hook_ctx]; the maps, the audit ring and the signals that were sent are the
    state.  [bpf_printk] is not modelled. *)

From S2P Require Import Prelude.
From stdpp Require Import prelude gmap list.
From Stdlib Require Import ZArith Lia.
#[local] Open Scope Z_scope.

(** ** Constants (common/sentinel_shared.h) *)

Definition ENFORCE_KILL : Z := 0.
Definition ENFORCE_PERMISSIVE : Z := 1.
Definition ENFORCE_TERM : Z := 2.

Definition EVENT_ALLOW : Z := 0.
Definition EVENT_BLOCK : Z := 1.
Definition EVENT_CFI_OK : Z := 2.
Definition EVENT_CFI_FAIL : Z := 3.
Definition EVENT_NR_MISMATCH : Z := 4.
Definition EVENT_FORK_TRACK : Z := 5.
Definition EVENT_FEXIT_OK : Z := 6.
Definition EVENT_PERMISSIVE : Z := 8.
Definition EVENT_LEARN : Z := 9.
Definition EVENT_SHADOW_OK : Z := 11.
Definition EVENT_SHADOW_FAIL : Z := 12.
Definition EVENT_FALLBACK : Z := 13.
Definition EVENT_KOBJ_DENY : Z := 14.

Definition MAX_SHADOW_DEPTH : nat := 8.
Definition POLICY_FLAG_CHECK_NR : Z := 4294967296.
Definition AF_INET : Z := 2.
Definition EPERM : Z := 1.
Definition SIGKILL : Z := 9.
Definition SIGTERM : Z := 15.

(** ** Data *)

Record audit_event := AuditEvent {
  timestamp_ns : Z;
  ev_tgid : Z;
  ev_tid : Z;
  syscall_rip : Z;
  ev_offset : Z;
  ev_module_id : Z;
  ev_syscall_nr : Z;
  action : Z;
}.

Record vma_value := VmaValue { module_id : Z; base_addr : Z }.
Record cfi_range := CfiRange { cfi_start : Z; cfi_end : Z }.

(** The configuration that the loader writes before the programs are loaded. *)
Record bpf_config := BpfConfig {
  audit_mode : Z;
  fexit_mode : Z;
  enforce_mode : Z;
  learn_mode : Z;
  shadow_cfi : Z;
  system_wide : Z;
  cgroup_filter : Z;
}.

(** *** The longest-prefix-match trie

    An entry is a prefix length and the 8 bytes of the key, in memory order;
    prefixes are compared bit by bit, the high bit of a byte first. *)

Record trie_entry := TrieEntry { te_prefixlen : nat; te_key : list Z; te_value : vma_value }.

Definition key_bit (key : list Z) (i : nat) : bool :=
  Z.testbit (default 0 (key !! (i / 8)%nat)) (7 - Z.of_nat (i mod 8)).

Definition prefix_match (n : nat) (a b : list Z) : bool :=
  forallb (fun i => Bool.eqb (key_bit a i) (key_bit b i)) (seq 0 n).

(** The best match for a full key: the longest prefix wins. *)
Fixpoint trie_best (t : list trie_entry) (key : list Z) : option trie_entry :=
  match t with
  | [] => None
  | e :: rest =>
      match trie_best rest key with
      | Some e' => if prefix_match (te_prefixlen e) (te_key e) key &&
                      (te_prefixlen e' <? te_prefixlen e)%nat then Some e else Some e'
      | None => if prefix_match (te_prefixlen e) (te_key e) key then Some e else None
      end
  end.

Definition trie_lookup (t : list trie_entry) (key : list Z) : option vma_value :=
  te_value <$> trie_best t key.

(** [BPF_ANY]: the entry of the same prefix is replaced; a new one needs room. *)
Definition same_prefix (n : nat) (key : list Z) (e : trie_entry) : bool :=
  (te_prefixlen e =? n)%nat && prefix_match n (te_key e) key.

Definition trie_update (capacity n : nat) (key : list Z) (v : vma_value) (t : list trie_entry)
  : option (list trie_entry) :=
  let t' := List.filter (fun e => negb (same_prefix n key e)) t in
  if (length t' <? capacity)%nat then Some (TrieEntry n key v :: t') else None.

Definition VMA_MAP_SIZE : nat := 512.

(** [__builtin_bswap64], and the bytes that the swapped address has in memory. *)
Definition bswap64 (x : Z) : Z := le_decode (rev (le_encode 8 x)).
Definition addr_key (addr : Z) : list Z := le_encode 8 (bswap64 addr).

(** *** The maps *)

Record enforcer := Enforcer {
  policy_registry : gmap Z (gmap Z Z);
  vma_map : list trie_entry;
  target_pid_map : gmap Z Z;
  cfi_policy : gmap Z cfi_range;
  cgroup_map : gmap Z Z;
  thread_policy_map : gmap (Z * Z) Z;
  learn_map : gmap Z Z;
  fallback_policy : gmap Z Z;
  blocklist_map : gmap Z Z;
  ring_free : nat;
  audit_ringbuf : list audit_event;
  signals : list (Z * Z);
}.

Definition TARGET_PID_MAP_SIZE : nat := 64.
Definition LEARN_MAP_SIZE : nat := 8192.

(** [bpf_map_update_elem] on a hash map with [BPF_ANY] or [BPF_NOEXIST]. *)
Definition hash_update `{Countable K} {V} (capacity : nat) (k : K) (v : V) (m : gmap K V) : option (gmap K V) :=
  match m !! k with
  | Some _ => Some (<[k := v]> m)
  | None => if (size m <? capacity)%nat then Some (<[k := v]> m) else None
  end.
Definition hash_update_noexist `{Countable K} {V} (capacity : nat) (k : K) (v : V) (m : gmap K V)
  : option (gmap K V) :=
  match m !! k with
  | Some _ => None
  | None => if (size m <? capacity)%nat then Some (<[k := v]> m) else None
  end.

Definition set_targets (m : gmap Z Z) (e : enforcer) : enforcer :=
  Enforcer (policy_registry e) (vma_map e) m (cfi_policy e) (cgroup_map e) (thread_policy_map e)
    (learn_map e) (fallback_policy e) (blocklist_map e) (ring_free e) (audit_ringbuf e) (signals e).
Definition set_learned (m : gmap Z Z) (e : enforcer) : enforcer :=
  Enforcer (policy_registry e) (vma_map e) (target_pid_map e) (cfi_policy e) (cgroup_map e)
    (thread_policy_map e) m (fallback_policy e) (blocklist_map e) (ring_free e) (audit_ringbuf e)
    (signals e).
Definition set_vma (t : list trie_entry) (e : enforcer) : enforcer :=
  Enforcer (policy_registry e) t (target_pid_map e) (cfi_policy e) (cgroup_map e)
    (thread_policy_map e) (learn_map e) (fallback_policy e) (blocklist_map e) (ring_free e)
    (audit_ringbuf e) (signals e).
Definition push_event (ev : audit_event) (e : enforcer) : enforcer :=
  Enforcer (policy_registry e) (vma_map e) (target_pid_map e) (cfi_policy e) (cgroup_map e)
    (thread_policy_map e) (learn_map e) (fallback_policy e) (blocklist_map e) (ring_free e - 1)
    (audit_ringbuf e ++ [ev]) (signals e).
Definition push_signal (tgid sig : Z) (e : enforcer) : enforcer :=
  Enforcer (policy_registry e) (vma_map e) (target_pid_map e) (cfi_policy e) (cgroup_map e)
    (thread_policy_map e) (learn_map e) (fallback_policy e) (blocklist_map e) (ring_free e)
    (audit_ringbuf e) (signals e ++ [(tgid, sig)]).

(** The kernel's side of one event: the current task, its user registers and
    stack ([None] when they cannot be had), and the clock. *)
Record hook_ctx := HookCtx {
  pid_tgid : Z;
  cgroup_id : Z;
  user_rip : option Z;
  user_stack : option (list Z);
  ktime : Z;
}.

Definition ctx_tgid (c : hook_ctx) : Z := u32 (Z.shiftr (pid_tgid c) 32).
Definition ctx_tid (c : hook_ctx) : Z := u32 (pid_tgid c).

(** [bpf_get_stack] into an array of [n] words: the words that were filled. *)
Definition get_stack (n : nat) (c : hook_ctx) : list Z :=
  match user_stack c with Some frames => take n frames | None => [] end.

Section programs.
Context (cfg : bpf_config).
Abbreviation E := enforcer.

Definition emit_audit (c : hook_ctx) (tgid tid rip offset mod_id nr act : Z) : M E unit :=
  room ← gets ring_free;
  match room with
  | O => mret tt
  | S _ => modify (push_event (AuditEvent (ktime c) tgid tid rip offset mod_id nr (u8 act)))
  end.

Definition bpf_send_signal (c : hook_ctx) (sig : Z) : M E unit :=
  modify (push_signal (ctx_tgid c) sig).

Definition deny_action (c : hook_ctx) (tgid tid rip offset mod_id nr event_type : Z) : M E unit :=
  if enforce_mode cfg =? ENFORCE_PERMISSIVE then
    emit_audit c tgid tid rip offset mod_id nr EVENT_PERMISSIVE
  else
    _ ← emit_audit c tgid tid rip offset mod_id nr event_type;
    if enforce_mode cfg =? ENFORCE_TERM then bpf_send_signal c SIGTERM
    else bpf_send_signal c SIGKILL.

(** *** The stages of [sentinel_check] *)

(** A return address inside a known module. *)
Definition known_vma (e : enforcer) (addr : Z) : bool :=
  match trie_lookup (vma_map e) (addr_key addr) with Some _ => true | None => false end.

(** The seven unrolled checks of [stack[1]] to [stack[7]]. *)
Fixpoint frames_known (e : enforcer) (stack : list Z) (i n : nat) : bool :=
  match n with
  | O => true
  | S n' =>
      match stack !! i with
      | None => true
      | Some ra => if known_vma e ra then frames_known e stack (S i) n' else false
      end
  end.

(** 7. Shadow stack: [true] is to go on with the check. *)
Definition shadow_check (c : hook_ctx) (site offset mod_id nr : Z) : M E bool :=
  if shadow_cfi cfg =? 0 then mret true
  else
    let stack := get_stack MAX_SHADOW_DEPTH c in
    if (2 <=? length stack)%nat then
      valid ← gets (fun e => frames_known e stack 1 7);
      if negb valid then
        _ ← deny_action c (ctx_tgid c) (ctx_tid c) site offset mod_id nr EVENT_SHADOW_FAIL;
        mret false
      else
        _ ← (if audit_mode cfg =? 0 then mret tt
             else emit_audit c (ctx_tgid c) (ctx_tid c) site offset mod_id nr EVENT_SHADOW_OK);
        mret true
    else mret true.

(** 8. Caller validation, where the site has a range; then the allow path. *)
Definition caller_check (c : hook_ctx) (site offset nr : Z) (m : vma_value) : M E unit :=
  range ← gets (fun e => cfi_policy e !! offset);
  match range with
  | Some r =>
      let stack := get_stack 4 c in
      if 16 <=? 8 * Z.of_nat (length stack) then
        let caller_offset := u64 (default 0 (stack !! 1%nat) - base_addr m) in
        if (cfi_start r <=? caller_offset) && (caller_offset <=? cfi_end r) then
          if audit_mode cfg =? 0 then mret tt
          else emit_audit c (ctx_tgid c) (ctx_tid c) site offset (module_id m) nr EVENT_CFI_OK
        else deny_action c (ctx_tgid c) (ctx_tid c) site offset (module_id m) nr EVENT_CFI_FAIL
      else deny_action c (ctx_tgid c) (ctx_tid c) site offset (module_id m) nr EVENT_CFI_FAIL
  | None =>
      if audit_mode cfg =? 0 then mret tt
      else emit_audit c (ctx_tgid c) (ctx_tid c) site offset (module_id m) nr EVENT_ALLOW
  end.

(** 6. The system call number that the rule binds. *)
Definition nr_check (c : hook_ctx) (site offset nr : Z) (m : vma_value) (rule : Z) : M E unit :=
  if negb (Z.land rule POLICY_FLAG_CHECK_NR =? 0) &&
     negb (u32 (Z.land rule 0xFFFFFFFF) =? nr) then
    deny_action c (ctx_tgid c) (ctx_tid c) site offset (module_id m) nr EVENT_NR_MISMATCH
  else
    go ← shadow_check c site offset (module_id m) nr;
    if go : bool then caller_check c site offset nr m else mret tt.

(** 4 and 5. The rule of the site in the policy of its module, and the limit of
    the thread. *)
Definition policy_check (c : hook_ctx) (site offset nr : Z) (m : vma_value) : M E unit :=
  thread_override ← gets (fun e => thread_policy_map e !! (ctx_tgid c, ctx_tid c));
  policy_map ← gets (fun e => policy_registry e !! module_id m);
  match policy_map with
  | None => deny_action c (ctx_tgid c) (ctx_tid c) site offset (module_id m) nr EVENT_BLOCK
  | Some policy =>
      match policy !! offset with
      | None => deny_action c (ctx_tgid c) (ctx_tid c) site offset (module_id m) nr EVENT_BLOCK
      | Some rule =>
          let limited := match thread_override with
                         | Some limit => negb (limit =? 0) && (limit <? nr)
                         | None => false
                         end in
          if limited then
            deny_action c (ctx_tgid c) (ctx_tid c) site offset (module_id m) nr EVENT_BLOCK
          else nr_check c site offset nr m rule
      end
  end.

(** 1 to 3. The call site, its module and its offset; learning. *)
Definition site_check (c : hook_ctx) (nr rip : Z) : M E unit :=
  let site := u64 (rip - 2) in
  m ← gets (fun e => trie_lookup (vma_map e) (addr_key site));
  match m with
  | None =>
      if negb (learn_mode cfg =? 0) then
        emit_audit c (ctx_tgid c) (ctx_tid c) site 0 0 nr EVENT_LEARN
      else deny_action c (ctx_tgid c) (ctx_tid c) site 0 0 nr EVENT_BLOCK
  | Some m =>
      let offset := u64 (site - base_addr m) in
      if negb (learn_mode cfg =? 0) then
        _ ← modify (fun e =>
              match hash_update_noexist LEARN_MAP_SIZE offset
                      (Z.lor (u64 (Z.shiftl (module_id m) 32)) nr) (learn_map e) with
              | Some l => set_learned l e
              | None => e
              end);
        emit_audit c (ctx_tgid c) (ctx_tid c) site offset (module_id m) nr EVENT_LEARN
      else policy_check c site offset nr m
  end.

(** A tracked process outside the enforced cgroups is left alone. *)
Definition in_cgroup_scope (c : hook_ctx) (e : enforcer) : bool :=
  (cgroup_filter cfg =? 0) ||
  match cgroup_map e !! cgroup_id c with Some _ => true | None => false end.

Definition sentinel_check (c : hook_ctx) (nr : Z) : M E Z :=
  target ← gets (fun e => target_pid_map e !! ctx_tgid c);
  match target with
  | None =>
      if system_wide cfg =? 0 then mret 0
      else
        fallback_ok ← gets (fun e => fallback_policy e !! nr);
        match fallback_ok with
        | Some _ => mret 0
        | None => _ ← deny_action c (ctx_tgid c) (ctx_tid c) 0 0 0 nr EVENT_FALLBACK; mret 0
        end
  | Some _ =>
      scoped ← gets (in_cgroup_scope c);
      if negb scoped then mret 0
      else
        match user_rip c with
        | None => _ ← deny_action c (ctx_tgid c) (ctx_tid c) 0 0 0 nr EVENT_BLOCK; mret 0
        | Some rip => _ ← site_check c nr rip; mret 0
        end
  end.

(** *** The hooks *)

Definition sentinel_write_check c := sentinel_check c 1.
Definition sentinel_read_check c := sentinel_check c 0.
Definition sentinel_openat_check c := sentinel_check c 257.
Definition sentinel_execve_check c := sentinel_check c 59.
Definition sentinel_mmap_check c := sentinel_check c 9.
Definition sentinel_mprotect_check c := sentinel_check c 10.
Definition sentinel_connect_check c := sentinel_check c 42.
Definition sentinel_memfd_create_check c := sentinel_check c 319.
Definition sentinel_prctl_check c := sentinel_check c 157.
Definition sentinel_sendmsg_check c := sentinel_check c 46.
Definition sentinel_dup2_check c := sentinel_check c 33.
Definition sentinel_close_check c := sentinel_check c 3.
Definition sentinel_ioctl_check c := sentinel_check c 16.

(** The hooks that deny every call of a monitored process. *)
Definition deny_monitored (nr event : Z) (c : hook_ctx) : M E Z :=
  target ← gets (fun e => target_pid_map e !! ctx_tgid c);
  match target with
  | None => mret 0
  | Some _ => _ ← deny_action c (ctx_tgid c) (ctx_tid c) 0 0 0 nr event; mret 0
  end.

Definition sentinel_ptrace_check := deny_monitored 101 EVENT_BLOCK.
Definition sentinel_process_vm_writev_check := deny_monitored 311 EVENT_BLOCK.
Definition sentinel_seccomp_check := deny_monitored 317 EVENT_BLOCK.
Definition sentinel_bpf_check := deny_monitored 321 EVENT_KOBJ_DENY.
Definition sentinel_unshare_check := deny_monitored 272 EVENT_KOBJ_DENY.
Definition sentinel_setns_check := deny_monitored 308 EVENT_KOBJ_DENY.

Definition fexit_audit (c : hook_ctx) (nr ret : Z) : M E unit :=
  if fexit_mode cfg =? 0 then mret tt
  else
    target ← gets (fun e => target_pid_map e !! ctx_tgid c);
    match target with
    | None => mret tt
    | Some _ => emit_audit c (ctx_tgid c) (ctx_tid c) 0 (u64 ret) 0 nr EVENT_FEXIT_OK
    end.

Definition sentinel_write_exit c ret := fexit_audit c 1 ret.
Definition sentinel_read_exit c ret := fexit_audit c 0 ret.
Definition sentinel_openat_exit c ret := fexit_audit c 257 ret.
Definition sentinel_mmap_exit c ret := fexit_audit c 9 ret.
Definition sentinel_connect_exit c ret := fexit_audit c 42 ret.

(** A child of a monitored process is enrolled when the table has room. *)
Definition sentinel_fork_track (c : hook_ctx) (parent_tgid child_tgid : Z) : M E Z :=
  tracked ← gets (fun e => target_pid_map e !! parent_tgid);
  match tracked with
  | None => mret 0
  | Some _ =>
      m ← gets (fun e => hash_update TARGET_PID_MAP_SIZE child_tgid 1 (target_pid_map e));
      match m with
      | None => mret 0
      | Some m' =>
          _ ← modify (set_targets m');
          _ ← emit_audit c parent_tgid child_tgid 0 0 0 0 EVENT_FORK_TRACK;
          mret 0
      end
  end.

(** [-EPERM] refuses the connection. *)
Definition sentinel_socket_connect (sa_family s_addr : Z) : M E Z :=
  if negb (sa_family =? AF_INET) then mret 0
  else
    blocked ← gets (fun e => blocklist_map e !! s_addr);
    match blocked with
    | Some b => if b =? 1 then mret (- EPERM) else mret 0
    | None => mret 0
    end.
End programs.
