(* ===== verification/EnforcerProofs.v ===== *)
(** * The enforcer: theorems

    The decision of the enforcer against a declarative policy, the behaviour of
    traces of kernel events, and the resolution of addresses to modules. *)

From S2P Require Import Prelude Enforcer.
From stdpp Require Import prelude gmap list.
From Stdlib Require Import ZArith Lia.
#[local] Open Scope Z_scope.

(** ** The policy *)

Section policy.
Context (cfg : bpf_config).
Implicit Types (e : enforcer) (c : hook_ctx) (m : vma_value).

Definition tracked e (tgid : Z) : Prop := is_Some (target_pid_map e !! tgid).

(** A thread with a limit stays at or below it. *)
Definition thread_ok e c (nr : Z) : Prop :=
  forall limit, thread_policy_map e !! (ctx_tgid c, ctx_tid c) = Some limit -> limit = 0 \/ nr <= limit.

(** A rule with bit 32 binds the system call number in its low 32 bits. *)
Definition nr_ok (rule nr : Z) : Prop := Z.testbit rule 32 = true -> rule mod 2 ^ 32 = nr.

Definition known_addr e (addr : Z) : Prop := is_Some (trie_lookup (vma_map e) (addr_key addr)).

(** With the shadow stack on and two frames available, the return addresses of
    frames 1 to 7 are in known modules. *)
Definition stack_ok e c : Prop :=
  shadow_cfi cfg <> 0 -> forall frames, user_stack c = Some frames -> (2 <= length frames)%nat ->
  forall (i : nat) ra, (1 <= i < 8)%nat -> frames !! i = Some ra -> known_addr e ra.

(** A site with a caller range was called from inside the range. *)
Definition caller_ok e c m (offset : Z) : Prop :=
  forall r, cfi_policy e !! offset = Some r ->
  exists frames ra, user_stack c = Some frames /\ frames !! 1%nat = Some ra /\
    cfi_start r <= u64 (ra - base_addr m) <= cfi_end r.

Definition site_of (rip : Z) : Z := u64 (rip - 2).
Definition offset_of (rip : Z) m : Z := u64 (site_of rip - base_addr m).

(** The policy allows the call. *)
Record permits e c (nr rip : Z) m (rule : Z) : Prop := {
  pm_rip : user_rip c = Some rip;
  pm_module : trie_lookup (vma_map e) (addr_key (site_of rip)) = Some m;
  pm_rule : exists policy, policy_registry e !! module_id m = Some policy /\
              policy !! offset_of rip m = Some rule;
  pm_thread : thread_ok e c nr;
  pm_nr : nr_ok rule nr;
  pm_stack : stack_ok e c;
  pm_caller : caller_ok e c m (offset_of rip m);
}.

Definition permitted e c (nr : Z) : Prop := exists rip m rule, permits e c nr rip m rule.

(** ** Frames *)

(** The maps are as before; audit ring and signals may differ. *)
Record same_maps e e' : Prop := {
  sm_registry : policy_registry e' = policy_registry e;
  sm_vma : vma_map e' = vma_map e;
  sm_targets : target_pid_map e' = target_pid_map e;
  sm_cfi : cfi_policy e' = cfi_policy e;
  sm_cgroup : cgroup_map e' = cgroup_map e;
  sm_thread : thread_policy_map e' = thread_policy_map e;
  sm_learn : learn_map e' = learn_map e;
  sm_fallback : fallback_policy e' = fallback_policy e;
  sm_block : blocklist_map e' = blocklist_map e;
}.

#[global] Instance same_maps_preorder : PreOrder same_maps.
Proof. split; [done|]. intros e1 e2 e3 [] []. split; congruence. Qed.

(** No signal was sent, and the maps are the same. *)
Definition silent e e' : Prop := same_maps e e' /\ signals e' = signals e.

#[global] Instance silent_preorder : PreOrder silent.
Proof.
  split; [done|]. intros e1 e2 e3 [H1 H2] [H3 H4]. split; [by transitivity e2|congruence].
Qed.

Definition deny_signal : Z := if enforce_mode cfg =? ENFORCE_TERM then SIGTERM else SIGKILL.

(** The process was signalled, once. *)
Definition denied c e e' : Prop :=
  same_maps e e' /\ signals e' = signals e ++ [(ctx_tgid c, deny_signal)].

Lemma emit_silent c tgid tid rip off mid nr act e :
  wp (emit_audit c tgid tid rip off mid nr act) e (fun _ e' => silent e e').
Proof. unfold emit_audit. do 3 wp_step; wp_step; done. Qed.

Lemma permissive_silent c tgid tid rip off mid nr act e :
  enforce_mode cfg = ENFORCE_PERMISSIVE ->
  wp (deny_action cfg c tgid tid rip off mid nr act) e (fun _ e' => silent e e').
Proof. intros Hp. unfold deny_action. rewrite Hp. apply emit_silent. Qed.

Lemma audit_silent c tgid tid rip off mid nr act e :
  wp (if audit_mode cfg =? 0 then mret tt else emit_audit c tgid tid rip off mid nr act) e
     (fun _ e' => silent e e').
Proof. wp_step; [by wp_step|apply emit_silent]. Qed.

Section enforcing.
Context (Henf : enforce_mode cfg <> ENFORCE_PERMISSIVE).

Lemma deny_denies c tgid tid rip off mid nr act e :
  wp (deny_action cfg c tgid tid rip off mid nr act) e (fun _ e' => denied c e e').
Proof.
  unfold deny_action, bpf_send_signal. rewrite (proj2 (Z.eqb_neq _ _) Henf). wp_step.
  eapply wp_mono; [apply emit_silent|]. intros [] e1 [H1 H2]. unfold denied, deny_signal.
  wp_step; wp_step; (split; [transitivity e1; [done|by split]|cbn; by rewrite H2]).
Qed.

(** What the check does, given whether the policy allows the call. *)
Definition decided (P : Prop) c e e' : Prop := (P /\ silent e e') \/ (~ P /\ denied c e e').

Lemma decided_iff (P Q : Prop) c e e' : (P <-> Q) -> decided P c e e' -> decided Q c e e'.
Proof. unfold decided. tauto. Qed.

Lemma deny_decides (P : Prop) c tgid tid rip off mid nr act e :
  ~ P -> wp (deny_action cfg c tgid tid rip off mid nr act) e (fun _ e' => decided P c e e').
Proof. intros HP. eapply wp_mono; [apply deny_denies|]. intros [] e' H. by right. Qed.

(** A silent step before a decision. *)
Lemma decided_after (P : Prop) c e e1 e' : silent e e1 -> decided P c e1 e' -> decided P c e e'.
Proof.
  intros Hs [[HP H]|[HP [H1 H2]]]; [left|right]; (split; [done|]); [by transitivity e1|].
  destruct Hs as [S1 S2]. split; [by transitivity e1|congruence].
Qed.

(** ** The stages *)

Lemma caller_decides c site nr m offset e :
  wp (caller_check cfg c site offset nr m) e (fun _ e' => decided (caller_ok e c m offset) c e e').
Proof.
  unfold caller_check. do 2 wp_step. destruct (cfi_policy e !! offset) as [r|] eqn:Er; cycle 1.
  { eapply wp_mono; [apply audit_silent|]. intros [] e' H. left. split; [|done].
    intros r Hr. congruence. }
  unfold get_stack. destruct (user_stack c) as [frames|] eqn:Es; cycle 1.
  { apply deny_decides. intros H. destruct (H r Er) as (f & ra & Hf & _). congruence. }
  destruct (frames !! 1%nat) as [ra|] eqn:Era.
  - pose proof (lookup_lt_Some _ _ _ Era).
    destruct (16 <=? _) eqn:El; boolify; rewrite length_take in El; [|lia].
    rewrite lookup_take_lt, Era by lia. change (default 0 (Some ra)) with ra.
    wp_step; boolify.
    + eapply wp_mono; [apply audit_silent|]. intros [] e' Hs. left. split; [|done].
      intros r' Hr. simplify_eq. by exists frames, ra.
    + apply deny_decides. intros Hok. destruct (Hok r Er) as (f & ra' & Hf & Hra & Hin). simplify_eq.
      apply andb_false_iff in E as [E|E]; boolify; lia.
  - apply lookup_ge_None in Era.
    destruct (16 <=? _) eqn:El; boolify; rewrite length_take in El; [lia|].
    apply deny_decides. intros Hok. destruct (Hok r Er) as (f & ra' & Hf & Hra & _). simplify_eq.
    apply lookup_lt_Some in Hra. lia.
Qed.

Lemma frames_known_spec e stack i n :
  frames_known e stack i n = true <->
  (forall (j : nat) ra, (i <= j < i + n)%nat -> stack !! j = Some ra -> known_addr e ra).
Proof.
  revert i. induction n as [|n IH]; intros i; cbn [frames_known]; [split; [intros _ j; lia|done]|].
  destruct (stack !! i) as [ra|] eqn:Ei; cycle 1.
  { split; [|done]. intros _ j ra Hj Hs. apply lookup_ge_None in Ei. apply lookup_lt_Some in Hs. lia. }
  unfold known_vma. destruct (trie_lookup _ _) as [v|] eqn:Ev.
  - rewrite IH. split; intros H j x Hj Hs.
    + destruct (decide (j = i)) as [->|]; [|by apply (H j); [lia|]]. simplify_eq. by exists v.
    + apply (H j x); [lia|done].
  - split; [done|]. intros H. destruct (H i ra ltac:(lia) Ei) as [v Hv]. congruence.
Qed.

Lemma shadow_decides c site offset mid nr e :
  wp (shadow_check cfg c site offset mid nr) e (fun go e' =>
    if go : bool then stack_ok e c /\ silent e e' else ~ stack_ok e c /\ denied c e e').
Proof.
  unfold shadow_check. wp_step; boolify; [wp_step; split; [intros ?; done|done]|].
  unfold get_stack. destruct (user_stack c) as [frames|] eqn:Es; cycle 1.
  { wp_step; [done|]. wp_step. split; [|done]. intros _ f Hf. congruence. }
  assert (frames_known e (take MAX_SHADOW_DEPTH frames) 1 7 = true <->
    forall (i : nat) ra, (1 <= i < 8)%nat -> frames !! i = Some ra -> known_addr e ra) as Hk.
  { rewrite frames_known_spec. unfold MAX_SHADOW_DEPTH. split; intros H i ra Hi Hr.
    - apply (H i ra); [lia|]. by rewrite lookup_take_lt by lia.
    - apply (H i ra); [lia|]. by rewrite lookup_take_lt in Hr by lia. }
  unfold MAX_SHADOW_DEPTH in *. wp_step; boolify; cycle 1.
  { wp_step. split; [|done]. intros _ f Hf Hlen. simplify_eq. rewrite length_take in E0. lia. }
  rewrite length_take in E0. do 3 wp_step; boolify.
  - wp_step. eapply wp_mono; [apply deny_denies|]. intros [] e' Hd. wp_step. split; [|done].
    intros Hok. rewrite (proj2 Hk) in E1; [done|]. intros i ra Hi Hr. apply (Hok E frames Es ltac:(lia) i ra Hi Hr).
  - wp_step. eapply wp_mono; [apply audit_silent|]. intros [] e' Hs. wp_step. split; [|done].
    intros _ f Hf _ i ra Hi Hr. simplify_eq. by apply (proj1 Hk E1 i).
Qed.

(** The conditions depend on the maps only. *)
Lemma caller_ok_maps c m offset e e' : same_maps e e' -> caller_ok e' c m offset <-> caller_ok e c m offset.
Proof. intros []. unfold caller_ok. by rewrite sm_cfi0. Qed.

Lemma bound_nr_ok rule nr :
  (negb (Z.land rule POLICY_FLAG_CHECK_NR =? 0) && negb (u32 (Z.land rule 0xFFFFFFFF) =? nr)) = false <->
  nr_ok rule nr.
Proof.
  unfold nr_ok, POLICY_FLAG_CHECK_NR. change 4294967296 with (2 ^ 32). rewrite land_bit_zero by lia.
  rewrite negb_involutive. change 0xFFFFFFFF with (Z.ones 32). rewrite Z.land_ones by lia.
  unfold u32. change 4294967296 with (2 ^ 32). rewrite Z.mod_mod by lia.
  destruct (Z.testbit rule 32); cbn [andb]; [|done].
  rewrite negb_false_iff, Z.eqb_eq. tauto.
Qed.

Lemma nr_decides c site offset nr m rule e :
  wp (nr_check cfg c site offset nr m rule) e (fun _ e' =>
    decided (nr_ok rule nr /\ stack_ok e c /\ caller_ok e c m offset) c e e').
Proof.
  unfold nr_check. destruct (_ && _) eqn:En.
  { apply deny_decides. intros [H _]. apply bound_nr_ok in H. congruence. }
  apply bound_nr_ok in En. wp_step. eapply wp_mono; [apply shadow_decides|].
  intros [] e1 [H1 H2].
  - eapply wp_mono; [apply caller_decides|]. intros [] e2 H. apply (decided_after _ _ _ e1); [done|].
    eapply decided_iff; [|exact H]. rewrite caller_ok_maps by apply H2. tauto.
  - wp_step. right. split; [tauto|done].
Qed.

(** The rule that the policy has for an offset of a module. *)
Definition rule_at e m (offset : Z) : option Z :=
  match policy_registry e !! module_id m with Some policy => policy !! offset | None => None end.

Lemma policy_decides c site offset nr m e :
  wp (policy_check cfg c site offset nr m) e (fun _ e' =>
    decided (exists rule, rule_at e m offset = Some rule /\ thread_ok e c nr /\
               nr_ok rule nr /\ stack_ok e c /\ caller_ok e c m offset) c e e').
Proof.
  unfold policy_check, rule_at. do 4 wp_step. destruct (policy_registry e !! module_id m) as [policy|]; cycle 1.
  { apply deny_decides. by intros (? & ? & _). }
  destruct (policy !! offset) as [rule|]; cycle 1.
  { apply deny_decides. by intros (? & ? & _). }
  assert (thread_ok e c nr <-> match thread_policy_map e !! (ctx_tgid c, ctx_tid c) with
    | Some limit => negb (limit =? 0) && (limit <? nr) | None => false end = false) as Ht.
  { unfold thread_ok. destruct (thread_policy_map e !! _) as [l|]; [|by split].
    rewrite andb_false_iff, negb_false_iff, Z.eqb_eq, Z.ltb_ge. split; [intros H; by apply H|].
    by intros H l' [= <-]. }
  wp_step.
  - apply deny_decides. intros (? & _ & H & _). by apply Ht in H.
  - eapply wp_mono; [apply nr_decides|]. intros [] e' H. eapply decided_iff; [|exact H].
    split; [intros (? & ? & ?); exists rule; tauto|]. intros (r & [= <-] & _ & H'). tauto.
Qed.

Lemma site_decides c nr rip e :
  learn_mode cfg = 0 -> user_rip c = Some rip ->
  wp (site_check cfg c nr rip) e (fun _ e' => decided (permitted e c nr) c e e').
Proof.
  intros Hl Hrip. unfold site_check. rewrite Hl. change (negb (0 =? 0)) with false. do 2 wp_step.
  fold (site_of rip). destruct (trie_lookup _ _) as [m|] eqn:Em; cycle 1.
  { apply deny_decides. intros (rip' & m & rule & [H1 H2 _ _ _ _ _]). congruence. }
  fold (offset_of rip m). eapply wp_mono; [apply policy_decides|]. intros [] e' H.
  eapply decided_iff; [|exact H]. unfold rule_at. split.
  - intros (rule & Hr & H1 & H2 & H3 & H4). exists rip, m, rule. split; try done.
    destruct (policy_registry e !! module_id m) as [p|]; [by exists p|done].
  - intros (rip' & m' & rule & [P1 P2 (p & P3 & P4) P5 P6 P7 P8]). simplify_eq. exists rule. by rewrite P3.
Qed.

(** A monitored process in an enforced cgroup. *)
Definition in_scope e c : Prop := tracked e (ctx_tgid c) /\ in_cgroup_scope cfg c e = true.

Lemma check_decides c nr e :
  learn_mode cfg = 0 -> in_scope e c ->
  wp (sentinel_check cfg c nr) e (fun r e' => r = 0 /\ decided (permitted e c nr) c e e').
Proof.
  intros Hl [[t Ht] Hs]. unfold sentinel_check. do 2 wp_step. rewrite Ht. do 2 wp_step. rewrite Hs.
  cbn [negb]. destruct (user_rip c) as [rip|] eqn:Er.
  - wp_step. eapply wp_mono; [by apply site_decides|]. intros [] e' H. by wp_step.
  - wp_step. eapply wp_mono; [apply (deny_decides (permitted e c nr))|].
    + intros (rip & m & rule & [H _ _ _ _ _ _]). congruence.
    + intros [] e' H. by wp_step.
Qed.
End enforcing.

(** ** Any event, in any mode *)

(** The events of the kernel that run a program of the enforcer. *)
Inductive kernel_event :=
| EvSyscall (c : hook_ctx) (nr : Z)
| EvForbidden (c : hook_ctx) (nr event : Z)
| EvReturn (c : hook_ctx) (nr ret : Z)
| EvFork (c : hook_ctx) (parent child : Z)
| EvConnect (family addr : Z).

Definition run_event (ev : kernel_event) : M enforcer Z :=
  match ev with
  | EvSyscall c nr => sentinel_check cfg c nr
  | EvForbidden c nr event => deny_monitored cfg nr event c
  | EvReturn c nr ret => _ ← fexit_audit cfg c nr ret; mret 0
  | EvFork c parent child => sentinel_fork_track c parent child
  | EvConnect family addr => sentinel_socket_connect family addr
  end.

Fixpoint run_events (evs : list kernel_event) : M enforcer unit :=
  match evs with
  | [] => mret tt
  | ev :: rest => _ ← run_event ev; run_events rest
  end.

(** The maps that hold the policy. *)
Record same_policy e e' : Prop := {
  sp_registry : policy_registry e' = policy_registry e;
  sp_vma : vma_map e' = vma_map e;
  sp_cfi : cfi_policy e' = cfi_policy e;
  sp_cgroup : cgroup_map e' = cgroup_map e;
  sp_thread : thread_policy_map e' = thread_policy_map e;
  sp_fallback : fallback_policy e' = fallback_policy e;
  sp_block : blocklist_map e' = blocklist_map e;
}.

(** What every event preserves: the policy, the enrolment of every monitored
    process, the capacity of the table, and in permissive mode the signals. *)
Record event_ok e e' : Prop := {
  eo_policy : same_policy e e';
  eo_tracked : forall pid, tracked e pid -> tracked e' pid;
  eo_room : (size (target_pid_map e) <= TARGET_PID_MAP_SIZE)%nat ->
            (size (target_pid_map e') <= TARGET_PID_MAP_SIZE)%nat;
  eo_permissive : enforce_mode cfg = ENFORCE_PERMISSIVE -> signals e' = signals e;
  eo_signals : exists sent, signals e' = signals e ++ sent;
}.

#[global] Instance event_ok_preorder : PreOrder event_ok.
Proof.
  split.
  - intros e. split; try done. exists []. by rewrite app_nil_r.
  - intros e1 e2 e3 [P1 T1 R1 S1 [l1 L1]] [P2 T2 R2 S2 [l2 L2]]. split; [|auto..|].
    + destruct P1, P2. split; congruence.
    + intros Hp. rewrite S2, S1; done.
    + exists (l1 ++ l2). by rewrite L2, L1, app_assoc.
Qed.

(** The effect of a program on the audit ring and on the signals only. *)
Record quiet_step e e' : Prop := {
  qs_maps : same_maps e e';
  qs_permissive : enforce_mode cfg = ENFORCE_PERMISSIVE -> signals e' = signals e;
  qs_signals : exists sent, signals e' = signals e ++ sent;
}.

Lemma quiet_event_ok e e' : quiet_step e e' -> event_ok e e'.
Proof.
  intros [[H1 H2 H3 H4 H5 H6 H7 H8 H9] Hp Hs]. split; [by split| | |done|done].
  - unfold tracked. by rewrite H3.
  - by rewrite H3.
Qed.

Lemma silent_quiet e e' : silent e e' -> quiet_step e e'.
Proof. intros [H1 H2]. split; [done|done|]. exists []. by rewrite app_nil_r. Qed.

Lemma deny_quiet c tgid tid rip off mid nr act e :
  wp (deny_action cfg c tgid tid rip off mid nr act) e (fun _ e' => quiet_step e e').
Proof.
  destruct (decide (enforce_mode cfg = ENFORCE_PERMISSIVE)) as [Hp|Hp].
  - eapply wp_mono; [by apply permissive_silent|]. intros [] e'. apply silent_quiet.
  - eapply wp_mono; [by apply deny_denies|]. intros [] e' [H1 H2]. split; [done|done|by eexists].
Qed.

Lemma emit_quiet c tgid tid rip off mid nr act e :
  wp (emit_audit c tgid tid rip off mid nr act) e (fun _ e' => quiet_step e e').
Proof. eapply wp_mono; [apply emit_silent|]. intros [] e'. apply silent_quiet. Qed.

(** Programs that finish and stay inside a relation, from any state. *)
Section safety.
Context (R : relation enforcer) `{RP : !PreOrder R}.
Context (R_quiet : forall e e', quiet_step e e' -> R e e') (R_learn : forall l e, R e (set_learned l e)).

Definition safe {A} (m : M enforcer A) : Prop := forall e, wp m e (fun _ e' => R e e').

Lemma safe_bind {A B} (m : M enforcer A) (f : A -> M enforcer B) :
  safe m -> (forall a, safe (f a)) -> safe (m ≫= f).
Proof.
  intros Hm Hf e. wp_step. eapply wp_mono; [apply Hm|]. intros a e1 H1.
  eapply wp_mono; [apply Hf|]. intros b e2 H2. by transitivity e1.
Qed.

Lemma safe_ret {A} (a : A) : safe (mret a).
Proof. intros e. wp_step. reflexivity. Qed.

Lemma safe_gets {A} (f : enforcer -> A) : safe (gets f).
Proof. intros e. wp_step. reflexivity. Qed.

Lemma safe_learn k v :
  safe (modify (fun e => match hash_update_noexist LEARN_MAP_SIZE k v (learn_map e) with
                         | Some l => set_learned l e | None => e end)).
Proof. intros e. wp_step. destruct (hash_update_noexist _ _ _ _); [apply R_learn|reflexivity]. Qed.

Lemma safe_deny c tgid tid rip off mid nr act : safe (deny_action cfg c tgid tid rip off mid nr act).
Proof. intros e. eapply wp_mono; [apply deny_quiet|]. intros [] e'. apply R_quiet. Qed.

Lemma safe_emit c tgid tid rip off mid nr act : safe (emit_audit c tgid tid rip off mid nr act).
Proof. intros e. eapply wp_mono; [apply emit_quiet|]. intros [] e'. apply R_quiet. Qed.

Ltac safe := repeat match goal with
  | |- safe (mret _) => apply safe_ret
  | |- safe (gets _) => apply safe_gets
  | |- safe (_ ≫= _) => apply safe_bind; [|intros ?]
  | |- safe (deny_action _ _ _ _ _ _ _ _ _) => apply safe_deny
  | |- safe (emit_audit _ _ _ _ _ _ _ _) => apply safe_emit
  | |- safe (modify _) => apply safe_learn
  | |- safe (if ?b then _ else _) => destruct b
  | |- safe (match ?x with _ => _ end) => destruct x
  end.

Lemma safe_events ev :
  (forall c parent child, ev = EvFork c parent child -> safe (sentinel_fork_track c parent child)) ->
  safe (run_event ev).
Proof.
  intros Hf. destruct ev; cbn [run_event]; [..|by apply Hf|].
  - unfold sentinel_check, site_check, policy_check, nr_check, caller_check, shadow_check. safe.
  - unfold deny_monitored. safe.
  - unfold fexit_audit. safe.
  - unfold sentinel_socket_connect. safe.
Qed.
End safety.

Lemma fork_safe c parent child : safe event_ok (sentinel_fork_track c parent child).
Proof.
  unfold sentinel_fork_track. intros e. do 3 wp_step; [|by wp_step]. do 3 wp_step; [|by wp_step].
  wp_step. wp_step. wp_step. eapply wp_mono; [apply emit_quiet|]. intros [] e' He%quiet_event_ok. wp_step.
  transitivity (set_targets g e); [|done]. clear He. unfold hash_update in E0. split; [by split| | |done|].
  - intros pid Hp. unfold tracked in *. cbn. destruct (target_pid_map e !! child); [|case_match]; simplify_eq.
    all: destruct (decide (pid = child)) as [->|]; [by rewrite lookup_insert_eq|by rewrite lookup_insert_ne].
  - cbn. intros Hr. destruct (target_pid_map e !! child) eqn:Ec; [|case_match]; simplify_eq.
    + by rewrite map_size_insert_Some by (by eexists).
    + rewrite map_size_insert_None by done. boolify. unfold TARGET_PID_MAP_SIZE in *. lia.
  - exists []. by rewrite app_nil_r.
Qed.

Lemma event_safe ev : safe event_ok (run_event ev).
Proof.
  apply safe_events.
  - apply _.
  - exact quiet_event_ok.
  - intros l e. split; try done. exists []. by rewrite app_nil_r.
  - intros c parent child _. apply fork_safe.
Qed.

Lemma events_safe evs : safe event_ok (run_events evs).
Proof.
  induction evs as [|ev evs IH]; cbn [run_events]; [apply safe_ret, _|].
  apply safe_bind; [apply _|apply event_safe|done].
Qed.

(** ** Fork tracking along a trace *)

(** The processes that descend from those in [roots], in the order of the
    trace. *)
Fixpoint descendants (roots : list Z) (evs : list kernel_event) : list Z :=
  match evs with
  | [] => roots
  | EvFork _ parent child :: rest =>
      descendants (if bool_decide (parent ∈ roots) then child :: roots else roots) rest
  | _ :: rest => descendants roots rest
  end.

Fixpoint forks (evs : list kernel_event) : nat :=
  match evs with
  | [] => 0
  | EvFork _ _ _ :: rest => S (forks rest)
  | _ :: rest => forks rest
  end.

Lemma fork_enrols c parent child e :
  tracked e parent -> (size (target_pid_map e) < TARGET_PID_MAP_SIZE)%nat ->
  wp (sentinel_fork_track c parent child) e (fun _ e' =>
    tracked e' child /\ (size (target_pid_map e') <= S (size (target_pid_map e)))%nat).
Proof.
  intros [t Ht] Hs. unfold sentinel_fork_track. do 2 wp_step. rewrite Ht. do 2 wp_step.
  assert (hash_update TARGET_PID_MAP_SIZE child 1 (target_pid_map e) = Some (<[child := 1]> (target_pid_map e)))
    as ->.
  { unfold hash_update. rewrite (proj2 (Nat.ltb_lt _ _)) by done. by destruct (_ !! child). }
  wp_step. wp_step. wp_step. eapply wp_mono; [apply emit_silent|]. intros [] e' [H _]. wp_step.
  unfold tracked. rewrite (sm_targets _ _ H). cbn. split; [by rewrite lookup_insert_eq|].
  rewrite map_size_insert. destruct (_ !! child); cbn; lia.
Qed.

(** A fork of a process outside the table changes nothing. *)
Lemma fork_ignored c parent child e :
  target_pid_map e !! parent = None -> sentinel_fork_track c parent child e = Some (0, e).
Proof. intros H. unfold sentinel_fork_track, mbind, M_bind, gets. by rewrite H. Qed.

(** An event that is not a fork leaves the table as it is. *)
Lemma other_events_keep ev :
  (forall c parent child, ev <> EvFork c parent child) ->
  safe (fun e e' => target_pid_map e' = target_pid_map e) (run_event ev).
Proof.
  intros Hn. apply safe_events.
  - split; [done|]. intros e1 e2 e3 H1 H2. congruence.
  - intros e e' H. apply H.
  - done.
  - intros c parent child E. by destruct (Hn c parent child).
Qed.

(** Along a trace, as long as the table has room for every fork. *)
Lemma descendants_enrolled evs : forall roots e,
  (forall pid, pid ∈ roots -> tracked e pid) ->
  (size (target_pid_map e) + forks evs <= TARGET_PID_MAP_SIZE)%nat ->
  wp (run_events evs) e (fun _ e' => forall pid, pid ∈ descendants roots evs -> tracked e' pid).
Proof.
  induction evs as [|ev evs IH]; intros roots e Hr Hs; cbn [run_events]; [by wp_step|]. wp_step.
  assert ((exists c p ch, ev = EvFork c p ch) \/ (forall c p ch, ev <> EvFork c p ch)) as Hev
    by (destruct ev; eauto 10).
  destruct Hev as [(c & parent & child & ->)|Hn'].
  - cbn [forks descendants run_event] in *. destruct (target_pid_map e !! parent) as [t|] eqn:Et.
    + destruct (fork_enrols c parent child e) as (r & e1 & Hrun & Hc & Hsz); [by exists t|lia|].
      exists r, e1. split; [done|]. apply IH; [|lia]. pose proof (fork_safe c parent child e) as Hk.
      eapply wp_run in Hk; [|exact Hrun]. intros pid Hpid.
      case_bool_decide; [apply elem_of_cons in Hpid as [->|Hpid]; [done|]|].
      all: by apply (eo_tracked _ _ Hk), Hr.
    + rewrite bool_decide_eq_false_2; cycle 1.
      { intros Hin. destruct (Hr _ Hin) as [t Ht]. congruence. }
      exists 0, e. split; [by apply fork_ignored|]. apply IH; [done|lia].
  - eapply wp_mono; [by apply other_events_keep|]. intros r e1 Ht. cbn beta in Ht.
    assert (forks (ev :: evs) = forks evs /\ descendants roots (ev :: evs) = descendants roots evs) as [Hf ->].
    { destruct ev; try done. by destruct (Hn' c parent child). }
    apply IH; [|rewrite Ht; lia]. intros pid Hp. unfold tracked. rewrite Ht. by apply Hr.
Qed.
End policy.
