(* ===== verification/LoaderPolicy.v ===== *)
(** * The policy that the loader installs (loader.c)

    Decoding the [.sentinel] section, filling the policy map of the main
    binary, and attributing the address range of a module to it in the trie.
    ELF access is libelf's: the section arrives as its bytes. *)

From S2P Require Import Prelude CStrings KvmiSetup Enforcer.
From stdpp Require Import prelude gmap strings list.
From Stdlib Require Import ZArith Lia Ascii.
#[local] Open Scope string_scope.
#[local] Open Scope list_scope.
#[local] Open Scope Z_scope.

Definition SENTINEL_POLICY_MAGIC : Z := 0x53454E54.
Definition SENTINEL_POLICY_VERSION : Z := 2.
Definition MAX_POLICY_ENTRIES : nat := 4096.
Definition POLICY_MAP_SIZE : nat := 4096.
Definition ENTRY_SIZE : nat := 24.
Definition VMA_BLOCK_SIZE : Z := 0x100000.
Definition VMA_BLOCK_PREFIX : nat := 44.
Definition ULONG_MAX : Z := 18446744073709551615.

(** ** The section *)

Record sentinel_policy_entry := PolicyEntry {
  site_addr : Z;
  func_addr : Z;
  enc_nr : Z;
}.

Definition decode_entry (bs : list Z) : sentinel_policy_entry :=
  PolicyEntry (le_decode (take 8 bs)) (le_decode (take 8 (drop 8 bs)))
    (s64 (le_decode (take 8 (drop 16 bs)))).

(** 0 is any number, [n + 1] binds [n]. *)
Definition decode_nr (enc : Z) : Z := if 0 <? enc then enc - 1 else -1.

(** The loop over the entries; the section has [n] of them from [bs] on. *)
Fixpoint decode_entries (n : nat) (bs : list Z) (room : nat) : list (Z * Z) :=
  match n, room with
  | S n', S room' =>
      let pe := decode_entry (take ENTRY_SIZE bs) in
      if site_addr pe =? 0 then decode_entries n' (drop ENTRY_SIZE bs) room
      else (site_addr pe, decode_nr (enc_nr pe)) :: decode_entries n' (drop ENTRY_SIZE bs) room'
  | _, _ => []
  end.

(** [parse_sentinel_section]: the call sites and their numbers; an invalid
    section gives none. *)
Definition parse_sentinel_section (data : list Z) (max_entries : nat) : list (Z * Z) :=
  if (length data <? 8)%nat then []
  else if negb (le_decode (take 4 data) =? SENTINEL_POLICY_MAGIC) then []
  else if negb (le_decode (take 4 (drop 4 data)) =? SENTINEL_POLICY_VERSION) then []
  else decode_entries ((length data - 8) / ENTRY_SIZE) (drop 8 data) max_entries.

(** ** The policy map of the main binary *)

Definition policy_value (nr : Z) : Z :=
  if 0 <=? nr then Z.lor POLICY_FLAG_CHECK_NR (u32 nr) else 1.

(** An update that fails is not counted; the map stays as it was. *)
Definition load_entry (elf_load_base : Z) (m : gmap Z Z) (entry : Z * Z) : gmap Z Z :=
  default m (hash_update POLICY_MAP_SIZE (u64 (entry.1 - elf_load_base)) (policy_value entry.2) m).

Definition populate_main_policy (entries : list (Z * Z)) (elf_load_base : Z) : gmap Z Z :=
  fold_left (load_entry elf_load_base) entries ∅.

(** ** The address range of a module *)

(** [sscanf(line, "%lx-%lx", &start, &end) == 2] *)
Definition scan_range (line : string) : option (Z * Z) :=
  match scan_hex line with
  | Some (start, String "-" rest) =>
      match scan_hex rest with Some (end_, _) => Some (start, end_) | None => None end
  | _ => None
  end.

(** The lowest and the highest address of the lines that name the module. *)
Definition extend_range (module_name : string) (acc : Z * Z) (line : string) : Z * Z :=
  if negb (contains line module_name) then acc
  else match scan_range line with
       | None => acc
       | Some (start, end_) =>
           (if start <? acc.1 then start else acc.1, if acc.2 <? end_ then end_ else acc.2)
       end.

Definition module_range (text module_name : string) : Z * Z :=
  fold_left (extend_range module_name) (fgets_lines 511 text 511) (ULONG_MAX, 0).

(** One trie entry per block of 1 MiB; [None] when the loop variable wraps
    around and the loop does not end. *)
Fixpoint populate_blocks (fuel : nat) (addr max_addr : Z) (v : vma_value) (t : list trie_entry)
    (count : Z) : option (Z * list trie_entry) :=
  if addr <? max_addr then
    match fuel with
    | O => None
    | S fuel' =>
        match trie_update VMA_MAP_SIZE VMA_BLOCK_PREFIX (addr_key addr) v t with
        | Some t' => populate_blocks fuel' (u64 (addr + VMA_BLOCK_SIZE)) max_addr v t' (count + 1)
        | None => populate_blocks fuel' (u64 (addr + VMA_BLOCK_SIZE)) max_addr v t count
        end
    end
  else Some (count, t).

(** The first block; [2^44] blocks cover the address space, those of the range
    are enough. *)
Definition block_start (min_addr : Z) : Z := Z.land min_addr (Z.lnot (VMA_BLOCK_SIZE - 1)).

Definition block_fuel (min_addr max_addr : Z) : nat :=
  Z.to_nat ((max_addr - block_start min_addr) / VMA_BLOCK_SIZE + 1).

(** The result is the number of blocks (or -1), the base and the trie. *)
Definition populate_vma_for_module (maps : option string) (module_name : string) (id base : Z)
    (t : list trie_entry) : option (Z * Z * list trie_entry) :=
  match maps with
  | None => Some (-1, base, t)
  | Some text =>
      let '(min_addr, max_addr) := module_range text module_name in
      if min_addr =? ULONG_MAX then Some (-1, base, t)
      else
        match populate_blocks (block_fuel min_addr max_addr) (block_start min_addr) max_addr
                (VmaValue id min_addr) t 0 with
        | Some (count, t') => Some (count, min_addr, t')
        | None => None
        end
  end.
