(* ===== verification/EnforcerClaims.v ===== *)
(** * The enforcer with the policy of the loader: claims

    The trie as a map of 1 MiB blocks, the policy section through to the
    decision, and the claims about the enforcer with their witnesses. *)

From S2P Require Import Prelude CStrings KvmiSetup Enforcer EnforcerProofs LoaderPolicy.
From stdpp Require Import prelude gmap strings list.
From Stdlib Require Import ZArith Lia Ascii.
#[local] Open Scope string_scope.
#[local] Open Scope list_scope.
#[local] Open Scope Z_scope.

(** ** Keys *)

Lemma le_encode_lookup n x (j : nat) :
  (j < n)%nat -> le_encode n x !! j = Some ((x / 2 ^ (8 * Z.of_nat j)) mod 256).
Proof.
  revert x j. induction n as [|n IH]; intros x j Hj; [lia|]. destruct j as [|j]; cbn [le_encode].
  - change (8 * Z.of_nat 0) with 0. by rewrite Z.pow_0_r, Z.div_1_r.
  - change (le_encode n (x / 256) !! j = Some ((x / 2 ^ (8 * Z.of_nat (S j))) mod 256)).
    rewrite IH by lia. change 256 with (2 ^ 8) at 1. rewrite Z.div_div, <- Z.pow_add_r by lia.
    do 3 f_equal. f_equal. lia.
Qed.

Lemma addr_key_bytes x : addr_key x = rev (le_encode 8 x).
Proof.
  unfold addr_key, bswap64. pose proof (le_encode_decode (rev (le_encode 8 x))) as H.
  rewrite length_rev, length_le_encode in H. apply H, Forall_rev, le_encode_bytes.
Qed.

(** Bit [i] of the key is bit [63 - i] of the address. *)
Lemma addr_key_bit x (i : nat) : (i < 64)%nat -> key_bit (addr_key x) i = Z.testbit x (63 - Z.of_nat i).
Proof.
  intros Hi. rewrite addr_key_bytes. unfold key_bit. set (k := (i / 8)%nat).
  assert (k < 8)%nat as Hk by (apply Nat.Div0.div_lt_upper_bound; lia).
  assert (rev (le_encode 8 x) !! k = le_encode 8 x !! (7 - k)%nat) as ->.
  { rewrite <- (length_le_encode 8 x) in Hk.
    rewrite rev_alt. change (rev_append ?l []) with (reverse l).
    rewrite reverse_lookup by done. by rewrite length_le_encode. }
  rewrite le_encode_lookup by lia. change (default 0 (Some ?z)) with z.
  pose proof (Nat.div_mod_eq i 8) as Hdm. pose proof (Nat.mod_upper_bound i 8 ltac:(lia)) as Hm. fold k in Hdm.
  change 256 with (2 ^ 8). rewrite Z.mod_pow2_bits_low by lia.
  rewrite Z.div_pow2_bits by lia. f_equal. lia.
Qed.

(** Prefixes of 44 bits are blocks of 1 MiB. *)
Lemma block_match x y :
  is_u64 x -> is_u64 y ->
  prefix_match VMA_BLOCK_PREFIX (addr_key x) (addr_key y) = true <-> x / VMA_BLOCK_SIZE = y / VMA_BLOCK_SIZE.
Proof.
  intros Hx Hy. unfold prefix_match, VMA_BLOCK_PREFIX, VMA_BLOCK_SIZE. change 0x100000 with (2 ^ 20).
  rewrite forallb_forall. split.
  - intros H. apply Z.bits_inj'. intros n Hn. rewrite !Z.div_pow2_bits by lia.
    destruct (decide (n < 44)) as [Hlt|Hge].
    + specialize (H (Z.to_nat (43 - n)) ltac:(apply in_seq; lia)). apply eqb_prop in H.
      rewrite !addr_key_bit in H by lia. replace (n + 20) with (63 - Z.of_nat (Z.to_nat (43 - n))) by lia. done.
    + rewrite <- (Z.mod_small x (2 ^ 64)), <- (Z.mod_small y (2 ^ 64)) by ulia.
      by rewrite !Z.mod_pow2_bits_high by lia.
  - intros H i Hi%in_seq. rewrite !addr_key_bit by lia.
    replace (63 - Z.of_nat i) with ((43 - Z.of_nat i) + 20) by lia.
    rewrite <- !Z.div_pow2_bits by lia. rewrite H. apply eqb_reflx.
Qed.

(** ** The trie as a map *)

Section trie.
Context (n : nat).
Implicit Types (a b k q : list Z) (t : list trie_entry).

Lemma prefix_match_iff a b : prefix_match n a b = true <-> forall i, (i < n)%nat -> key_bit a i = key_bit b i.
Proof.
  unfold prefix_match. rewrite forallb_forall. split.
  - intros H i Hi. apply eqb_prop, H, in_seq. lia.
  - intros H i Hi%in_seq. rewrite H by lia. apply eqb_reflx.
Qed.

Lemma prefix_match_sym a b : prefix_match n a b = true -> prefix_match n b a = true.
Proof. rewrite !prefix_match_iff. intros H i Hi. symmetry. auto. Qed.

Lemma prefix_match_trans a b c :
  prefix_match n a b = true -> prefix_match n b c = true -> prefix_match n a c = true.
Proof. rewrite !prefix_match_iff. intros H1 H2 i Hi. rewrite H1 by done. auto. Qed.

(** All entries have the same prefix length. *)
Definition uniform t : Prop := Forall (fun e => te_prefixlen e = n) t.

Lemma uniform_filter f t : uniform t -> uniform (List.filter f t).
Proof. induction 1; cbn; [constructor|]. case_match; [by constructor|done]. Qed.

(** In such a trie the best match is any match. *)
Lemma trie_best_None t q :
  uniform t -> trie_best t q = None <-> Forall (fun e => prefix_match n (te_key e) q = false) t.
Proof.
  induction 1 as [|e t He Ht IH]; cbn [trie_best]; [split; [constructor|done]|].
  rewrite Forall_cons.
  destruct (trie_best t q) as [e'|].
  - split; [by case_match|]. intros [_ H]. by apply IH in H.
  - rewrite He. destruct (prefix_match n (te_key e) q) eqn:E; [split; [done|by intros []]|].
    split; [|done]. intros _. split; [done|]. by apply IH.
Qed.

Lemma trie_best_head e t q :
  uniform (e :: t) -> trie_best (e :: t) q =
    match trie_best t q with
    | Some e' => Some e'
    | None => if prefix_match n (te_key e) q then Some e else None
    end.
Proof.
  intros Hu. apply Forall_cons in Hu as [He Ht]. cbn [trie_best]. rewrite He.
  destruct (trie_best t q) as [e'|] eqn:E; [|done].
  assert (te_prefixlen e' = n) as ->; [|by rewrite Nat.ltb_irrefl, andb_false_r].
  clear -Ht E. revert e' E. induction Ht as [|x t Hx Ht IH]; intros e' E; [done|]. cbn [trie_best] in E.
  destruct (trie_best t q) as [e0|]; repeat case_match; simplify_eq; auto.
Qed.

Lemma trie_lookup_filtered k q t :
  uniform t -> prefix_match n k q = false ->
  trie_best (List.filter (fun e => negb (same_prefix n k e)) t) q = trie_best t q.
Proof.
  intros Hu Hkq. induction Hu as [|e t He Ht IH]; cbn [List.filter]; [done|].
  assert (uniform (List.filter (fun e => negb (same_prefix n k e)) t)) as Hf
    by by apply uniform_filter.
  rewrite (trie_best_head e t) by (by constructor). 
  assert (same_prefix n k e = prefix_match n (te_key e) k) as ->
    by (unfold same_prefix; by rewrite He, Nat.eqb_refl).
  destruct (prefix_match n (te_key e) k) eqn:Ek; cbn [negb].
  - rewrite IH. destruct (prefix_match n (te_key e) q) eqn:Eq; [|by destruct (trie_best t q)].
    exfalso. assert (prefix_match n k q = true) as Hc; [|congruence].
    by eapply prefix_match_trans; [apply prefix_match_sym|].
  - rewrite trie_best_head by (by constructor). by rewrite IH.
Qed.

(** An update is a map update. *)
Lemma trie_lookup_update cap k v t t' q :
  uniform t -> trie_update cap n k v t = Some t' ->
  uniform t' /\ trie_lookup t' q = if prefix_match n k q then Some v else trie_lookup t q.
Proof.
  intros Hu. unfold trie_update. destruct (_ <? cap)%nat; [|done]. intros [= <-].
  set (f := List.filter _ t). assert (uniform f) as Hf by by apply uniform_filter.
  assert (uniform (TrieEntry n k v :: f)) as Hu' by (by constructor). split; [done|].
  unfold trie_lookup. rewrite trie_best_head by done. cbn [te_key]. destruct (prefix_match n k q) eqn:E; cycle 1.
  { unfold f. rewrite trie_lookup_filtered by done. by destruct (trie_best t q). }
  assert (trie_best f q = None) as ->; [|done]. apply trie_best_None; [done|].
  apply List.Forall_forall. intros x Hx. apply filter_In in Hx as [Hx Hn].
  destruct (prefix_match n (te_key x) q) eqn:Ex; [|done]. exfalso. apply negb_true_iff in Hn.
  unfold same_prefix in Hn. assert (te_prefixlen x = n) as Hlen.
  { apply (proj1 (List.Forall_forall _ _) Hu x Hx). }
  rewrite Hlen, Nat.eqb_refl in Hn. cbn [andb] in Hn.
  assert (prefix_match n (te_key x) k = true); [|congruence]. by eapply prefix_match_trans; [|apply prefix_match_sym].
Qed.

Lemma trie_update_room cap k v t :
  (length t < cap)%nat -> exists t', trie_update cap n k v t = Some t' /\ (length t' <= S (length t))%nat.
Proof.
  intros Hl. unfold trie_update. pose proof (List.filter_length_le (fun e => negb (same_prefix n k e)) t).
  rewrite (proj2 (Nat.ltb_lt _ _)) by lia. eexists. split; [done|]. cbn. lia.
Qed.
End trie.

(** ** The blocks of a module *)

(** The block of [a] is one of those from [addr] up to [max_addr]. *)
Definition block_in (addr max_addr a : Z) : bool :=
  (addr <=? a) && (a / VMA_BLOCK_SIZE * VMA_BLOCK_SIZE <? max_addr).

Lemma populate_blocks_spec fuel addr max_addr v t count :
  is_u64 addr -> addr mod VMA_BLOCK_SIZE = 0 -> max_addr <= 2 ^ 64 - VMA_BLOCK_SIZE ->
  max_addr - addr <= Z.of_nat fuel * VMA_BLOCK_SIZE ->
  uniform VMA_BLOCK_PREFIX t ->
  Z.of_nat (length t) * VMA_BLOCK_SIZE + (max_addr - addr) <= Z.of_nat VMA_MAP_SIZE * VMA_BLOCK_SIZE ->
  exists count' t', populate_blocks fuel addr max_addr v t count = Some (count', t') /\
    uniform VMA_BLOCK_PREFIX t' /\
    forall a, is_u64 a -> trie_lookup t' (addr_key a) =
      if block_in addr max_addr a then Some v else trie_lookup t (addr_key a).
Proof.
  change (Z.of_nat VMA_MAP_SIZE) with 512. revert addr t count. induction fuel as [|fuel IH];
    intros addr t count Ha Hm Hmax Hf Hu Hr; cbn [populate_blocks]; destruct (addr <? max_addr) eqn:E; boolify.
  1: { exfalso. unfold VMA_BLOCK_SIZE in *. lia. }
  2: { destruct (trie_update_room VMA_BLOCK_PREFIX VMA_MAP_SIZE (addr_key addr) v t) as (t1 & Ht1 & Hl1).
       { unfold VMA_MAP_SIZE, VMA_BLOCK_SIZE in *. lia. }
       rewrite Ht1. destruct (fun q => trie_lookup_update _ _ _ _ _ _ q Hu Ht1) with (q := addr_key 0) as [Hu1 _].
       rewrite u64_id by (unfold VMA_BLOCK_SIZE in *; ulia).
       destruct (IH (addr + VMA_BLOCK_SIZE) t1 (count + 1)) as (c' & t' & Hp & Hu' & Hlk).
       - unfold VMA_BLOCK_SIZE in *. ulia.
       - rewrite <- Zplus_mod_idemp_l, Hm. unfold VMA_BLOCK_SIZE. done.
       - done.
       - lia.
       - done.
       - unfold VMA_BLOCK_SIZE in *. lia.
       - exists c', t'. split_and!; [done|done|]. intros a Hau. rewrite Hlk by done.
         rewrite (proj2 (trie_lookup_update _ _ _ _ _ _ (addr_key a) Hu Ht1)). clear Hlk Hp IH.
         pose proof (block_match addr a Ha Hau) as Hb. unfold block_in.
         destruct (prefix_match _ _ _).
         + assert (addr / VMA_BLOCK_SIZE = a / VMA_BLOCK_SIZE) as Heq by by apply Hb.
           rewrite (proj2 (Z.leb_le addr a)), (proj2 (Z.ltb_lt _ max_addr))
             by (unfold VMA_BLOCK_SIZE in *; lia). cbn [andb]. by case_match.
         + assert (addr / VMA_BLOCK_SIZE <> a / VMA_BLOCK_SIZE) as Hne by (intros H; by apply Hb in H).
           assert ((addr + VMA_BLOCK_SIZE <=? a) = (addr <=? a)) as ->; [|done].
           apply eq_true_iff_eq. rewrite !Z.leb_le. unfold VMA_BLOCK_SIZE in *. lia. }
  all: exists count, t; split_and!; [done|done|]; intros a _; unfold block_in; destruct (_ && _) eqn:Eb; [|done];
    exfalso; boolify; unfold VMA_BLOCK_SIZE in *; lia.
Qed.

Lemma block_start_eq a : block_start a = a - a mod VMA_BLOCK_SIZE.
Proof.
  unfold block_start, VMA_BLOCK_SIZE. change (0x100000 - 1) with (Z.ones 20).
  rewrite land_lnot_ones by lia. done.
Qed.

(** The range covers every line that names the module. *)
Lemma extend_range_covers name lines acc :
  let r := fold_left (extend_range name) lines acc in
  r.1 <= acc.1 /\ acc.2 <= r.2 /\
  forall line start end_, line ∈ lines -> contains line name = true -> scan_range line = Some (start, end_) ->
    r.1 <= start /\ end_ <= r.2.
Proof.
  revert acc. induction lines as [|l lines IH]; intros acc; cbn [fold_left].
  { split_and!; [lia|lia|]. intros ? ? ? H. by apply elem_of_nil in H. }
  destruct (IH (extend_range name acc l)) as (H1 & H2 & H3).
  assert ((extend_range name acc l).1 <= acc.1 /\ acc.2 <= (extend_range name acc l).2 /\
    forall s e, contains l name = true -> scan_range l = Some (s, e) ->
      (extend_range name acc l).1 <= s /\ e <= (extend_range name acc l).2) as (E1 & E2 & E3).
  { unfold extend_range. destruct (contains l name); cbn [negb]; [|split_and!; [lia|lia|done]].
    destruct (scan_range l) as [[s e]|]; cbn [fst snd]; [|split_and!; [lia|lia|done]].
    destruct (s <? acc.1) eqn:Es, (acc.2 <? e) eqn:Ee; boolify.
    all: split_and!; [lia|lia|]; intros s' e' _ [= <- <-]; lia. }
  split_and!; [lia|lia|]. intros line start end_ [->|Hin]%elem_of_cons Hc Hs.
  - destruct (E3 start end_ Hc Hs). lia.
  - by apply (H3 line).
Qed.

(** ** The policy map *)


Section load.
Context (base : Z).
Implicit Types (m : gmap Z Z) (entries : list (Z * Z)).



End load.

(** ** The section *)

Definition encode_entry (pe : sentinel_policy_entry) : list Z :=
  le_encode 8 (site_addr pe) ++ le_encode 8 (func_addr pe) ++ le_encode 8 (u64 (enc_nr pe)).

Definition encode_section (pes : list sentinel_policy_entry) : list Z :=
  le_encode 4 SENTINEL_POLICY_MAGIC ++ le_encode 4 SENTINEL_POLICY_VERSION ++
  flat_map encode_entry pes.

(** 64-bit addresses and a signed 64-bit number. *)
Record wf_entry (pe : sentinel_policy_entry) : Prop := {
  we_site : is_u64 (site_addr pe);
  we_func : is_u64 (func_addr pe);
  we_nr : -9223372036854775808 <= enc_nr pe < 9223372036854775808;
}.

Lemma length_encode_entry pe : length (encode_entry pe) = ENTRY_SIZE.
Proof. unfold encode_entry. by rewrite !length_app, !length_le_encode. Qed.

Lemma le_decode_encode64 z : is_u64 z -> le_decode (le_encode 8 z) = z.
Proof. intros H. apply le_decode_encode. change (256 ^ Z.of_nat 8) with 18446744073709551616. ulia. Qed.

Lemma decode_encode_entry pe : wf_entry pe -> decode_entry (encode_entry pe) = pe.
Proof.
  intros [H1 H2 H3]. destruct pe as [site func enc]. unfold decode_entry, encode_entry.
  cbn [site_addr func_addr enc_nr] in *.
  rewrite take_app_length' by (by rewrite length_le_encode).
  rewrite (drop_app_length' (le_encode 8 site)) by (by rewrite length_le_encode).
  rewrite take_app_length' by (by rewrite length_le_encode).
  rewrite app_assoc, drop_app_length' by (by rewrite length_app, !length_le_encode).
  rewrite take_ge by (by rewrite length_le_encode). rewrite !le_decode_encode64 by (done || ulia).
  f_equal. unfold s64. destruct (_ <? _) eqn:E; boolify; ulia.
Qed.

(** The call sites of the section with their numbers. *)
Definition section_sites (pes : list sentinel_policy_entry) : list (Z * Z) :=
  map (fun pe => (site_addr pe, decode_nr (enc_nr pe))) (List.filter (fun pe => negb (site_addr pe =? 0)) pes).

Lemma decode_encode_entries pes room :
  Forall wf_entry pes -> (length (section_sites pes) <= room)%nat ->
  decode_entries (length pes) (flat_map encode_entry pes) room = section_sites pes.
Proof.
  intros Hf. unfold section_sites. revert room. induction Hf as [|pe pes Hpe _ IH]; intros room Hr; [done|].
  cbn [length flat_map decode_entries List.filter] in *. destruct (site_addr pe =? 0) eqn:Es; cbn [negb] in *.
  - destruct room as [|room]; [symmetry; apply nil_length_inv; lia|].
    rewrite take_app_length' by (by rewrite length_encode_entry). rewrite decode_encode_entry, Es by done.
    rewrite drop_app_length' by (by rewrite length_encode_entry). by apply IH.
  - cbn [map length] in *. destruct room as [|room]; [lia|].
    rewrite take_app_length' by (by rewrite length_encode_entry). rewrite decode_encode_entry, Es by done.
    rewrite drop_app_length' by (by rewrite length_encode_entry). rewrite IH by lia. done.
Qed.

Lemma length_flat_entries pes : length (flat_map encode_entry pes) = (ENTRY_SIZE * length pes)%nat.
Proof.
  induction pes as [|pe pes IH]; [done|]. cbn [flat_map length]. rewrite length_app, length_encode_entry, IH. lia.
Qed.



(** ** Claims *)

(** C1. The decision is exact: for a monitored process in scope, with learning
    and permissive mode off, the check of a system call always finishes, changes
    no map, and sends a signal to the process if and only if the declarative policy
    does not permit the call: the call site lies in a known module, the module's
    policy has a rule for its offset, the thread's limit and the rule's system call
    number agree, the return addresses on the shadow stack are in known modules, and
    the caller is in the range of the site.  The signal is sent once, SIGTERM in
    terminate mode and SIGKILL otherwise. *)
Theorem enforcement_exact cfg c nr e :
  learn_mode cfg = 0 -> enforce_mode cfg <> ENFORCE_PERMISSIVE -> in_scope cfg e c ->
  exists e', sentinel_check cfg c nr e = Some (0, e') /\ same_maps e e' /\
    ((permitted cfg e c nr /\ signals e' = signals e) \/
     (~ permitted cfg e c nr /\ signals e' = signals e ++ [(ctx_tgid c, deny_signal cfg)])).
Proof.
  intros Hl He Hs. destruct (check_decides cfg He c nr e Hl Hs) as (r & e' & Hr & -> & Hd).
  exists e'. split; [done|]. destruct Hd as [[HP [H1 H2]]|[HP [H1 H2]]]; (split; [done|]); auto.
Qed.

(** C27. Any sequence of kernel events keeps the enforcer in order: every program
    finishes; the policy maps are never changed; a process that is monitored stays
    monitored; the table of monitored processes never exceeds its capacity; signals
    are only ever added; and in permissive mode not one signal is sent. *)
Theorem event_traces_safe cfg evs e :
  exists e', run_events cfg evs e = Some (tt, e') /\ event_ok cfg e e'.
Proof. destruct (events_safe cfg evs e) as ([] & e' & H). by exists e'. Qed.

(** C28. Fork tracking reaches every descendant: along any sequence of kernel
    events, every process that descends from a monitored process by forks of the
    trace is monitored at its end, provided that the table of 64 entries has room
    for the forks of the trace. *)
Theorem descendants_tracked cfg evs root e :
  tracked e root -> (size (target_pid_map e) + forks evs <= TARGET_PID_MAP_SIZE)%nat ->
  exists e', run_events cfg evs e = Some (tt, e') /\
    forall pid, pid ∈ descendants [root] evs -> tracked e' pid.
Proof.
  intros Hr Hs. destruct (descendants_enrolled cfg evs [root] e) as ([] & e' & H); [|done|by exists e'].
  intros pid Hp. apply list_elem_of_singleton in Hp. by subst.
Qed.

(** Fork tracking fails open: when the table is full, the child of a monitored
    process is not enrolled, no audit event is emitted, and in per-binary mode the
    child's system calls are not checked at all. *)
Theorem fork_escapes_full_table cfg c parent child e nr cc :
  tracked e parent -> target_pid_map e !! child = None -> size (target_pid_map e) = TARGET_PID_MAP_SIZE ->
  system_wide cfg = 0 -> ctx_tgid cc = child ->
  sentinel_fork_track c parent child e = Some (0, e) /\ sentinel_check cfg cc nr e = Some (0, e).
Proof.
  intros [t Ht] Hc Hs Hw Hcc. unfold sentinel_fork_track, sentinel_check, mbind, M_bind, gets, mret, M_ret.
  rewrite Ht, Hcc, Hc, Hw. unfold hash_update. rewrite Hc, Hs. by rewrite Nat.ltb_irrefl.
Qed.

(** Module attribution: after the loader has entered a module into the trie,
    every address of a mapping whose line names the module is resolved to that
    module and to its lowest address, every address in another 1 MiB block keeps
    the attribution that it had, and the loop over the blocks ends, provided that
    the module is below the last block of the address space and the trie has room
    for its blocks. *)
Theorem populate_attributes_module text name id base t :
  let r := module_range text name in
  0 <= r.1 < ULONG_MAX -> r.2 <= 2 ^ 64 - VMA_BLOCK_SIZE -> uniform VMA_BLOCK_PREFIX t ->
  Z.of_nat (length t) * VMA_BLOCK_SIZE + (r.2 - block_start r.1) <= Z.of_nat VMA_MAP_SIZE * VMA_BLOCK_SIZE ->
  exists count t', populate_vma_for_module (Some text) name id base t = Some (count, r.1, t') /\
    uniform VMA_BLOCK_PREFIX t' /\
    (forall line start end_ a, line ∈ fgets_lines 511 text 511 -> contains line name = true ->
       scan_range line = Some (start, end_) -> start <= a < end_ -> is_u64 a ->
       trie_lookup t' (addr_key a) = Some (VmaValue id r.1)) /\
    (forall a, is_u64 a -> block_in (block_start r.1) r.2 a = false ->
       trie_lookup t' (addr_key a) = trie_lookup t (addr_key a)).
Proof.
  intros r Hmin Hmax Hu Hroom. unfold populate_vma_for_module. fold r.
  rewrite (surjective_pairing r), (proj2 (Z.eqb_neq r.1 ULONG_MAX)) by lia. cbn [fst snd].
  rewrite block_start_eq in Hroom. unfold ULONG_MAX in Hmin.
  destruct (populate_blocks_spec (block_fuel r.1 r.2) (block_start r.1) r.2 (VmaValue id r.1) t 0)
    as (count & t' & Hp & Hu' & Hlk).
  - rewrite block_start_eq. unfold VMA_BLOCK_SIZE. ulia.
  - rewrite block_start_eq. unfold VMA_BLOCK_SIZE. lia.
  - done.
  - unfold block_fuel. rewrite block_start_eq. unfold VMA_BLOCK_SIZE in *. lia.
  - done.
  - by rewrite block_start_eq.
  - rewrite Hp. exists count, t'. split_and!; [done|done| |].
    + intros line start end_ a Hin Hc Hs Ha Hau. rewrite Hlk by done.
      destruct (extend_range_covers name (fgets_lines 511 text 511) (ULONG_MAX, 0)) as (_ & _ & Hcov).
      destruct (Hcov line start end_ Hin Hc Hs) as [H1 H2]. fold (module_range text name) r in H1, H2.
      unfold block_in. rewrite block_start_eq, (proj2 (Z.leb_le _ _)), (proj2 (Z.ltb_lt _ _))
        by (unfold VMA_BLOCK_SIZE in *; lia). done.
    + intros a Hau Hb. rewrite Hlk by done. by rewrite Hb.
Qed.


(** Decoding the policy section inverts its layout: for any entries with
    64-bit fields, the section of magic, version and 24-byte entries is read back
    as the call sites that are not null, in order, with 0 decoded to any system
    call and [n + 1] to [n], as long as they fit the caller's array. *)
Theorem policy_section_roundtrip pes room :
  Forall wf_entry pes -> (length (section_sites pes) <= room)%nat ->
  parse_sentinel_section (encode_section pes) room = section_sites pes.
Proof.
  intros Hf Hr. unfold parse_sentinel_section, encode_section.
  rewrite !length_app, !length_le_encode, length_flat_entries.
  rewrite (proj2 (Nat.ltb_ge _ _)) by lia.
  rewrite take_app_length' by (by rewrite length_le_encode).
  rewrite (drop_app_length' (le_encode 4 SENTINEL_POLICY_MAGIC)) by (by rewrite length_le_encode).
  rewrite take_app_length' by (by rewrite length_le_encode).
  rewrite app_assoc, drop_app_length' by (by rewrite length_app, !length_le_encode).
  replace ((4 + (4 + ENTRY_SIZE * length pes) - 8) / ENTRY_SIZE)%nat with (length pes).
  - by apply decode_encode_entries.
  - replace (4 + (4 + ENTRY_SIZE * length pes) - 8)%nat with (length pes * ENTRY_SIZE)%nat by lia.
    by rewrite Nat.div_mul.
Qed.

(** ** Witnesses *)

(** One module at 0x400000, one call site bound to [write] (1) and one that is
    free. *)
Definition demo_section : list Z :=
  encode_section [PolicyEntry 0x401000 0x400f00 2; PolicyEntry 0 0 0; PolicyEntry 0x402000 0x401f00 0].

Definition demo_cfg : bpf_config := BpfConfig 0 0 ENFORCE_KILL 0 0 0 0.
Definition demo_maps_text : string :=
  "00400000-00480000 r-xp 00000000 08:01 12 /opt/app" +:+ String newline EmptyString.

Definition demo_trie : list trie_entry :=
  match populate_vma_for_module (Some demo_maps_text) "/opt/app" 1 0 [] with
  | Some (_, _, t) => t
  | None => []
  end.

Definition demo_enforcer : enforcer :=
  Enforcer {[ 1 := populate_main_policy (parse_sentinel_section demo_section MAX_POLICY_ENTRIES) 0x400000 ]}
    demo_trie {[ 500 := 1 ]} ∅ ∅ ∅ ∅ ∅ ∅ 10 [] [].

(** Thread 501 of process 500, at the instruction after the first site. *)
Definition demo_ctx : hook_ctx := HookCtx (500 * 4294967296 + 501) 0 (Some 0x401002) None 7.

Example demo_allows :
  (fun x => signals x.2) <$> sentinel_check demo_cfg demo_ctx 1 demo_enforcer = Some [].
Proof. vm_compute. reflexivity. Qed.

Example demo_denies :
  (fun x => signals x.2) <$> sentinel_check demo_cfg demo_ctx 59 demo_enforcer = Some [(500, 9)].
Proof. vm_compute. reflexivity. Qed.

Lemma demo_in_scope : in_scope demo_cfg demo_enforcer demo_ctx.
Proof. split; [exists 1|]; vm_compute; reflexivity. Qed.

Lemma enforcement_exact_witness :
  exists e', sentinel_check demo_cfg demo_ctx 59 demo_enforcer = Some (0, e') /\
    ~ permitted demo_cfg demo_enforcer demo_ctx 59.
Proof.
  destruct (enforcement_exact demo_cfg demo_ctx 59 demo_enforcer) as (e' & Hr & _ & Hd).
  - reflexivity.
  - discriminate.
  - exact demo_in_scope.
  - exists e'. split; [exact Hr|]. destruct Hd as [[_ H]|[H _]]; [|exact H]. exfalso.
    pose proof demo_denies as Hx. rewrite Hr in Hx. cbn in Hx. injection Hx as Hx. rewrite H in Hx. discriminate Hx.
Defined.

Lemma descendants_tracked_witness :
  exists e', run_events demo_cfg [EvFork demo_ctx 500 600; EvFork demo_ctx 600 700; EvFork demo_ctx 9 10]
      demo_enforcer = Some (tt, e') /\ tracked e' 700.
Proof.
  destruct (descendants_tracked demo_cfg
    [EvFork demo_ctx 500 600; EvFork demo_ctx 600 700; EvFork demo_ctx 9 10] 500 demo_enforcer) as (e' & H1 & H2).
  - exists 1. vm_compute. reflexivity.
  - apply Nat.leb_le. vm_compute. reflexivity.
  - exists e'. split; [exact H1|]. apply H2. vm_compute. left.
Defined.

Lemma fork_escapes_full_table_witness :
  let full := list_to_map ((fun n => (Z.of_nat n, 1)) <$> seq 500 64) in
  sentinel_fork_track demo_ctx 500 9000 (set_targets full demo_enforcer) = Some (0, set_targets full demo_enforcer).
Proof.
  intros full. apply (fork_escapes_full_table demo_cfg demo_ctx 500 9000 (set_targets full demo_enforcer) 1
    (HookCtx (9000 * 4294967296 + 9000) 0 None None 7)).
  - exists 1. vm_compute. reflexivity.
  - vm_compute. reflexivity.
  - vm_compute. reflexivity.
  - reflexivity.
  - reflexivity.
Defined.

Lemma populate_attributes_module_witness :
  exists count t', populate_vma_for_module (Some demo_maps_text) "/opt/app" 1 0 [] = Some (count, 0x400000, t') /\
    trie_lookup t' (addr_key 0x47ffff) = Some (VmaValue 1 0x400000).
Proof.
  destruct (populate_attributes_module demo_maps_text "/opt/app" 1 0 []) as (count & t' & H1 & _ & H2 & _).
  - vm_compute. split; [discriminate|reflexivity].
  - vm_compute. discriminate.
  - constructor.
  - vm_compute. discriminate.
  - exists count, t'. split; [exact H1|].
    apply (H2 demo_maps_text 0x400000 0x480000).
    + vm_compute. left.
    + vm_compute. reflexivity.
    + vm_compute. reflexivity.
    + lia.
    + ulia.
Defined.


Lemma policy_section_roundtrip_witness :
  parse_sentinel_section demo_section 8 = [(0x401000, 1); (0x402000, -1)].
Proof.
  apply (policy_section_roundtrip [PolicyEntry 0x401000 0x400f00 2; PolicyEntry 0 0 0; PolicyEntry 0x402000 0x401f00 0] 8).
  - repeat constructor; cbn; ulia.
  - cbn. lia.
Defined.
