(* ===== verification/LoaderElf.v ===== *)
(** * ELF scanning of the loader (loader.c)

    The functions that read an ELF file: system call sites by symbol and by
    section, the symbol table with its search, the executable sections, and the
    sections that the compiler pass adds.

    libelf is outside the repository; what it shows of a file is the record
    [elf_file]: program headers, and sections with their header fields, data and
    symbols.  A file that cannot be opened or is no ELF file is [None].  Memory
    allocation is taken to succeed.  A read outside a buffer is [None] of the
    result. *)

From S2P Require Import Prelude CStrings.
From stdpp Require Import prelude strings list sorting.
From Stdlib Require Import ZArith Lia Ascii.
#[local] Open Scope Z_scope.

Definition SHT_PROGBITS : Z := 1.
Definition SHT_SYMTAB : Z := 2.
Definition SHT_DYNSYM : Z := 11.
Definition SHF_EXECINSTR : Z := 4.
Definition STT_FUNC : Z := 2.
Definition PT_LOAD : Z := 1.

(** ** What libelf shows *)

Record elf_sym := ElfSym {
  st_name : option string;
  st_value : Z;
  st_size : Z;
  st_type : Z;
}.

Record elf_section := ElfSection {
  sh_name : option string;
  sh_type : Z;
  sh_flags : Z;
  sh_addr : Z;
  sh_size : Z;
  sh_data : option (list Z);
  sh_syms : list elf_sym;
}.

Record elf_file := ElfFile {
  e_phdrs : list (Z * Z);
  e_sections : list elf_section;
}.

Definition is_symtab (s : elf_section) : bool := (sh_type s =? SHT_DYNSYM) || (sh_type s =? SHT_SYMTAB).
(** The symbols of a symbol table whose data can be read. *)
Definition section_syms (s : elf_section) : list elf_sym :=
  if is_symtab s then match sh_data s with Some _ => sh_syms s | None => [] end else [].
Definition is_exec (s : elf_section) : bool :=
  (sh_type s =? SHT_PROGBITS) && negb (Z.land (sh_flags s) SHF_EXECINSTR =? 0).

(** ** Scanning for the opcode 0f 05 *)

(** The addresses of the opcodes in [bs], which starts at [addr]; at most [room]. *)
Fixpoint scan_opcodes (bs : list Z) (addr : Z) (room : nat) : list Z :=
  match bs, room with
  | b0 :: ((b1 :: _) as rest), S room' =>
      if (b0 =? 0x0f) && (b1 =? 0x05) then u64 addr :: scan_opcodes rest (addr + 1) room'
      else scan_opcodes rest (addr + 1) room
  | _, _ => []
  end.

Fixpoint scan_sections (l : list elf_section) (room : nat) : list Z :=
  match l with
  | [] => []
  | s :: rest =>
      match (if is_exec s then sh_data s else None) with
      | None => scan_sections rest room
      | Some bytes =>
          let found := scan_opcodes bytes (sh_addr s) room in
          found ++ scan_sections rest (room - length found)
      end
  end.

Definition scan_elf_text_for_syscalls (f : option elf_file) (max_offsets : nat) : list Z :=
  match f with None => [] | Some e => scan_sections (e_sections e) max_offsets end.

(** ** The sites of one symbol *)

Definition LIBC_SCAN_DEFAULT : Z := 128.

(** The first symbol of the section with this name and an address. *)
Definition sym_matches (sym_name : string) (s : elf_sym) : bool :=
  match st_name s with Some n => streq n sym_name && negb (st_value s =? 0) | None => false end.

Fixpoint resolve_symbol (sym_name : string) (l : list elf_section) : option elf_sym :=
  match l with
  | [] => None
  | s :: rest =>
      match List.find (sym_matches sym_name) (section_syms s) with
      | Some y => Some y
      | None => resolve_symbol sym_name rest
      end
  end.

(** The executable section that contains the address. *)
Definition section_contains (sym_addr : Z) (s : elf_section) : bool :=
  is_exec s && negb ((sym_addr <? sh_addr s) || (u64 (sh_addr s + sh_size s) <=? sym_addr)).

Definition resolve_libc_syscall_sites (f : option elf_file) (sym_name : string) (max_offsets : nat)
  : option (list Z) :=
  match f with
  | None => Some []
  | Some e =>
      match resolve_symbol sym_name (e_sections e) with
      | None => Some []
      | Some sym =>
          let sym_size := if st_size sym =? 0 then LIBC_SCAN_DEFAULT else st_size sym in
          match List.find (section_contains (st_value sym)) (e_sections e) with
          | None => Some []
          | Some s =>
              match sh_data s with
              | None => Some []
              | Some data =>
                  let d_size := Z.of_nat (length data) in
                  let off_in_sec := u64 (st_value sym - sh_addr s) in
                  let limit := if d_size <? u64 (off_in_sec + sym_size) then u64 (d_size - off_in_sec)
                               else sym_size in
                  if (off_in_sec <=? d_size) && (limit <=? d_size - off_in_sec) then
                    Some (scan_opcodes (take (Z.to_nat limit) (drop (Z.to_nat off_in_sec) data))
                            (st_value sym) max_offsets)
                  else None
              end
          end
      end
  end.

(** ** The symbol table *)

Definition MAX_LIBC_SYMS : nat := Z.to_nat 8192.
Definition DEFAULT_FUNC_SIZE : Z := 256.

Record libc_sym_entry := LibcSym { ls_addr : Z; ls_size : Z; ls_name : string }.
#[global] Instance libc_sym_entry_eq_dec : EqDecision libc_sym_entry.
Proof. solve_decision. Defined.

Definition libc_sym_of (s : elf_sym) : option libc_sym_entry :=
  if negb (st_type s =? STT_FUNC) || (st_value s =? 0) then None
  else match st_name s with
       | Some (String c n) =>
           Some (LibcSym (st_value s) (if st_size s =? 0 then DEFAULT_FUNC_SIZE else st_size s)
                   (strncpyz 128 (String c n)))
       | _ => None
       end.

(** Function symbols in file order; an address that is there already is skipped. *)
Definition add_symbol (max : nat) (out : list libc_sym_entry) (s : elf_sym) : list libc_sym_entry :=
  if (length out <? max)%nat then
    match libc_sym_of s with
    | None => out
    | Some y => if existsb (fun z => ls_addr z =? ls_addr y) out then out else out ++ [y]
    end
  else out.

Definition add_section_symbols (max : nat) (out : list libc_sym_entry) (s : elf_section)
  : list libc_sym_entry :=
  fold_left (add_symbol max) (section_syms s) out.

(** [qsort] with [sym_addr_cmp]; the addresses are distinct, so the order is
    determined. *)
Definition sym_le (a b : libc_sym_entry) : Prop := ls_addr a <= ls_addr b.
#[global] Instance sym_le_dec a b : Decision (sym_le a b).
Proof. unfold sym_le. apply _. Defined.

Definition build_libc_symtab (f : option elf_file) (max : nat) : list libc_sym_entry :=
  match f with
  | None => []
  | Some e => merge_sort sym_le (fold_left (add_section_symbols max) (e_sections e) [])
  end.

Definition sym_end (s : libc_sym_entry) : Z := u64 (ls_addr s + ls_size s).
Definition sym_covers (addr : Z) (s : libc_sym_entry) : bool :=
  (ls_addr s <=? addr) && (addr <? sym_end s).

(** Binary search between [lo] and [hi]; [None] of the result is an index outside
    the table or exhausted fuel. *)
Fixpoint bsearch (fuel : nat) (syms : list libc_sym_entry) (addr lo hi : Z) : option (option nat) :=
  if lo <=? hi then
    match fuel with
    | O => None
    | S fuel' =>
        let mid := (lo + hi) / 2 in
        match syms !! Z.to_nat mid with
        | None => None
        | Some s =>
            if addr <? ls_addr s then bsearch fuel' syms addr lo (mid - 1)
            else if sym_end s <=? addr then bsearch fuel' syms addr (mid + 1) hi
            else Some (Some (Z.to_nat mid))
        end
    end
  else Some None.

(** The loop from the last symbol down, [n] of them left. *)
Fixpoint find_below (n : nat) (syms : list libc_sym_entry) (addr : Z) : option (option nat) :=
  match n with
  | O => Some None
  | S i =>
      match syms !! i with
      | None => None
      | Some s =>
          if sym_covers addr s then Some (Some i)
          else if ls_addr s <? addr then Some None
          else find_below i syms addr
      end
  end.

Definition find_sym_at_addr (syms : list libc_sym_entry) (addr : Z) : option (option nat) :=
  match bsearch (length syms) syms addr 0 (Z.of_nat (length syms) - 1) with
  | None => None
  | Some (Some i) => Some (Some i)
  | Some None => find_below (length syms) syms addr
  end.

Definition find_sym_by_name (syms : list libc_sym_entry) (name : string) : option nat :=
  fst <$> list_find (fun s => ls_name s = name) syms.

(** ** Executable sections *)

Definition MAX_EXEC_SECTIONS : nat := 16.

Record exec_section := ExecSection { xs_vaddr : Z; xs_data : list Z }.

Fixpoint load_exec_loop (l : list elf_section) (room : nat) : list exec_section :=
  match l, room with
  | s :: rest, S room' =>
      match (if is_exec s then sh_data s else None) with
      | Some (b :: bs) => ExecSection (sh_addr s) (b :: bs) :: load_exec_loop rest room'
      | _ => load_exec_loop rest room
      end
  | _, _ => []
  end.

Definition load_exec_sections (f : option elf_file) (max : nat) : list exec_section :=
  match f with None => [] | Some e => load_exec_loop (e_sections e) max end.

(** The bytes from an address on, at most [len]; [None] when no section has it. *)
Fixpoint get_bytes_at (secs : list exec_section) (addr len : Z) : option (list Z) :=
  match secs with
  | [] => None
  | s :: rest =>
      if (xs_vaddr s <=? addr) && (addr <? u64 (xs_vaddr s + Z.of_nat (length (xs_data s)))) then
        Some (take (Z.to_nat len) (drop (Z.to_nat (addr - xs_vaddr s)) (xs_data s)))
      else get_bytes_at rest addr len
  end.

(** ** The sections of the compiler pass *)

Definition named (name : string) (s : elf_section) : bool :=
  match sh_name s with Some n => streq n name | None => false end.

(** The number of NUL bytes bounds the number of names; a name that runs to the
    end of the section without a NUL is read past it ([None]). *)
Fixpoint take_name (bs : list Z) : option (list Z * list Z) :=
  match bs with
  | [] => None
  | b :: rest =>
      if b =? 0 then Some ([], rest)
      else match take_name rest with Some (n, r) => Some (b :: n, r) | None => None end
  end.

Fixpoint imports_loop (fuel : nat) (bs : list Z) (room : nat) : option (list (list Z)) :=
  match bs, room, fuel with
  | [], _, _ | _, O, _ => Some []
  | _, _, O => None
  | b :: rest, S room', S fuel' =>
      if b =? 0 then imports_loop fuel' rest room
      else match take_name bs with
           | None => None
           | Some (n, r) => match imports_loop fuel' r room' with
                            | Some l => Some (n :: l)
                            | None => None
                            end
           end
  end.

Definition parse_imports_blob (blob : list Z) : option (list (list Z)) :=
  imports_loop (length blob) blob (length (List.filter (Z.eqb 0) blob)).

Definition parse_sentinel_imports (f : option elf_file) : option (list (list Z)) :=
  match f with
  | None => Some []
  | Some e =>
      match List.find (named ".sentinel_imports"%string) (e_sections e) with
      | Some s => match sh_data s with
                  | Some (b :: bs) => parse_imports_blob (b :: bs)
                  | _ => Some []
                  end
      | None => Some []
      end
  end.

Record sentinel_cfi_entry := CfiEntry { ce_site : Z; ce_func : Z }.

(** [n] entries of 16 bytes; those with a site, at most [room]. *)
Fixpoint cfi_entries (n : nat) (bs : list Z) (room : nat) : list sentinel_cfi_entry :=
  match n, room with
  | S n', S room' =>
      let site := le_decode (take 8 bs) in
      if site =? 0 then cfi_entries n' (drop 16 bs) room
      else CfiEntry site (le_decode (take 8 (drop 8 bs))) :: cfi_entries n' (drop 16 bs) room'
  | _, _ => []
  end.

Definition parse_sentinel_cfi (f : option elf_file) (max : nat) : list sentinel_cfi_entry :=
  match f with
  | None => []
  | Some e =>
      match List.find (named ".sentinel_cfi"%string) (e_sections e) with
      | Some s => match sh_data s with
                  | Some data => cfi_entries (length data / 16) data max
                  | None => []
                  end
      | None => []
      end
  end.
