(* ===== verification/LoaderElfProofs.v ===== *)
(** * ELF scanning of the loader: theorems

    The scanner finds exactly the opcodes; the symbol table is sorted and
    without duplicates, and its search finds the function of an address; the
    sections of the compiler pass decode to what was encoded. *)

From S2P Require Import Prelude CStrings LoaderElf.
From stdpp Require Import prelude strings list sorting.
From Stdlib Require Import ZArith Lia Ascii.
#[local] Open Scope Z_scope.

(** ** The scanner *)

(** An opcode 0f 05 at position [j]. *)
Definition syscall_at (bs : list Z) (j : nat) : Prop := bs !! j = Some 0x0f /\ bs !! S j = Some 0x05.

Lemma syscall_at_cons b bs j : syscall_at (b :: bs) (S j) <-> syscall_at bs j.
Proof. done. Qed.

Lemma scan_opcodes_cons b0 b1 bs addr room :
  scan_opcodes (b0 :: b1 :: bs) addr (S room) =
    if (b0 =? 0x0f) && (b1 =? 0x05) then u64 addr :: scan_opcodes (b1 :: bs) (addr + 1) room
    else scan_opcodes (b1 :: bs) (addr + 1) (S room).
Proof. done. Qed.

Lemma scan_opcodes_length bs addr room : (length (scan_opcodes bs addr room) <= room)%nat.
Proof.
  revert addr room. induction bs as [|b0 bs IH]; intros addr room; [cbn; lia|].
  cbn [scan_opcodes]. destruct bs as [|b1 bs], room as [|room]; cbn [length]; try lia.
  destruct (_ && _); [cbn [length]; specialize (IH (addr + 1) room); lia|apply IH].
Qed.

Lemma scan_opcodes_sound bs addr room a :
  a ∈ scan_opcodes bs addr room -> exists j, syscall_at bs j /\ a = u64 (addr + Z.of_nat j).
Proof.
  revert addr room. induction bs as [|b0 bs IH]; intros addr room; [set_solver|].
  cbn [scan_opcodes]. destruct bs as [|b1 bs]; [set_solver|]. destruct room as [|room]; [set_solver|].
  assert (forall r, a ∈ scan_opcodes (b1 :: bs) (addr + 1) r ->
    exists j, syscall_at (b0 :: b1 :: bs) j /\ a = u64 (addr + Z.of_nat j)) as Hrest.
  { intros r Ha. destruct (IH _ _ Ha) as (j & Hj & ->). exists (S j). split; [done|]. f_equal. lia. }
  destruct ((b0 =? 0x0f) && (b1 =? 0x05)) eqn:E; [|apply Hrest].
  boolify. subst. rewrite elem_of_cons. intros [->|Ha]; [|by eapply Hrest].
  exists 0%nat. split; [done|]. f_equal. lia.
Qed.

Lemma scan_opcodes_complete bs addr room j :
  (length (scan_opcodes bs addr room) < room)%nat -> syscall_at bs j ->
  u64 (addr + Z.of_nat j) ∈ scan_opcodes bs addr room.
Proof.
  revert addr room j. induction bs as [|b0 bs IH]; intros addr room j Hlen Hj; [by destruct Hj|].
  destruct bs as [|b1 bs]; [destruct Hj as [_ Hj]; by destruct j|].
  destruct room as [|room]; [cbn in Hlen; lia|].
  rewrite scan_opcodes_cons in Hlen |- *. destruct j as [|j].
  - destruct Hj as [[= ->] [= ->]]. cbn [Z.eqb Pos.eqb andb]. apply elem_of_cons. left. f_equal. lia.
  - apply syscall_at_cons in Hj. replace (addr + Z.of_nat (S j)) with (addr + 1 + Z.of_nat j) by lia.
    destruct (_ && _); [|by apply IH]. apply elem_of_cons. right. apply IH; [|done].
    cbn [length] in Hlen. lia.
Qed.

(** ** The symbol table *)

Lemma add_symbol_inv max out s :
  NoDup (map ls_addr out) -> (length out <= max)%nat ->
  NoDup (map ls_addr (add_symbol max out s)) /\ (length (add_symbol max out s) <= max)%nat.
Proof.
  intros Hnd Hlen. unfold add_symbol. destruct (_ <? _)%nat eqn:El; [|done]. boolify.
  destruct (libc_sym_of s) as [y|]; [|done]. destruct (existsb _ out) eqn:Ex; [done|].
  rewrite map_app, length_app. cbn [map length]. split; [|lia].
  apply NoDup_app. split_and!; [done| |apply NoDup_singleton].
  intros a Ha Hin. apply list_elem_of_singleton in Hin as ->. apply list_elem_of_fmap in Ha as (z & Hz & Hi).
  apply Bool.not_true_iff_false in Ex. apply Ex, existsb_exists. exists z. split; [by apply list_elem_of_In|]. lia.
Qed.

Lemma fold_symbols_inv max l out :
  NoDup (map ls_addr out) -> (length out <= max)%nat ->
  NoDup (map ls_addr (fold_left (add_section_symbols max) l out)) /\
  (length (fold_left (add_section_symbols max) l out) <= max)%nat.
Proof.
  revert out. induction l as [|s l IH]; intros out Hnd Hlen; [done|]. cbn [fold_left].
  assert (forall ys o, NoDup (map ls_addr o) -> (length o <= max)%nat ->
    NoDup (map ls_addr (fold_left (add_symbol max) ys o)) /\ (length (fold_left (add_symbol max) ys o) <= max)%nat)
    as Hin.
  { induction ys as [|y ys IHy]; intros o Ho Hl; [done|]. cbn [fold_left].
    destruct (add_symbol_inv max o y Ho Hl). by apply IHy. }
  destruct (Hin (section_syms s) out Hnd Hlen). by apply IH.
Qed.

#[global] Instance sym_le_trans : Transitive sym_le.
Proof. unfold sym_le. intros ???. lia. Qed.
#[global] Instance sym_le_total : Total sym_le.
Proof. unfold sym_le. intros ??. lia. Qed.

(** Ordered by address, and no address twice. *)
Definition sym_lt (a b : libc_sym_entry) : Prop := ls_addr a < ls_addr b.
Definition symtab_ok (syms : list libc_sym_entry) : Prop :=
  forall i j a b, (i < j)%nat -> syms !! i = Some a -> syms !! j = Some b -> sym_lt a b.

Lemma build_libc_symtab_ok f max :
  symtab_ok (build_libc_symtab f max) /\ (length (build_libc_symtab f max) <= max)%nat.
Proof.
  unfold build_libc_symtab. destruct f as [e|]; [|split; [done|cbn; lia]].
  destruct (fold_symbols_inv max (e_sections e) []) as [Hnd Hlen]; [by constructor|cbn; lia|].
  set (l := fold_left _ _ _) in *. pose proof (merge_sort_Permutation sym_le l) as Hp.
  split; [|by rewrite Hp].
  pose proof (Sorted_merge_sort sym_le l) as Hs.
  apply Sorted_StronglySorted in Hs; [|apply _].
  assert (NoDup (map ls_addr (merge_sort sym_le l))) as Hnd' by (rewrite Hp; done).
  clear Hp Hnd Hlen. generalize dependent (merge_sort sym_le l). clear l. intros l Hs Hnd i j a b Hij Ha Hb.
  assert (sym_le a b) as Hle.
  { clear Hnd. revert i j Hij Ha Hb. induction Hs as [|x l Hs IH Hx]; intros i j Hij Ha Hb; [done|].
    destruct j as [|j]; [lia|]. destruct i as [|i]; cbn in Ha, Hb.
    - simplify_eq. rewrite Forall_forall in Hx. apply Hx. by eapply list_elem_of_lookup_2.
    - eapply IH; [|done..]. lia. }
  unfold sym_le, sym_lt in *. assert (ls_addr a <> ls_addr b); [|lia]. intros Heq.
  enough (i = j) by lia. eapply NoDup_lookup; [exact Hnd|..].
  - rewrite list_lookup_fmap, Ha. done.
  - rewrite list_lookup_fmap, Hb. cbn. by rewrite Heq.
Qed.

(** Bodies that fit in the address space and do not overlap. *)
Definition bodies_fit (syms : list libc_sym_entry) : Prop :=
  Forall (fun s => 0 <= ls_addr s /\ 0 <= ls_size s /\ ls_addr s + ls_size s < 2 ^ 64) syms.
Definition bodies_disjoint (syms : list libc_sym_entry) : Prop :=
  bodies_fit syms /\
  forall i j a b, (i < j)%nat -> syms !! i = Some a -> syms !! j = Some b -> ls_addr a + ls_size a <= ls_addr b.

Lemma sym_covers_spec addr s :
  0 <= ls_addr s -> 0 <= ls_size s -> ls_addr s + ls_size s < 2 ^ 64 ->
  sym_covers addr s = true <-> ls_addr s <= addr < ls_addr s + ls_size s.
Proof.
  intros H1 H2 H3. unfold sym_covers, sym_end. rewrite u64_id by (unfold is_u64; lia).
  rewrite andb_true_iff, Z.leb_le, Z.ltb_lt. lia.
Qed.

Definition none_covers (syms : list libc_sym_entry) (addr : Z) (P : Z -> Prop) : Prop :=
  forall i s, P (Z.of_nat i) -> syms !! i = Some s -> sym_covers addr s = false.

Lemma not_covers addr s : sym_covers addr s = false <-> ~ (ls_addr s <= addr /\ addr < sym_end s).
Proof.
  unfold sym_covers. rewrite <- Bool.not_true_iff_false, andb_true_iff, Z.leb_le, Z.ltb_lt. tauto.
Qed.

Lemma disjoint_bounds syms i j a b addr :
  bodies_disjoint syms -> (i <= j)%nat -> syms !! i = Some a -> syms !! j = Some b ->
  sym_end a = ls_addr a + ls_size a /\ (addr < ls_addr a -> addr < ls_addr b) /\
  (sym_end b <= addr -> sym_end a <= addr).
Proof.
  intros [Hf Hd] Hij Ha Hb. unfold bodies_fit in Hf. rewrite Forall_lookup in Hf.
  destruct (Hf _ _ Ha) as (A1 & A2 & A3), (Hf _ _ Hb) as (B1 & B2 & B3).
  unfold sym_end. rewrite !u64_id by (unfold is_u64; lia).
  destruct (decide (i = j)) as [->|]; [simplify_eq; lia|].
  pose proof (Hd i j a b ltac:(lia) Ha Hb). lia.
Qed.

Lemma bsearch_spec fuel syms addr lo hi :
  0 <= lo -> hi < Z.of_nat (length syms) -> hi - lo + 1 <= Z.of_nat fuel ->
  exists r, bsearch fuel syms addr lo hi = Some r /\
    (forall i, r = Some i -> exists s, syms !! i = Some s /\ sym_covers addr s = true) /\
    (r = None -> bodies_disjoint syms -> none_covers syms addr (fun i => lo <= i <= hi)).
Proof.
  revert lo hi. induction fuel as [|fuel IH]; intros lo hi Hlo Hhi Hfuel; cbn [bsearch].
  { destruct (lo <=? hi) eqn:E; boolify; [lia|]. exists None. split_and!; [done..|].
    intros _ _ i s Hi. lia. }
  destruct (lo <=? hi) eqn:E; boolify.
  2:{ exists None. split_and!; [done..|]. intros _ _ i s Hi. lia. }
  set (mid := (lo + hi) / 2). assert (lo <= mid <= hi) as Hm by (unfold mid; lia).
  destruct (lookup_lt_is_Some_2 syms (Z.to_nat mid) ltac:(lia)) as [s Hs]. rewrite Hs.
  destruct (addr <? ls_addr s) eqn:E1; boolify.
  - destruct (IH lo (mid - 1)) as (r & Hr & Hsome & Hnone); [lia..|].
    exists r. split_and!; [done..|]. intros Hn Hd i y Hi Hy. destruct (decide (Z.of_nat i < mid)).
    + eapply Hnone; [done|done| |done]. lia.
    + apply not_covers. destruct (disjoint_bounds syms (Z.to_nat mid) i s y addr Hd ltac:(lia) Hs Hy). lia.
  - destruct (sym_end s <=? addr) eqn:E2; boolify.
    + destruct (IH (mid + 1) hi) as (r & Hr & Hsome & Hnone); [lia..|].
      exists r. split_and!; [done..|]. intros Hn Hd i y Hi Hy. destruct (decide (mid < Z.of_nat i)).
      * eapply Hnone; [done|done| |done]. lia.
      * apply not_covers. destruct (disjoint_bounds syms i (Z.to_nat mid) y s addr Hd ltac:(lia) Hy Hs). lia.
    + exists (Some (Z.to_nat mid)). split_and!; [done| |done]. intros i [= <-]. exists s. split; [done|].
      unfold sym_covers. rewrite andb_true_iff, Z.leb_le, Z.ltb_lt. lia.
Qed.

Lemma find_below_spec n syms addr :
  (n <= length syms)%nat ->
  exists r, find_below n syms addr = Some r /\
    forall i, r = Some i -> exists s, syms !! i = Some s /\ sym_covers addr s = true.
Proof.
  induction n as [|n IH]; intros Hn; cbn [find_below]; [by eexists|].
  destruct (lookup_lt_is_Some_2 syms n ltac:(lia)) as [s Hs]. rewrite Hs.
  destruct (sym_covers addr s) eqn:E.
  - eexists. split; [done|]. intros i [= <-]. eauto.
  - destruct (ls_addr s <? addr); [by eexists|]. apply IH. lia.
Qed.

(** The function of an address: the search always ends inside the table; what it
    finds covers the address; and when the functions do not overlap it finds the
    function whenever there is one. *)
Lemma find_sym_at_addr_spec syms addr :
  exists r, find_sym_at_addr syms addr = Some r /\
    (forall i, r = Some i -> exists s, syms !! i = Some s /\ sym_covers addr s = true) /\
    (bodies_disjoint syms -> r = None -> forall i s, syms !! i = Some s -> sym_covers addr s = false).
Proof.
  unfold find_sym_at_addr.
  destruct (bsearch_spec (length syms) syms addr 0 (Z.of_nat (length syms) - 1)) as (r & -> & Hs & Hn); [lia..|].
  destruct r as [i|]; [by exists (Some i)|].
  destruct (find_below_spec (length syms) syms addr ltac:(lia)) as (r & -> & Hb).
  exists r. split_and!; [done..|]. intros Hd _ i s Hi. eapply Hn; [done|done| |done].
  apply lookup_lt_Some in Hi. cbn. lia.
Qed.

Lemma disjoint_cover_unique syms addr i j a b :
  bodies_disjoint syms -> syms !! i = Some a -> syms !! j = Some b ->
  sym_covers addr a = true -> sym_covers addr b = true -> i = j.
Proof.
  intros [Hf Hd] Ha Hb Ca Cb. unfold bodies_fit in Hf. rewrite Forall_lookup in Hf.
  destruct (Hf _ _ Ha) as (A1 & A2 & A3), (Hf _ _ Hb) as (B1 & B2 & B3).
  rewrite sym_covers_spec in Ca, Cb by done.
  destruct (decide (i = j)); [done|]. destruct (decide (i < j)%nat).
  - pose proof (Hd i j a b ltac:(lia) Ha Hb). lia.
  - pose proof (Hd j i b a ltac:(lia) Hb Ha). lia.
Qed.

Lemma find_sym_by_name_spec syms name :
  match find_sym_by_name syms name with
  | Some i => exists s, syms !! i = Some s /\ ls_name s = name
  | None => forall s, s ∈ syms -> ls_name s <> name
  end.
Proof.
  unfold find_sym_by_name. destruct (list_find _ syms) as [[i s]|] eqn:E; cbn.
  - apply list_find_Some in E as (H1 & H2 & _). eauto.
  - apply list_find_None in E. rewrite Forall_forall in E. done.
Qed.

(** ** The sections of the compiler pass *)

(** The layout of the imports: each name and a NUL. *)
Definition imports_blob (names : list (list Z)) : list Z := concat (map (fun n => n ++ [0]) names).
Definition name_ok (n : list Z) : Prop := n <> [] /\ Forall (fun b => b <> 0) n.

Lemma take_name_app n rest : Forall (fun b => b <> 0) n -> take_name (n ++ 0 :: rest) = Some (n, rest).
Proof.
  induction 1 as [|b n Hb _ IH]; [done|]. cbn [app take_name].
  rewrite (proj2 (Z.eqb_neq b 0)) by done. by rewrite IH.
Qed.

Lemma imports_loop_blob names fuel room :
  Forall name_ok names -> (length names <= fuel)%nat -> (length names <= room)%nat ->
  imports_loop fuel (imports_blob names) room = Some names.
Proof.
  intros Hn. revert fuel room. induction Hn as [|n names [Hne Hnz] _ IH]; intros fuel room Hf Hr.
  { by destruct fuel. }
  destruct fuel as [|fuel]; [cbn in Hf; lia|]. destruct room as [|room]; [cbn in Hr; lia|].
  change (imports_blob (n :: names)) with ((n ++ [0]) ++ imports_blob names). rewrite <- app_assoc. cbn [app].
  destruct n as [|b n]; [done|]. cbn [app imports_loop]. apply Forall_cons in Hnz as [Hb Hnz].
  rewrite (proj2 (Z.eqb_neq b 0)) by done.
  change (b :: n ++ 0 :: imports_blob names) with ((b :: n) ++ 0 :: imports_blob names).
  rewrite take_name_app by (by constructor). cbn in Hf, Hr. by rewrite IH by lia.
Qed.

Lemma blob_counts names :
  Forall name_ok names ->
  (length names <= length (imports_blob names))%nat /\
  length (List.filter (Z.eqb 0) (imports_blob names)) = length names.
Proof.
  induction 1 as [|n names [Hne Hnz] _ [IH1 IH2]]; [done|].
  change (imports_blob (n :: names)) with ((n ++ [0]) ++ imports_blob names).
  rewrite List.filter_app, !length_app, IH2. cbn [length]. split; [lia|].
  rewrite List.filter_app, length_app. cbn.
  assert (List.filter (Z.eqb 0) n = []) as ->; [|cbn; lia].
  clear Hne. induction Hnz as [|b n Hb _ IH]; [done|]. cbn [List.filter].
  by rewrite (proj2 (Z.eqb_neq 0 b)) by done.
Qed.

Lemma parse_imports_roundtrip names :
  Forall name_ok names -> parse_imports_blob (imports_blob names) = Some names.
Proof.
  intros Hn. destruct (blob_counts names Hn) as [H1 H2]. unfold parse_imports_blob.
  apply imports_loop_blob; [done|lia|lia].
Qed.

(** A section whose last name has no NUL, after a stray NUL, is read past its end. *)
Lemma unterminated_import_overreads : parse_imports_blob [0; 98] = None.
Proof. done. Qed.

Definition cfi_bytes (l : list sentinel_cfi_entry) : list Z :=
  concat (map (fun e => le_encode 8 (ce_site e) ++ le_encode 8 (ce_func e)) l).

Lemma cfi_entries_bytes l rest room :
  Forall (fun e => is_u64 (ce_site e) /\ ce_site e <> 0 /\ is_u64 (ce_func e)) l -> (length l <= room)%nat ->
  cfi_entries (length l) (cfi_bytes l ++ rest) room = l.
Proof.
  intros Hl. revert room. induction Hl as [|[s f] l (H1 & H2 & H3) _ IH]; intros room Hr; [done|].
  destruct room as [|room]; [cbn in Hr; lia|]. cbn [ce_site ce_func] in *.
  change (cfi_bytes (CfiEntry s f :: l)) with ((le_encode 8 s ++ le_encode 8 f) ++ cfi_bytes l).
  rewrite <- !app_assoc. cbn [length cfi_entries].
  rewrite take_app_length' by (by rewrite length_le_encode).
  change 16%nat with (8 + 8)%nat. rewrite <- drop_drop.
  rewrite !drop_app_length' by (by rewrite length_le_encode).
  rewrite take_app_length' by (by rewrite length_le_encode).
  assert (forall z, is_u64 z -> le_decode (le_encode 8 z) = z) as Hde.
  { intros z Hz. apply le_decode_encode. unfold is_u64 in Hz.
    change (256 ^ Z.of_nat 8) with 18446744073709551616. lia. }
  rewrite !Hde by done. rewrite (proj2 (Z.eqb_neq s 0)) by done. f_equal. apply IH. cbn in Hr. lia.
Qed.

(** ** The search against a reference *)

(** The first function, in order, that covers the address. *)
Definition linear_search (syms : list libc_sym_entry) (addr : Z) : option nat :=
  fst <$> list_find (fun s => sym_covers addr s = true) syms.

(** C32. The symbol search is a linear search: on every table of functions that do not
    overlap, the loader's binary search with its fallback ends and gives, for every
    address, exactly what going through the table from the start gives. *)
Theorem symbol_search_equiv syms addr :
  bodies_disjoint syms -> find_sym_at_addr syms addr = Some (linear_search syms addr).
Proof.
  intros Hd. destruct (find_sym_at_addr_spec syms addr) as (r & -> & Hs & Hn). f_equal. unfold linear_search.
  destruct (list_find _ syms) as [[j y]|] eqn:E; cbn.
  - apply list_find_Some in E as (Hj & Hc & _). destruct r as [i|].
    + destruct (Hs i eq_refl) as (s & Hi & Hcs). f_equal. by eapply (disjoint_cover_unique syms addr).
    + rewrite (Hn Hd eq_refl j y Hj) in Hc. done.
  - apply list_find_None in E. destruct r as [i|]; [|done]. destruct (Hs i eq_refl) as (s & Hi & Hcs).
    rewrite Forall_forall in E. exfalso. apply (E s); [by eapply list_elem_of_lookup_2|done].
Qed.

Lemma symbol_search_equiv_witness :
  find_sym_at_addr [LibcSym 16 8 "a"%string; LibcSym 32 8 "b"%string; LibcSym 48 4 "c"%string] 35 = Some (Some 1%nat).
Proof.
  rewrite (symbol_search_equiv [LibcSym 16 8 "a"%string; LibcSym 32 8 "b"%string; LibcSym 48 4 "c"%string] 35).
  - reflexivity.
  - split; [repeat constructor; cbn; lia|].
    intros [|[|[|i]]] [|[|[|j]]] a b Hij Ha Hb; cbn in Ha, Hb; simplify_eq; cbn; lia.
Defined.
