(* ===== verification/LoaderGraph.v ===== *)
(** * Call-graph filtering of the loader (loader.c)

    [trace_libc_callgraph] and [trace_lib_callgraph]: a breadth-first search
    from the functions that the program imports through the relative calls and
    jumps of a library, which collects the system call sites of the functions
    it reaches.  Memory allocation is taken to succeed. *)

From S2P Require Import Prelude CStrings LoaderElf.
From stdpp Require Import prelude strings list.
From Stdlib Require Import ZArith Lia Ascii.
#[local] Open Scope Z_scope.

Definition MAX_REACHABLE : nat := Z.to_nat 4096.
Definition CALLGRAPH_DEPTH_LIMIT : nat := 24.

(** ** The work queue *)

Record bfs := Bfs { visited : list bool; queue : list nat }.

Definition bfs_start (nsyms : nat) : bfs := Bfs (replicate nsyms false) [].

(** [if (!visited[i] && q_tail < MAX_REACHABLE) { visited[i] = 1; queue[q_tail++] = i; }] *)
Definition push (i : nat) (b : bfs) : bfs :=
  match visited b !! i with
  | Some false =>
      if (length (queue b) <? MAX_REACHABLE)%nat
      then Bfs (<[i := true]> (visited b)) (queue b ++ [i]) else b
  | _ => b
  end.

Definition push_all (l : list nat) (b : bfs) : bfs := fold_left (fun b i => push i b) l b.

(** ** Seeds *)

Definition essential_seeds : list string :=
  ["__syscall_cancel_arch"; "__syscall_cancel"; "__internal_syscall_cancel"; "__libc_do_syscall";
   "__GI___ioctl"; "__ioctl"; "ioctl"; "__isatty"; "isatty"; "__isatty_nostatus"; "__tcgetattr";
   "tcgetattr"; "__GI___fstat64"; "__fstat64"; "__fxstat64"; "fstat"; "__fstat"; "__GI___lseek64";
   "__lseek64"; "lseek64"; "lseek"; "__brk"; "__sbrk"; "__mmap"; "__munmap"; "__sigaction";
   "__rt_sigaction"; "__sigprocmask"; "_exit"; "__GI__exit"; "__exit_funcs"]%string.

(** The symbols that the names denote, in order. *)
Definition seeds_by_name (syms : list libc_sym_entry) (names : list string) : list nat :=
  omap (find_sym_by_name syms) names.

Fixpoint strip_underscores (s : string) : string :=
  match s with
  | String "_" rest => strip_underscores rest
  | _ => s
  end.

(** An internal variant of an imported name: it contains the base name, and
    starts with two underscores or with the base name. *)
Definition is_variant (base sn : string) : bool :=
  contains sn base && (strneq 2 sn "__" || strneq (String.length base) sn base).

Definition variant_seeds (syms : list libc_sym_entry) (imp : string) : list nat :=
  let base := strip_underscores imp in
  if (String.length base <? 2)%nat then []
  else List.filter (fun i => match syms !! i with Some s => is_variant base (ls_name s) | None => false end)
         (seq 0 (length syms)).

(** ** Call targets *)

Definition s32 (z : Z) : Z := if z <? 2147483648 then z else z - 4294967296.

(** The targets of the E8 and E9 instructions with a full displacement in [bs],
    which starts at [addr]. *)
Fixpoint call_targets (bs : list Z) (addr : Z) : list Z :=
  match bs with
  | [] => []
  | b :: rest =>
      let tail := call_targets rest (addr + 1) in
      match rest with
      | d0 :: d1 :: d2 :: d3 :: _ =>
          if (b =? 0xE8) || (b =? 0xE9)
          then u64 (addr + 5 + s32 (le_decode [d0; d1; d2; d3])) :: tail else tail
      | _ => tail
      end
  end.

(** The symbol of a target; the search always gives an answer. *)
Definition callee (syms : list libc_sym_entry) (target : Z) : option nat :=
  default None (find_sym_at_addr syms target).

Definition callees (syms : list libc_sym_entry) (secs : list exec_section) (sym : libc_sym_entry) : list nat :=
  match get_bytes_at secs (ls_addr sym) (ls_size sym) with
  | None => []
  | Some bytes => omap (callee syms) (call_targets bytes (ls_addr sym))
  end.

(** ** The search *)

Fixpoint bfs_loop (fuel : nat) (syms : list libc_sym_entry) (secs : list exec_section) (b : bfs)
    (q_head current_depth depth_boundary : nat) : option bfs :=
  if (q_head <? length (queue b))%nat && (current_depth <? CALLGRAPH_DEPTH_LIMIT)%nat then
    match fuel, queue b !! q_head with
    | S fuel', Some sym_idx =>
        match syms !! sym_idx with
        | None => None
        | Some sym =>
            let '(depth, boundary) :=
              if (depth_boundary <? S q_head)%nat then (S current_depth, length (queue b))
              else (current_depth, depth_boundary) in
            bfs_loop fuel' syms secs (push_all (callees syms secs sym) b) (S q_head) depth boundary
        end
    | _, _ => None
    end
  else Some b.

Fixpoint collect_sites (syms : list libc_sym_entry) (secs : list exec_section) (q : list nat) (room : nat)
  : list Z :=
  match q with
  | [] => []
  | i :: rest =>
      match syms !! i with
      | None => collect_sites syms secs rest room
      | Some sym =>
          match get_bytes_at secs (ls_addr sym) (ls_size sym) with
          | None => collect_sites syms secs rest room
          | Some bytes =>
              let found := scan_opcodes bytes (ls_addr sym) room in
              found ++ collect_sites syms secs rest (room - length found)
          end
      end
  end.

(** The search from the seeds; at most [MAX_REACHABLE] turns.  The result is the
    sites and the number of functions reached. *)
Definition trace_from (syms : list libc_sym_entry) (secs : list exec_section) (seeds : list nat)
    (max_sites : nat) : option (list Z * nat) :=
  let b0 := push_all seeds (bfs_start (length syms)) in
  match bfs_loop MAX_REACHABLE syms secs b0 0 0 (length (queue b0)) with
  | None => None
  | Some b => Some (collect_sites syms secs (queue b) max_sites, length (queue b))
  end.

Definition libc_seeds (syms : list libc_sym_entry) (imports : list string) : list nat :=
  seeds_by_name syms imports ++ seeds_by_name syms essential_seeds ++ concat (map (variant_seeds syms) imports).

Definition trace_libc_callgraph (f : option elf_file) (syms : list libc_sym_entry) (imports : list string)
    (max_sites : nat) : option (list Z * nat) :=
  match load_exec_sections f MAX_EXEC_SECTIONS with
  | [] => Some ([], 0%nat)
  | secs => trace_from syms secs (libc_seeds syms imports) max_sites
  end.

Definition lib_seeds (syms : list libc_sym_entry) (imports : list string) : list nat :=
  seeds_by_name syms imports ++ concat (map (variant_seeds syms) imports).

Definition trace_lib_callgraph (f : option elf_file) (app_imports : list string) (max_sites : nat)
  : option (list Z * nat) :=
  match build_libc_symtab f MAX_LIBC_SYMS with
  | [] => Some ([], 0%nat)
  | syms =>
      match load_exec_sections f MAX_EXEC_SECTIONS with
      | [] => Some ([], 0%nat)
      | secs => trace_from syms secs (lib_seeds syms app_imports) max_sites
      end
  end.
