(* ===== verification/LoaderGraphProofs.v ===== *)
(** * Call-graph filtering: theorems

    The search ends, visits no function twice, reaches only functions that the
    call graph connects to a seed, and all of those within the depth limit when
    the queue does not fill up; the sites are the opcodes of their bodies. *)

From S2P Require Import Prelude CStrings LoaderElf LoaderElfProofs LoaderGraph.
From stdpp Require Import prelude strings list relations.
From Stdlib Require Import ZArith Lia Ascii.
#[local] Open Scope Z_scope.

Section search.
Context (syms : list libc_sym_entry) (secs : list exec_section).
Implicit Types (b : bfs) (i k : nat).

(** One call or jump from the body of a function into another. *)
Definition calls i k : Prop := exists s, syms !! i = Some s /\ k ∈ callees syms secs s.

(** Reached from a seed, and reached by at most [n] calls. *)
Definition reached (seeds : list nat) i : Prop := exists s, s ∈ seeds /\ rtc calls s i.
Fixpoint within (seeds : list nat) (n : nat) i : Prop :=
  match n with
  | O => i ∈ seeds
  | S n' => within seeds n' i \/ exists k, within seeds n' k /\ calls k i
  end.

(** ** The invariant of the queue *)

Record bfs_ok b : Prop := {
  bo_len : length (visited b) = length syms;
  bo_nodup : NoDup (queue b);
  bo_room : (length (queue b) <= MAX_REACHABLE)%nat;
  bo_visited : forall i, visited b !! i = Some true <-> i ∈ queue b;
}.

Lemma queue_in_range b i : bfs_ok b -> i ∈ queue b -> (i < length syms)%nat.
Proof.
  intros [H1 _ _ H4] Hi. apply H4, lookup_lt_Some in Hi. by rewrite <- H1.
Qed.

Lemma start_ok : bfs_ok (bfs_start (length syms)).
Proof.
  split; cbn.
  - apply length_replicate.
  - constructor.
  - lia.
  - intros i. split; [|set_solver]. intros H. apply lookup_replicate in H. naive_solver.
Qed.

(** What a push does: nothing, or one new element at the end. *)
Lemma push_spec i b :
  bfs_ok b -> (i < length syms)%nat ->
  bfs_ok (push i b) /\ (exists l, queue (push i b) = queue b ++ l /\ l ⊆ [i]) /\
  ((length (queue (push i b)) < MAX_REACHABLE)%nat -> i ∈ queue (push i b)).
Proof.
  intros [H1 H2 H3 H4] Hi. unfold push.
  destruct (lookup_lt_is_Some_2 (visited b) i ltac:(lia)) as [v Hv]. rewrite Hv. destruct v.
  { split_and!; [done| |].
    - exists []. rewrite app_nil_r. split; [done|set_solver].
    - intros _. by apply H4. }
  assert (i ∉ queue b) as Hni by (rewrite <- H4; congruence).
  destruct (_ <? _)%nat eqn:E; boolify.
  - split_and!; [|exists [i]; by split|intros _; cbn; set_solver]. split; cbn.
    + by rewrite length_insert.
    + apply NoDup_app. split_and!; [done|set_solver|apply NoDup_singleton].
    + rewrite length_app. cbn. lia.
    + intros j. rewrite elem_of_app, list_elem_of_singleton, <- H4.
      destruct (decide (j = i)) as [->|Hne].
      * rewrite list_lookup_insert_eq by lia. tauto.
      * rewrite list_lookup_insert_ne by done. tauto.
  - split_and!; [done| |lia]. exists []. rewrite app_nil_r. split; [done|set_solver].
Qed.

Lemma push_all_spec l b :
  bfs_ok b -> Forall (fun i => (i < length syms)%nat) l ->
  bfs_ok (push_all l b) /\ (exists r, queue (push_all l b) = queue b ++ r /\ r ⊆ l) /\
  ((length (queue (push_all l b)) < MAX_REACHABLE)%nat -> l ⊆ queue (push_all l b)).
Proof.
  intros Hb Hl. revert b Hb. induction Hl as [|i l Hi _ IH]; intros b Hb.
  { split_and!; [done| |set_solver]. exists []. cbn. rewrite app_nil_r. by split. }
  destruct (push_spec i b Hb Hi) as (H1 & (r1 & Hr1 & Hs1) & Hin).
  destruct (IH (push i b) H1) as (H2 & (r2 & Hr2 & Hs2) & Hin2).
  change (push_all (i :: l) b) with (push_all l (push i b)). split_and!; [done| |].
  - exists (r1 ++ r2). rewrite Hr2, Hr1, app_assoc. split; [done|set_solver].
  - intros Hroom. intros x [->|Hx]%elem_of_cons; [|by apply Hin2]. rewrite Hr2. apply elem_of_app. left.
    apply Hin. rewrite Hr2, length_app in Hroom. lia.
Qed.

Lemma callee_in_range t k : callee syms t = Some k -> (k < length syms)%nat.
Proof.
  unfold callee. destruct (find_sym_at_addr_spec syms t) as (r & -> & Hs & _). cbn. intros ->.
  destruct (Hs k eq_refl) as (s & Hk & _). by eapply lookup_lt_Some.
Qed.

Lemma callees_in_range s : Forall (fun i => (i < length syms)%nat) (callees syms secs s).
Proof.
  unfold callees. destruct (get_bytes_at _ _ _); [|constructor]. apply Forall_forall. intros i Hi.
  apply list_elem_of_omap in Hi as (t & _ & Ht). by eapply callee_in_range.
Qed.

(** ** The loop *)

(** The callees of the first [h] elements are in the queue. *)
Definition expanded (b : bfs) (h : nat) : Prop :=
  forall j i k, (j < h)%nat -> queue b !! j = Some i -> calls i k -> k ∈ queue b.

Lemma expanded_mono b b' h l : queue b' = queue b ++ l -> (h <= length (queue b))%nat ->
  expanded b h -> expanded b' h.
Proof.
  intros Hq Hh He j i k Hj Hi Hk. rewrite Hq in Hi |- *. apply elem_of_app. left.
  eapply He; [done| |done]. by rewrite lookup_app_l in Hi by lia.
Qed.

Lemma within_mono seeds n m i : (n <= m)%nat -> within seeds n i -> within seeds m i.
Proof. induction 1; [done|]. intros Hi. left. auto. Qed.

Lemma within_reached seeds n i : within seeds n i -> reached seeds i.
Proof.
  revert i. induction n as [|n IH]; intros i Hi; cbn in Hi.
  - exists i. split; [done|apply rtc_refl].
  - destruct Hi as [Hi|(k & Hk & Hc)]; [auto|]. destruct (IH k Hk) as (s & Hs & Hr).
    exists s. split; [done|]. by eapply rtc_r.
Qed.

(** The invariant of the levels: everything within [d] calls is before the
    boundary, and what is before the head has been expanded. *)
Record levels (seeds : list nat) b (h d bd : nat) : Prop := {
  lv_order : (h <= bd <= length (queue b))%nat;
  lv_expanded : expanded b h;
  lv_within : forall i, within seeds d i -> i ∈ take bd (queue b);
}.

(** Leaving the loop: the queue is exhausted, or the depth is. *)
Lemma levels_exit seeds b h d bd :
  levels seeds b h d bd ->
  (length (queue b) <= h)%nat \/ (CALLGRAPH_DEPTH_LIMIT <= d)%nat ->
  forall i, within seeds CALLGRAPH_DEPTH_LIMIT i -> i ∈ queue b.
Proof.
  intros [Ho Hex Hw] [Hc|Hc] i Hi.
  - generalize dependent CALLGRAPH_DEPTH_LIMIT. intros n Hi. revert i Hi.
    induction n as [|n IH]; intros i Hi.
    + eapply subseteq_take, Hw, within_mono; [|exact Hi]. lia.
    + destruct Hi as [Hi|(k & Hk & Hca)]; [auto|]. apply IH, list_elem_of_lookup in Hk as [j Hj].
      pose proof (lookup_lt_Some _ _ _ Hj). eapply Hex; [|done..]. lia.
  - eapply subseteq_take, Hw, within_mono; done.
Qed.

(** One turn of the loop keeps the levels, unless the queue fills up. *)
Lemma levels_step seeds b h d bd i s :
  bfs_ok b -> levels seeds b h d bd -> queue b !! h = Some i -> syms !! i = Some s ->
  let b' := push_all (callees syms secs s) b in
  (length (queue b') < MAX_REACHABLE)%nat ->
  if (bd <? S h)%nat then levels seeds b' (S h) (S d) (length (queue b)) else levels seeds b' (S h) d bd.
Proof.
  intros Hok [Ho Hex Hw] Hi Hs b' Hroom. pose proof (lookup_lt_Some _ _ _ Hi) as Hh.
  destruct (push_all_spec (callees syms secs s) b Hok (callees_in_range s)) as (Hok' & (r & Hr & _) & Hin).
  fold b' in Hok', Hr, Hin. specialize (Hin Hroom).
  assert (expanded b' (S h)) as Hex'.
  { intros j x k Hj Hx Hk. destruct (decide (j = h)) as [->|].
    - rewrite Hr, lookup_app_l, Hi in Hx by lia. simplify_eq. destruct Hk as (s' & Hs' & Hk). simplify_eq. auto.
    - eapply (expanded_mono b b' h r Hr ltac:(lia) Hex j); [lia|done..]. }
  assert (forall n, (n <= length (queue b))%nat -> take n (queue b') = take n (queue b)) as Htk.
  { intros n Hn. by rewrite Hr, take_app_le by lia. }
  destruct (bd <? S h)%nat eqn:E; boolify.
  - assert (h = bd) as -> by lia. split; [rewrite Hr, length_app; lia|done|].
    intros x Hx. rewrite Htk, take_ge by lia. destruct Hx as [Hx|(k & Hk & Hc)].
    + eapply subseteq_take. by apply Hw.
    + apply Hw, list_elem_of_lookup in Hk as [j Hj]. apply lookup_take_Some in Hj as [Hj Hlt].
      by eapply Hex.
  - split; [rewrite Hr, length_app; lia|done|]. intros x Hx. rewrite Htk by lia. auto.
Qed.

Lemma bfs_loop_spec seeds fuel b h d bd :
  bfs_ok b -> Forall (reached seeds) (queue b) ->
  (h <= length (queue b))%nat -> (MAX_REACHABLE <= fuel + h)%nat ->
  exists b', bfs_loop fuel syms secs b h d bd = Some b' /\ bfs_ok b' /\
    Forall (reached seeds) (queue b') /\ (exists l, queue b' = queue b ++ l) /\
    ((length (queue b') < MAX_REACHABLE)%nat -> levels seeds b h d bd ->
     forall i, within seeds CALLGRAPH_DEPTH_LIMIT i -> i ∈ queue b').
Proof.
  revert b h d bd. induction fuel as [|fuel IH]; intros b h d bd Hok Hre Hh Hf.
  { cbn [bfs_loop]. pose proof (bo_room b Hok). rewrite (proj2 (Nat.ltb_ge _ _)) by lia. cbn [andb].
    exists b. split_and!; [done..|exists []; by rewrite app_nil_r|].
    intros _ Hl. eapply levels_exit; [done|]. lia. }
  cbn [bfs_loop]. destruct ((h <? length (queue b))%nat && (d <? CALLGRAPH_DEPTH_LIMIT)%nat) eqn:Ec.
  2:{ exists b. split_and!; [done..|exists []; by rewrite app_nil_r|].
      intros _ Hl. eapply levels_exit; [done|]. apply andb_false_iff in Ec as [Ec|Ec]; boolify; lia. }
  boolify. destruct (lookup_lt_is_Some_2 (queue b) h ltac:(done)) as [i Hi]. rewrite Hi.
  assert (i ∈ queue b) as Hiq by (by eapply list_elem_of_lookup_2).
  destruct (lookup_lt_is_Some_2 syms i (queue_in_range b i Hok Hiq)) as [s Hs]. rewrite Hs.
  destruct (push_all_spec (callees syms secs s) b Hok (callees_in_range s)) as (Hok' & (r & Hr & Hsub) & _).
  set (b1 := push_all (callees syms secs s) b) in *.
  assert (Forall (reached seeds) (queue b1)) as Hre'.
  { rewrite Hr. apply Forall_app. split; [done|]. apply Forall_forall. intros k Hk. apply Hsub in Hk.
    rewrite Forall_forall in Hre. destruct (Hre i Hiq) as (s0 & Hs0 & Hp). exists s0. split; [done|].
    eapply rtc_r; [done|]. by exists s. }
  assert (forall d' bd', (forall l, length (queue b1) <= l -> l < MAX_REACHABLE -> levels seeds b h d bd ->
      levels seeds b1 (S h) d' bd')%nat ->
    exists b', bfs_loop fuel syms secs b1 (S h) d' bd' = Some b' /\ bfs_ok b' /\
      Forall (reached seeds) (queue b') /\ (exists l, queue b' = queue b ++ l) /\
      ((length (queue b') < MAX_REACHABLE)%nat -> levels seeds b h d bd ->
       forall i, within seeds CALLGRAPH_DEPTH_LIMIT i -> i ∈ queue b')) as Hrec.
  { intros d' bd' Hlev. destruct (IH b1 (S h) d' bd' Hok' Hre') as (b' & E1 & E2 & E3 & (l & E4) & E5).
    - rewrite Hr, length_app. lia.
    - lia.
    - exists b'. split_and!; [done..|exists (r ++ l); by rewrite E4, Hr, app_assoc|].
      intros Hroom Hl. apply E5; [done|]. apply (Hlev (length (queue b'))); [|done..].
      rewrite E4, length_app. lia. }
  pose proof (levels_step seeds b h d bd i s Hok) as Hstep.
  destruct (bd <? S h)%nat; apply Hrec; intros l Hl Hmax Hlv; apply Hstep; try done; fold b1; lia.
Qed.

(** ** The whole search *)

Lemma trace_queue seeds :
  Forall (fun i => (i < length syms)%nat) seeds ->
  let b0 := push_all seeds (bfs_start (length syms)) in
  exists b, bfs_loop MAX_REACHABLE syms secs b0 0 0 (length (queue b0)) = Some b /\ bfs_ok b /\
    (forall i, i ∈ queue b -> reached seeds i) /\
    ((length (queue b) < MAX_REACHABLE)%nat ->
     forall i, within seeds CALLGRAPH_DEPTH_LIMIT i -> i ∈ queue b).
Proof.
  intros Hs b0. destruct (push_all_spec seeds _ start_ok Hs) as (Hok & (r & Hr & Hsub) & Hin). fold b0 in Hok, Hr, Hin.
  cbn [bfs_start queue app] in Hr.
  destruct (bfs_loop_spec seeds MAX_REACHABLE b0 0 0 (length (queue b0))) as (b & E1 & E2 & E3 & (l & E4) & E5).
  - done.
  - apply Forall_forall. intros i Hi. exists i. split; [apply Hsub; by rewrite <- Hr|apply rtc_refl].
  - lia.
  - lia.
  - exists b. split_and!; [done..|by apply Forall_forall|]. intros Hroom. apply E5; [done|]. split.
    + lia.
    + intros j i k Hj. lia.
    + intros i Hi. cbn in Hi. rewrite take_ge by done. apply Hin; [|done].
      rewrite E4, length_app in Hroom. lia.
Qed.

(** A system call instruction in the body of function [i]. *)
Definition site_of (i : nat) (a : Z) : Prop :=
  exists s bytes j, syms !! i = Some s /\ get_bytes_at secs (ls_addr s) (ls_size s) = Some bytes /\
    syscall_at bytes j /\ a = u64 (ls_addr s + Z.of_nat j).

Lemma collect_sound q room a :
  a ∈ collect_sites syms secs q room -> exists i, i ∈ q /\ site_of i a.
Proof.
  revert room. induction q as [|i q IH]; intros room; cbn [collect_sites]; [set_solver|].
  assert (forall r, a ∈ collect_sites syms secs q r -> exists k, k ∈ i :: q /\ site_of k a) as Hrest.
  { intros r Ha. destruct (IH r Ha) as (k & Hk & Hka). exists k. split; [set_solver|done]. }
  destruct (syms !! i) as [s|] eqn:Es; [|apply Hrest].
  destruct (get_bytes_at _ _ _) as [bytes|] eqn:Eb; [|apply Hrest].
  rewrite elem_of_app. intros [Ha|Ha]; [|by eapply Hrest].
  apply scan_opcodes_sound in Ha as (j & Hj & ->). exists i. split; [set_solver|]. by exists s, bytes, j.
Qed.

Lemma collect_length q room : (length (collect_sites syms secs q room) <= room)%nat.
Proof.
  revert room. induction q as [|i q IH]; intros room; cbn [collect_sites]; [cbn; lia|].
  repeat case_match; try apply IH. rewrite length_app.
  match goal with |- (length ?f + _ <= _)%nat =>
    specialize (IH (room - length f)%nat); assert (length f <= room)%nat by apply scan_opcodes_length end. lia.
Qed.

Lemma collect_complete q room i a :
  (length (collect_sites syms secs q room) < room)%nat -> i ∈ q -> site_of i a ->
  a ∈ collect_sites syms secs q room.
Proof.
  intros Hlen Hi Ha. revert room Hlen. induction q as [|k q IH]; intros room Hlen; [set_solver|].
  cbn [collect_sites] in *. apply elem_of_cons in Hi as [->|Hi].
  - destruct Ha as (s & bytes & j & Hs & Hb & Hj & ->). rewrite Hs, Hb in *. rewrite length_app in Hlen.
    apply elem_of_app. left. apply scan_opcodes_complete; [lia|done].
  - specialize (IH Hi). repeat case_match; try by apply IH. rewrite length_app in Hlen.
    apply elem_of_app. right. apply IH. lia.
Qed.

Lemma trace_from_spec seeds max_sites :
  Forall (fun i => (i < length syms)%nat) seeds ->
  exists sites n, trace_from syms secs seeds max_sites = Some (sites, n) /\
    (n <= MAX_REACHABLE)%nat /\ (length sites <= max_sites)%nat /\
    (forall a, a ∈ sites -> exists i, reached seeds i /\ site_of i a) /\
    ((n < MAX_REACHABLE)%nat -> (length sites < max_sites)%nat ->
     forall i a, within seeds CALLGRAPH_DEPTH_LIMIT i -> site_of i a -> a ∈ sites).
Proof.
  intros Hs. destruct (trace_queue seeds Hs) as (b & Hr & Hok & Hso & Hco).
  unfold trace_from. rewrite Hr. eexists _, _. split; [reflexivity|]. split_and!.
  - apply (bo_room b Hok).
  - apply collect_length.
  - intros a Ha. apply collect_sound in Ha as (i & Hi & Hsi). eauto.
  - intros Hn Hlen i a Hi Ha. eapply collect_complete; eauto.
Qed.
End search.
