(* ===== verification/LoaderTrust.v ===== *)
(** * Trust in a binary: signature, revocation and signing (loader.c, sign_tool.c)

    [verify_signature] of the loader with its key sources, the revocation lists
    ([check_crl_file], [is_key_revoked]), and the tool that signs binaries and
    writes the revocation list.

    OpenSSL, the keyring and libelf are outside the repository.  A [Crypto]
    instance is what is used of OpenSSL; a key source is what keyring and token
    store answer; ELF files are those of the ELF component.  Memory allocation is
    taken to succeed. *)

From S2P Require Import Prelude CStrings KvmiSetup LoaderElf.
From stdpp Require Import prelude strings list.
From Stdlib Require Import ZArith Lia Ascii.
#[local] Open Scope string_scope.
#[local] Open Scope list_scope.
#[local] Open Scope Z_scope.

(** The calls on one digest context: its result, no context, or a failure of one of
    the calls.  [fp_garbage] is what lies in a buffer that was not written. *)
Inductive digest :=
| Digest (d : list Z)
| NoContext
| DigestFails.

Class Crypto := {
  PubKey : Type;
  PrivKey : Type;
  EVP_digest : list Z -> digest;
  fp_garbage : string;
  i2d_PUBKEY : PubKey -> option (list Z);
  PEM_read_PUBKEY : list Z -> option PubKey;
  PEM_read_PrivateKey : list Z -> option PrivKey;
  digest_verify_init : PubKey -> bool;
  digest_verify : PubKey -> list Z -> list Z -> Z;
  digest_sign : PrivKey -> list Z -> option (list Z);
}.

(** A result, a refusal, or the end of the program in an OpenSSL error. *)
Inductive outcome (A : Type) :=
| Done (a : A)
| Refused
| Exited.
Arguments Done {A}.
Arguments Refused {A}.
Arguments Exited {A}.

(** ** Fingerprints *)

(** [%02x] *)
Definition hex2 (b : Z) : string := String (digit_char (b / 16)) (String (digit_char (b mod 16)) EmptyString).
Definition hex_string (bs : list Z) : string := foldr (fun b s => hex2 b +:+ s) EmptyString bs.

(** ** The revocation list *)

Definition CRL_MAX_AGE : Z := 30 * 86400.

(** [strtol(s, NULL, 10)] *)
Definition strtol10 (s : string) : Z :=
  let s1 := skip_space s in
  let '(neg, s2) := match s1 with
                    | String "-" s' => (true, s')
                    | String "+" s' => (false, s')
                    | _ => (false, s1)
                    end in
  let v := (scan_digits 10 s2 0 false).1 in
  if neg : bool then Z.max (- 9223372036854775808) (- v) else Z.min 9223372036854775807 v.

(** A line without its newline is skipped when it is empty or a comment. *)
Definition is_comment (line : string) : bool :=
  match line with
  | EmptyString => true
  | String c _ => Ascii.eqb c "#"
  end.

(** The loop over the lines of the list. *)
Fixpoint crl_loop (lines : list string) (now : Z) (fp_hex : string) (version_ok : bool) : bool :=
  match lines with
  | [] => false
  | raw :: rest =>
      let line := until_char newline raw in
      if is_comment line then crl_loop rest now fp_hex version_ok
      else if strneq 8 line "VERSION " then
        if negb (atoi (string_drop 8 line) =? 1) then false else crl_loop rest now fp_hex true
      else if strneq 10 line "TIMESTAMP " then
        if CRL_MAX_AGE <? now - strtol10 (string_drop 10 line) then false
        else crl_loop rest now fp_hex version_ok
      else if strneq 7 line "REVOKE " && version_ok then
        if strneq 64 (string_drop 7 line) fp_hex then true else crl_loop rest now fp_hex version_ok
      else crl_loop rest now fp_hex version_ok
  end.

Definition check_crl_file (crl : option string) (now : Z) (fp_hex : string) : bool :=
  match crl with
  | None => false
  | Some text => crl_loop (fgets_lines 511 text 511) now fp_hex false
  end.

(** The flat list: a line that starts with the fingerprint. *)
Definition listed_key (fp_hex : string) (raw : string) : bool :=
  let line := until_char newline raw in
  negb (is_comment line) && strneq 64 line fp_hex.

Section verify.
Context `{C : Crypto}.

(** The files under /etc/sentinel, and the clock. *)
Record revocations := Revocations {
  revoked_keys : option string;
  policy_crl : option string;
  rev_now : Z;
}.

(** The fingerprint in [fp_hex], [None] without a context; the results of the digest
    calls are not looked at. *)
Definition fingerprint (der : list Z) : option string :=
  match EVP_digest der with
  | Digest d => Some (hex_string d)
  | DigestFails => Some fp_garbage
  | NoContext => None
  end.

Definition is_key_revoked (pub : PubKey) (r : revocations) : bool :=
  match i2d_PUBKEY pub with
  | None => false
  | Some der =>
      match fingerprint der with
      | None => false
      | Some fp_hex =>
          if match revoked_keys r with
             | Some text => existsb (listed_key fp_hex) (fgets_lines 255 text 255)
             | None => false
             end then true
          else check_crl_file (policy_crl r) (rev_now r) fp_hex
      end
  end.

(** ** Keys *)

(** What [OSSL_STORE_load] returns before the end of the store. *)
Inductive store_item :=
| StoreNull
| StoreOther
| StorePkey (k : option PubKey).

Definition TPM2_DEFAULT_URI : string := "pkcs11:token=sentinel;object=pubkey;type=public".

Fixpoint store_key (items : list store_item) : option PubKey :=
  match items with
  | [] => None
  | StorePkey k :: _ => k
  | _ :: rest => store_key rest
  end.

(** The token store, the environment variable that names it, and the keyrings:
    the key in the session or the user keyring, with the sizes that the two
    reads report. *)
Record key_source := KeySource {
  tpm_uri : option string;
  ossl_store : string -> option (list store_item);
  session_key : option Z;
  user_key : option Z;
  key_size : Z -> Z;
  key_read : Z -> Z -> Z * list Z;
}.

Definition load_tpm2_pubkey (ks : key_source) : option PubKey :=
  match ossl_store ks (default TPM2_DEFAULT_URI (tpm_uri ks)) with
  | None => None
  | Some items => store_key items
  end.

Definition load_keyring_pubkey (ks : key_source) : outcome PubKey :=
  match (match session_key ks with Some k => Some k | None => user_key ks end) with
  | None => Refused
  | Some key_id =>
      let klen := key_size ks key_id in
      if klen <=? 0 then Refused
      else
        let '(read_len, buf) := key_read ks key_id klen in
        if negb (read_len =? klen) then Refused
        else match PEM_read_PUBKEY buf with None => Exited | Some pub => Done pub end
  end.

Definition load_pubkey (use_tpm : bool) (ks : key_source) : outcome PubKey :=
  if use_tpm then match load_tpm2_pubkey ks with None => Refused | Some pub => Done pub end
  else load_keyring_pubkey ks.

(** ** The signature *)

(** The data of the last section with the name. *)
Definition last_data (name : string) (l : list elf_section) : option (list Z) :=
  fold_left (fun acc s => if named name s then sh_data s else acc) l None.

(** The bytes that are hashed; an absent optional section adds none. *)
Definition signed_bytes (text sentinel : list Z) (l : list elf_section) : list Z :=
  text ++ sentinel ++ default [] (last_data ".sentinel_cfi" l) ++ default [] (last_data ".sentinel_imports" l).

(** [verify_signature]: [Done] is the descriptor of the binary. *)
Definition verify_signature (f : option elf_file) (use_tpm : bool) (ks : key_source) (r : revocations)
  : outcome unit :=
  match f with
  | None => Refused
  | Some e =>
      let l := e_sections e in
      match last_data ".text" l, last_data ".sentinel" l, last_data ".signature" l with
      | Some text, Some sentinel, Some sig =>
          match load_pubkey use_tpm ks with
          | Refused => Refused
          | Exited => Exited
          | Done pub =>
              if is_key_revoked pub r then Refused
              else
                match EVP_digest (signed_bytes text sentinel l) with
                | Digest hash =>
                    if negb (digest_verify_init pub) then Exited
                    else if digest_verify pub sig hash =? 1 then Done tt else Refused
                | NoContext | DigestFails => Exited
                end
          end
      | _, _, _ => Refused
      end
  end.

(** ** The signing tool *)

Definition SIG_SIZE : Z := 64.

Definition crl_header : string :=
  "# Sentinel-CC Certificate Revocation List" +:+ String newline
  ("VERSION 1" +:+ String newline EmptyString).

(** What [cmd_revoke] appends to the list. *)
Definition crl_append (text : string) (now : Z) (hex reason : string) : string :=
  text +:+ (if streq text "" then crl_header else "") +:+
  ("TIMESTAMP " +:+ fmt_d now +:+ String newline
   ("REVOKE " +:+ hex +:+ String " " (reason +:+ String newline EmptyString))).

(** The exit status and the list afterwards; [crl] is its text, [None] when it
    cannot be opened.  The result is [None] when a digest call gets a null context. *)
Definition cmd_revoke (pem : option (list Z)) (reason : string) (crl : option string) (now : Z)
  : option (Z * option string) :=
  match pem ≫= PEM_read_PUBKEY with
  | None => Some (1, crl)
  | Some pub =>
      match i2d_PUBKEY pub with
      | None => Some (1, crl)
      | Some der =>
          match fingerprint der, crl with
          | None, _ => None
          | Some _, None => Some (1, crl)
          | Some hex, Some text => Some (0, Some (crl_append text now hex reason))
          end
      end
  end.

(** The exit status and what is printed: no digits when the digest failed. *)
Definition cmd_fingerprint (pem : option (list Z)) : option (Z * string) :=
  match pem ≫= PEM_read_PUBKEY with
  | None => Some (1, EmptyString)
  | Some pub =>
      match i2d_PUBKEY pub with
      | None => Some (1, EmptyString)
      | Some der =>
          match EVP_digest der with
          | NoContext => None
          | DigestFails => Some (0, String newline EmptyString)
          | Digest d => Some (0, hex_string d +:+ String newline EmptyString)
          end
      end
  end.

(** The size of the last section with the name. *)
Definition last_size (name : string) (l : list elf_section) : option Z :=
  fold_left (fun acc s => if named name s then Some (sh_size s) else acc) l None.

(** Bytes written at the file offset of a section are the first bytes of its
    data. *)
Definition overwrite (sig : list Z) (s : elf_section) : elf_section :=
  ElfSection (sh_name s) (sh_type s) (sh_flags s) (sh_addr s) (sh_size s)
    ((fun d => sig ++ drop (length sig) d) <$> sh_data s) (sh_syms s).

(** The last section with the name is overwritten. *)
Fixpoint write_section (name : string) (sig : list Z) (l : list elf_section) : list elf_section :=
  match l with
  | [] => []
  | s :: rest =>
      if named name s && negb (existsb (named name) rest) then overwrite sig s :: rest
      else s :: write_section name sig rest
  end.

(** The sections as [found_sections] counts them: a section whose data cannot be
    read later in the file does not clear the flag. *)
Definition found_data (name : string) (l : list elf_section) : bool :=
  existsb (fun s => named name s && match sh_data s with Some _ => true | None => false end) l.

(** The signing of a binary with the key in [keyfile]: the binary afterwards, or
    [None] when the tool fails.  The final write is taken to succeed. *)
Definition sign_binary (f : option elf_file) (keyfile : option (list Z)) : option elf_file :=
  match f with
  | None => None
  | Some e =>
      let l := e_sections e in
      if negb (found_data ".text" l && found_data ".tca_got" l && existsb (named ".tca_signatures") l) then None
      else if default 0 (last_size ".tca_signatures" l) <? SIG_SIZE then None
      else
        match keyfile ≫= PEM_read_PrivateKey, last_data ".text" l, last_data ".tca_got" l with
        | Some priv, Some text, Some sentinel =>
            match EVP_digest (signed_bytes text sentinel l) with
            | Digest hash =>
                match digest_sign priv hash with
                | None => None
                | Some signature => Some (ElfFile (e_phdrs e) (write_section ".tca_signatures" signature l))
                end
            | NoContext | DigestFails => None
            end
        | _, _, _ => None
        end
  end.
End verify.

(** ** The command line of the signing tool *)

Inductive sign_cmd :=
| SignHelp
| SignVersion
| SignUsage
| SignRevoke (pem reason crl : string)
| SignFingerprint (pem : string)
| SignBinary (bin keyfile : string).

Definition DEFAULT_CRL : string := "/etc/sentinel/policy.crl".

(** The first argument decides; [args] are those after the program's name. *)
Definition sign_cli (args : list string) : sign_cmd :=
  match args with
  | [] => SignUsage
  | a :: rest =>
      if streq a "--help" || streq a "-h" then SignHelp
      else if streq a "--version" || streq a "-v" then SignVersion
      else if streq a "--revoke" then
        match rest with
        | pem :: reason :: crl => SignRevoke pem reason (match crl with c :: _ => c | [] => DEFAULT_CRL end)
        | _ => SignUsage
        end
      else if streq a "--fingerprint" then
        match rest with pem :: _ => SignFingerprint pem | [] => SignUsage end
      else match rest with keyfile :: _ => SignBinary a keyfile | [] => SignUsage end
  end.
