(* ===== verification/LoaderTrustProofs.v ===== *)
(** * Trust in a binary: theorems

    The revocation list that the signing tool writes and the loader reads, what
    signing changes of a binary, and what a verified binary has. *)

From S2P Require Import Prelude CStrings KvmiSetup KvmiMapsProofs LoaderElf LoaderTrust.
From stdpp Require Import prelude strings list.
From Stdlib Require Import ZArith Lia Ascii.
#[local] Open Scope string_scope.
#[local] Open Scope list_scope.
#[local] Open Scope Z_scope.

(** ** Lines of a file *)

Definition file_of (lines : list string) : string := foldr String.append EmptyString lines.

Lemma file_of_app a b : file_of (a ++ b) = file_of a +:+ file_of b.
Proof.
  induction a as [|x a IH]; [done|]. change (file_of ((x :: a) ++ b)) with (x +:+ file_of (a ++ b)).
  rewrite IH. symmetry. apply str_app_assoc.
Qed.

Lemma fgets_file size lines :
  Forall (fun s => one_line s = true /\ (strlen s <= size)%nat) lines ->
  fgets_lines size (file_of lines) size = lines.
Proof.
  induction 1 as [|s l [H1 H2] _ IH]; [done|].
  change (file_of (s :: l)) with (s +:+ file_of l). rewrite fgets_one_line by done. by rewrite IH.
Qed.

(** ** The lines of the revocation list *)

Record revocation := Revocation { rv_time : Z; rv_hex : string; rv_reason : string }.

(** A non-negative time, a fingerprint of 64 characters and a reason that fits
    a line. *)
Record wf_revocation (r : revocation) : Prop := {
  wr_time : 0 <= rv_time r < 9223372036854775808;
  wr_hex : strlen (rv_hex r) = 64%nat;
  wr_hex_line : no_newline (rv_hex r) = true;
  wr_reason_line : no_newline (rv_reason r) = true;
  wr_reason : (strlen (rv_reason r) <= 430)%nat;
}.

(** The list after a sequence of revocations, the oldest first. *)
Definition crl_of (hist : list revocation) : string :=
  fold_left (fun text r => crl_append text (rv_time r) (rv_hex r) (rv_reason r)) hist EmptyString.

Definition stamp_line (r : revocation) : string :=
  "TIMESTAMP " +:+ fmt_d (rv_time r) +:+ String newline EmptyString.
Definition revoke_line (r : revocation) : string :=
  "REVOKE " +:+ rv_hex r +:+ String " " (rv_reason r +:+ String newline EmptyString).
Definition entry_lines (hist : list revocation) : list string :=
  flat_map (fun r => [stamp_line r; revoke_line r]) hist.
Definition header_lines : list string :=
  ["# Sentinel-CC Certificate Revocation List" +:+ String newline EmptyString;
   "VERSION 1" +:+ String newline EmptyString].

Lemma append_entry r : "TIMESTAMP " +:+ fmt_d (rv_time r) +:+ String newline
    ("REVOKE " +:+ rv_hex r +:+ String " " (rv_reason r +:+ String newline EmptyString))
  = file_of [stamp_line r; revoke_line r].
Proof. unfold stamp_line, file_of, foldr. rewrite !str_app_assoc, string_app_nil_r. reflexivity. Qed.

Lemma append_later hist text :
  text <> EmptyString ->
  fold_left (fun text r => crl_append text (rv_time r) (rv_hex r) (rv_reason r)) hist text =
  text +:+ file_of (entry_lines hist).
Proof.
  revert text. induction hist as [|r hist IH]; intros text Ht; cbn [fold_left entry_lines flat_map].
  { symmetry. apply string_app_nil_r. }
  unfold crl_append at 2. rewrite (proj2 (streq_neq text "") Ht). rewrite append_entry, IH.
  - rewrite (file_of_app [_; _]), !str_app_assoc. done.
  - destruct text; [done|]. discriminate.
Qed.

Lemma crl_of_lines r hist : crl_of (r :: hist) = file_of (header_lines ++ entry_lines (r :: hist)).
Proof.
  unfold crl_of. cbn [fold_left]. unfold crl_append at 2. cbn [streq String.eqb]. rewrite append_entry.
  rewrite append_later by discriminate. cbn [entry_lines flat_map]. rewrite !file_of_app. done.
Qed.

Lemma fmt_d_line t : 0 <= t < 9223372036854775808 -> no_newline (fmt_d t) = true /\ (strlen (fmt_d t) <= 20)%nat.
Proof.
  intros Ht. unfold fmt_d. rewrite (proj2 (Z.ltb_ge _ _)) by lia. split; [|apply fmt_u_len_u64; ulia].
  apply fmt_digits_chars; [|done|lia]. intros d Hd. by apply (digit_char_cases d (fun c => negb (Ascii.eqb newline c) = true)).
Qed.

Lemma crl_lines_fit hist :
  Forall wf_revocation hist ->
  Forall (fun s => one_line s = true /\ (strlen s <= 511)%nat) (header_lines ++ entry_lines hist).
Proof.
  intros Hw. apply Forall_app. split; [repeat constructor; (done || (cbn; lia))|].
  induction Hw as [|r hist [H1 H2 H3 H4 H5] _ IH]; [constructor|]. destruct (fmt_d_line _ H1) as [F1 F2].
  cbn [entry_lines flat_map app]. constructor; [|constructor; [|done]]; split.
  - apply one_line_app; [done|]. by apply one_line_app.
  - unfold stamp_line. rewrite !strlen_app. cbn. lia.
  - apply one_line_app; [done|]. apply one_line_app; [done|]. apply one_line_cons; [done|]. by apply one_line_app.
  - unfold revoke_line. rewrite !strlen_app. cbn [String.length]. rewrite strlen_app. cbn. lia.
Qed.

Lemma strtol10_fmt t : 0 <= t < 9223372036854775808 -> strtol10 (fmt_d t) = t.
Proof.
  intros Ht. unfold fmt_d. rewrite (proj2 (Z.ltb_ge _ _)) by lia.
  pose proof (scan_fmt_u t ltac:(ulia)) as Hs. revert Hs. unfold fmt_u.
  destruct (fmt_digits_head 20 t EmptyString ltac:(lia) ltac:(done)) as (d & r & Hd & ->).
  pattern (digit_char d). apply digit_char_cases; [done|..].
  all: intros Hs; unfold strtol10; match type of Hs with scan_digits _ ?x _ _ = _ => change (skip_space x) with x end.
  all: cbv beta iota zeta; rewrite Hs; cbn [fst]; lia.
Qed.

(** ** Reading the list *)

Lemma strneq_app n a b c : strlen a = n -> strlen c = n -> strneq n (a +:+ b) c = streq a c.
Proof.
  intros <- Hc. unfold strneq, streq. rewrite substring_prefix, <- Hc, (substring_all _ c) by lia. done.
Qed.

Lemma until_line p : no_newline p = true -> until_char newline (p +:+ String newline EmptyString) = p.
Proof. apply until_newline. Qed.

Lemma no_newline_app a b : no_newline (a +:+ b) = no_newline a && no_newline b.
Proof. apply str_forall_app. Qed.

Section read.
Context (now : Z) (fp : string).
Hypothesis Hfp : strlen fp = 64%nat.

Lemma read_stamp r rest :
  wf_revocation r ->
  crl_loop (stamp_line r :: rest) now fp true =
  if CRL_MAX_AGE <? now - rv_time r then false else crl_loop rest now fp true.
Proof.
  intros [Ht _ _ _ _]. cbn [crl_loop].
  assert (until_char newline (stamp_line r) = "TIMESTAMP " +:+ fmt_d (rv_time r)) as ->.
  { unfold stamp_line. rewrite <- str_app_assoc. apply until_line. rewrite no_newline_app.
    by rewrite (proj1 (fmt_d_line _ Ht)). }
  change (is_comment ("TIMESTAMP " +:+ ?x)) with false.
  change (strneq 8 ("TIMESTAMP " +:+ ?x) "VERSION ") with false.
  replace (strneq 10 ("TIMESTAMP " +:+ fmt_d (rv_time r)) "TIMESTAMP ") with true by (by rewrite strneq_app).
  cbv iota. replace (string_drop 10 ("TIMESTAMP " +:+ fmt_d (rv_time r))) with (fmt_d (rv_time r))
    by (symmetry; apply (substring_after "TIMESTAMP ")).
  by rewrite strtol10_fmt.
Qed.

Lemma read_revoke r rest :
  wf_revocation r ->
  crl_loop (revoke_line r :: rest) now fp true = streq (rv_hex r) fp || crl_loop rest now fp true.
Proof.
  intros [_ Hh Hn Hr _]. cbn [crl_loop].
  assert (revoke_line r = ("REVOKE " +:+ rv_hex r +:+ " " +:+ rv_reason r) +:+ String newline EmptyString) as E.
  { unfold revoke_line. by rewrite !str_app_assoc. }
  rewrite E, until_line by (rewrite !no_newline_app, Hn, Hr; done).
  change (is_comment ("REVOKE " +:+ ?x)) with false.
  change (strneq 8 ("REVOKE " +:+ ?x) "VERSION ") with false.
  change (strneq 10 ("REVOKE " +:+ ?x) "TIMESTAMP ") with false.
  set (tail := rv_hex r +:+ _). replace (strneq 7 ("REVOKE " +:+ tail) "REVOKE ") with true by (by rewrite strneq_app).
  replace (string_drop 7 ("REVOKE " +:+ tail)) with tail by (symmetry; apply (substring_after "REVOKE ")).
  unfold tail. rewrite strneq_app by done. cbn [andb]. by destruct (streq _ _).
Qed.

(** A key is revoked by an entry when no older entry, nor this one, is past its
    age. *)
Definition revoked_in (hist : list revocation) : Prop :=
  exists i r, hist !! i = Some r /\ rv_hex r = fp /\
    forall j r', (j <= i)%nat -> hist !! j = Some r' -> now - rv_time r' <= CRL_MAX_AGE.

Lemma revoked_in_cons r hist :
  revoked_in (r :: hist) <-> now - rv_time r <= CRL_MAX_AGE /\ (rv_hex r = fp \/ revoked_in hist).
Proof.
  split.
  - intros (i & x & Hx & Hf & Hall). split; [by apply (Hall 0%nat r); [lia|]|].
    destruct i as [|i]; [left; by injection Hx as <-|]. right. exists i, x. split_and!; [done|done|].
    intros j r' Hj Hr'. apply (Hall (S j) r'); [lia|done].
  - intros [Ha [Hf|(i & x & Hx & Hf & Hall)]].
    + exists 0%nat, r. split_and!; [done|done|]. intros j r' Hj Hr'.
      assert (j = 0)%nat as -> by lia. by injection Hr' as <-.
    + exists (S i), x. split_and!; [done|done|]. intros [|j] r' Hj Hr'; [by injection Hr' as <-|].
      apply (Hall j r'); [lia|done].
Qed.

Lemma read_entries hist :
  Forall wf_revocation hist -> crl_loop (entry_lines hist) now fp true = true <-> revoked_in hist.
Proof.
  induction 1 as [|r hist Hr Hw IH]; cbn [entry_lines flat_map app].
  - split; [done|]. intros (i & r & Hr & _). by rewrite lookup_nil in Hr.
  - rewrite read_stamp, revoked_in_cons by done. destruct (_ <? _) eqn:E; boolify.
    + split; [done|]. intros [? _]. lia.
    + rewrite read_revoke, orb_true_iff, streq_eq, IH by done. split; [intros ?; split; [lia|done]|tauto].
Qed.

Lemma read_crl hist :
  Forall wf_revocation hist -> check_crl_file (Some (crl_of hist)) now fp = true <-> revoked_in hist.
Proof.
  intros Hw. destruct hist as [|r hist].
  { cbn. split; [done|]. intros (i & r & Hr & _). by rewrite lookup_nil in Hr. }
  unfold check_crl_file. rewrite crl_of_lines, fgets_file by by apply crl_lines_fit.
  rewrite <- (read_entries (r :: hist)) by done. done.
Qed.
End read.

(** ** Fingerprints *)

(** What is used of OpenSSL: digests of 32 bytes, and that a signature has 64
    bytes and verifies with the public half of its key. *)
Class CryptoLaws `{C : Crypto} := {
  public : PrivKey -> PubKey;
  sha256_bytes : forall m d, EVP_digest m = Digest d -> length d = 32%nat /\ Forall is_u8 d;
  sign_verifies : forall k m s, digest_sign k m = Some s -> length s = 64%nat /\ digest_verify (public k) s m = 1;
}.

Lemma hex2_line b : is_u8 b -> no_newline (hex2 b) = true.
Proof.
  intros Hb. assert (Forall (fun b => no_newline (hex2 b) = true) (Z.of_nat <$> seq 0 256)) as H.
  { apply (bool_decide_unpack _). vm_compute. exact I. }
  rewrite Forall_forall in H. apply H. rewrite list_elem_of_fmap. exists (Z.to_nat b).
  rewrite elem_of_seq. ulia.
Qed.

Lemma hex_string_shape bs :
  Forall is_u8 bs -> strlen (hex_string bs) = (2 * length bs)%nat /\ no_newline (hex_string bs) = true.
Proof.
  induction 1 as [|b bs Hb _ [IH1 IH2]]; [done|].
  change (hex_string (b :: bs)) with (hex2 b +:+ hex_string bs).
  rewrite strlen_app, no_newline_app, hex2_line, IH1, IH2 by done. cbn. split; [lia|done].
Qed.

(** ** Sections of a signed file *)

Lemma fold_last_app {A} (f : elf_section -> A) name a b acc :
  fold_left (fun acc s => if named name s then f s else acc) (a ++ b) acc =
  fold_left (fun acc s => if named name s then f s else acc) b
    (fold_left (fun acc s => if named name s then f s else acc) a acc).
Proof. apply fold_left_app. Qed.

(** Writing a section changes no section of another name. *)
Lemma last_data_other name other sig l acc :
  name <> other ->
  fold_left (fun acc s => if named name s then sh_data s else acc) (write_section other sig l) acc =
  fold_left (fun acc s => if named name s then sh_data s else acc) l acc.
Proof.
  intros Hne. revert acc. induction l as [|s l IH]; intros acc; [done|]. cbn [write_section].
  destruct (named other s && _) eqn:E; [|cbn [fold_left]; apply IH]. cbn [fold_left]. f_equal.
  apply andb_prop in E as [E _]. assert (named name s = false) as Hn.
  { unfold named in *. destruct (sh_name s) as [x|]; [|done]. apply streq_eq in E as ->. by apply streq_neq. }
  change (named name (overwrite sig s)) with (named name s). by rewrite Hn.
Qed.

Lemma last_data_absent name l acc :
  existsb (named name) l = false ->
  fold_left (fun acc s => if named name s then sh_data s else acc) l acc = acc.
Proof.
  revert acc. induction l as [|s l IH]; intros acc; [done|]. cbn [existsb fold_left].
  intros [H1 H2]%orb_false_iff. rewrite H1. auto.
Qed.

Lemma last_data_written name sig l acc :
  existsb (named name) l = true ->
  fold_left (fun acc s => if named name s then sh_data s else acc) (write_section name sig l) acc =
  (fun d => sig ++ drop (length sig) d) <$> fold_left (fun acc s => if named name s then sh_data s else acc) l acc.
Proof.
  revert acc. induction l as [|s l IH]; intros acc; [done|]. cbn [existsb write_section].
  destruct (named name s) eqn:Es; cbn [orb andb].
  - intros _. destruct (existsb (named name) l) eqn:El; cbn [negb].
    + cbn [fold_left]. rewrite Es. by apply IH.
    + cbn [fold_left]. change (named name (overwrite sig s)) with (named name s). rewrite Es.
      rewrite !last_data_absent by done. done.
  - intros El. cbn [fold_left]. rewrite Es. by apply IH.
Qed.

(** ** Theorems *)

(** C13. The revocation list does what its entries say while they are fresh: after
    any sequence of revocations written by the signing tool, each of a fingerprint of 64
    characters, with a reason of at most 430 characters without a line break, the
    loader's check of a fingerprint of 64 characters finds it revoked if and only if some entry names it and neither that
    entry nor any older one is more than thirty days old. *)
Theorem crl_revocation_exact now fp hist :
  strlen fp = 64%nat -> Forall wf_revocation hist ->
  check_crl_file (Some (crl_of hist)) now fp = true <->
  exists i r, hist !! i = Some r /\ rv_hex r = fp /\
    forall j r', (j <= i)%nat -> hist !! j = Some r' -> now - rv_time r' <= CRL_MAX_AGE.
Proof. intros Hfp Hw. apply read_crl; done. Qed.

(** Revoking a key takes effect: once the signing tool has added a key to the
    list, the loader refuses every binary checked with that key, whatever its
    signature, as long as no entry of the list is more than thirty days old. *)
Theorem revoked_key_refused `{CryptoLaws} pem pub der fp reason hist t text f use_tpm ks flat now :
  PEM_read_PUBKEY pem = Some pub -> i2d_PUBKEY pub = Some der -> EVP_digest der = Digest fp ->
  no_newline reason = true -> (strlen reason <= 430)%nat -> 0 <= t < 9223372036854775808 ->
  Forall wf_revocation hist -> Forall (fun r => now - rv_time r <= CRL_MAX_AGE) hist -> now - t <= CRL_MAX_AGE ->
  cmd_revoke (Some pem) reason (Some (crl_of hist)) t = Some (0, Some text) ->
  load_pubkey use_tpm ks = Done pub ->
  verify_signature f use_tpm ks (Revocations flat (Some text) now) = Refused.
Proof.
  intros Hpem Hder Hfp Hrl Hrs Ht Hw Hage Hnow Hcmd Hkey. unfold cmd_revoke, fingerprint in Hcmd. cbn in Hcmd.
  rewrite Hpem, Hder, Hfp in Hcmd. injection Hcmd as <-.
  set (r := Revocation t (hex_string fp) reason).
  assert (strlen (hex_string fp) = 64%nat /\ no_newline (hex_string fp) = true) as [Hl Hn].
  { destruct (sha256_bytes der fp Hfp) as [L B]. destruct (hex_string_shape _ B) as [-> ->]. by rewrite L. }
  assert (is_key_revoked pub (Revocations flat (Some (crl_append (crl_of hist) t (rv_hex r) reason)) now) = true) as Hrev.
  { unfold is_key_revoked, fingerprint. rewrite Hder, Hfp. cbn [revoked_keys policy_crl rev_now]. destruct (match flat with Some _ => _ | None => _ end); [done|].
    replace (crl_append (crl_of hist) t (rv_hex r) reason) with (crl_of (hist ++ [r]))
      by (unfold crl_of; by rewrite fold_left_app).
    apply read_crl; [done|apply Forall_app; split; [done|by constructor; [split|constructor]]|].
    exists (length hist), r. split_and!; [by apply list_lookup_middle|done|]. intros j r' _ Hj.
    assert (Forall (fun r => now - rv_time r <= CRL_MAX_AGE) (hist ++ [r])) as Hall.
    { apply Forall_app. by split; [|constructor]. }
    rewrite Forall_forall in Hall. apply Hall. by eapply list_elem_of_lookup_2. }
  cbn [rv_hex r] in Hrev. unfold verify_signature. destruct f as [e|]; [|done]. cbn zeta.
  repeat (case_match; [|done]). rewrite Hkey, Hrev. done.
Qed.

(** What signing does: when the signing tool succeeds, the section
    [.tca_signatures] starts with a signature of the digest of [.text], [.tca_got],
    [.sentinel_cfi] and [.sentinel_imports] that verifies with the public half of the
    key, no section of another name has changed, and therefore the loader's verdict on
    the binary, which is about [.sentinel] and [.signature], is the verdict it had
    before. *)
Theorem sign_binary_effect `{CryptoLaws} e key k e' :
  PEM_read_PrivateKey key = Some k -> sign_binary (Some e) (Some key) = Some e' ->
  is_Some (last_data ".tca_signatures" (e_sections e)) ->
  (exists text got sig data, last_data ".text" (e_sections e') = Some text /\
     last_data ".tca_got" (e_sections e') = Some got /\
     last_data ".tca_signatures" (e_sections e') = Some data /\ take 64 data = sig /\
     exists hash, EVP_digest (signed_bytes text got (e_sections e')) = Digest hash /\ digest_verify (public k) sig hash = 1) /\
  (forall name, name <> ".tca_signatures" -> last_data name (e_sections e') = last_data name (e_sections e)) /\
  forall use_tpm ks r, verify_signature (Some e') use_tpm ks r = verify_signature (Some e) use_tpm ks r.
Proof.
  intros Hk Hs [d Hd]. unfold sign_binary in Hs. set (l := e_sections e) in *.
  destruct (negb _) eqn:Ef in Hs; [done|]. destruct (_ <? _) in Hs; [done|]. cbn [mbind option_bind] in Hs. rewrite Hk in Hs.
  destruct (last_data ".text" l) as [text|] eqn:Et; [|done]. destruct (last_data ".tca_got" l) as [got|] eqn:Eg; [|done].
  destruct (EVP_digest _) as [hash| |] eqn:Eh in Hs; [|done..]. destruct (digest_sign k _) as [sig|] eqn:Esig; [|done]. injection Hs as <-. cbn [e_sections].
  destruct (sign_verifies _ _ _ Esig) as [Hlen Hver].
  assert (forall name, name <> ".tca_signatures" ->
    last_data name (write_section ".tca_signatures" sig l) = last_data name l) as Hother
    by (intros name Hne; by apply last_data_other).
  apply negb_false_iff in Ef. apply andb_prop in Ef as [_ Ein].
  split_and!; [|done|].
  - exists text, got, sig, (sig ++ drop (length sig) d). rewrite !Hother by done. split_and!; try done.
    + unfold last_data. rewrite last_data_written by done. change (fold_left _ l None) with (last_data ".tca_signatures" l). by rewrite Hd.
    + by rewrite take_app_le, take_ge by lia.
    + exists hash. split; [|done]. unfold signed_bytes in *. by rewrite !Hother by done.
  - intros use_tpm ks r. unfold verify_signature, signed_bytes. cbn [e_sections]. by rewrite !Hother by done.
Qed.

(** ** Witnesses *)

(** A toy scheme: a signature is the digest with the identity of the key. *)
Definition toy_digest (m : list Z) : list Z := replicate 31 0 ++ [foldr (fun b a => (b + a * 7) mod 251) 0 m].
Definition toy_sign (k : bool) (h : list Z) : list Z := take 64 ((if k then 1 else 2) :: h ++ replicate 64 0).
Definition toy_pem (bytes : list Z) : option bool :=
  match bytes with
  | [1] => Some true
  | [2] => Some false
  | _ => None
  end.

#[local] Instance toy : Crypto := {|
  PubKey := bool; PrivKey := bool; EVP_digest m := Digest (toy_digest m); fp_garbage := EmptyString;
  i2d_PUBKEY k := Some [if k then 1 else 2 : Z];
  PEM_read_PUBKEY := toy_pem; PEM_read_PrivateKey := toy_pem;
  digest_verify_init _ := true;
  digest_verify k s h := if bool_decide (s = toy_sign k h) then 1 else 0;
  digest_sign k h := Some (toy_sign k h);
|}.

#[local] Instance toy_laws : CryptoLaws.
Proof.
  refine {| public := fun k => k : PubKey |}.
  - intros m d [= <-]. split; [done|]. apply Forall_app. split; [by apply Forall_replicate|]. constructor; [|constructor].
    destruct m as [|b m]; [vm_compute; split; [discriminate|reflexivity]|]. cbn [foldr].
    generalize (b + foldr (fun b0 a => (b0 + a * 7) mod 251) 0 m * 7). intros z. unfold is_u8. pose proof (Z.mod_pos_bound z 251). lia.
  - intros k m s [= <-]. split.
    + unfold toy_sign. rewrite length_take. cbn [length]. rewrite length_app, length_replicate. lia.
    + cbn. by rewrite bool_decide_true.
Qed.

Definition demo_hist : list revocation := [Revocation 1700000000 (hex_string (toy_digest [9])) "lost laptop"].

Lemma demo_hist_wf : Forall wf_revocation demo_hist.
Proof.
  constructor; [|constructor]. split; cbn; try reflexivity; try lia.
Qed.

Definition demo_section (name : string) (data : list Z) : elf_section :=
  ElfSection (Some name) SHT_PROGBITS 0 0 (Z.of_nat (length data)) (Some data) [].

(** A binary as the signing tool expects it, and one as the loader does. *)
Definition tca_binary : elf_file :=
  ElfFile [] [demo_section ".text" [0x90; 0xc3]; demo_section ".tca_got" [5; 6];
              demo_section ".tca_signatures" (replicate 64 0)].
Definition loader_binary (text policy : list Z) : elf_file :=
  ElfFile [] [demo_section ".text" text; demo_section ".sentinel" policy;
              demo_section ".signature" (toy_sign true (toy_digest [0x90; 0xc3; 5; 6]))].

(** The session keyring holds the first key. *)
Definition demo_keys : key_source := KeySource None (fun _ => None) (Some 77) None (fun _ => 1) (fun _ _ => (1, [1])).

Lemma crl_revocation_exact_witness :
  check_crl_file (Some (crl_of demo_hist)) 1700000500 (hex_string (toy_digest [9])) = true.
Proof.
  apply (crl_revocation_exact 1700000500 (hex_string (toy_digest [9])) demo_hist).
  - reflexivity.
  - exact demo_hist_wf.
  - exists 0%nat, (Revocation 1700000000 (hex_string (toy_digest [9])) "lost laptop"). split_and!; [reflexivity|reflexivity|].
    intros [|j] r' _ Hr'; [injection Hr' as <-; unfold CRL_MAX_AGE; cbn; lia|]. discriminate Hr'.
Defined.

(** The binary is accepted before the revocation and refused after it. *)
Lemma revoked_key_refused_witness :
  verify_signature (Some (loader_binary [0x90; 0xc3] [5; 6])) false demo_keys (Revocations None None 1700000900) = Done tt /\
  verify_signature (Some (loader_binary [0x90; 0xc3] [5; 6])) false demo_keys
    (Revocations None (cmd_revoke (Some [1]) "stolen" (Some (crl_of demo_hist)) 1700000800 ≫= snd) 1700000900) = Refused.
Proof.
  split; [vm_compute; reflexivity|].
  apply (revoked_key_refused (C := toy) [1] true [1] (toy_digest [1]) "stolen" demo_hist 1700000800
    (crl_append (crl_of demo_hist) 1700000800 (hex_string (toy_digest [1])) "stolen")).
  - reflexivity.
  - reflexivity.
  - reflexivity.
  - reflexivity.
  - cbn. lia.
  - lia.
  - exact demo_hist_wf.
  - constructor; [unfold CRL_MAX_AGE; cbn; lia|constructor].
  - unfold CRL_MAX_AGE. lia.
  - reflexivity.
  - reflexivity.
Defined.

Lemma sign_binary_effect_witness :
  exists e', sign_binary (Some tca_binary) (Some [2]) = Some e' /\
    last_data ".tca_got" (e_sections e') = Some [5; 6] /\
    verify_signature (Some e') false demo_keys (Revocations None None 0) = Refused.
Proof.
  destruct (sign_binary (Some tca_binary) (Some [2])) as [e'|] eqn:E; [|vm_compute in E; discriminate E].
  destruct (sign_binary_effect (C := toy) tca_binary [2] false e') as (_ & H2 & H3).
  - reflexivity.
  - exact E.
  - eexists. vm_compute. reflexivity.
  - exists e'. split_and!; [reflexivity|rewrite H2 by discriminate; reflexivity|].
    rewrite H3. vm_compute. reflexivity.
Defined.

(** ** Gaps *)

(** A new revocation has no effect once an older entry of the list is past its
    age. *)
Example old_entry_hides_revocation :
  let crl := crl_append (crl_of demo_hist) 1710000000 (hex_string (toy_digest [1])) "stolen" in
  check_crl_file (Some crl) 1710000001 (hex_string (toy_digest [1])) = false.
Proof. vm_compute. reflexivity. Qed.

(** Without a digest context, or without an encoding of the key, no key is revoked. *)
Lemma revocation_fails_open `{Crypto} pub r :
  (forall der, i2d_PUBKEY pub = Some der -> EVP_digest der = NoContext) -> is_key_revoked pub r = false.
Proof.
  intros Hn. unfold is_key_revoked, fingerprint. destruct (i2d_PUBKEY pub) as [der|]; [|done]. by rewrite (Hn der).
Qed.

(** The digest does not mark where a section ends: bytes moved from the policy to
    the code keep the signature. *)
Example section_boundary_not_signed :
  verify_signature (Some (loader_binary [0x90; 0xc3; 5] [6])) false demo_keys (Revocations None None 0) = Done tt.
Proof. vm_compute. reflexivity. Qed.

(** A binary that the tool signed does not have the sections that the loader
    checks. *)
Example signed_binary_refused :
  exists e', sign_binary (Some tca_binary) (Some [1]) = Some e' /\
    verify_signature (Some e') false demo_keys (Revocations None None 0) = Refused.
Proof. eexists. split; vm_compute; reflexivity. Qed.
