(* ===== verification/LoaderInstall.v ===== *)
(** * Installing the policy (loader.c)

    What [main] of the loader does between the start of the program and its
    release: the libc policy from the call graph or the legacy tables, the
    dynamic linker, the libraries found in the memory map, the watch list and the
    scan for libraries loaded later, the caller ranges and the fallback policy.

    ELF files and the texts of /proc/PID/maps arrive as what libelf and the
    kernel show; whether the kernel creates an inner map is a parameter.  The
    program is stopped while the policy is installed, so all reads see the same
    memory map.  A computation that does not end, or reads outside a buffer, is
    stuck. *)

From S2P Require Import Prelude CStrings KvmiSetup Enforcer LoaderPolicy LoaderElf LoaderGraph.
From stdpp Require Import prelude gmap strings list.
From Stdlib Require Import ZArith Lia Ascii.
#[local] Open Scope string_scope.
#[local] Open Scope list_scope.
#[local] Open Scope Z_scope.

Definition MODULE_MAIN : Z := 1.
Definition MODULE_LIBC : Z := 2.
Definition MODULE_DYNAMIC_BASE : Z := 3.
Definition REGISTRY_SIZE : Z := 64.
Definition CFI_MAP_SIZE : nat := 1024.
Definition FALLBACK_MAP_SIZE : nat := 512.
Definition THREAD_MAP_SIZE : nat := 512.
Definition LIB_ALLOW_SIZE : nat := 256.
Definition CGROUP_MAP_SIZE : nat := 256.
Definition MAX_WATCHED_LIBS : nat := 64.
Definition MAX_SEEN_LIBS : nat := 32.
Definition PTRACE_STEP_LIMIT : nat := Z.to_nat 10000.

(** ** The memory map of the program *)

Definition maps_lines (size : nat) (maps : option string) : list string :=
  match maps with None => [] | Some text => fgets_lines size text size end.

(** [strchr(line, '/')] up to the newline. *)
Definition line_path (line : string) : option string := until_char newline <$> strchr line "/".

Definition names_libc (line : string) : bool := contains line "/libc.so" || contains line "/libc-".
Definition names_ld (line : string) : bool := contains line "ld-linux" || contains line "ld-musl".

(** [get_libc_base]: the start of the first line of libc. *)
Definition line_base (line : string) : Z := match scan_hex line with Some (v, _) => v | None => 0 end.

Definition get_libc_base (maps : option string) : Z :=
  match List.find names_libc (maps_lines 255 maps) with Some line => line_base line | None => 0 end.

(** The path on the first line that satisfies [p] and has one. *)
Fixpoint first_path (p : string -> bool) (path_size : nat) (lines : list string) : option string :=
  match lines with
  | [] => None
  | line :: rest =>
      if p line then
        match line_path line with Some path => Some (strncpyz path_size path) | None => first_path p path_size rest end
      else first_path p path_size rest
  end.

Definition find_libc_path (maps : option string) (path_size : nat) : option string :=
  first_path (fun l => names_libc l && negb (contains l "libcrypto") && negb (contains l "libcap"))
    path_size (maps_lines 511 maps).

Definition find_module_path (maps : option string) (needle : string) (path_size : nat) : option string :=
  first_path (fun l => contains l needle) path_size (maps_lines 511 maps).

(** [strrchr(path, '/')] *)
Fixpoint basename_from (path short : string) : string :=
  match path with
  | EmptyString => short
  | String c rest => basename_from rest (if Ascii.eqb c "/" then rest else short)
  end.
Definition basename (path : string) : string := basename_from path path.

(** ** The policy of libc *)

(** The wrappers whose system call is known, with the call graph and without. *)
Definition nr_bindings : list (string * Z) :=
  [("write", 1); ("__write", 1); ("__libc_write", 1); ("__write_nocancel", 1);
   ("read", 0); ("__read", 0); ("__libc_read", 0); ("__read_nocancel", 0);
   ("openat", 257); ("openat64", 257); ("__openat_nocancel", 257); ("open", 257); ("open64", 257);
   ("__open", 257); ("__libc_open", 257); ("__open_nocancel", 257);
   ("mmap", 9); ("mmap64", 9); ("__mmap", 9); ("mprotect", 10); ("__mprotect", 10);
   ("connect", 42); ("__connect", 42); ("memfd_create", 319); ("prctl", 157); ("__prctl", 157);
   ("sendmsg", 46); ("__sendmsg", 46); ("dup2", 33); ("close", 3); ("__close", 3); ("ioctl", 16)].

Definition libc_syms : list (string * Z) :=
  [("write", 1); ("__write", 1); ("__libc_write", 1); ("__write_nocancel", 1);
   ("read", 0); ("__read", 0); ("__libc_read", 0); ("__read_nocancel", 0);
   ("openat", 257); ("openat64", 257); ("__openat_nocancel", 257); ("open", 257); ("open64", 257);
   ("__open", 257); ("__open64", 257); ("__libc_open", 257); ("__libc_open64", 257);
   ("__open_nocancel", 257); ("__open64_nocancel", 257);
   ("mmap", 9); ("mmap64", 9); ("__mmap", 9); ("mprotect", 10); ("__mprotect", 10);
   ("connect", 42); ("__connect", 42); ("memfd_create", 319); ("prctl", 157); ("__prctl", 157);
   ("sendmsg", 46); ("__sendmsg", 46); ("dup2", 33);
   ("close", 3); ("__close", 3); ("__libc_close", 3); ("__close_nocancel", 3); ("ioctl", 16)].

Definition cancel_syms : list string :=
  ["__syscall_cancel_arch"; "__syscall_cancel"; "__internal_syscall_cancel"].

Definition WILDCARD : Z := 1.
Definition bound_to (nr : Z) : Z := Z.lor POLICY_FLAG_CHECK_NR nr.

(** The number of the wrapper that a site lies in, if it is known. *)
Definition site_binding (syms : list libc_sym_entry) (site : Z) : option Z :=
  match callee syms site with
  | None => None
  | Some i =>
      match syms !! i with
      | None => None
      | Some s => snd <$> List.find (fun b => streq (ls_name s) b.1) nr_bindings
      end
  end.

Definition site_value (syms : list libc_sym_entry) (site : Z) : Z :=
  match site_binding syms site with
  | Some nr => bound_to nr
  | None => WILDCARD
  end.

(** [bpf_map_update_elem] with BPF_ANY and BPF_NOEXIST; a failure is not fatal. *)
Definition set_site (m : gmap Z Z) (sv : Z * Z) : gmap Z Z :=
  default m (hash_update POLICY_MAP_SIZE sv.1 sv.2 m).
Definition set_site_noexist (m : gmap Z Z) (sv : Z * Z) : gmap Z Z :=
  default m (hash_update_noexist POLICY_MAP_SIZE sv.1 sv.2 m).

Definition filtered_policy (syms : list libc_sym_entry) (sites : list Z) : gmap Z Z :=
  fold_left set_site ((fun s => (s, site_value syms s)) <$> sites) ∅.

(** The sites of the named symbols, with the value of each. *)
Fixpoint symbol_sites (f : option elf_file) (room : nat) (table : list (string * Z)) : option (list (Z * Z)) :=
  match table with
  | [] => Some []
  | (name, v) :: rest =>
      match resolve_libc_syscall_sites f name room, symbol_sites f room rest with
      | Some sites, Some l => Some (((fun s => (s, v)) <$> sites) ++ l)
      | _, _ => None
      end
  end.

Definition legacy_policy (f : option elf_file) : option (gmap Z Z) :=
  match symbol_sites f 8 ((fun b => (b.1, bound_to b.2)) <$> libc_syms),
        symbol_sites f 4 ((fun n => (n, WILDCARD)) <$> cancel_syms) with
  | Some wrappers, Some cancel =>
      Some (fold_left set_site_noexist ((fun s => (s, WILDCARD)) <$> scan_elf_text_for_syscalls f 512)
              (fold_left set_site (wrappers ++ cancel) ∅))
  | _, _ => None
  end.

Definition libc_policy (f : option elf_file) (imports : list string) : option (gmap Z Z) :=
  match imports, build_libc_symtab f MAX_LIBC_SYMS with
  | [], _ | _, [] => legacy_policy f
  | _, syms =>
      match trace_libc_callgraph f syms imports 2048 with
      | None => None
      | Some (sites, _) => Some (filtered_policy syms sites)
      end
  end.

(** ** The dynamic linker *)

Definition get_ld_base (maps : option string) : Z :=
  match List.find names_ld (maps_lines 511 maps) with Some line => line_base line | None => 0 end.

(** Its sites, relative to the base of libc. *)
Definition ld_policy (ld : option elf_file) (ld_base libc_base : Z) (m : gmap Z Z) : gmap Z Z :=
  fold_left set_site_noexist ((fun s => (u64 (u64 (ld_base + s) - libc_base), WILDCARD)) <$> scan_elf_text_for_syscalls ld 256) m.

(** The range of its lines; a line that does not parse leaves the bounds
    undefined. *)
Fixpoint ld_range (lines : list string) (acc : Z * Z) : option (Z * Z) :=
  match lines with
  | [] => Some acc
  | line :: rest =>
      if negb (names_ld line) then ld_range rest acc
      else match scan_range line with
           | None => None
           | Some (s, e) => ld_range rest (if s <? acc.1 then s else acc.1, if acc.2 <? e then e else acc.2)
           end
  end.

(** ** The state of the loader *)

Record watched_lib := WatchedLib { wl_path : string; wl_module : Z }.

Record loader := Loader {
  bpf : enforcer;
  lib_allow_map : gmap Z Z;
  g_watched_libs : list watched_lib;
}.

Definition on_bpf (f : enforcer -> enforcer) (st : loader) : loader :=
  Loader (f (bpf st)) (lib_allow_map st) (g_watched_libs st).
Definition set_registry (r : gmap Z (gmap Z Z)) (e : enforcer) : enforcer :=
  Enforcer r (vma_map e) (target_pid_map e) (cfi_policy e) (cgroup_map e) (thread_policy_map e)
    (learn_map e) (fallback_policy e) (blocklist_map e) (ring_free e) (audit_ringbuf e) (signals e).
Definition set_cfi (r : gmap Z cfi_range) (e : enforcer) : enforcer :=
  Enforcer (policy_registry e) (vma_map e) (target_pid_map e) r (cgroup_map e) (thread_policy_map e)
    (learn_map e) (fallback_policy e) (blocklist_map e) (ring_free e) (audit_ringbuf e) (signals e).
Definition set_cgroups (r : gmap Z Z) (e : enforcer) : enforcer :=
  Enforcer (policy_registry e) (vma_map e) (target_pid_map e) (cfi_policy e) r (thread_policy_map e)
    (learn_map e) (fallback_policy e) (blocklist_map e) (ring_free e) (audit_ringbuf e) (signals e).
Definition set_threads (r : gmap (Z * Z) Z) (e : enforcer) : enforcer :=
  Enforcer (policy_registry e) (vma_map e) (target_pid_map e) (cfi_policy e) (cgroup_map e) r
    (learn_map e) (fallback_policy e) (blocklist_map e) (ring_free e) (audit_ringbuf e) (signals e).
Definition set_fallback (r : gmap Z Z) (e : enforcer) : enforcer :=
  Enforcer (policy_registry e) (vma_map e) (target_pid_map e) (cfi_policy e) (cgroup_map e)
    (thread_policy_map e) (learn_map e) r (blocklist_map e) (ring_free e) (audit_ringbuf e) (signals e).

(** The registry is an array of maps: an identifier beyond its size is refused. *)
Definition registry_update (id : Z) (m : gmap Z Z) (e : enforcer) : option enforcer :=
  if id <? REGISTRY_SIZE then Some (set_registry (<[id := m]> (policy_registry e)) e) else None.

Definition of_option {A} (o : option A) : M loader A :=
  fun st => match o with Some a => Some (a, st) | None => None end.

Definition populate_vma (maps : option string) (name : string) (id base : Z) : M loader Z :=
  t ← gets (fun st => vma_map (bpf st));
  r ← of_option (populate_vma_for_module maps name id base t);
  _ ← modify (on_bpf (set_vma r.2));
  mret r.1.2.

(** ** The watch list *)

Definition fnv1a_hash (s : string) : Z :=
  fold_left (fun h c => u64 (Z.lxor h (Z.of_nat (nat_of_ascii c)) * 0x100000001b3))
    (String.list_ascii_of_string s) 0xcbf29ce484222325.

Definition is_lib_watched (path : string) (st : loader) : bool :=
  existsb (fun w => streq (wl_path w) path) (g_watched_libs st).

Definition register_watched_lib (path : string) (mod_id : Z) (st : loader) : loader :=
  if (MAX_WATCHED_LIBS <=? length (g_watched_libs st))%nat then st
  else Loader (bpf st) (default (lib_allow_map st) (hash_update LIB_ALLOW_SIZE (fnv1a_hash path) 1 (lib_allow_map st)))
         (g_watched_libs st ++ [WatchedLib (strncpyz 512 path) mod_id]).

(** The result of the kernel's update. *)
Definition set_thread_policy (tgid tid max_syscall_nr : Z) : M loader Z :=
  m ← gets (fun st => thread_policy_map (bpf st));
  match hash_update THREAD_MAP_SIZE (tgid, tid) max_syscall_nr m with
  | Some m' => _ ← modify (on_bpf (set_threads m')); mret 0
  | None => mret (-1)
  end.

(** ** Libraries *)

Definition is_mapped_file (line : string) : bool := contains line "r-xp" || contains line "r--p".

(** Modules that have their own policy, and files that are no library. *)
Definition known_module (bin_name path : string) : bool :=
  contains path bin_name || names_libc path || names_ld path || negb (contains path ".so").
Definition data_file (path : string) : bool :=
  contains path "ld.so.cache" || contains path "ld.so.conf" || contains path ".cache" ||
  contains path "locale-archive" || contains path "gconv-modules".
Definition data_file_watch (path : string) : bool :=
  contains path "ld.so.cache" || contains path "locale-archive" || contains path "gconv-modules".

(** The library that a line names, if it is one of the policy's. *)
Definition library_of (bin_name : string) (is_data : string -> bool) (line : string) : option string :=
  if negb (is_mapped_file line) then None
  else match line_path line with
       | None => None
       | Some path => if known_module bin_name path || is_data path then None else Some path
       end.

Fixpoint discover_libs (bin_name : string) (lines : list string) (seen : list string) : list string :=
  match lines with
  | [] => seen
  | line :: rest =>
      if (MAX_SEEN_LIBS <=? length seen)%nat then seen
      else match library_of bin_name data_file line with
           | None => discover_libs bin_name rest seen
           | Some path =>
               if existsb (fun s => streq s path) seen then discover_libs bin_name rest seen
               else discover_libs bin_name rest (seen ++ [strncpyz 512 path])
           end
  end.

(** The array of imported names: live, or released with its length still known. *)
Inductive import_array :=
| Live (names : list string)
| Freed (nimports : nat).

Section libraries.
Context (elf_at : string -> option elf_file) (map_create : string -> bool).
Context (imports : import_array).

(** The sites of the call graph; names in a released array are not there. *)
Definition graph_sites (path : string) : option (list Z) :=
  match imports with
  | Live [] | Freed O => Some []
  | Live names => fst <$> trace_lib_callgraph (elf_at path) names 512
  | Freed (S _) => None
  end.

(** All sites when there are no imports or the graph has none. *)
Definition library_sites (path : string) : option (list Z) :=
  match graph_sites path with
  | None => None
  | Some [] => Some (scan_elf_text_for_syscalls (elf_at path) 512)
  | Some sites => Some sites
  end.

Definition wildcard_policy (sites : list Z) : gmap Z Z :=
  fold_left set_site ((fun s => (s, WILDCARD)) <$> sites) ∅.

(** One library: an inner map under a new identifier, its address range, its
    sites and the watch list.  The result is whether it was installed. *)
Definition install_library (maps : option string) (prefix path : string) (mod_id : Z) : M loader bool :=
  if negb (map_create (strncpyz 16 (prefix +:+ fmt_u mod_id))) then mret false
  else
    e ← gets bpf;
    match registry_update mod_id ∅ e with
    | None => mret false
    | Some e0 =>
        _ ← modify (on_bpf (fun _ => e0));
        _ ← populate_vma maps (basename path) mod_id 0;
        sites ← of_option (library_sites path);
        _ ← modify (on_bpf (fun e => set_registry (<[mod_id := wildcard_policy sites]> (policy_registry e)) e));
        _ ← modify (register_watched_lib path mod_id);
        mret true
    end.

Fixpoint install_libs (maps : option string) (libs : list string) (next : Z) : M loader Z :=
  match libs with
  | [] => mret next
  | path :: rest =>
      if negb (next <? 64) then mret next
      else
        ok ← install_library maps "lib_pol_" path next;
        install_libs maps rest (if ok : bool then next + 1 else next)
  end.

Definition discover_and_install (maps : option string) (bin_name : string) : M loader unit :=
  _ ← install_libs maps (discover_libs bin_name (maps_lines 511 maps) []) MODULE_DYNAMIC_BASE;
  mret tt.

(** [dlopen_scan]: the number of new libraries and the next identifier. *)
Fixpoint dlopen_lines (maps : option string) (bin_name : string) (lines : list string) (next new_libs : Z)
  : M loader (Z * Z) :=
  match lines with
  | [] => mret (new_libs, next)
  | line :: rest =>
      match library_of bin_name data_file_watch line with
      | None => dlopen_lines maps bin_name rest next new_libs
      | Some path =>
          watched ← gets (is_lib_watched path);
          if watched || (64 <=? next) then dlopen_lines maps bin_name rest next new_libs
          else
            ok ← install_library maps "dl_pol_" path next;
            if ok : bool then dlopen_lines maps bin_name rest (next + 1) (new_libs + 1)
            else dlopen_lines maps bin_name rest next new_libs
      end
  end.

Definition dlopen_scan (maps : option string) (bin_name : string) (next : Z) : M loader (Z * Z) :=
  dlopen_lines maps bin_name (maps_lines 511 maps) next 0.
End libraries.
