(* ===== verification/LoaderMain.v ===== *)
(** * The loader's main program (loader.c)

    Waiting for libc, the installation of the whole policy in the order of
    [main], and the loop that supervises the program: reload of the policy, end
    of the program and the scan for new libraries. *)

From S2P Require Import Prelude CStrings KvmiSetup Enforcer LoaderPolicy LoaderElf LoaderGraph LoaderTrust LoaderInstall.
From stdpp Require Import prelude gmap strings list.
From Stdlib Require Import ZArith Lia Ascii.
#[local] Open Scope string_scope.
#[local] Open Scope list_scope.
#[local] Open Scope Z_scope.

(** ** Waiting for libc *)

(** The memory map after each step of the program, and whether it has ended by
    then.  The result is the base of libc and the number of steps. *)
Fixpoint wait_libc (fuel : nat) (maps_at : nat -> option string) (exited : nat -> bool) (steps : nat)
  : option (Z * nat) :=
  let libc_base := get_libc_base (maps_at steps) in
  if negb (libc_base =? 0) then Some (libc_base, steps)
  else match fuel with
       | O => None
       | S fuel' =>
           if exited (S steps) then Some (0, steps)
           else if (PTRACE_STEP_LIMIT <? S steps)%nat then Some (0, S steps)
           else wait_libc fuel' maps_at exited (S steps)
       end.

(** ** The policy of the program itself *)

Definition elf_load_base (e : elf_file) : Z :=
  match List.find (fun p => p.1 =? PT_LOAD) (e_phdrs e) with Some p => p.2 | None => 0 end.

(** [parse_sentinel_section] on a file: the entries of the last [.sentinel]. *)
Definition parse_policy (e : elf_file) : list (Z * Z) :=
  parse_sentinel_section (default [] (last_data ".sentinel" (e_sections e))) MAX_POLICY_ENTRIES.

(** ** Caller ranges *)

Definition CFI_DEFAULT_SIZE : Z := 4096.

(** The size of the function at an address, from the symbol tables; 0 when it is
    not known. *)
Fixpoint cfi_func_size (addr : Z) (l : list elf_section) : Z :=
  match l with
  | [] => 0
  | s :: rest =>
      match (if sh_type s =? SHT_SYMTAB then sh_data s else None) with
      | None => cfi_func_size addr rest
      | Some _ =>
          match List.find (fun y => (st_value y =? addr) && (st_type y =? STT_FUNC)) (sh_syms s) with
          | Some y => if st_size y =? 0 then cfi_func_size addr rest else st_size y
          | None => cfi_func_size addr rest
          end
      end
  end.

Definition cfi_range_of (base : Z) (l : list elf_section) (c : sentinel_cfi_entry) : cfi_range :=
  let func_offset := u64 (ce_func c - base) in
  let size := cfi_func_size (ce_func c) l in
  CfiRange func_offset (u64 (func_offset + (if size =? 0 then CFI_DEFAULT_SIZE else size))).

Definition add_cfi (m : gmap Z cfi_range) (kr : Z * cfi_range) : gmap Z cfi_range :=
  default m (hash_update CFI_MAP_SIZE kr.1 kr.2 m).

Definition generalized_cfi (base : Z) (l : list elf_section) (entries : list sentinel_cfi_entry)
    (m : gmap Z cfi_range) : gmap Z cfi_range :=
  fold_left add_cfi ((fun c => (u64 (ce_site c - base), cfi_range_of base l c)) <$> entries) m.

(** The address and size of the last symbol with the name. *)
Definition symtab_syms (l : list elf_section) : list elf_sym :=
  flat_map (fun s => match (if sh_type s =? SHT_SYMTAB then sh_data s else None) with
                     | Some _ => sh_syms s
                     | None => []
                     end) l.
Definition last_symbol (name : string) (l : list elf_section) : Z * Z :=
  fold_left (fun acc y => match st_name y with
                          | Some n => if streq n name then (st_value y, st_size y) else acc
                          | None => acc
                          end) (symtab_syms l) (0, 0).

(** [setup_cfi_policy]: one site in [do_write] that only [safe_caller] may reach. *)
Definition setup_cfi_policy (f : option elf_file) (policy_offsets : list Z) (base : Z)
    (m : gmap Z cfi_range) : gmap Z cfi_range :=
  match f with
  | None => m
  | Some e =>
      let '(do_write_abs, do_write_size) := last_symbol "do_write" (e_sections e) in
      let '(safe_caller_abs, safe_caller_size) := last_symbol "safe_caller" (e_sections e) in
      if (do_write_abs =? 0) || (safe_caller_abs =? 0) then m
      else
        let do_write_addr := u64 (do_write_abs - base) in
        let safe_caller_addr := u64 (safe_caller_abs - base) in
        let inside adj := (do_write_addr <=? adj) && (adj <? u64 (do_write_addr + do_write_size)) in
        let syscall_offset :=
          match List.find inside ((fun o => u64 (o - base)) <$> policy_offsets) with
          | Some adj => adj
          | None => u64 (do_write_addr + 16)
          end in
        add_cfi m (syscall_offset, CfiRange safe_caller_addr (u64 (safe_caller_addr + safe_caller_size)))
  end.

Definition install_cfi (f : option elf_file) (policy_offsets : list Z) (base : Z) (m : gmap Z cfi_range)
  : gmap Z cfi_range :=
  match f, parse_sentinel_cfi f MAX_POLICY_ENTRIES with
  | Some e, (_ :: _) as entries => generalized_cfi base (e_sections e) entries m
  | _, _ => setup_cfi_policy f policy_offsets base m
  end.

(** ** The fallback policy *)

Definition safe_nrs : list Z :=
  [0; 1; 3; 5; 8; 9; 10; 11; 12; 13; 14; 15; 21; 24; 35; 39; 60; 63; 72; 79; 89; 96; 102; 104; 107; 108; 110;
   158; 186; 202; 218; 228; 231; 257; 262; 302; 318; 334].

Definition fill_fallback (m : gmap Z Z) : gmap Z Z :=
  fold_left (fun m nr => default m (hash_update FALLBACK_MAP_SIZE nr 1 m)) safe_nrs m.

(** ** The installation *)

(** [InstallReady] carries the identifier for the next library. *)
Inductive install_result :=
| InstallReady (dlopen_next_mod_id : Z)
| InstallSurface
| InstallFatal.

Section install.
Context (elf_at : string -> option elf_file) (map_create : string -> bool) (realpath : string -> option string).

(** The address range of the dynamic linker belongs to libc, with libc's base. *)
Definition populate_ld (maps : option string) (libc_base : Z) : M loader unit :=
  r ← of_option (ld_range (maps_lines 511 maps) (ULONG_MAX, 0));
  if r.1 =? ULONG_MAX then mret tt
  else
    t ← gets (fun st => vma_map (bpf st));
    p ← of_option (populate_blocks (block_fuel r.1 r.2) (block_start r.1) r.2 (VmaValue MODULE_LIBC libc_base) t 0);
    modify (on_bpf (set_vma p.2)).

Definition put_policy (id : Z) (m : gmap Z Z) : M loader unit :=
  modify (on_bpf (fun e => set_registry (<[id := m]> (policy_registry e)) e)).

(** The policy of libc and of the dynamic linker; [false] is a fatal error. *)
Definition install_libc (maps : option string) (libc_base : Z) (imports : list string) : M loader bool :=
  if negb (map_create "libc_policy") then mret true
  else
    e ← gets bpf;
    match registry_update MODULE_LIBC ∅ e with
    | None => mret false
    | Some e0 =>
        _ ← modify (on_bpf (fun _ => e0));
        match find_libc_path maps 512 with
        | None => mret true
        | Some libc_path =>
            m ← of_option (libc_policy (elf_at libc_path) imports);
            let ld_base := get_ld_base maps in
            match (if ld_base =? 0 then None else find_module_path maps "ld-linux" 512) with
            | None => _ ← put_policy MODULE_LIBC m; mret true
            | Some ld_path =>
                _ ← put_policy MODULE_LIBC (ld_policy (elf_at ld_path) ld_base libc_base m);
                _ ← populate_ld maps libc_base;
                mret true
            end
        end
    end.

(** The cgroup that limits the enforcement, by the inode of its directory. *)
Definition populate_cgroup (st_ino : option Z) : M loader unit :=
  match st_ino with
  | None => mret tt
  | Some cgid =>
      modify (on_bpf (fun b => set_cgroups (default (cgroup_map b) (hash_update CGROUP_MAP_SIZE cgid 1 (cgroup_map b))) b))
  end.

(** The map of the main binary under its identifier. *)
Definition install_main (entries : list (Z * Z)) (base : Z) : M loader bool :=
  if negb (map_create "main_policy") then mret false
  else
    e ← gets bpf;
    match registry_update MODULE_MAIN ∅ e with
    | None => mret false
    | Some e0 =>
        _ ← modify (on_bpf (fun _ => e0));
        _ ← put_policy MODULE_MAIN (populate_main_policy entries base);
        mret true
    end.

Definition track_child (pid : Z) : M loader bool :=
  m ← gets (fun st => target_pid_map (bpf st));
  match hash_update TARGET_PID_MAP_SIZE pid 1 m with
  | None => mret false
  | Some m' => _ ← modify (on_bpf (set_targets m')); mret true
  end.

(** The names in the import section, as C strings. *)
Definition import_names (f : option elf_file) : option (list string) :=
  option_map (map cstr_of_bytes) (parse_sentinel_imports f).

(** From the start of the program to its release.  [e] is the binary as it was
    read for the policy; [libc_base] comes from the wait for libc. *)
Definition install_policy (binary : string) (e : elf_file) (child libc_base : Z) (maps : option string)
    (surface system_wide : bool) : M loader install_result :=
  let entries := parse_policy e in
  let base := elf_load_base e in
  let bin_name := basename binary in
  _ ← populate_vma maps bin_name MODULE_MAIN 0;
  libc ← (if libc_base =? 0 then mret 0 else populate_vma maps "libc" MODULE_LIBC libc_base);
  ok ← install_main entries base;
  if negb ok then mret InstallFatal
  else if surface : bool then mret InstallSurface
  else
    imports ← of_option (import_names (Some e));
    ok ← (if libc =? 0 then mret true else install_libc maps libc imports);
    if negb ok then mret InstallFatal
    else
      _ ← discover_and_install elf_at map_create (Live imports) maps bin_name;
      n ← gets (fun st => length (g_watched_libs st));
      _ ← match realpath binary with
          | Some p => modify (register_watched_lib p MODULE_MAIN)
          | None => mret tt
          end;
      _ ← modify (on_bpf (fun b => set_cfi (install_cfi (Some e) (fst <$> entries) base (cfi_policy b)) b));
      ok ← track_child child;
      if negb ok then mret InstallFatal
      else
        _ ← (if system_wide : bool then modify (on_bpf (fun b => set_fallback (fill_fallback (fallback_policy b)) b))
             else mret tt);
        mret (InstallReady (MODULE_DYNAMIC_BASE + Z.of_nat n)).

(** ** Supervision *)

(** The entries of the policy are written over those of the main map. *)
Definition hot_reload (f : option elf_file) : M loader unit :=
  match f with
  | None => mret tt
  | Some e =>
      match parse_policy e with
      | [] => mret tt
      | entries =>
          r ← gets (fun st => policy_registry (bpf st));
          put_policy MODULE_MAIN (fold_left (load_entry (elf_load_base e)) entries (default ∅ (r !! MODULE_MAIN)))
      end
  end.

Inductive child_status :=
| Running
| ChildExited (code : Z)
| ChildSignaled (sig : Z).

(** What happens during one turn of the loop: whether SIGHUP has come in, the
    binary as it is then, the child and its memory map. *)
Record turn := Turn {
  tn_reload : bool;
  tn_binary : option elf_file;
  tn_child : child_status;
  tn_maps : option string;
}.

Definition DLOPEN_POLLS : nat := 5.

(** The loop over the turns; [polls] is the static counter.  The result is the
    status that ended it, with the next identifier. *)
Fixpoint supervise (imports : import_array) (bin_name : string) (watch : bool) (turns : list turn)
    (polls : nat) (next : Z) : M loader (child_status * Z) :=
  match turns with
  | [] => mret (Running, next)
  | t :: rest =>
      _ ← (if tn_reload t then hot_reload (tn_binary t) else mret tt);
      match tn_child t with
      | Running =>
          if negb watch then supervise imports bin_name watch rest polls next
          else if (DLOPEN_POLLS <=? S polls)%nat then
            r ← dlopen_scan elf_at map_create imports (tn_maps t) bin_name next;
            supervise imports bin_name watch rest 0 r.2
          else supervise imports bin_name watch rest (S polls) next
      | s => mret (s, next)
      end
  end.
End install.
