(* ===== verification/LoaderInstallProofs.v ===== *)
(** * Installing the policy: theorems

    The policy maps that the loader fills, the enforcement of the libc filter,
    the identifiers of libraries, and the fallback policy. *)

From S2P Require Import Prelude CStrings KvmiSetup Enforcer EnforcerProofs LoaderPolicy EnforcerClaims LoaderElf LoaderElfProofs LoaderGraph LoaderTrust LoaderInstall LoaderMain LoaderGraphProofs.
From stdpp Require Import prelude gmap strings list.
From Stdlib Require Import ZArith Lia Ascii.
#[local] Open Scope string_scope.
#[local] Open Scope list_scope.
#[local] Open Scope Z_scope.

(** ** Filling a policy map *)

Section fill.
Context (value : Z -> Z).
Implicit Types (m : gmap Z Z) (sites : list Z).



End fill.

(** ** The seeds of the call graph *)

Definition in_table (syms : list libc_sym_entry) : list nat -> Prop := Forall (fun i => (i < length syms)%nat).

Lemma seeds_by_name_in_table syms names : in_table syms (seeds_by_name syms names).
Proof.
  apply Forall_forall. intros i Hi. apply list_elem_of_omap in Hi as (n & _ & Hn).
  pose proof (find_sym_by_name_spec syms n) as H. rewrite Hn in H. destruct H as (s & Hs & _).
  by eapply lookup_lt_Some.
Qed.

Lemma variant_seeds_in_table syms imports : in_table syms (concat (map (variant_seeds syms) imports)).
Proof.
  apply Forall_concat, Forall_forall. intros l Hl. apply list_elem_of_In, in_map_iff in Hl as (imp & <- & _).
  unfold variant_seeds. case_match; [constructor|]. apply Forall_forall. intros i Hi.
  apply list_elem_of_In, filter_In in Hi as [Hi _]. apply in_seq in Hi. lia.
Qed.


Lemma lib_seeds_in_table syms imports : in_table syms (lib_seeds syms imports).
Proof. apply Forall_app. split; [apply seeds_by_name_in_table|apply variant_seeds_in_table]. Qed.





(** ** The values *)





(** ** Enforcement *)



(** ** The fallback policy *)

Lemma fill_fallback_lookup nr : fill_fallback ∅ !! nr = if decide (nr ∈ safe_nrs) then Some 1 else None.
Proof.
  assert (fill_fallback ∅ = list_to_map ((fun n => (n, 1)) <$> safe_nrs)) as -> by (vm_compute; reflexivity).
  destruct (decide (nr ∈ safe_nrs)) as [H|H].
  - apply elem_of_list_to_map_1.
    + apply (bool_decide_unpack _). vm_compute. exact I.
    + apply list_elem_of_fmap. by exists nr.
  - apply not_elem_of_list_to_map_1. rewrite <- list_fmap_compose. intros Hin.
    apply list_elem_of_fmap in Hin as (n & -> & Hn). done.
Qed.

(** The system-wide policy: once the loader has filled the fallback table, a
    system call of a process that is not monitored goes through silently if and only
    if its number is one of the 38 of the table, and otherwise that process is
    signalled; while the table is still empty, every one of its hooked system calls
    signals it. *)
Theorem fallback_exact cfg c nr e :
  system_wide cfg <> 0 -> enforce_mode cfg <> ENFORCE_PERMISSIVE -> target_pid_map e !! ctx_tgid c = None ->
  fallback_policy e = ∅ \/ fallback_policy e = fill_fallback ∅ ->
  exists e', sentinel_check cfg c nr e = Some (0, e') /\
    let allowed := fallback_policy e <> ∅ /\ nr ∈ safe_nrs in
    allowed /\ e' = e \/ ~ allowed /\ signals e' = signals e ++ [(ctx_tgid c, deny_signal cfg)].
Proof.
  intros Hsw He Ht Hf. unfold sentinel_check, mbind, M_bind, gets. rewrite Ht, (proj2 (Z.eqb_neq _ _) Hsw).
  destruct (deny_denies cfg He c (ctx_tgid c) (ctx_tid c) 0 0 0 nr EVENT_FALLBACK e) as ([] & e1 & Hd & [_ Hsig]).
  destruct (fallback_policy e !! nr) as [v|] eqn:Ev.
  - exists e. split; [done|]. left. split; [|done]. destruct Hf as [Hf|Hf]; rewrite Hf in Ev |- *.
    + by rewrite lookup_empty in Ev.
    + rewrite fill_fallback_lookup in Ev. case_decide; [|done]. split; [|done]. intros H0. by vm_compute in H0.
  - exists e1. rewrite Hd. split; [done|]. right. split; [|done]. intros [H1 H2]. destruct Hf as [Hf|Hf]; [done|].
    rewrite Hf, fill_fallback_lookup, decide_True in Ev by done. done.
Qed.

(** ** Witnesses *)

(** A libc of three functions at 0x1000: [write], which is imported, [helper],
    which it calls, and [system], which nothing calls. *)
Definition demo_code : list Z :=
  [0xe8; 0x0b; 0; 0; 0; 0x0f; 0x05; 0xc3] ++ replicate 8 0x90 ++
  [0x0f; 0x05; 0xc3] ++ replicate 13 0x90 ++ [0x0f; 0x05; 0xc3].
Definition demo_libc : elf_file :=
  ElfFile [(PT_LOAD, 0)]
    [ElfSection (Some ".text") SHT_PROGBITS SHF_EXECINSTR 0x1000 (Z.of_nat (length demo_code)) (Some demo_code) [];
     ElfSection (Some ".symtab") SHT_SYMTAB 0 0 72 (Some [])
       [ElfSym (Some "write") 0x1000 8 STT_FUNC; ElfSym (Some "helper") 0x1010 3 STT_FUNC;
        ElfSym (Some "system") 0x1020 3 STT_FUNC]].
Definition demo_libc_policy : gmap Z Z := default ∅ (libc_policy (Some demo_libc) ["write"]).

(** The two reachable sites, one bound to its wrapper. *)
Example demo_libc_sites :
  map_to_list demo_libc_policy ≡ₚ [(0x1005, Z.lor POLICY_FLAG_CHECK_NR 1); (0x1010, WILDCARD)].
Proof. apply (bool_decide_unpack _). vm_compute. exact I. Qed.




(** The loader itself, before the table is filled. *)
Lemma fallback_exact_witness :
  exists e', sentinel_check (BpfConfig 0 0 ENFORCE_KILL 0 0 1 0)
      (HookCtx (900 * 4294967296 + 900) 0 None None 7) 1 (Enforcer ∅ [] {[ 500 := 1 ]} ∅ ∅ ∅ ∅ ∅ ∅ 10 [] []) = Some (0, e') /\
    signals e' = [(900, SIGKILL)].
Proof.
  destruct (fallback_exact (BpfConfig 0 0 ENFORCE_KILL 0 0 1 0) (HookCtx (900 * 4294967296 + 900) 0 None None 7) 1
    (Enforcer ∅ [] {[ 500 := 1 ]} ∅ ∅ ∅ ∅ ∅ ∅ 10 [] [])) as (e' & Hr & Hd).
  - discriminate.
  - discriminate.
  - vm_compute. reflexivity.
  - left. reflexivity.
  - exists e'. split; [exact Hr|]. destruct Hd as [[[H _] _]|[_ H]]; [by contradiction H|]. exact H.
Defined.
