(* ===== verification/LoaderWatchProofs.v ===== *)
(** * Waiting and supervision: theorems

    The wait for libc ends; the supervision of the program ends its scans, gives
    every new library an identifier and a policy of its own, and leaves the other
    policies alone; the reload of the policy and the caller ranges. *)

From S2P Require Import Prelude CStrings KvmiSetup Enforcer EnforcerProofs LoaderPolicy EnforcerClaims LoaderElf LoaderElfProofs LoaderGraph LoaderGraphProofs LoaderTrust LoaderInstall LoaderMain LoaderInstallProofs.
From stdpp Require Import prelude gmap strings list.
From Stdlib Require Import ZArith Lia Ascii.
#[local] Open Scope string_scope.
#[local] Open Scope list_scope.
#[local] Open Scope Z_scope.

(** ** The wait for libc *)

Section wait.
Context (maps_at : nat -> option string) (exited : nat -> bool).

(** No libc was mapped, and the program ran, through the steps [a] to [b - 1]. *)
Definition waited (a b : nat) : Prop :=
  forall j, (a <= j < b)%nat -> get_libc_base (maps_at j) = 0 /\ ((S j < b)%nat -> exited (S j) = false).

(** How the wait can end. *)
Definition wait_ends (a : nat) (base : Z) (steps : nat) : Prop :=
  base <> 0 /\ base = get_libc_base (maps_at steps) /\ waited a steps \/
  base = 0 /\ exited (S steps) = true /\ waited a (S steps) \/
  base = 0 /\ steps = S PTRACE_STEP_LIMIT /\ waited a steps.

Lemma wait_libc_ends fuel a :
  (fuel + a = S PTRACE_STEP_LIMIT)%nat -> (1 <= fuel)%nat ->
  exists base steps, wait_libc fuel maps_at exited a = Some (base, steps) /\
    (a <= steps <= S PTRACE_STEP_LIMIT)%nat /\ wait_ends a base steps.
Proof.
  revert a. induction fuel as [|fuel IH]; intros a Hf H1; [lia|]. cbn [wait_libc].
  destruct (get_libc_base (maps_at a) =? 0) eqn:Eb; cbn [negb]; boolify; cycle 1.
  { exists (get_libc_base (maps_at a)), a. split; [done|]. split; [lia|]. left. split_and!; [done|done|].
    intros j Hj. lia. }
  assert (forall b, (exited (S a) = false \/ b = S a) -> waited (S a) b -> waited a b) as Hstep.
  { intros b Hx Hw j Hj. destruct (decide (j = a)) as [->|]; [split; [done|]|apply Hw; lia].
    intros Hb. destruct Hx as [?| ->]; [done|lia]. }
  destruct (exited (S a)) eqn:Ex.
  { exists 0, a. split; [done|]. split; [lia|]. right. left. split_and!; [done|done|]. apply Hstep; [by right|].
    intros j Hj. lia. }
  destruct (PTRACE_STEP_LIMIT <? S a)%nat eqn:El; boolify.
  - exists 0, (S a). split; [done|]. split; [lia|]. right. right. split_and!; [done|lia|].
    apply Hstep; [by left|]. intros j Hj. lia.
  - destruct (IH (S a)) as (base & steps & E & Hs & He); [lia|lia|]. exists base, steps. split; [done|]. split; [lia|].
    destruct He as [(H2 & H3 & H4)|[(H2 & H3 & H4)|(H2 & H3 & H4)]]; [left|right; left|right; right];
      (split_and!; [done|done|]); apply Hstep; auto.
Qed.
End wait.

(** ** Totality *)

Lemma populate_blocks_total fuel addr max_addr v t count :
  is_u64 addr -> max_addr <= 2 ^ 64 - VMA_BLOCK_SIZE -> max_addr - addr <= Z.of_nat fuel * VMA_BLOCK_SIZE ->
  is_Some (populate_blocks fuel addr max_addr v t count).
Proof.
  revert addr t count. induction fuel as [|fuel IH]; intros addr t count Ha Hm Hf; cbn [populate_blocks];
    destruct (addr <? max_addr) eqn:E; boolify; try by eexists.
  - unfold VMA_BLOCK_SIZE in *. lia.
  - assert (u64 (addr + VMA_BLOCK_SIZE) = addr + VMA_BLOCK_SIZE) as -> by (unfold VMA_BLOCK_SIZE in *; ulia).
    destruct (trie_update _ _ _ _ _); apply IH; unfold VMA_BLOCK_SIZE in *; ulia.
Qed.

(** The addresses of user space end below the last block. *)
Definition maps_ok (maps : option string) : Prop :=
  forall line start end_, line ∈ maps_lines 511 maps -> scan_range line = Some (start, end_) ->
    is_u64 start /\ 0 <= end_ <= 2 ^ 64 - VMA_BLOCK_SIZE.

Lemma range_bounded name lines acc :
  (forall line start end_, line ∈ lines -> scan_range line = Some (start, end_) ->
    is_u64 start /\ 0 <= end_ <= 2 ^ 64 - VMA_BLOCK_SIZE) ->
  is_u64 acc.1 -> 0 <= acc.2 <= 2 ^ 64 - VMA_BLOCK_SIZE ->
  let r := fold_left (extend_range name) lines acc in is_u64 r.1 /\ 0 <= r.2 <= 2 ^ 64 - VMA_BLOCK_SIZE.
Proof.
  intros Hl. revert acc. induction lines as [|l lines IH]; intros acc H1 H2; [done|]. cbn [fold_left].
  assert (is_u64 (extend_range name acc l).1 /\ 0 <= (extend_range name acc l).2 <= 2 ^ 64 - VMA_BLOCK_SIZE) as [E1 E2].
  { unfold extend_range. destruct (negb _); [done|]. destruct (scan_range l) as [[s e]|] eqn:E; [|done].
    destruct (Hl l s e ltac:(by left) E). cbn [fst snd]. split; case_match; done. }
  apply IH; [intros; eapply Hl; [by right|done]|done|done].
Qed.

Lemma populate_vma_total maps name id base t :
  maps_ok maps -> is_Some (populate_vma_for_module maps name id base t).
Proof.
  intros Hm. unfold populate_vma_for_module. destruct maps as [text|]; [|by eexists].
  destruct (module_range text name) as [lo hi] eqn:E. case_match; [by eexists|].
  destruct (range_bounded name (fgets_lines 511 text 511) (ULONG_MAX, 0)) as [H1 H2].
  { exact Hm. } { cbn. unfold ULONG_MAX. ulia. } { cbn. unfold VMA_BLOCK_SIZE. lia. }
  change (fold_left _ _ _) with (module_range text name) in H1, H2. rewrite E in H1, H2. cbn [fst snd] in *.
  pose proof (block_start_eq lo) as Hb. unfold VMA_BLOCK_SIZE in *.
  destruct (populate_blocks_total (block_fuel lo hi) (block_start lo) hi (VmaValue id lo) t 0) as [[c t'] Hp].
  - rewrite Hb. ulia.
  - unfold VMA_BLOCK_SIZE. lia.
  - unfold block_fuel, VMA_BLOCK_SIZE. rewrite Hb. lia.
  - rewrite Hp. by eexists.
Qed.

Lemma trace_lib_total f imports room : is_Some (trace_lib_callgraph f imports room).
Proof.
  unfold trace_lib_callgraph. destruct (build_libc_symtab f MAX_LIBC_SYMS) as [|s syms]; [by eexists|].
  destruct (load_exec_sections f MAX_EXEC_SECTIONS) as [|x secs]; [by eexists|].
  destruct (trace_from_spec (s :: syms) (x :: secs) (lib_seeds (s :: syms) imports) room (lib_seeds_in_table _ _))
    as (sites & n & H & _). rewrite H. by eexists.
Qed.

(** The imports can be read. *)
Definition imports_ok (imports : import_array) : Prop :=
  match imports with Freed (S _) => False | _ => True end.

Lemma library_sites_total elf_at imports path : imports_ok imports -> is_Some (library_sites elf_at imports path).
Proof.
  intros Hi. unfold library_sites. assert (is_Some (graph_sites elf_at imports path)) as [sites ->].
  { unfold graph_sites. destruct imports as [[|n names]|[|n]]; [by eexists| |by eexists|done].
    destruct (trace_lib_total (elf_at path) (n :: names) 512) as [r ->]. by eexists. }
  destruct sites; by eexists.
Qed.

(** ** Lines and paths *)

Lemma fgets_lines_bound size s room line :
  (1 <= size)%nat -> (1 <= room <= size)%nat -> line ∈ fgets_lines size s room -> (strlen line <= size)%nat.
Proof.
  intros Hs Hr. assert (forall room, (1 <= room <= size)%nat ->
    Forall (fun l => (strlen l <= size)%nat) (fgets_lines size s room) /\
    forall l ls, fgets_lines size s room = l :: ls -> (strlen l <= room)%nat) as H.
  { clear room line Hr. induction s as [|c s IH]; intros room Hr; cbn [fgets_lines]; [by split|].
    destruct (Ascii.eqb c newline || (room <=? 1)%nat) eqn:E.
    - destruct (IH size ltac:(lia)) as [IH1 _]. split; [constructor; [cbn; lia|done]|]. intros l ls [= <- _]. cbn. lia.
    - apply orb_false_iff in E as [_ E]. apply Nat.leb_gt in E.
      destruct (IH (room - 1)%nat ltac:(lia)) as [IH1 IH2]. destruct (fgets_lines size s (room - 1)) as [|x xs].
      + split; [constructor; [cbn; lia|done]|]. intros l ls [= <- _]. cbn. lia.
      + inversion IH1; subst. specialize (IH2 x xs eq_refl). split; [constructor; [cbn; lia|done]|].
        intros l ls [= <- _]. cbn. lia. }
  intros Hin. destruct (H room Hr) as [H1 _]. rewrite Forall_forall in H1. auto.
Qed.

Lemma strchr_len s c r : strchr s c = Some r -> (strlen r <= strlen s)%nat.
Proof.
  induction s as [|d s IH]; cbn [strchr]; [done|]. case_match; [intros [= <-]; done|].
  intros H'. specialize (IH H'). cbn. lia.
Qed.

Lemma until_len c s : (strlen (until_char c s) <= strlen s)%nat.
Proof. induction s as [|d s IH]; cbn [until_char]; [done|]. case_match; cbn; lia. Qed.

Lemma library_of_fits bin_name data maps line path :
  line ∈ maps_lines 511 maps -> library_of bin_name data line = Some path -> strncpyz 512 path = path.
Proof.
  intros Hl Hp. apply strncpyz_id. unfold library_of in Hp. destruct (negb _); [done|].
  destruct (line_path line) as [p|] eqn:E; [|done]. destruct (_ || _); [done|]. injection Hp as <-.
  unfold line_path in E. apply fmap_Some in E as (r & Hr & ->). apply strchr_len in Hr.
  pose proof (until_len newline r). assert (strlen line <= 511)%nat; [|lia].
  destruct maps as [text|]; [|by apply elem_of_nil in Hl]. by eapply (fgets_lines_bound 511 text 511); [lia|lia|].
Qed.

(** ** The watch *)

Section watch.
Context (elf_at : string -> option elf_file) (map_create : string -> bool) (imports : import_array).
Implicit Types (st : loader) (next : Z).

Definition policies st : gmap Z (gmap Z Z) := policy_registry (bpf st).

(** Identifiers from 3 to [next - 1] are in use, and no path is watched twice. *)
Record watch_ok next st : Prop := {
  wo_next : 3 <= next <= 64;
  wo_count : Z.of_nat (length (g_watched_libs st)) <= next - 2;
  wo_paths : NoDup (wl_path <$> g_watched_libs st);
}.

(** Nothing but policies and address ranges differs. *)
Record same_rest (e e' : enforcer) : Prop := {
  sr_targets : target_pid_map e' = target_pid_map e;
  sr_cfi : cfi_policy e' = cfi_policy e;
  sr_cgroups : cgroup_map e' = cgroup_map e;
  sr_threads : thread_policy_map e' = thread_policy_map e;
  sr_learned : learn_map e' = learn_map e;
  sr_fallback : fallback_policy e' = fallback_policy e;
  sr_blocked : blocklist_map e' = blocklist_map e;
  sr_signals : signals e' = signals e;
}.

#[global] Instance same_rest_preorder : PreOrder same_rest.
Proof. split; [done|]. intros e1 e2 e3 [] []. split; congruence. Qed.

(** What may have happened between two states: the policies in use are kept, the
    main policy apart, which keeps its sites; every new identifier is that of one
    library, with all its sites as policy. *)
Record extends next st next' st' : Prop := {
  ex_next : next <= next';
  ex_kept : forall id, id < next -> id <> MODULE_MAIN -> policies st' !! id = policies st !! id;
  ex_main : forall off, is_Some (policies st !! MODULE_MAIN ≫= (.!! off)) ->
              is_Some (policies st' !! MODULE_MAIN ≫= (.!! off));
  ex_watch : g_watched_libs st `prefix_of` g_watched_libs st';
  ex_rest : same_rest (bpf st) (bpf st');
  ex_new : forall id, next <= id < next' ->
    exists path sites, library_sites elf_at imports path = Some sites /\
      policies st' !! id = Some (wildcard_policy sites) /\ WatchedLib path id ∈ g_watched_libs st';
}.

Lemma extends_refl next st : extends next st next st.
Proof. split; try done. intros id H. lia. Qed.

Lemma extends_trans n1 s1 n2 s2 n3 s3 :
  3 <= n1 -> extends n1 s1 n2 s2 -> extends n2 s2 n3 s3 -> extends n1 s1 n3 s3.
Proof.
  intros Hn [A1 A2 A3 A4 A6 A5] [B1 B2 B3 B4 B6 B5]. split.
  - lia.
  - intros id Hid Hm. rewrite B2, A2 by (done || lia). done.
  - auto.
  - by transitivity (g_watched_libs s2).
  - by transitivity (bpf s2).
  - intros id Hid. destruct (decide (n2 <= id)) as [H|H]; [apply B5; lia|].
    destruct (A5 id ltac:(lia)) as (path & sites & H1 & H2 & H3). exists path, sites. split_and!; [done| |].
    + rewrite B2; [done|lia|unfold MODULE_MAIN; lia].
    + destruct B4 as [k ->]. apply elem_of_app. by left.
Qed.

(** Outcomes of a step: the watch is well formed and extends the state before. *)
Definition grows next st (next' : Z) (st' : loader) : Prop := watch_ok next' st' /\ extends next st next' st'.

Lemma grows_trans n1 s1 n2 s2 n3 s3 : watch_ok n1 s1 -> grows n1 s1 n2 s2 -> grows n2 s2 n3 s3 -> grows n1 s1 n3 s3.
Proof. intros [? _ _] [_ H1] [H2 H3]. split; [done|]. eapply extends_trans; [|done..]. lia. Qed.

Lemma is_lib_watched_spec path st : is_lib_watched path st = false <-> path ∉ wl_path <$> g_watched_libs st.
Proof.
  unfold is_lib_watched. rewrite <- not_true_iff_false, existsb_exists. setoid_rewrite streq_eq.
  rewrite list_elem_of_fmap. split.
  - intros H (w & -> & Hw). apply H. exists w. split; [by apply list_elem_of_In|done].
  - intros H (w & Hw & <-). apply H. exists w. split; [done|by apply list_elem_of_In].
Qed.

Hypothesis Himp : imports_ok imports.

(** One library. *)
Lemma install_library_grows maps prefix path next st :
  maps_ok maps -> watch_ok next st -> next < 64 -> strncpyz 512 path = path -> is_lib_watched path st = false ->
  wp (install_library elf_at map_create imports maps prefix path next) st (fun ok st' =>
    if ok : bool then grows next st (next + 1) st' /\
      g_watched_libs st' = g_watched_libs st ++ [WatchedLib path next] /\
      policies st' !! MODULE_MAIN = policies st !! MODULE_MAIN else st' = st).
Proof.
  intros Hmaps [W1 W2 W3] Hn Hfit Hwl. unfold install_library.
  destruct (negb _); [by wp_step|]. do 2 wp_step. unfold registry_update, REGISTRY_SIZE.
  rewrite (proj2 (Z.ltb_lt _ _)) by lia. do 2 wp_step. wp_step. unfold populate_vma. do 2 wp_step. wp_step.
  destruct (populate_vma_total maps (basename path) next 0 (vma_map (bpf (on_bpf (fun _ =>
    set_registry (<[next:=∅]> (policy_registry (bpf st))) (bpf st)) st))) Hmaps) as [[[cnt b] t'] Hp].
  rewrite Hp. exists (cnt, b, t'). eexists. split; [reflexivity|]. do 3 wp_step.
  destruct (library_sites_total elf_at imports path Himp) as [sites Hs].
  wp_step. rewrite Hs. exists sites. eexists. split; [reflexivity|]. do 5 wp_step.
  unfold register_watched_lib. cbn [on_bpf g_watched_libs bpf lib_allow_map].
  assert ((MAX_WATCHED_LIBS <=? length (g_watched_libs st))%nat = false) as ->.
  { apply Nat.leb_gt. unfold MAX_WATCHED_LIBS. lia. }
  rewrite Hfit. split; [|split; [done|]].
  2:{ unfold policies. cbn. by rewrite !lookup_insert_ne by (unfold MODULE_MAIN; lia). }
  split; split; cbn.
  - lia.
  - rewrite length_app. cbn. lia.
  - rewrite fmap_app. apply NoDup_app. split_and!; [done| |apply NoDup_singleton].
    apply is_lib_watched_spec in Hwl. intros x Hx ->%list_elem_of_singleton. done.
  - lia.
  - intros id Hid Hm. unfold policies. cbn. rewrite !lookup_insert_ne by lia. done.
  - intros off Ho. unfold policies in *. cbn. rewrite !lookup_insert_ne by (unfold MODULE_MAIN; lia). done.
  - by exists [WatchedLib path next].
  - by split.
  - intros id Hid. assert (id = next) as -> by lia. exists path, sites. split_and!; [done| |].
    + unfold policies. cbn. by rewrite lookup_insert_eq.
    + apply elem_of_app. right. by left.
Qed.

Lemma dlopen_lines_grows maps bin_name lines next st new_libs :
  maps_ok maps -> watch_ok next st -> lines ⊆ maps_lines 511 maps ->
  wp (dlopen_lines elf_at map_create imports maps bin_name lines next new_libs) st (fun r st' =>
    grows next st r.2 st').
Proof.
  intros Hmaps. revert next st new_libs. induction lines as [|line lines IH]; intros next st new_libs Hw Hsub; cbn [dlopen_lines].
  { wp_step. split; [done|apply extends_refl]. }
  assert (lines ⊆ maps_lines 511 maps) as Hsub' by set_solver.
  destruct (library_of bin_name data_file_watch line) as [path|] eqn:El; [|by apply IH].
  do 2 wp_step. destruct (is_lib_watched path st) eqn:Ew; cbn [orb]; [by apply IH|].
  destruct (64 <=? next) eqn:En; boolify; [by apply IH|].
  wp_step. eapply wp_mono; [eapply install_library_grows; try done|].
  { eapply (library_of_fits _ _ maps); [|done]. apply Hsub. by left. }
  intros [] st' H; [|subst st'; by apply IH].
  eapply wp_mono; [apply IH; [apply H|done]|]. destruct H as [H _]. intros r st'' H'. by eapply grows_trans.
Qed.

(** Loading entries keeps the sites that are there. *)
Lemma load_keeps base entries m off :
  is_Some (m !! off) -> is_Some (fold_left (load_entry base) entries m !! off).
Proof.
  revert m. induction entries as [|y r IH]; intros m Hm; [done|]. cbn [fold_left]. apply IH.
  unfold load_entry, hash_update. destruct (decide (off = u64 (y.1 - base))) as [Ho|Ho].
  - destruct Hm as [v Hv]. rewrite <- Ho, Hv. cbn. rewrite lookup_insert_eq. by eexists.
  - case_match; [|case_match]; cbn; by rewrite ?lookup_insert_ne.
Qed.

Lemma hot_reload_grows f next st :
  watch_ok next st -> wp (hot_reload f) st (fun _ st' => grows next st next st').
Proof.
  intros Hw. assert (grows next st next st) as Hr by (split; [done|apply extends_refl]).
  unfold hot_reload. destruct f as [e|]; [|by wp_step]. destruct (parse_policy e) as [|x l] eqn:E; [by wp_step|].
  do 2 wp_step. unfold put_policy. wp_step. split; [by destruct Hw|]. split; unfold policies; cbn; try done; try lia.
  - intros id _ Hm. by rewrite lookup_insert_ne.
  - intros off Ho. rewrite lookup_insert_eq. cbn.
    assert (is_Some (default ∅ (policy_registry (bpf st) !! MODULE_MAIN) !! off)) as Ho'.
    { destruct (policy_registry (bpf st) !! MODULE_MAIN); [done|]. by destruct Ho. }
    by apply (load_keeps (elf_load_base e) (x :: l)).
Qed.

Lemma supervise_grows bin_name watch turns polls next st :
  watch_ok next st -> Forall (fun t => maps_ok (tn_maps t)) turns ->
  wp (supervise elf_at map_create imports bin_name watch turns polls next) st (fun r st' => grows next st r.2 st').
Proof.
  intros Hw Ht. revert polls next st Hw. induction Ht as [|t turns Hm _ IH]; intros polls next st Hw; cbn [supervise].
  { wp_step. split; [done|apply extends_refl]. }
  wp_step. assert (wp (if tn_reload t then hot_reload (tn_binary t) else mret tt) st
    (fun _ st' => grows next st next st')) as Hreload.
  { destruct (tn_reload t); [by apply hot_reload_grows|]. wp_step. split; [done|apply extends_refl]. }
  eapply wp_mono; [exact Hreload|]. clear Hreload. intros [] s1 H1. pose proof H1 as [Hw1 _].
  assert (forall polls, wp (supervise elf_at map_create imports bin_name watch turns polls next) s1
    (fun r st' => grows next st r.2 st')) as Hnext.
  { intros p. eapply wp_mono; [by apply IH|]. intros r s2 H2. by eapply grows_trans. }
  destruct (tn_child t); [|by wp_step..]. destruct (negb watch); [apply Hnext|].
  destruct (DLOPEN_POLLS <=? S polls)%nat; [|apply Hnext]. wp_step. unfold dlopen_scan.
  eapply wp_mono; [by apply dlopen_lines_grows|]. intros [k n2] s2 H2. cbn [snd] in *.
  assert (grows next st n2 s2) as H3 by by eapply grows_trans.
  eapply wp_mono; [apply IH, H2|]. intros r s3 H4. by eapply grows_trans.
Qed.
End watch.

(** ** Discovery *)

Lemma discover_libs_ok bin_name maps lines seen :
  lines ⊆ maps_lines 511 maps -> NoDup seen -> Forall (fun p => strncpyz 512 p = p) seen ->
  NoDup (discover_libs bin_name lines seen) /\ Forall (fun p => strncpyz 512 p = p) (discover_libs bin_name lines seen).
Proof.
  revert seen. induction lines as [|line lines IH]; intros seen Hsub Hnd Hfit; cbn [discover_libs]; [done|].
  assert (lines ⊆ maps_lines 511 maps) as Hsub' by set_solver.
  destruct (_ <=? _)%nat; [done|]. destruct (library_of _ _ _) as [path|] eqn:El; [|by apply IH].
  destruct (existsb _ _) eqn:Ex; [by apply IH|].
  assert (strncpyz 512 path = path) as Hp. { eapply (library_of_fits _ _ maps); [|done]. apply Hsub. by left. }
  rewrite Hp. apply IH; [done| |].
  - apply NoDup_app. split_and!; [done| |apply NoDup_singleton]. intros x Hx ->%list_elem_of_singleton.
    apply not_true_iff_false in Ex. apply Ex, existsb_exists. exists path.
    split; [by apply list_elem_of_In|apply streq_refl].
  - apply Forall_app. by split; [|constructor].
Qed.

Section discovery.
Context (elf_at : string -> option elf_file) (map_create : string -> bool) (imports : import_array).
Hypothesis Himp : imports_ok imports.

(** The libraries, in order; the identifiers are used up without gaps. *)
Lemma install_libs_grows maps libs next st :
  maps_ok maps -> watch_ok next st -> NoDup libs -> Forall (fun p => strncpyz 512 p = p) libs ->
  (forall p, p ∈ libs -> p ∉ wl_path <$> g_watched_libs st) ->
  wp (install_libs elf_at map_create imports maps libs next) st (fun next' st' =>
    grows elf_at imports next st next' st' /\
    Z.of_nat (length (g_watched_libs st')) - Z.of_nat (length (g_watched_libs st)) = next' - next /\
    policies st' !! MODULE_MAIN = policies st !! MODULE_MAIN).
Proof.
  intros Hm. revert next st. induction libs as [|p libs IH]; intros next st Hw Hnd Hfit Hnew; cbn [install_libs].
  { wp_step. split; [split; [done|apply extends_refl]|split; [lia|done]]. }
  destruct (next <? 64) eqn:En; cbn [negb]; boolify; [|wp_step; split; [split; [done|apply extends_refl]|split; [lia|done]]].
  apply NoDup_cons in Hnd as [Hni Hnd]. apply Forall_cons in Hfit as [Hf Hfit].
  wp_step. eapply wp_mono; [apply install_library_grows; try done|].
  { apply is_lib_watched_spec, Hnew. by left. }
  intros [] s1 H1.
  - destruct H1 as (H1 & Hadd & Hmain). eapply wp_mono; [apply IH; [apply H1|done|done|]|].
    + intros q Hq. rewrite Hadd, fmap_app. apply not_elem_of_app. split; [apply Hnew; by right|].
      cbn. intros ->%list_elem_of_singleton. done.
    + cbn. intros n2 s2 (H2 & Hlen & Hm2). split; [by eapply grows_trans|]. rewrite Hadd, length_app in Hlen.
      cbn in Hlen. split; [lia|congruence].
  - subst s1. apply IH; [done..|]. intros q Hq. apply Hnew. by right.
Qed.
End discovery.
