(* ===== verification/LoaderClaims.v ===== *)
(** * The loader at work: theorems

    Waiting for libc, the libraries of the program, the caller ranges, and what
    goes wrong when the watch uses released memory. *)

From S2P Require Import Prelude CStrings KvmiSetup Enforcer EnforcerProofs LoaderPolicy EnforcerClaims LoaderElf LoaderElfProofs LoaderGraph LoaderGraphProofs LoaderTrust LoaderInstall LoaderMain LoaderInstallProofs LoaderWatchProofs.
From stdpp Require Import prelude gmap strings list.
From Stdlib Require Import ZArith Lia Ascii.
#[local] Open Scope string_scope.
#[local] Open Scope list_scope.
#[local] Open Scope Z_scope.

(** ** Caller ranges *)

Lemma add_cfi_lookup kvs m k r :
  NoDup kvs.*1 -> (size m + length kvs <= CFI_MAP_SIZE)%nat -> (k, r) ∈ kvs -> fold_left add_cfi kvs m !! k = Some r.
Proof.
  assert (forall kvs m k, (size m + length kvs <= CFI_MAP_SIZE)%nat -> k ∉ kvs.*1 ->
    fold_left add_cfi kvs m !! k = m !! k) as Hskip.
  { clear. intros kvs. induction kvs as [|[k' r'] kvs IH]; intros m k Hs Hk; [done|].
    cbn [fold_left length fmap list_fmap] in *. apply not_elem_of_cons in Hk as [Hk1 Hk2]. cbn [fst] in Hk1.
    unfold add_cfi at 2, hash_update. cbn [fst snd]. rewrite (proj2 (Nat.ltb_lt _ _)) by lia.
    assert ((match m !! k' with Some _ => Some (<[k':=r']> m) | None => Some (<[k':=r']> m) end) = Some (<[k':=r']> m)) as ->
      by by destruct (m !! k').
    change (default m (Some (<[k':=r']> m))) with (<[k':=r']> m).
    rewrite IH, lookup_insert_ne; [done|done| |done]. rewrite map_size_insert. destruct (m !! k'); cbn; lia. }
  revert m. induction kvs as [|[k' r'] kvs IH]; intros m Hnd Hs Hin; [by apply elem_of_nil in Hin|].
  cbn [fold_left length fmap list_fmap] in *. apply NoDup_cons in Hnd as [Hni Hnd]. cbn [fst] in Hni.
  unfold add_cfi at 2, hash_update. cbn [fst snd]. rewrite (proj2 (Nat.ltb_lt _ _)) by lia.
  assert ((match m !! k' with Some _ => Some (<[k':=r']> m) | None => Some (<[k':=r']> m) end) = Some (<[k':=r']> m)) as ->
    by by destruct (m !! k').
  change (default m (Some (<[k':=r']> m))) with (<[k':=r']> m).
  assert (size (<[k':=r']> m) + length kvs <= CFI_MAP_SIZE)%nat as Hs'.
  { rewrite map_size_insert. destruct (m !! k'); cbn; lia. }
  apply elem_of_cons in Hin as [[= -> ->]|Hin]; [|by apply IH]. rewrite Hskip by done. apply lookup_insert_eq.
Qed.

(** ** Theorems *)

(** C34. Waiting for libc ends: after at most 10001 steps the wait returns, either at
    the first step where the memory map of the program names libc, with the base of
    libc, or with base 0 because the program ended or the limit of steps was passed
    without libc being mapped. *)
Theorem wait_libc_terminates maps_at exited :
  exists base steps, wait_libc (S PTRACE_STEP_LIMIT) maps_at exited 0 = Some (base, steps) /\
    (steps <= S PTRACE_STEP_LIMIT)%nat /\ wait_ends maps_at exited 0 base steps.
Proof.
  destruct (wait_libc_ends maps_at exited (S PTRACE_STEP_LIMIT) 0) as (base & steps & H & [_ Hs] & He).
  - apply Nat.add_0_r.
  - apply le_n_S, Nat.le_0_l.
  - by exists base, steps.
Qed.

(** The libraries of a program get policies of their own: the installation of
    the libraries in the memory map ends, gives the identifiers from 3 on without gaps
    to distinct libraries, each with exactly the wildcard policy over the sites of its
    call graph (or of its whole text), and changes the policy of neither libc nor the
    main binary's sites; the next free identifier is 3 plus the number of libraries
    watched. *)
Theorem discovery_installs elf_at map_create names maps bin_name st :
  maps_ok maps -> g_watched_libs st = [] ->
  exists st', discover_and_install elf_at map_create (Live names) maps bin_name st = Some (tt, st') /\
    let next := MODULE_DYNAMIC_BASE + Z.of_nat (length (g_watched_libs st')) in
    watch_ok next st' /\ extends elf_at (Live names) MODULE_DYNAMIC_BASE st next st'.
Proof.
  intros Hm Hst. destruct (discover_libs_ok bin_name maps (maps_lines 511 maps) []) as [Hnd Hfit]; [done|constructor|done|].
  destruct (install_libs_grows elf_at map_create (Live names) I maps (discover_libs bin_name (maps_lines 511 maps) [])
    MODULE_DYNAMIC_BASE st Hm) as (next & st' & Hr & [Hw Hx] & Hlen & _); [|done|done| |].
  - split; [unfold MODULE_DYNAMIC_BASE; lia|rewrite Hst; unfold MODULE_DYNAMIC_BASE; cbn [length]; lia|rewrite Hst; constructor].
  - intros p _. rewrite Hst. apply not_elem_of_nil.
  - exists st'. unfold discover_and_install, mbind, M_bind. rewrite Hr. split; [done|]. cbn zeta.
    rewrite Hst in Hlen. cbn in Hlen. replace (MODULE_DYNAMIC_BASE + _) with next by lia. done.
Qed.

(** Supervision never takes a policy away: whatever the program, its memory maps
    and its binary do during the turns, as long as the imports can still be read, the
    loop ends its scans, keeps the policy of every module but the main one unchanged,
    keeps every site of the main policy across reloads, and gives every library that
    appears a new identifier with its own policy; no library is installed twice. *)
Theorem supervision_keeps_policies elf_at map_create imports bin_name watch turns polls next st :
  imports_ok imports -> watch_ok next st -> Forall (fun t => maps_ok (tn_maps t)) turns ->
  exists status next' st',
    supervise elf_at map_create imports bin_name watch turns polls next st = Some ((status, next'), st') /\
    watch_ok next' st' /\ extends elf_at imports next st next' st'.
Proof.
  intros Hi Hw Ht. destruct (supervise_grows elf_at map_create imports Hi bin_name watch turns polls next st Hw Ht)
    as ([status next'] & st' & Hr & Hg). by exists status, next', st'.
Qed.

(** A function symbol at the address. *)
Definition function_at (addr : Z) (y : elf_sym) : Prop := st_value y = addr /\ st_type y = STT_FUNC.

(** The first function symbol at the address in a readable symbol table has this size,
    which is not 0. *)
Definition table_gives (s : elf_section) (addr n : Z) : Prop :=
  sh_type s = SHT_SYMTAB /\ is_Some (sh_data s) /\ n <> 0 /\
  exists i y, sh_syms s !! i = Some y /\ function_at addr y /\ st_size y = n /\
    forall j y', (j < i)%nat -> sh_syms s !! j = Some y' -> ~ function_at addr y'.

(** The extent of a function: from the first table that gives a size, or 4096 bytes. *)
Definition extent (l : list elf_section) (addr n : Z) : Prop :=
  (exists i s, l !! i = Some s /\ table_gives s addr n /\
     forall j s' n', (j < i)%nat -> l !! j = Some s' -> ~ table_gives s' addr n') \/
  n = 4096 /\ forall s n', s ∈ l -> ~ table_gives s addr n'.

Lemma table_gives_find s addr n :
  table_gives s addr n <-> sh_type s = SHT_SYMTAB /\ is_Some (sh_data s) /\ n <> 0 /\
    st_size <$> List.find (fun y => (st_value y =? addr) && (st_type y =? STT_FUNC)) (sh_syms s) = Some n.
Proof.
  unfold table_gives. do 3 f_equiv. induction (sh_syms s) as [|y l IH]; cbn [List.find].
  { split; [intros (i & y & H & _); by rewrite lookup_nil in H|done]. }
  assert (function_at addr y <-> (st_value y =? addr) && (st_type y =? STT_FUNC) = true) as Hy.
  { unfold function_at. rewrite andb_true_iff, !Z.eqb_eq. done. }
  destruct ((st_value y =? addr) && (st_type y =? STT_FUNC)) eqn:E.
  - cbn. split.
    + intros ([|i] & z & Hz & _ & <- & Hj); [by injection Hz as ->|]. destruct (Hj 0%nat y); [lia|done|by apply Hy].
    + intros [= <-]. exists 0%nat, y. split_and!; [done|by apply Hy|done|lia].
  - rewrite <- IH. split.
    + intros ([|i] & z & Hz & Hf & Hs & Hj); [injection Hz as ->; by apply Hy in Hf|].
      exists i, z. split_and!; [done..|]. intros j y' H1 H2. by apply (Hj (S j) y'); [lia|].
    + intros (i & z & Hz & Hf & Hs & Hj). exists (S i), z. split_and!; [done..|].
      intros [|j] y' H1 H2; [injection H2 as <-; by rewrite Hy|]. by apply (Hj j y'); [lia|].
Qed.

(** A table that gives no size can be left out. *)
Lemma extent_skip s l addr n : (forall n', ~ table_gives s addr n') -> extent l addr n -> extent (s :: l) addr n.
Proof.
  intros Hs [(i & s' & H1 & H2 & H3)|[-> H]].
  - left. exists (S i), s'. split_and!; [done..|]. intros [|j] s2 n' Hj H4; [injection H4 as <-; apply Hs|].
    by apply (H3 j s2); [lia|].
  - right. split; [done|]. intros s2 n' [->|H2]%elem_of_cons; [apply Hs|by apply H].
Qed.

Lemma cfi_extent l addr :
  extent l addr (if cfi_func_size addr l =? 0 then CFI_DEFAULT_SIZE else cfi_func_size addr l).
Proof.
  induction l as [|s l IH]; cbn [cfi_func_size].
  { right. split; [done|]. intros s n' H. by apply elem_of_nil in H. }
  destruct (sh_type s =? SHT_SYMTAB) eqn:E1; [apply Z.eqb_eq in E1|apply Z.eqb_neq in E1]; cycle 1.
  { apply extent_skip; [|done]. intros n' H. by apply E1, H. }
  destruct (sh_data s) as [d|] eqn:E2; cycle 1.
  { apply extent_skip; [|done]. intros n' (_ & [x Hx] & _). congruence. }
  destruct (List.find _ (sh_syms s)) as [y|] eqn:E3; cycle 1.
  { apply extent_skip; [|done]. intros n' H%table_gives_find. rewrite E3 in H. by destruct H as (_ & _ & _ & H). }
  destruct (Z.eqb_spec (st_size y) 0) as [E4|E4].
  { apply extent_skip; [|done]. intros n' H%table_gives_find. rewrite E3 in H. destruct H as (_ & _ & H1 & H2).
    injection H2 as H2. congruence. }
  rewrite (proj2 (Z.eqb_neq _ _)) by done. left. exists 0%nat, s. split; [done|]. split; [|lia].
  apply table_gives_find. rewrite E3, E2. by split_and!.
Qed.

(** C25. Caller ranges are enforced: let the table of callers be filled from a
    [.sentinel_cfi] section of at most 1024 entries at distinct sites, let learning and
    permissive mode be off, no shadow stack be checked and no thread limit be set.  A
    process in scope that makes a system call from a site of the section, in a module
    with a policy, goes through silently if and only if that policy lists the site for
    this number and the return address in the second frame of the user stack lies in
    the recorded function, from its start to the end that the first symbol table with a
    size for it gives, or 4096 bytes (both ends included); otherwise it is signalled. *)
Theorem caller_ranges_enforced cfg c nr e file base entries entry policy rip m :
  learn_mode cfg = 0 -> enforce_mode cfg <> ENFORCE_PERMISSIVE -> shadow_cfi cfg = 0 -> in_scope cfg e c ->
  parse_sentinel_cfi (Some file) MAX_POLICY_ENTRIES = entries -> entry ∈ entries -> (length entries <= 1024)%nat ->
  NoDup ((fun x => u64 (ce_site x - base)) <$> entries) ->
  cfi_policy e = install_cfi (Some file) (fst <$> parse_policy file) base ∅ ->
  user_rip c = Some rip -> trie_lookup (vma_map e) (addr_key (EnforcerProofs.site_of rip)) = Some m ->
  policy_registry e !! module_id m = Some policy -> thread_policy_map e !! (ctx_tgid c, ctx_tid c) = None ->
  offset_of rip m = u64 (ce_site entry - base) ->
  exists e', sentinel_check cfg c nr e = Some (0, e') /\
    let start := u64 (ce_func entry - base) in
    exists n, extent (e_sections file) (ce_func entry) n /\
    let allowed := (exists rule, policy !! offset_of rip m = Some rule /\ nr_ok rule nr) /\
      exists frames ra, user_stack c = Some frames /\ frames !! 1%nat = Some ra /\
        start <= u64 (ra - base_addr m) <= u64 (start + n) in
    allowed /\ signals e' = signals e \/
    ~ allowed /\ signals e' = signals e ++ [(ctx_tgid c, deny_signal cfg)].
Proof.
  intros Hl He Hsh Hs Hent Hin Hlen Hnd Hcfi Hrip Hm Hreg Hth Hoff.
  destruct (check_decides cfg He c nr e Hl Hs) as (x & e' & Hr & -> & Hd). exists e'. split; [done|]. cbn zeta.
  eexists. split; [apply cfi_extent|].
  assert (cfi_policy e !! offset_of rip m = Some (cfi_range_of base (e_sections file) entry)) as Hlk.
  { rewrite Hcfi. unfold install_cfi. rewrite Hent. destruct entries as [|a l]; [by apply elem_of_nil in Hin|].
    apply add_cfi_lookup.
    - rewrite <- list_fmap_compose. exact Hnd.
    - rewrite map_size_empty, length_fmap. unfold CFI_MAP_SIZE. lia.
    - apply list_elem_of_fmap. exists entry. by rewrite Hoff. }
  assert (permitted cfg e c nr <-> (exists rule, policy !! offset_of rip m = Some rule /\ nr_ok rule nr) /\
    exists frames ra, user_stack c = Some frames /\ frames !! 1%nat = Some ra /\
      cfi_start (cfi_range_of base (e_sections file) entry) <= u64 (ra - base_addr m) <=
      cfi_end (cfi_range_of base (e_sections file) entry)) as Hiff.
  { split.
    - intros (rip' & m' & rule & [P1 P2 (p & P3 & P4) _ P6 _ P8]). simplify_eq. split; [by exists rule|]. by apply P8.
    - intros [(rule & Hru & Hnr) Hc]. exists rip, m, rule. split; try done.
      + by exists policy.
      + intros li Hli. congruence.
      + by intros ?.
      + intros r' Hr'. rewrite Hlk in Hr'. by injection Hr' as <-. }
  destruct Hd as [[HP [_ H]]|[HP [_ H]]]; [left|right]; (split; [|done]); by rewrite <- Hiff.
Qed.

(** ** Witnesses *)

Definition line_of (s : string) : string := s +:+ String newline EmptyString.

(** A program with libc and one library. *)
Definition demo_maps : string :=
  line_of "00400000-00401000 r-xp 00000000 08:01 12 /opt/app" +:+
  line_of "7f0000000000-7f0000002000 r-xp 00000000 08:01 13 /lib/libc.so.6" +:+
  line_of "7f0000400000-7f0000402000 r-xp 00000000 08:01 14 /lib/libz.so.1" +:+
  line_of "7f0000402000-7f0000403000 r--p 00002000 08:01 14 /lib/libz.so.1".

Definition empty_bpf : enforcer := Enforcer ∅ [] ∅ ∅ ∅ ∅ ∅ ∅ ∅ 10 [] [].
Definition fresh_loader : loader := Loader empty_bpf ∅ [].
Definition demo_files (path : string) : option elf_file :=
  if streq path "/lib/libz.so.1" then Some demo_libc else None.

Lemma demo_maps_ok : maps_ok (Some demo_maps).
Proof.
  intros line start end_ Hl Hs.
  assert (forallb (fun l => match scan_range l with
    | Some (s, e) => (0 <=? s) && (s <? 2 ^ 64) && (0 <=? e) && (e <=? 2 ^ 64 - VMA_BLOCK_SIZE)
    | None => true end) (maps_lines 511 (Some demo_maps)) = true) as H by (vm_compute; reflexivity).
  rewrite forallb_forall in H. specialize (H line (proj1 (list_elem_of_In _ _) Hl)). rewrite Hs in H. boolify.
  split; [ulia|lia].
Qed.

Lemma discovery_installs_witness :
  exists st', discover_and_install demo_files (fun _ => true) (Live ["write"]) (Some demo_maps) "app" fresh_loader = Some (tt, st') /\
    extends demo_files (Live ["write"]) 3 fresh_loader (3 + Z.of_nat (length (g_watched_libs st'))) st'.
Proof.
  destruct (discovery_installs demo_files (fun _ => true) ["write"] (Some demo_maps) "app" fresh_loader) as (st' & Hr & _ & Hx).
  - exact demo_maps_ok.
  - reflexivity.
  - exists st'. split; [exact Hr|]. exact Hx.
Defined.

(** The library is found, with the sites that its call graph reaches. *)
Example demo_discovery :
  match discover_and_install demo_files (fun _ => true) (Live ["write"]) (Some demo_maps) "app" fresh_loader with
  | Some (_, st) => g_watched_libs st = [WatchedLib "/lib/libz.so.1" 3] /\
      policies st !! 3 = Some (wildcard_policy [0x1005; 0x1010])
  | None => False
  end.
Proof. vm_compute. split; reflexivity. Qed.

(** Five turns of the loop, with a reload in the first. *)
Definition demo_turns : list turn :=
  Turn true (Some demo_libc) Running (Some demo_maps) :: replicate 4 (Turn false None Running (Some demo_maps)).

Lemma supervision_keeps_policies_witness :
  exists status next' st', supervise demo_files (fun _ => true) (Freed 0) "app" true demo_turns 0 3 fresh_loader
      = Some ((status, next'), st') /\ extends demo_files (Freed 0) 3 fresh_loader next' st'.
Proof.
  destruct (supervision_keeps_policies demo_files (fun _ => true) (Freed 0) "app" true demo_turns 0 3 fresh_loader)
    as (status & next' & st' & Hr & _ & Hx).
  - exact I.
  - split; [lia|cbn; lia|constructor].
  - repeat (constructor; [exact demo_maps_ok|]). constructor.
  - exists status, next', st'. split; [exact Hr|exact Hx].
Defined.

(** A binary whose call site at 0x401000 belongs to the function at 0x400f00. *)
Definition cfi_file : elf_file :=
  ElfFile [(PT_LOAD, 0x400000)]
    [ElfSection (Some ".sentinel_cfi") SHT_PROGBITS 0 0 16 (Some (le_encode 8 0x401000 ++ le_encode 8 0x400f00)) [];
     ElfSection (Some ".symtab") SHT_SYMTAB 0 0 24 (Some []) [ElfSym (Some "f") 0x400f00 0x80 STT_FUNC]].

Definition cfi_enforcer : enforcer :=
  Enforcer (policy_registry demo_enforcer) demo_trie {[ 500 := 1 ]}
    (install_cfi (Some cfi_file) (fst <$> parse_policy cfi_file) 0x400000 ∅) ∅ ∅ ∅ ∅ ∅ 10 [] [].

(** The call returns to 0x402000, outside the function. *)
Definition cfi_ctx : hook_ctx :=
  HookCtx (500 * 4294967296 + 501) 0 (Some 0x401002) (Some [0x401002; 0x402000]) 7.

Lemma caller_ranges_enforced_witness :
  exists e', sentinel_check demo_cfg cfi_ctx 1 cfi_enforcer = Some (0, e') /\ signals e' = [(500, SIGKILL)].
Proof.
  destruct (caller_ranges_enforced demo_cfg cfi_ctx 1 cfi_enforcer cfi_file 0x400000 [CfiEntry 0x401000 0x400f00]
    (CfiEntry 0x401000 0x400f00) (populate_main_policy (parse_sentinel_section EnforcerClaims.demo_section MAX_POLICY_ENTRIES) 0x400000)
    0x401002 (VmaValue 1 0x400000)) as (e' & Hr & _).
  - reflexivity.
  - discriminate.
  - reflexivity.
  - split; [exists 1|]; vm_compute; reflexivity.
  - vm_compute. reflexivity.
  - left.
  - cbn. lia.
  - apply NoDup_singleton.
  - reflexivity.
  - reflexivity.
  - vm_compute. reflexivity.
  - vm_compute. reflexivity.
  - reflexivity.
  - vm_compute. reflexivity.
  - exists e'. split; [exact Hr|].
    assert ((fun x => signals x.2) <$> sentinel_check demo_cfg cfi_ctx 1 cfi_enforcer = Some [(500, SIGKILL)]) as Hx
      by (vm_compute; reflexivity).
    rewrite Hr in Hx. injection Hx as Hx. exact Hx.
Defined.

(** ** Gaps *)

(** The array of imports is released before the loop starts: the first library
    that appears is traced from released memory. *)
Example watch_uses_freed_imports :
  supervise demo_files (fun _ => true) (Freed 1) "app" true demo_turns 0 3 fresh_loader = None.
Proof. vm_compute. reflexivity. Qed.

(** The address range of libc is that of every mapping whose line contains
    [libc]; with libcrypto below it, the base is not libc's. *)
Definition crypto_maps : string :=
  line_of "7f0000000000-7f0000100000 r-xp 00000000 08:01 13 /lib/libcrypto.so.3" +:+
  line_of "7f0000100000-7f0000200000 r-xp 00000000 08:01 14 /lib/libc.so.6".

Example libc_base_is_libcrypto :
  get_libc_base (Some crypto_maps) = 0x7f0000100000 /\
  (fun r => r.1.2) <$> populate_vma_for_module (Some crypto_maps) "libc" MODULE_LIBC 0x7f0000100000 [] = Some 0x7f0000000000.
Proof. vm_compute. split; reflexivity. Qed.

(** A reload that drops a site leaves it allowed. *)
Example reload_keeps_dropped_site :
  let st := on_bpf (set_registry {[ MODULE_MAIN := {[ 0x1000 := 1 ]} ]}) fresh_loader in
  let policy := ElfFile [] [ElfSection (Some ".sentinel") SHT_PROGBITS 0 0 32
                  (Some (encode_section [PolicyEntry 0x2000 0 0])) []] in
  match hot_reload (Some policy) st with
  | Some (_, st') => policies st' !! MODULE_MAIN ≫= (.!! 0x1000) = Some 1
  | None => False
  end.
Proof. vm_compute. reflexivity. Qed.
