(* ===== verification/LoaderCli.v ===== *)
(** * Command line, audit output and reports of the loader (loader.c)

    The options and the configuration that they make for the enforcer, the lines
    that [audit_event_handler] writes, and the counts of the attack surface
    report.  The text of the report is in LoaderReport; help texts are not modelled. *)

From S2P Require Import Prelude CStrings KvmiSetup Enforcer LoaderPolicy.
From stdpp Require Import prelude gmap strings list.
From Stdlib Require Import ZArith Lia Ascii.
#[local] Open Scope string_scope.
#[local] Open Scope list_scope.
#[local] Open Scope Z_scope.

(** ** Options *)

Record options := Options {
  o_audit : bool;
  o_fexit : bool;
  o_enforce : Z;
  o_watch_dlopen : bool;
  o_cgroup_path : string;
  o_learn : bool;
  o_shadow_cfi : bool;
  o_system_wide : bool;
  o_surface : bool;
  o_use_tpm : bool;
  o_json : bool;
  o_syslog : bool;
}.

Definition default_options : options :=
  Options false false ENFORCE_KILL false EmptyString false false false false false false false.

(** What one option does; [None] is the binary. *)
Definition apply_option (arg : string) (o : options) : option options :=
  let '(Options au fe en wa cg le sh sy su tp js sl) := o in
  if streq arg "--audit" then Some (Options true fe en wa cg le sh sy su tp js sl)
  else if streq arg "--fexit" then Some (Options true true en wa cg le sh sy su tp js sl)
  else if streq arg "--permissive" then Some (Options true fe ENFORCE_PERMISSIVE wa cg le sh sy su tp js sl)
  else if streq arg "--enforce=kill" then Some (Options au fe ENFORCE_KILL wa cg le sh sy su tp js sl)
  else if streq arg "--enforce=permissive" then Some (Options true fe ENFORCE_PERMISSIVE wa cg le sh sy su tp js sl)
  else if streq arg "--enforce=term" then Some (Options au fe ENFORCE_TERM wa cg le sh sy su tp js sl)
  else if streq arg "--watch-dlopen" then Some (Options au fe en true cg le sh sy su tp js sl)
  else if streq arg "--learn" then Some (Options true fe ENFORCE_PERMISSIVE wa cg true sh sy su tp js sl)
  else if streq arg "--shadow-cfi" then Some (Options au fe en wa cg le true sy su tp js sl)
  else if streq arg "--system-wide" then Some (Options au fe en wa cg le sh true su tp js sl)
  else if streq arg "--surface" then Some (Options au fe en wa cg le sh sy true tp js sl)
  else if streq arg "--tpm" then Some (Options au fe en wa cg le sh sy su true js sl)
  else if strneq 9 arg "--cgroup=" then
    Some (Options au fe en wa (strncpyz 512 (string_drop 9 arg)) le sh sy su tp js sl)
  else if streq arg "--audit-format=json" then Some (Options au fe en wa cg le sh sy su tp true sl)
  else if streq arg "--audit-format=text" then Some (Options au fe en wa cg le sh sy su tp false sl)
  else if streq arg "--audit-target=syslog" then Some (Options au fe en wa cg le sh sy su tp js true)
  else if streq arg "--audit-target=stdout" then Some (Options au fe en wa cg le sh sy su tp js false)
  else None.

Inductive cli :=
| CliHelp
| CliVersion
| CliNoBinary
| CliRun (o : options) (binary : string) (args : list string).

(** The arguments after the program's name. *)
Fixpoint parse_args (args : list string) (o : options) : cli :=
  match args with
  | [] => CliNoBinary
  | a :: rest =>
      if streq a "--help" || streq a "-h" then CliHelp
      else if streq a "--version" || streq a "-v" then CliVersion
      else match apply_option a o with
           | Some o' => parse_args rest o'
           | None => CliRun o a rest
           end
  end.

Definition Z_of_flag (b : bool) : Z := if b then 1 else 0.

(** The read-only data of the BPF object. *)
Definition config_of (o : options) : bpf_config :=
  BpfConfig (Z_of_flag (o_audit o)) (Z_of_flag (o_fexit o)) (o_enforce o) (Z_of_flag (o_learn o))
    (Z_of_flag (o_shadow_cfi o)) (Z_of_flag (o_system_wide o))
    (Z_of_flag (negb (streq (o_cgroup_path o) EmptyString))).

(** ** Audit events *)

Definition EVENT_DLOPEN_EXT : Z := 7.
Definition EVENT_LIB_DENY : Z := 10.
Definition AUDIT_EVENT_SIZE : Z := 48.
Definition LOG_WARNING : Z := 4.
Definition LOG_INFO : Z := 6.
Definition JSON_BUF : nat := 512.

Definition action_str (a : Z) : string :=
  if a =? EVENT_ALLOW then "ALLOW"
  else if a =? EVENT_BLOCK then "BLOCK"
  else if a =? EVENT_CFI_OK then "ALLOW+CFI"
  else if a =? EVENT_CFI_FAIL then "CFI-FAIL"
  else if a =? EVENT_NR_MISMATCH then "NR-MISMATCH"
  else if a =? EVENT_FORK_TRACK then "FORK-TRACK"
  else if a =? EVENT_FEXIT_OK then "FEXIT"
  else if a =? EVENT_DLOPEN_EXT then "DLOPEN-EXT"
  else if a =? EVENT_PERMISSIVE then "PERMISSIVE"
  else if a =? EVENT_LEARN then "LEARN"
  else if a =? EVENT_LIB_DENY then "LIB-DENY"
  else if a =? EVENT_SHADOW_OK then "SHADOW-OK"
  else if a =? EVENT_SHADOW_FAIL then "SHADOW-FAIL"
  else if a =? EVENT_FALLBACK then "FALLBACK"
  else if a =? EVENT_KOBJ_DENY then "KOBJ-DENY"
  else "UNKNOWN".

(** [%03ld] of 0 to 999. *)
Definition fmt_03 (n : Z) : string :=
  String (digit_char (n / 100)) (String (digit_char (n / 10 mod 10)) (String (digit_char (n mod 10)) EmptyString)).

(** A key of the JSON object, with its quotes and colon. *)
Definition jkey (k : string) : string := quoted k +:+ ":".
Definition q1 : string := String quote EmptyString.

(** The object for an event, at the time [tbuf] and [ms] milliseconds. *)
Definition audit_json (tbuf : string) (ms : Z) (ev : audit_event) : string :=
  "{" +:+ jkey "ts" +:+ q1 +:+ tbuf +:+ "." +:+ fmt_03 ms +:+ "Z" +:+ q1 +:+ "," +:+
  jkey "action" +:+ q1 +:+ action_str (action ev) +:+ q1 +:+ "," +:+
  jkey "pid" +:+ fmt_u (ev_tgid ev) +:+ "," +:+ jkey "tid" +:+ fmt_u (ev_tid ev) +:+ "," +:+
  jkey "syscall_nr" +:+ fmt_u (ev_syscall_nr ev) +:+ "," +:+
  (if action ev =? EVENT_FEXIT_OK then jkey "ret" +:+ fmt_d (s64 (ev_offset ev)) +:+ "}"
   else jkey "rip" +:+ q1 +:+ "0x" +:+ fmt_x (syscall_rip ev) +:+ q1 +:+ "," +:+
        jkey "offset" +:+ q1 +:+ "0x" +:+ fmt_x (ev_offset ev) +:+ q1 +:+ "," +:+
        jkey "module" +:+ fmt_u (ev_module_id ev) +:+ "}").

Definition audit_text (ev : audit_event) : string :=
  action_str (action ev) +:+ " PID=" +:+ fmt_u (ev_tgid ev) +:+ " TID=" +:+ fmt_u (ev_tid ev) +:+
  " SYS=" +:+ fmt_u (ev_syscall_nr ev) +:+
  (if action ev =? EVENT_FEXIT_OK then " RET=" +:+ fmt_d (s64 (ev_offset ev))
   else " RIP=0x" +:+ fmt_x (syscall_rip ev) +:+ " Off=0x" +:+ fmt_x (ev_offset ev) +:+ " Mod=" +:+ fmt_u (ev_module_id ev)).

Inductive audit_out :=
| Printed (line : string)
| Logged (prio : Z) (msg : string).

Definition audit_prio (ev : audit_event) : Z :=
  if (action ev =? EVENT_BLOCK) || (action ev =? EVENT_CFI_FAIL) || (action ev =? EVENT_NR_MISMATCH)
  then LOG_WARNING else LOG_INFO.

(** [audit_event_handler]: what is written for a record of [data_sz] bytes. *)
Definition audit_event_handler (json syslog : bool) (tbuf : string) (ms data_sz : Z) (ev : audit_event)
  : option audit_out :=
  if data_sz <? AUDIT_EVENT_SIZE then None
  else if json then
    let s := audit_json tbuf ms ev in
    if (JSON_BUF <=? strlen s)%nat then None
    else Some (if syslog then Logged (audit_prio ev) s else Printed (s +:+ String newline EmptyString))
  else
    Some (if syslog then Logged (if action ev =? EVENT_FEXIT_OK then LOG_INFO else audit_prio ev) (audit_text ev)
          else Printed ("[Audit] " +:+ audit_text ev +:+ String newline EmptyString)).

(** ** The attack surface *)

Definition SUBSYS_OTHER : Z := 8.

Definition subsystem_table : list (list Z) :=
  [[56; 57; 58; 59; 60; 61; 62; 157; 160; 231; 272; 435];
   [0; 1; 2; 3; 4; 5; 6; 8; 17; 18; 19; 20; 21; 76; 77; 78; 79; 80; 82; 83; 84; 85; 86; 87; 88; 89; 90; 133; 155;
    161; 217; 257; 258; 259; 260; 261; 262; 263; 264; 265; 266; 267; 268; 269; 316; 437; 438; 439; 440];
   [41; 42; 43; 44; 45; 46; 47; 48; 49; 50; 51; 52; 53; 54; 55; 288; 289; 290; 291; 292; 293];
   [9; 10; 11; 12; 25; 26; 27; 28; 67; 237; 278; 279];
   [22; 23; 29; 30; 31; 32; 33; 66];
   [13; 14; 15; 34; 35; 127; 128; 129; 130; 131];
   [16; 73; 187];
   [101; 246; 317]].

(** The switch: the subsystem whose cases list the number. *)
Fixpoint subsystem_from (s : Z) (table : list (list Z)) (nr : Z) : Z :=
  match table with
  | [] => SUBSYS_OTHER
  | cases :: rest => if existsb (Z.eqb nr) cases then s else subsystem_from (s + 1) rest nr
  end.
Definition nr_to_subsystem (nr : Z) : Z := subsystem_from 0 subsystem_table nr.

Definition subsys_name (s : Z) : string :=
  if s =? 0 then "process" else if s =? 1 then "filesystem" else if s =? 2 then "network"
  else if s =? 3 then "memory" else if s =? 4 then "ipc" else if s =? 5 then "signal"
  else if s =? 6 then "device" else if s =? 7 then "security" else "other".

(** Walking a map with [bpf_map_get_next_key] from key 0: the kernel goes through
    its keys in some order, and starts after the given key if the map has it. *)
Fixpoint after_key (k : Z) (order : list Z) : option (list Z) :=
  match order with
  | [] => None
  | x :: rest => if x =? k then Some rest else after_key k rest
  end.
Definition walk (order : list Z) : list Z := default order (after_key 0 order).

(** The numbers of the bound entries that the walk sees. *)
Definition surface_nrs (policy : gmap Z Z) (order : list Z) : list Z :=
  omap (fun k => let val := default 0 (policy !! k) in
                 if Z.land val POLICY_FLAG_CHECK_NR =? 0 then None else Some (u32 val)) (walk order).

(** [print_attack_surface]: the count per subsystem and the total. *)
Definition surface_counts (policy : gmap Z Z) (order : list Z) : list nat * nat :=
  let nrs := surface_nrs policy order in
  ((fun s => length (List.filter (fun nr => nr_to_subsystem nr =? Z.of_nat s) nrs)) <$> seq 0 9, length nrs).

(** ** The learned policy *)

(** One line per recorded site: offset, number and module. *)
Definition learned_line (key val : Z) : string :=
  "0x" +:+ fmt_x key +:+ " " +:+ fmt_u (u32 val) +:+ " " +:+ fmt_u (u32 (Z.shiftr val 32)) +:+ String newline EmptyString.

Definition learned_lines (learned : gmap Z Z) (order : list Z) : list string :=
  omap (fun k => learned_line k <$> learned !! k) (walk order).
