(* ===== verification/LoaderCliProofs.v ===== *)
(** * Command line and reports of the loader: theorems *)

From S2P Require Import Prelude CStrings KvmiSetup Enforcer LoaderPolicy LoaderCli.
From stdpp Require Import prelude gmap strings list.
From Stdlib Require Import ZArith Lia Ascii.
#[local] Open Scope string_scope.
#[local] Open Scope list_scope.
#[local] Open Scope Z_scope.

(** ** Options *)

(** What the options agree on at any point of the command line. *)
Record coherent (o : options) : Prop := {
  co_fexit : o_fexit o = true -> o_audit o = true;
  co_mode : o_enforce o ∈ [ENFORCE_KILL; ENFORCE_PERMISSIVE; ENFORCE_TERM];
  co_permissive : o_enforce o = ENFORCE_PERMISSIVE -> o_audit o = true;
  co_learn : o_learn o = true -> o_audit o = true;
}.

(** The options that leave the mode at killing the process. *)
Definition keeps_mode (a : string) : bool :=
  negb (existsb (streq a) ["--permissive"; "--enforce=permissive"; "--enforce=term"; "--learn"]).

(** [option_cases a] goes through the branches of [apply_option a]. *)
Ltac option_cases a :=
  repeat match goal with
  | H : context [if streq a ?x then _ else _] |- _ => let E := fresh "E" in destruct (streq a x) eqn:E
  | H : context [if strneq 9 a ?x then _ else _] |- _ => let E := fresh "E" in destruct (strneq 9 a x) eqn:E
  end.

Lemma apply_option_step a o o' :
  apply_option a o = Some o' ->
  (coherent o -> coherent o') /\ (keeps_mode a = true -> o_enforce o = ENFORCE_KILL -> o_enforce o' = ENFORCE_KILL).
Proof.
  assert (keeps_mode a = true -> streq a "--permissive" = false /\ streq a "--enforce=permissive" = false /\
    streq a "--enforce=term" = false /\ streq a "--learn" = false) as Hkeep.
  { unfold keeps_mode. cbn [existsb]. rewrite negb_true_iff, !orb_false_iff. tauto. }
  destruct o as [au fe en wa cg le sh sy su tp js sl]. unfold apply_option. intros H. option_cases a; try discriminate H.
  all: injection H as <-.
  all: split; [intros [H1 H2 H3 H4]; cbn in *; split; cbn; auto; set_solver|].
  all: cbn; intros Hk Hm; try done; destruct (Hkeep Hk) as (K1 & K2 & K3 & K4); congruence.
Qed.

(** Whether an argument is an option does not depend on the options before it. *)
Lemma apply_option_some a o1 o2 : is_Some (apply_option a o1) -> is_Some (apply_option a o2).
Proof.
  destruct o1, o2. unfold apply_option. intros H. option_cases a; try done; by eexists.
Qed.

Lemma parse_args_run args : forall o0 o binary rest,
  parse_args args o0 = CliRun o binary rest ->
  (coherent o0 -> coherent o) /\
  exists flags, args = flags ++ binary :: rest /\ Forall (fun a => is_Some (apply_option a default_options)) flags /\
    apply_option binary default_options = None /\
    (forallb keeps_mode flags = true -> o_enforce o0 = ENFORCE_KILL -> o_enforce o = ENFORCE_KILL).
Proof.
  induction args as [|a args IH]; intros o0 o binary rest; cbn [parse_args]; [done|].
  destruct (_ || _); [done|]. destruct (_ || _); [done|]. destruct (apply_option a o0) as [o1|] eqn:Ea.
  - intros H. destruct (IH _ _ _ _ H) as (H1 & flags & -> & H2 & H3 & H4). destruct (apply_option_step _ _ _ Ea) as [S1 S2].
    split; [auto|]. exists (a :: flags). split_and!; [done| |done|].
    + constructor; [|done]. by apply (apply_option_some a o0); rewrite Ea.
    + cbn [forallb]. intros [K1 K2]%andb_prop Hm. auto.
  - intros [= <- <- <-]. split; [done|]. exists []. split_and!; try done.
    destruct (apply_option a default_options) as [o1|] eqn:E; [|done].
    destruct (apply_option_some a default_options o0) as [o2 Ho2]; [by rewrite E|]. congruence.
Qed.

(** C39. The configuration of the enforcer follows from the options: when the loader
    starts a binary, the arguments before it are all options; audit events are on
    whenever return values are recorded, violations are only reported or a profile is
    learned; the mode is one of the three; and it is to kill the process unless an
    option asked for another. *)
Theorem options_consistent args o binary rest :
  parse_args args default_options = CliRun o binary rest ->
  let cfg := config_of o in
  (fexit_mode cfg <> 0 \/ enforce_mode cfg = ENFORCE_PERMISSIVE \/ learn_mode cfg <> 0 -> audit_mode cfg <> 0) /\
  enforce_mode cfg ∈ [ENFORCE_KILL; ENFORCE_PERMISSIVE; ENFORCE_TERM] /\
  exists flags, args = flags ++ binary :: rest /\ Forall (fun a => is_Some (apply_option a default_options)) flags /\
    (forallb keeps_mode flags = true -> enforce_mode cfg = ENFORCE_KILL).
Proof.
  intros H cfg. destruct (parse_args_run _ _ _ _ _ H) as (Hc & flags & H1 & H2 & _ & H4).
  destruct Hc as [C1 C2 C3 C4]; [by split; cbn; set_solver|].
  unfold cfg, config_of, Z_of_flag. cbn [fexit_mode enforce_mode learn_mode audit_mode]. split_and!; [|done|].
  - intros [Hf|[Hf|Hf]].
    + destruct (o_fexit o); [|done]. by rewrite C1.
    + by rewrite C3.
    + destruct (o_learn o); [|done]. by rewrite C4.
  - exists flags. split_and!; [done|done|]. intros Hk. by apply H4.
Qed.

Lemma options_consistent_witness :
  audit_mode (config_of (Options true true ENFORCE_TERM false EmptyString false false false false false false false)) <> 0.
Proof.
  apply (options_consistent ["--fexit"; "--enforce=term"; "./victim"; "-v"]
    (Options true true ENFORCE_TERM false EmptyString false false false false false false false) "./victim" ["-v"]).
  - reflexivity.
  - left. discriminate.
Defined.

(** ** The attack surface *)

Lemma nr_to_subsystem_range nr : 0 <= nr_to_subsystem nr <= SUBSYS_OTHER.
Proof. unfold nr_to_subsystem, subsystem_table. cbn [subsystem_from]. unfold SUBSYS_OTHER. repeat case_match; lia. Qed.

(** A report over keys that do not include 0 covers the bound entries of the map. *)
Lemma surface_covers policy order :
  order ≡ₚ (map_to_list policy).*1 -> policy !! 0 = None ->
  surface_nrs policy order ≡ₚ
  omap (fun kv => if Z.land kv.2 POLICY_FLAG_CHECK_NR =? 0 then None else Some (u32 kv.2)) (map_to_list policy).
Proof.
  intros Ho H0. assert (after_key 0 order = None) as Hw.
  { assert (0 ∉ order) as Hn.
    { rewrite Ho. intros (kv & Hk & Hin)%list_elem_of_fmap. destruct kv as [k v]. cbn in Hk. subst k.
      apply elem_of_map_to_list in Hin. congruence. }
    clear Ho. induction order as [|x order IH]; [done|]. cbn [after_key].
    apply not_elem_of_cons in Hn as [Hx Hn]. rewrite (proj2 (Z.eqb_neq x 0)) by done. by apply IH. }
  unfold surface_nrs, walk. rewrite Hw. cbn [default from_option]. rewrite Ho.
  assert (forall l, (forall kv, kv ∈ l -> policy !! kv.1 = Some kv.2) ->
    omap (fun k => if Z.land (default 0 (policy !! k)) POLICY_FLAG_CHECK_NR =? 0 then None else Some (u32 (default 0 (policy !! k)))) l.*1
    = omap (fun kv => if Z.land kv.2 POLICY_FLAG_CHECK_NR =? 0 then None else Some (u32 kv.2)) l) as Hl.
  { intros l. induction l as [|[k v] l IH]; intros Hall; [done|]. cbn.
    specialize (Hall (k, v) ltac:(by left)) as Hkv. cbn in Hkv. rewrite Hkv. cbn. by rewrite IH by (intros; apply Hall; by right). }
  unfold default, id in *. rewrite Hl; [done|]. intros [k v] Hin. by apply elem_of_map_to_list in Hin.
Qed.

(** With an entry at offset 0 the walk starts after it. *)
Example surface_misses_entry :
  (surface_counts {[ 0 := Z.lor POLICY_FLAG_CHECK_NR 1; 16 := Z.lor POLICY_FLAG_CHECK_NR 2 ]} [16; 0]).2 = 0%nat.
Proof. vm_compute. reflexivity. Qed.
