(* ===== verification/LoaderRun.v ===== *)
(** * A run of the loader (loader.c)

    [main] as a whole: options, signature, policy, BPF object, start of the
    program, wait for libc, installation and supervision. *)

From S2P Require Import Prelude CStrings KvmiSetup Enforcer LoaderPolicy LoaderElf LoaderGraph LoaderTrust LoaderInstall LoaderMain LoaderCli.
From stdpp Require Import prelude gmap strings list.
From Stdlib Require Import ZArith Lia Ascii.
#[local] Open Scope string_scope.
#[local] Open Scope list_scope.
#[local] Open Scope Z_scope.

Section run.
Context `{C : Crypto} (elf_at : string -> option elf_file) (map_create : string -> bool).
Context (realpath : string -> option string).

(** What the system does during a run.  The binary is read from its path twice,
    for the signature and for the policy.  [rw_policy] is [None] when the second
    open fails; a file that is no ELF file then gives an empty policy, as one
    without sections does. *)
Record run_world := RunWorld {
  rw_signed : option elf_file;
  rw_policy : option elf_file;
  rw_keys : key_source;
  rw_revocations : revocations;
  rw_skel_opens : bool;
  rw_skel_loads : bool;
  rw_skel_attaches : bool;
  rw_cgroup_ino : option Z;
  rw_ringbuf : bool;
  rw_child : option Z;
  rw_trapped : bool;
  rw_maps_at : nat -> option string;
  rw_exited : nat -> bool;
  rw_turns : list turn;
}.

(** After the program is released: with the ring buffer the loop of turns, else a
    plain wait. *)
Definition supervise_child (o : options) (w : run_world) (binary : string) (nimports : nat) (next : Z) : M loader unit :=
  if o_audit o && rw_ringbuf w then
    _ ← supervise elf_at map_create (Freed nimports) (basename binary) (o_watch_dlopen o) (rw_turns w) 0 next;
    mret tt
  else mret tt.

(** The exit status; the status after the program was started is 0. *)
Definition loader_run (args : list string) (w : run_world) : M loader Z :=
  match parse_args args default_options with
  | CliHelp | CliVersion => mret 0
  | CliNoBinary => mret 1
  | CliRun o binary _ =>
      match verify_signature (rw_signed w) (o_use_tpm o) (rw_keys w) (rw_revocations w) with
      | Refused | Exited => mret 1
      | Done _ =>
          match rw_policy w with
          | None => mret 1
          | Some e =>
              if negb (rw_skel_opens w && rw_skel_loads w && rw_skel_attaches w) then mret 1
              else
                _ ← (if streq (o_cgroup_path o) EmptyString then mret tt else populate_cgroup (rw_cgroup_ino w));
                match rw_child w with
                | None => mret 1
                | Some child =>
                    if negb (rw_trapped w) then mret 1
                    else
                      r ← of_option (wait_libc (S PTRACE_STEP_LIMIT) (rw_maps_at w) (rw_exited w) 0);
                      result ← install_policy elf_at map_create realpath binary e child r.1 (rw_maps_at w r.2)
                                 (o_surface o) (o_system_wide o);
                      match result with
                      | InstallReady next =>
                          imports ← of_option (import_names (Some e));
                          _ ← supervise_child o w binary (length imports) next;
                          mret 0
                      | InstallSurface | InstallFatal => mret 0
                      end
                end
          end
      end
  end.
End run.

Arguments RunWorld {C}.
