(* ===== verification/LoaderRunProofs.v ===== *)
(** * A run of the loader: theorems

    What the installation leaves in the maps of the enforcer, and that nothing is
    installed for a binary that is not verified. *)

From S2P Require Import Prelude CStrings KvmiSetup Enforcer EnforcerProofs LoaderPolicy EnforcerClaims LoaderElf LoaderGraph LoaderTrust LoaderTrustProofs LoaderInstall LoaderMain LoaderInstallProofs LoaderWatchProofs LoaderClaims LoaderCli LoaderRun.
From stdpp Require Import prelude gmap strings list.
From Stdlib Require Import ZArith Lia Ascii.
#[local] Open Scope string_scope.
#[local] Open Scope list_scope.
#[local] Open Scope Z_scope.

(** ** Steps of the installation *)

(** The mappings of a program, as the kernel prints them: none at address 0, the start
    before the end, and those of the dynamic linker parse. *)
Record maps_user (maps : option string) : Prop := {
  mu_ok : maps_ok maps;
  mu_start : forall line start end_, line ∈ maps_lines 511 maps -> scan_range line = Some (start, end_) ->
               0 < start < end_;
  mu_ld : forall line, line ∈ maps_lines 511 maps -> names_ld line = true -> is_Some (scan_range line);
}.

(** Policies, watch list and the rest are the same; only address ranges may differ. *)
Definition same_policies (st st' : loader) : Prop :=
  policies st' = policies st /\ same_rest (bpf st) (bpf st') /\ g_watched_libs st' = g_watched_libs st.

(** The lines of a module. *)
Definition module_line maps (name line : string) : Prop :=
  line ∈ maps_lines 511 maps /\ contains line name = true.

(** The base of a module: the lowest start of its lines, or the given one if it has none. *)
Definition module_base maps (name : string) (given base : Z) : Prop :=
  (exists line end_, module_line maps name line /\ scan_range line = Some (base, end_)) /\
  (forall line start end_, module_line maps name line -> scan_range line = Some (start, end_) -> base <= start) \/
  (forall line, module_line maps name line -> scan_range line = None) /\ base = given.

Lemma range_lowest name lines acc :
  let r := (fold_left (extend_range name) lines acc).1 in
  r <= acc.1 /\
  (forall line s e, line ∈ lines -> contains line name = true -> scan_range line = Some (s, e) -> r <= s) /\
  (r = acc.1 \/ exists line e, line ∈ lines /\ contains line name = true /\ scan_range line = Some (r, e)).
Proof.
  revert acc. induction lines as [|l lines IH]; intros acc; cbn [fold_left].
  { split_and!; [lia|by intros ??? ?%not_elem_of_nil|by left]. }
  destruct (IH (extend_range name acc l)) as (I1 & I2 & I3). clear IH.
  set (r := (fold_left _ lines _).1) in *. cbv zeta. unfold extend_range in I1, I3.
  destruct (contains l name) eqn:Ec; cbn [negb] in I1, I3; cycle 1.
  { split_and!; [done|intros ??? [->|?]%elem_of_cons; [congruence|eauto]|].
    destruct I3 as [?|(k & e & ? & ? & ?)]; [by left|right]. exists k, e. split_and!; [by right|done..]. }
  destruct (scan_range l) as [[s e]|] eqn:Es; cbn [fst] in I1, I3; cycle 1.
  { split_and!; [done|intros ??? [->|?]%elem_of_cons; [congruence|eauto]|].
    destruct I3 as [?|(k & e & ? & ? & ?)]; [by left|right]. exists k, e. split_and!; [by right|done..]. }
  split_and!.
  - destruct (s <? acc.1) eqn:E; boolify; lia.
  - intros k x y [->|Hk]%elem_of_cons Hc Hx; [|by eapply I2]. rewrite Es in Hx. injection Hx as <- <-.
    destruct (s <? acc.1) eqn:E; boolify; lia.
  - destruct I3 as [Hr|(k & y & ? & ? & ?)]; [|right; exists k, y; split_and!; [by right|done..]].
    destruct (s <? acc.1); [right|by left]. exists l, e. rewrite Hr. split_and!; [by left|done..].
Qed.

Lemma populate_base maps name id given t cnt base t' :
  maps_user maps -> populate_vma_for_module maps name id given t = Some (cnt, base, t') ->
  module_base maps name given base.
Proof.
  intros [Hok Hs _] Hp. unfold populate_vma_for_module in Hp. destruct maps as [text|].
  2:{ injection Hp as _ <- _. right. split; [|done]. by intros line [?%not_elem_of_nil _]. }
  pose proof (range_lowest name (maps_lines 511 (Some text)) (ULONG_MAX, 0)) as (_ & H2 & H3).
  change (fold_left _ _ _) with (module_range text name) in H2, H3.
  destruct (module_range text name) as [lo hi]. cbn [fst] in *.
  destruct (lo =? ULONG_MAX) eqn:El; boolify.
  - injection Hp as _ <- _. right. split; [|done]. intros line [Hl Hc].
    destruct (scan_range line) as [[s e]|] eqn:Es; [|done]. pose proof (H2 _ _ _ Hl Hc Es).
    pose proof (Hs _ _ _ Hl Es). destruct (Hok _ _ _ Hl Es). unfold ULONG_MAX, VMA_BLOCK_SIZE in *. lia.
  - destruct (populate_blocks _ _ _ _ _ _) as [[? ?]|]; [|done]. injection Hp as _ <- _. left.
    destruct H3 as [?|(line & e & ? & ? & ?)]; [done|]. split; [by exists line, e|]. intros k s x []. by apply H2.
Qed.

Lemma populate_base_positive maps name id given t cnt base t' :
  maps_user maps -> populate_vma_for_module maps name id given t = Some (cnt, base, t') -> 0 < given -> 0 < base.
Proof.
  intros Hm Hp Hg. destruct (populate_base _ _ _ _ _ _ _ _ Hm Hp) as [[(line & e & [Hl _] & Hs) _]|[_ ->]]; [|done].
  by destruct (mu_start _ Hm _ _ _ Hl Hs).
Qed.

Lemma populate_vma_step maps name id base st :
  maps_user maps ->
  wp (populate_vma maps name id base) st (fun b st' => same_policies st st' /\
    exists cnt, populate_vma_for_module maps name id base (vma_map (bpf st)) = Some (cnt, b, vma_map (bpf st'))).
Proof.
  intros [Hm _ _]. unfold populate_vma. do 2 wp_step. wp_step.
  destruct (populate_vma_total maps name id base (vma_map (bpf st)) Hm) as [[[cnt b] t'] Hp].
  rewrite Hp. eexists _, _. split; [reflexivity|]. do 3 wp_step. split; [done|by exists cnt].
Qed.

Lemma ld_range_total lines acc :
  (forall line start end_, line ∈ lines -> scan_range line = Some (start, end_) ->
    is_u64 start /\ 0 <= end_ <= 2 ^ 64 - VMA_BLOCK_SIZE) ->
  (forall line, line ∈ lines -> names_ld line = true -> is_Some (scan_range line)) ->
  is_u64 acc.1 -> 0 <= acc.2 <= 2 ^ 64 - VMA_BLOCK_SIZE ->
  exists r, ld_range lines acc = Some r /\ is_u64 r.1 /\ 0 <= r.2 <= 2 ^ 64 - VMA_BLOCK_SIZE.
Proof.
  revert acc. induction lines as [|l lines IH]; intros acc Hb Hp H1 H2; cbn [ld_range]; [by exists acc|].
  assert (forall acc, is_u64 acc.1 -> 0 <= acc.2 <= 2 ^ 64 - VMA_BLOCK_SIZE ->
    exists r, ld_range lines acc = Some r /\ is_u64 r.1 /\ 0 <= r.2 <= 2 ^ 64 - VMA_BLOCK_SIZE) as Hrec.
  { intros acc'. apply IH; [intros; eapply Hb; [by right|done]|intros; apply Hp; [by right|done]]. }
  destruct (names_ld l) eqn:El; cbn [negb]; [|by apply Hrec].
  destruct (Hp l ltac:(by left) El) as [[s e] Hs]. rewrite Hs. destruct (Hb l s e ltac:(by left) Hs).
  apply Hrec; cbn [fst snd]; case_match; done.
Qed.

(** The blocks of the dynamic linker, which belong to libc. *)
Definition ld_blocks (maps : option string) (libc_base : Z) (t : list trie_entry) : option (list trie_entry) :=
  match ld_range (maps_lines 511 maps) (ULONG_MAX, 0) with
  | None => None
  | Some (lo, hi) =>
      if lo =? ULONG_MAX then Some t
      else snd <$> populate_blocks (block_fuel lo hi) (block_start lo) hi (VmaValue MODULE_LIBC libc_base) t 0
  end.

Lemma populate_ld_step maps libc_base st :
  maps_user maps -> wp (populate_ld maps libc_base) st (fun _ st' => same_policies st st' /\
    ld_blocks maps libc_base (vma_map (bpf st)) = Some (vma_map (bpf st'))).
Proof.
  intros [Hm _ Hp]. unfold populate_ld, ld_blocks. wp_step.
  destruct (ld_range_total (maps_lines 511 maps) (ULONG_MAX, 0)) as ([lo hi] & Hr & H1 & H2); [exact Hm|exact Hp| | |].
  { cbn. unfold ULONG_MAX. ulia. } { cbn. unfold VMA_BLOCK_SIZE. lia. }
  rewrite Hr. eexists _, _. split; [reflexivity|]. cbn [fst snd] in *. destruct (lo =? ULONG_MAX); [by wp_step|].
  do 3 wp_step. pose proof (block_start_eq lo) as Hb. unfold VMA_BLOCK_SIZE in *.
  destruct (populate_blocks_total (block_fuel lo hi) (block_start lo) hi (VmaValue MODULE_LIBC libc_base) (vma_map (bpf st)) 0)
    as [[c t'] Hpb].
  - rewrite Hb. ulia.
  - unfold VMA_BLOCK_SIZE. lia.
  - unfold block_fuel, VMA_BLOCK_SIZE. rewrite Hb. lia.
  - rewrite Hpb. eexists _, _. split; [reflexivity|]. by wp_step.
Qed.

(** ** The libraries of a memory map *)

(** Each library that a line names, once; a list of 32 may have cut off the rest. *)
Record libraries (bin_name : string) (maps : option string) (libs : list string) : Prop := {
  lb_nodup : NoDup libs;
  lb_count : (length libs <= MAX_SEEN_LIBS)%nat;
  lb_named : forall path, path ∈ libs ->
    exists line, line ∈ maps_lines 511 maps /\ library_of bin_name data_file line = Some path;
  lb_all : (length libs < MAX_SEEN_LIBS)%nat -> forall line path,
    line ∈ maps_lines 511 maps -> library_of bin_name data_file line = Some path -> path ∈ libs;
}.

Lemma discover_prefix bin_name lines seen : seen `prefix_of` discover_libs bin_name lines seen.
Proof.
  revert seen. induction lines as [|line lines IH]; intros seen; cbn [discover_libs]; [done|].
  destruct (_ <=? _)%nat; [done|]. destruct (library_of _ _ _); [|done]. destruct (existsb _ _); [done|].
  etransitivity; [|apply IH]. by eexists.
Qed.

Lemma discover_count bin_name lines seen :
  (length seen <= MAX_SEEN_LIBS)%nat -> (length (discover_libs bin_name lines seen) <= MAX_SEEN_LIBS)%nat.
Proof.
  revert seen. induction lines as [|line lines IH]; intros seen Hs; cbn [discover_libs]; [done|].
  destruct (_ <=? _)%nat eqn:E; [done|]. destruct (library_of _ _ _); [|by apply IH].
  destruct (existsb _ _); [by apply IH|]. apply IH. rewrite length_app. cbn. apply Nat.leb_gt in E. lia.
Qed.

Lemma discover_members bin_name maps lines seen :
  lines ⊆ maps_lines 511 maps ->
  let libs := discover_libs bin_name lines seen in
  (forall path, path ∈ libs -> path ∈ seen \/
     exists line, line ∈ maps_lines 511 maps /\ library_of bin_name data_file line = Some path) /\
  ((length libs < MAX_SEEN_LIBS)%nat -> forall line path,
     line ∈ lines -> library_of bin_name data_file line = Some path -> path ∈ libs).
Proof.
  revert seen. induction lines as [|line lines IH]; intros seen Hsub; cbn [discover_libs].
  { split; [by left|]. by intros _ ?? ?%not_elem_of_nil. }
  assert (lines ⊆ maps_lines 511 maps) as Hsub' by set_solver.
  destruct (MAX_SEEN_LIBS <=? length seen)%nat eqn:E.
  { cbv zeta. split; [by left|]. apply Nat.leb_le in E. lia. }
  assert (forall seen1, (forall p, library_of bin_name data_file line = Some p -> p ∈ seen1) ->
    (length (discover_libs bin_name lines seen1) < MAX_SEEN_LIBS)%nat -> forall l path,
    l ∈ line :: lines -> library_of bin_name data_file l = Some path -> path ∈ discover_libs bin_name lines seen1) as Hcons.
  { intros seen1 Hin Hlen l path [->|Hl]%elem_of_cons Hp; [|by eapply (proj2 (IH seen1 Hsub'))].
    destruct (discover_prefix bin_name lines seen1) as [k ->]. apply elem_of_app. left. auto. }
  destruct (library_of bin_name data_file line) as [path|] eqn:El; [|split; [apply IH; done|by apply Hcons]].
  assert (strncpyz 512 path = path) as Hf. { eapply (library_of_fits _ _ maps); [|done]. apply Hsub. by left. }
  destruct (existsb _ _) eqn:Ex.
  - split; [by apply IH|]. apply Hcons. intros q [= <-]. apply existsb_exists in Ex as (x & Hx & Hq).
    apply streq_eq in Hq as ->. by apply list_elem_of_In.
  - rewrite Hf. split; [|apply Hcons; intros q [= <-]; apply elem_of_app; right; by left].
    intros q Hq. destruct (proj1 (IH _ Hsub') q Hq) as [[?|Hx]%elem_of_app|?]; [by left| |by right].
    right. apply list_elem_of_singleton in Hx as ->. exists line. split; [|done]. apply Hsub. by left.
Qed.

Lemma discover_libraries bin_name maps : libraries bin_name maps (discover_libs bin_name (maps_lines 511 maps) []).
Proof.
  destruct (discover_members bin_name maps (maps_lines 511 maps) []) as [H1 H2]; [done|]. split.
  - eapply discover_libs_ok; [done|constructor|done].
  - apply discover_count. cbn. lia.
  - intros path Hp. destruct (H1 path Hp) as [?%not_elem_of_nil|?]; done.
  - done.
Qed.

(** Their address ranges, in order. *)
Fixpoint lib_ranges (maps : option string) (libs : list string) (id : Z) (t : list trie_entry)
  : option (list trie_entry) :=
  match libs with
  | [] => Some t
  | path :: rest =>
      match populate_vma_for_module maps (basename path) id 0 t with
      | Some (_, t') => lib_ranges maps rest (id + 1) t'
      | None => None
      end
  end.

Section install.
Context (elf_at : string -> option elf_file) (map_create : string -> bool) (realpath : string -> option string).
Hypothesis Hcreate : forall name, map_create name = true.

(** The linker's file, if the linker is mapped. *)
Definition ld_file (maps : option string) : option string :=
  if get_ld_base maps =? 0 then None else find_module_path maps "ld-linux" 512.

(** The policy of libc with the linker's sites, as the loader computes it. *)
Definition libc_map (maps : option string) (libc_base : Z) (p : gmap Z Z) : gmap Z Z :=
  match ld_file maps with
  | None => p
  | Some ld_path => ld_policy (elf_at ld_path) (get_ld_base maps) libc_base p
  end.

Lemma install_main_step entries base st :
  wp (install_main map_create entries base) st (fun ok st' => ok = true /\
    policies st' = <[MODULE_MAIN := populate_main_policy entries base]> (policies st) /\
    same_rest (bpf st) (bpf st') /\ g_watched_libs st' = g_watched_libs st /\ vma_map (bpf st') = vma_map (bpf st)).
Proof.
  unfold install_main. rewrite Hcreate. cbn [negb]. do 2 wp_step.
  unfold registry_update. change (MODULE_MAIN <? REGISTRY_SIZE) with true. unfold put_policy. cbv iota. do 5 wp_step.
  split_and!; [done| |by split|done|done]. unfold policies. cbn. by rewrite insert_insert_eq.
Qed.

Lemma install_libc_step maps libc_base imports path p st :
  maps_user maps -> find_libc_path maps 512 = Some path -> libc_policy (elf_at path) imports = Some p ->
  wp (install_libc elf_at map_create maps libc_base imports) st (fun ok st' => ok = true /\
    policies st' = <[MODULE_LIBC := libc_map maps libc_base p]> (policies st) /\
    same_rest (bpf st) (bpf st') /\ g_watched_libs st' = g_watched_libs st /\
    (if ld_file maps then ld_blocks maps libc_base else Some) (vma_map (bpf st)) = Some (vma_map (bpf st'))).
Proof.
  intros Hm Hpath Hp. unfold install_libc, libc_map. rewrite Hcreate, Hpath. cbn [negb]. do 2 wp_step.
  unfold registry_update. change (MODULE_LIBC <? REGISTRY_SIZE) with true. cbv iota. do 3 wp_step.
  rewrite Hp. eexists _, _. split; [reflexivity|]. cbv zeta. fold (ld_file maps).
  assert (forall (s : loader) m, policies (on_bpf (fun e => set_registry (<[MODULE_LIBC:=m]> (policy_registry e)) e)
    (on_bpf (fun _ => set_registry (<[MODULE_LIBC:=∅]> (policy_registry (bpf s))) (bpf s)) s)) =
    <[MODULE_LIBC:=m]> (policies s)) as Hreg.
  { intros s m. unfold policies. cbn. by rewrite insert_insert_eq. }
  destruct (ld_file maps) as [ld|].
  - unfold put_policy. wp_step. do 2 wp_step. eapply wp_mono; [by apply populate_ld_step|].
    intros [] st' ((H1 & H2 & H3) & H4). wp_step. split_and!; [done|by rewrite H1, Hreg| |by rewrite H3|done].
    etransitivity; [|exact H2]. by split.
  - unfold put_policy. do 3 wp_step. split_and!; [done|by rewrite Hreg|by split|done|done].
Qed.

Lemma install_library_step names maps prefix path id st :
  maps_user maps -> id < 64 -> strncpyz 512 path = path -> (length (g_watched_libs st) < MAX_WATCHED_LIBS)%nat ->
  wp (install_library elf_at map_create (Live names) maps prefix path id) st (fun ok st' => ok = true /\
    (exists sites, library_sites elf_at (Live names) path = Some sites /\
       policies st' = <[id := wildcard_policy sites]> (policies st)) /\
    (exists r, populate_vma_for_module maps (basename path) id 0 (vma_map (bpf st)) = Some (r, vma_map (bpf st'))) /\
    same_rest (bpf st) (bpf st') /\ g_watched_libs st' = g_watched_libs st ++ [WatchedLib path id]).
Proof.
  intros Hm Hid Hfit Hroom. unfold install_library. rewrite Hcreate. cbn [negb]. do 2 wp_step.
  unfold registry_update, REGISTRY_SIZE. rewrite (proj2 (Z.ltb_lt _ _)) by done. do 2 wp_step. wp_step.
  eapply wp_mono; [by apply populate_vma_step|]. intros b st1 ((H1 & H2 & H3) & cnt & Hp).
  destruct (library_sites_total elf_at (Live names) path I) as [sites Hs].
  wp_step. rewrite Hs. exists sites. eexists. split; [reflexivity|]. do 5 wp_step.
  unfold register_watched_lib. cbn [on_bpf g_watched_libs bpf lib_allow_map]. rewrite H3. cbn [on_bpf g_watched_libs].
  rewrite (proj2 (Nat.leb_gt _ _) Hroom), Hfit. cbn [g_watched_libs bpf]. split_and!; [done| |by exists (cnt, b)| |done].
  - exists sites. split; [done|]. unfold policies in *. cbn in *. by rewrite H1, insert_insert_eq.
  - etransitivity; [|etransitivity; [exact H2|]]; by split.
Qed.

(** All libraries: policies from [id] on, in the order of the list. *)
Lemma install_libs_step names maps libs id st :
  maps_user maps -> 3 <= id -> id + Z.of_nat (length libs) <= 64 -> Forall (fun p => strncpyz 512 p = p) libs ->
  Z.of_nat (length (g_watched_libs st)) = id - 3 ->
  wp (install_libs elf_at map_create (Live names) maps libs id) st (fun _ st' =>
    (forall i path, libs !! i = Some path -> exists sites, library_sites elf_at (Live names) path = Some sites /\
       policies st' !! (id + Z.of_nat i) = Some (wildcard_policy sites)) /\
    (forall k, k < id -> policies st' !! k = policies st !! k) /\
    lib_ranges maps libs id (vma_map (bpf st)) = Some (vma_map (bpf st')) /\
    same_rest (bpf st) (bpf st') /\ length (g_watched_libs st') = (length (g_watched_libs st) + length libs)%nat).
Proof.
  intros Hm. revert id st. induction libs as [|path libs IH]; intros id st H3 Hmax Hfit Hlen; cbn [install_libs lib_ranges].
  { wp_step. split_and!; [done|done|done|done|cbn; lia]. }
  apply Forall_cons in Hfit as [Hf Hfit]. cbn [length] in Hmax. rewrite (proj2 (Z.ltb_lt id 64)) by lia. cbn [negb].
  wp_step. eapply wp_mono; [apply install_library_step; [done|lia|done|unfold MAX_WATCHED_LIBS; lia]|].
  intros ok st1 (-> & (sites & S1 & S2) & ([cnt b] & V) & R & G). rewrite V.
  eapply wp_mono; [apply IH; [lia|lia|done|rewrite G, length_app; cbn; lia]|].
  intros n st2 (L & O & V2 & R2 & G2). split_and!; [|intros k Hk; rewrite O, S2, lookup_insert_ne by lia; done|done|by etransitivity|].
  - intros [|i] q Hq; cbn in Hq.
    + injection Hq as <-. exists sites. split; [done|]. rewrite Z.add_0_r, O, S2 by lia. apply lookup_insert_eq.
    + replace (id + Z.of_nat (S i)) with (id + 1 + Z.of_nat i) by lia. by apply L.
  - rewrite G2, G, length_app. cbn. lia.
Qed.

(** What a complete installation leaves in the maps. *)
Record installed (binary : string) (e : elf_file) (child libc_base : Z) (maps : option string) (system_wide : bool)
    (imports : list string) (p : gmap Z Z) (libc : Z) (libs : list string) (st st' : loader) : Prop := {
  in_main : policies st' !! MODULE_MAIN = Some (populate_main_policy (parse_policy e) (elf_load_base e));
  in_base : module_base maps "libc" libc_base libc;
  in_libc : policies st' !! MODULE_LIBC = Some (libc_map maps libc p);
  in_found : libraries (basename binary) maps libs;
  in_libs : forall i path, libs !! i = Some path ->
    exists sites, library_sites elf_at (Live imports) path = Some sites /\
      policies st' !! (MODULE_DYNAMIC_BASE + Z.of_nat i) = Some (wildcard_policy sites);
  in_ranges : exists r1 t1 c2 t2 t3,
    populate_vma_for_module maps (basename binary) MODULE_MAIN 0 (vma_map (bpf st)) = Some (r1, t1) /\
    populate_vma_for_module maps "libc" MODULE_LIBC libc_base t1 = Some (c2, libc, t2) /\
    (if ld_file maps then ld_blocks maps libc else Some) t2 = Some t3 /\
    lib_ranges maps libs MODULE_DYNAMIC_BASE t3 = Some (vma_map (bpf st'));
  in_child : target_pid_map (bpf st') !! child = Some 1;
  in_cfi : cfi_policy (bpf st') = install_cfi (Some e) (fst <$> parse_policy e) (elf_load_base e) (cfi_policy (bpf st));
  in_fallback : fallback_policy (bpf st') = if system_wide then fill_fallback (fallback_policy (bpf st)) else fallback_policy (bpf st);
  in_threads : thread_policy_map (bpf st') = thread_policy_map (bpf st);
}.

(** The part of the installation that writes policies and address ranges. *)
Record policies_written (binary : string) (e : elf_file) (libc_base : Z) (maps : option string) (imports : list string)
    (p : gmap Z Z) (libc : Z) (libs : list string) (st st' : loader) : Prop := {
  pw_main : policies st' !! MODULE_MAIN = Some (populate_main_policy (parse_policy e) (elf_load_base e));
  pw_base : module_base maps "libc" libc_base libc;
  pw_libc : policies st' !! MODULE_LIBC = Some (libc_map maps libc p);
  pw_libs : forall i path, libs !! i = Some path ->
    exists sites, library_sites elf_at (Live imports) path = Some sites /\
      policies st' !! (MODULE_DYNAMIC_BASE + Z.of_nat i) = Some (wildcard_policy sites);
  pw_ranges : exists r1 t1 c2 t2 t3,
    populate_vma_for_module maps (basename binary) MODULE_MAIN 0 (vma_map (bpf st)) = Some (r1, t1) /\
    populate_vma_for_module maps "libc" MODULE_LIBC libc_base t1 = Some (c2, libc, t2) /\
    (if ld_file maps then ld_blocks maps libc else Some) t2 = Some t3 /\
    lib_ranges maps libs MODULE_DYNAMIC_BASE t3 = Some (vma_map (bpf st'));
  pw_rest : same_rest (bpf st) (bpf st');
  pw_watched : length (g_watched_libs st') = length libs;
}.

(** The end of the installation, once these are written. *)
Lemma install_end binary e child libc_base maps system_wide imports p libc libs st s5 :
  policies_written binary e libc_base maps imports p libc libs st s5 -> libraries (basename binary) maps libs ->
  (size (target_pid_map (bpf st)) < TARGET_PID_MAP_SIZE)%nat ->
  wp (n ← gets (fun st => length (g_watched_libs st));
      _ ← match realpath binary with
          | Some p => modify (register_watched_lib p MODULE_MAIN)
          | None => mret tt
          end;
      _ ← modify (on_bpf (fun b => set_cfi (install_cfi (Some e) (fst <$> parse_policy e) (elf_load_base e) (cfi_policy b)) b));
      ok ← track_child child;
      if negb ok then mret InstallFatal
      else
        _ ← (if system_wide : bool then modify (on_bpf (fun b => set_fallback (fill_fallback (fallback_policy b)) b))
             else mret tt);
        mret (InstallReady (MODULE_DYNAMIC_BASE + Z.of_nat n))) s5 (fun r st' =>
    r = InstallReady (MODULE_DYNAMIC_BASE + Z.of_nat (length libs)) /\
    installed binary e child libc_base maps system_wide imports p libc libs st st').
Proof.
  intros [P1 P2 P3 P4 P5 [T1 T2 _ T4 _ T6 _ _] P7] Hlibs Hsz.
  do 2 wp_step. rewrite P7. set (s6 := match realpath binary with Some q => register_watched_lib q MODULE_MAIN s5 | None => s5 end).
  assert (bpf s6 = bpf s5) as B6. { subst s6. destruct (realpath binary); [|done]. unfold register_watched_lib. by destruct (_ <=? _)%nat. }
  wp_step. assert (wp (match realpath binary with Some q => modify (register_watched_lib q MODULE_MAIN) | None => mret tt end)
    s5 (fun _ s => s = s6)) as Hreg by (subst s6; destruct (realpath binary); by wp_step).
  clearbody s6. eapply wp_mono; [exact Hreg|]. intros [] s ->. do 3 wp_step. unfold track_child. do 2 wp_step.
  cbn [on_bpf bpf set_cfi target_pid_map]. rewrite B6, T1. unfold hash_update. rewrite (proj2 (Nat.ltb_lt _ _)) by done.
  assert ((match target_pid_map (bpf st) !! child with Some _ => Some (<[child:=1]> (target_pid_map (bpf st)))
    | None => Some (<[child:=1]> (target_pid_map (bpf st))) end) = Some (<[child:=1]> (target_pid_map (bpf st)))) as -> by by destruct (target_pid_map (bpf st) !! child).
  do 3 wp_step. cbn [negb]. cbv iota.
  assert (forall st', policies st' = policies s5 -> vma_map (bpf st') = vma_map (bpf s5) ->
    target_pid_map (bpf st') = <[child:=1]> (target_pid_map (bpf st)) ->
    cfi_policy (bpf st') = install_cfi (Some e) (fst <$> parse_policy e) (elf_load_base e) (cfi_policy (bpf s5)) ->
    fallback_policy (bpf st') = (if system_wide then fill_fallback (fallback_policy (bpf s5)) else fallback_policy (bpf s5)) ->
    thread_policy_map (bpf st') = thread_policy_map (bpf s5) ->
    installed binary e child libc_base maps system_wide imports p libc libs st st') as Hdone.
  { intros st' E1 E0 E2 E3 E4 E5. split; rewrite ?E0, ?E1; try done.
    - rewrite E2. apply lookup_insert_eq.
    - by rewrite E3, T2.
    - by rewrite E4, T6.
    - by rewrite E5, T4. }
  destruct system_wide; do 3 wp_step; (split; [reflexivity|]); apply Hdone; unfold policies;
    cbn [on_bpf bpf set_fallback set_targets set_cfi policy_registry vma_map target_pid_map cfi_policy fallback_policy
         thread_policy_map]; by rewrite ?B6.
Qed.

Lemma install_policy_ready binary e child libc_base maps system_wide imports libc_path p st :
  maps_user maps -> 0 < libc_base -> import_names (Some e) = Some imports ->
  find_libc_path maps 512 = Some libc_path -> libc_policy (elf_at libc_path) imports = Some p ->
  g_watched_libs st = [] -> (size (target_pid_map (bpf st)) < TARGET_PID_MAP_SIZE)%nat ->
  wp (install_policy elf_at map_create realpath binary e child libc_base maps false system_wide) st (fun r st' =>
    exists libc libs, r = InstallReady (MODULE_DYNAMIC_BASE + Z.of_nat (length libs)) /\
      installed binary e child libc_base maps system_wide imports p libc libs st st').
Proof.
  intros Hm Hb Hi Hpath Hp Hw Hsz. unfold install_policy. cbv zeta.
  wp_step. eapply wp_mono; [by apply populate_vma_step|]. intros b0 s1 ((P1 & R1 & W1) & c1 & V1).
  wp_step. rewrite (proj2 (Z.eqb_neq libc_base 0)) by lia. eapply wp_mono; [by apply populate_vma_step|].
  intros libc s2 ((P2 & R2 & W2) & c2 & V2). pose proof (populate_base_positive _ _ _ _ _ _ _ _ Hm V2 Hb) as Hl.
  wp_step. eapply wp_mono; [apply install_main_step|]. intros ok s3 (-> & P3 & R3 & W3 & V3). cbn [negb]. cbv iota.
  wp_step. rewrite Hi. eexists _, _. split; [reflexivity|].
  wp_step. rewrite (proj2 (Z.eqb_neq libc 0)) by lia. eapply wp_mono; [by eapply install_libc_step|].
  intros ok s4 (-> & P4 & R4 & W4 & V4). cbn [negb]. cbv iota. rewrite V3 in V4.
  set (libs := discover_libs (basename binary) (maps_lines 511 maps) []).
  pose proof (discover_libraries (basename binary) maps) as Hlibs. fold libs in Hlibs.
  destruct (discover_libs_ok (basename binary) maps (maps_lines 511 maps) []) as [_ Hfit]; [done|constructor|done|].
  fold libs in Hfit. pose proof (lb_count _ _ _ Hlibs) as Hcnt.
  wp_step. unfold discover_and_install. fold libs. wp_step.
  eapply wp_mono; [apply (install_libs_step imports); [done| | |done|]|].
  { unfold MODULE_DYNAMIC_BASE. lia. } { unfold MODULE_DYNAMIC_BASE, MAX_SEEN_LIBS in *. lia. }
  { rewrite W4, W3, W2, W1, Hw. done. }
  intros n s5 (L & O & V5 & R5 & G5). wp_step.
  assert (policies_written binary e libc_base maps imports p libc libs st s5) as Hpw.
  { split.
    - rewrite O, P4, lookup_insert_ne, P3 by done. apply lookup_insert_eq.
    - by eapply populate_base.
    - rewrite O, P4 by done. apply lookup_insert_eq.
    - exact L.
    - exists (c1, b0), (vma_map (bpf s1)), c2, (vma_map (bpf s2)), (vma_map (bpf s4)). by split_and!.
    - etransitivity; [exact R1|]. etransitivity; [exact R2|]. etransitivity; [exact R3|]. by etransitivity.
    - rewrite G5, W4, W3, W2, W1, Hw. done. }
  eapply wp_mono; [by eapply (install_end binary e child libc_base maps system_wide imports p libc libs st)|].
  intros r st' [-> H]. by exists libc, libs.
Qed.
End install.

(** ** Theorems *)

(** C29. Nothing is installed for a binary that is not verified: unless the command
    line names a binary, its signature verifies with a key that is not revoked, and
    the BPF object loads and attaches, the loader leaves all maps as they were, and
    when a binary was named the exit status is 1. *)
Theorem unverified_not_started `{C : Crypto} elf_at map_create realpath args w st :
  (forall o binary rest, parse_args args default_options = CliRun o binary rest ->
     verify_signature (rw_signed w) (o_use_tpm o) (rw_keys w) (rw_revocations w) = Done tt ->
     rw_skel_opens w && rw_skel_loads w && rw_skel_attaches w = false) ->
  exists status, loader_run elf_at map_create realpath args w st = Some (status, st) /\
    (status <> 1 -> parse_args args default_options = CliHelp \/ parse_args args default_options = CliVersion).
Proof.
  intros H. unfold loader_run. destruct (parse_args args default_options) as [| | |o binary rest] eqn:Ep.
  1-3: eexists; split; [reflexivity|]; auto; done.
  specialize (H o binary rest eq_refl). destruct (verify_signature _ _ _ _) as [[]| |] eqn:Ev.
  2-3: by eexists; split; [reflexivity|].
  destruct (rw_policy w); [|by eexists; split; [reflexivity|]]. rewrite H by done. by eexists; split; [reflexivity|].
Qed.

(** C2. A program that the loader has started is confined, by exactly these maps.  Let the
    kernel create every map, libc be mapped (with the loader's wait giving its address),
    the imports and libc's policy be readable, the map of monitored processes have room,
    and no surface report be asked for.  Then the installation ends ready, with
    - for the main binary the policy of its section;
    - for libc and the linker the policy of the call graph (or of the legacy tables), with
      libc based at the lowest address of the lines that name it;
    - for each library that the memory map names (all of them if fewer than 32, each once)
      a policy of its own over its call-graph sites, under consecutive identifiers from 3;
    - the address ranges of the binary, libc, linker and libraries, entered in that order;
    - the caller ranges, and the program monitored.
    From then on every hooked system call of the program, with enforcement on, learning
    off and no cgroup filter, goes through silently if these maps permit it and otherwise
    gets the program signalled. *)
Theorem installation_confines elf_at map_create realpath binary e child libc_base maps system_wide imports libc_path p st :
  (forall name, map_create name = true) -> maps_user maps -> 0 < libc_base ->
  import_names (Some e) = Some imports ->
  find_libc_path maps 512 = Some libc_path -> libc_policy (elf_at libc_path) imports = Some p ->
  g_watched_libs st = [] -> (size (target_pid_map (bpf st)) < TARGET_PID_MAP_SIZE)%nat ->
  exists libc libs st', install_policy elf_at map_create realpath binary e child libc_base maps false system_wide st
      = Some (InstallReady (3 + Z.of_nat (length libs)), st') /\
    installed elf_at binary e child libc_base maps system_wide imports p libc libs st st' /\
    forall cfg c nr, learn_mode cfg = 0 -> enforce_mode cfg <> ENFORCE_PERMISSIVE -> cgroup_filter cfg = 0 ->
      ctx_tgid c = child ->
      exists b, sentinel_check cfg c nr (bpf st') = Some (0, b) /\
        (permitted cfg (bpf st') c nr /\ signals b = signals (bpf st') \/
         ~ permitted cfg (bpf st') c nr /\ signals b = signals (bpf st') ++ [(child, deny_signal cfg)]).
Proof.
  intros Hc Hm Hb Hi Hpath Hp Hw Hsz.
  destruct (install_policy_ready elf_at map_create realpath Hc binary e child libc_base maps system_wide imports libc_path p st
    Hm Hb Hi Hpath Hp Hw Hsz) as (r & st' & Hr & libc & libs & -> & Hin).
  exists libc, libs, st'. split; [done|]. split; [done|]. intros cfg c nr Hl He Hg Hch.
  destruct (check_decides cfg He c nr (bpf st') Hl) as (x & b & Hx & -> & Hd).
  - split; [exists 1; rewrite Hch; apply Hin|]. unfold in_cgroup_scope. by rewrite Hg.
  - exists b. split; [done|]. rewrite <- Hch. destruct Hd as [[HP [_ H]]|[HP [_ H]]]; [by left|by right].
Qed.

(** ** Witnesses *)

(** A binary with one call site, and the files of the program. *)
Definition demo_binary : elf_file :=
  ElfFile [(PT_LOAD, 0)]
    [ElfSection (Some ".sentinel") SHT_PROGBITS 0 0 32 (Some (encode_section [PolicyEntry 0x500 0x480 2])) [];
     ElfSection (Some ".sentinel_imports") SHT_PROGBITS 0 0 6 (Some [119; 114; 105; 116; 101; 0]) []].

Definition run_files (path : string) : option elf_file :=
  if streq path "/lib/libc.so.6" || streq path "/lib/libz.so.1" then Some demo_libc else None.

Lemma demo_maps_user : maps_user (Some demo_maps).
Proof.
  split; [exact demo_maps_ok| |].
  - intros line start end_ Hl Hs. assert (forallb (fun l => match scan_range l with Some (s, e) => (0 <? s) && (s <? e) | None => true end)
      (maps_lines 511 (Some demo_maps)) = true) as H by (vm_compute; reflexivity).
    rewrite forallb_forall in H. specialize (H line (proj1 (list_elem_of_In _ _) Hl)). rewrite Hs in H. boolify. lia.
  - intros line Hl Hn. assert (forallb (fun l => negb (names_ld l)) (maps_lines 511 (Some demo_maps)) = true) as H
      by (vm_compute; reflexivity).
    rewrite forallb_forall in H. specialize (H line (proj1 (list_elem_of_In _ _) Hl)). by rewrite Hn in H.
Qed.

Lemma installation_confines_witness :
  exists next st', install_policy run_files (fun _ => true) (fun _ => None) "/opt/app" demo_binary 500 0x7f0000000000
      (Some demo_maps) false false fresh_loader = Some (InstallReady next, st') /\
    target_pid_map (bpf st') !! 500 = Some 1.
Proof.
  destruct (installation_confines run_files (fun _ => true) (fun _ => None) "/opt/app" demo_binary 500 0x7f0000000000
    (Some demo_maps) false ["write"] "/lib/libc.so.6" demo_libc_policy fresh_loader) as (libc & libs & st' & Hr & Hin & _).
  - reflexivity.
  - exact demo_maps_user.
  - lia.
  - vm_compute. reflexivity.
  - vm_compute. reflexivity.
  - vm_compute. reflexivity.
  - reflexivity.
  - vm_compute. lia.
  - exists (3 + Z.of_nat (length libs)), st'. split; [exact Hr|]. apply Hin.
Defined.

#[local] Existing Instance toy.

(** A run on a binary; [policy] is what the path holds when the policy is read. *)
Definition demo_world (signed policy : option elf_file) (revs : revocations) (turns : list turn) : run_world :=
  RunWorld signed policy demo_keys revs true true true None true (Some 500) true
    (fun _ => Some demo_maps) (fun _ => false) turns.

Definition no_revocations : revocations := Revocations None None 0.

(** The key of the binary is on the list. *)
Lemma unverified_not_started_witness :
  exists status, loader_run run_files (fun _ => true) (fun _ => None) ["./app"]
      (demo_world (Some (loader_binary [0x90; 0xc3] [5; 6])) (Some demo_binary)
         (Revocations (Some (hex_string (toy_digest [1]))) None 0) []) fresh_loader = Some (status, fresh_loader).
Proof.
  destruct (unverified_not_started run_files (fun _ => true) (fun _ => None) ["./app"]
    (demo_world (Some (loader_binary [0x90; 0xc3] [5; 6])) (Some demo_binary)
       (Revocations (Some (hex_string (toy_digest [1]))) None 0) []) fresh_loader) as (status & Hr & _).
  - intros o binary rest Hp Hv. vm_compute in Hp. injection Hp as <- <- <-. vm_compute in Hv. discriminate Hv.
  - exists status. exact Hr.
Defined.

(** ** Gaps *)

Definition main_policy_after (args : list string) (w : run_world) : option (gmap Z Z) :=
  match loader_run run_files (fun _ => true) (fun _ => None) args w fresh_loader with
  | Some (_, st) => policies st !! MODULE_MAIN
  | None => None
  end.

(** The policy is read again from the path: a file put there after the check
    supplies it. *)
Example policy_read_after_check :
  main_policy_after ["./app"] (demo_world (Some (loader_binary [0x90; 0xc3] [5; 6])) (Some demo_binary) no_revocations [])
  = Some {[ 0x500 := Z.lor POLICY_FLAG_CHECK_NR 1 ]}.
Proof. vm_compute. reflexivity. Qed.

(** Without audit mode neither the watch nor a reload happens. *)
Example watch_needs_audit :
  let turns := replicate 5 (Turn true (Some demo_binary) Running (Some demo_maps)) in
  let w := demo_world (Some (loader_binary [0x90; 0xc3] [5; 6])) (Some demo_libc) no_revocations turns in
  main_policy_after ["--watch-dlopen"; "./app"] w = Some ∅ /\
  main_policy_after ["--watch-dlopen"; "--audit"; "./app"] w = Some {[ 0x500 := Z.lor POLICY_FLAG_CHECK_NR 1 ]}.
Proof. vm_compute. split; reflexivity. Qed.

(** A fatal error after the start of the program ends with status 0. *)
Example fatal_error_exits_zero :
  fst <$> loader_run run_files (fun _ => false) (fun _ => None) ["./app"]
    (demo_world (Some (loader_binary [0x90; 0xc3] [5; 6])) (Some demo_binary) no_revocations []) fresh_loader = Some 0.
Proof. vm_compute. reflexivity. Qed.
