(* ===== verification/LoaderReport.v ===== *)
(** * Signals, reports and the end of a run (loader.c)

    The signal handlers, the text of the attack surface report, the file of a
    learned policy, and the cleanup. *)

From S2P Require Import Prelude CStrings KvmiSetup Enforcer LoaderPolicy LoaderCli.
From stdpp Require Import prelude gmap strings list.
From Stdlib Require Import ZArith Lia Ascii.
#[local] Open Scope string_scope.
#[local] Open Scope list_scope.
#[local] Open Scope Z_scope.

Definition SENTINEL_VERSION : string := "4.5.0".

(** ** Signals *)

Definition SIGHUP : Z := 1.
Definition SIGINT : Z := 2.

(** The globals that the handlers use. *)
Record globals := Globals { g_shutdown : bool; g_reload : bool; g_child : Z; g_skel : bool }.

Inductive handler_step :=
| KillChild (pid sig : Z)
| ReapChild (pid : Z)
| DestroySkel
| ExitNow (status : Z).

Definition signal_handler (sig : Z) (g : globals) : globals * list handler_step :=
  (Globals true (g_reload g) (g_child g) false,
   (if 0 <? g_child g then [KillChild (g_child g) SIGTERM; ReapChild (g_child g)] else []) ++
   (if g_skel g then [DestroySkel] else []) ++ [ExitNow (128 + sig)]).

Definition sighup_handler (g : globals) : globals * list handler_step :=
  (Globals (g_shutdown g) true (g_child g) (g_skel g), []).

(** [install_signal_handlers]: the handler of a signal; [None] is the default. *)
Definition handler_of (sig : Z) : option (globals -> globals * list handler_step) :=
  if (sig =? SIGINT) || (sig =? SIGTERM) then Some (signal_handler sig)
  else if sig =? SIGHUP then Some sighup_handler
  else None.

(** ** The attack surface report *)

(** [%.1f] of [n * 100.0 / 350.0]: no such quotient lies halfway between two tenths. *)
Definition surface_tenths (n : Z) : Z := (40 * n + 7) / 14.
Definition fmt_tenths (t : Z) : string := fmt_u (t / 10) +:+ "." +:+ fmt_u (t mod 10).

Definition surface_bar (s count : nat) : string :=
  "  " +:+ pad_right 14 (subsys_name (Z.of_nat s)) +:+ "  " +:+ pad_left 5 (fmt_u (Z.of_nat count)) +:+ "  " +:+
  repeat_char "#" (Nat.min count 40).

Definition report_rule : string := repeat_char "=" 57.

(** [print_attack_surface], line by line. *)
Definition surface_report (policy : gmap Z Z) (order : list Z) (n_entries : Z) (binary : string) : list string :=
  let '(counts, total) := surface_counts policy order in
  ["" : string; report_rule; "  Sentinel-CC Attack Surface Report — " +:+ binary; report_rule; "" : string;
   "  Total policy entries: " +:+ fmt_d n_entries; "  Entries with syscall NR: " +:+ fmt_u (Z.of_nat total);
   "  Total x86-64 syscalls: ~350"; "" : string;
   "  " +:+ pad_right 14 "Subsystem" +:+ "  Count  Exposure"; "  " +:+ pad_right 14 "----------" +:+ "  -----  --------"] ++
  omap (fun s => let n := default 0%nat (counts !! s) in if (0 <? n)%nat then Some (surface_bar s n) else None) (seq 0 9) ++
  ["" : string; "  Attack surface: " +:+ fmt_u (Z.of_nat total) +:+ "/350 NRs reachable (" +:+
    fmt_tenths (surface_tenths (Z.of_nat total)) +:+ "% of kernel)"; report_rule; "" : string].

(** ** The learned policy *)

Definition learned_path (binary : string) : string := strncpyz 512 (binary +:+ ".learned.policy").

Definition learned_header (binary : string) : list string :=
  ["# Sentinel-CC Learned Policy (v" +:+ SENTINEL_VERSION +:+ ")" +:+ String newline "";
   "# Binary: " +:+ binary +:+ String newline "";
   "# Format: offset syscall_nr module_id" +:+ String newline (String newline "")].

(** The file, and the number of entries that is reported. *)
Definition learned_file (binary : string) (learned : gmap Z Z) (order : list Z) : string * nat :=
  let lines := learned_lines learned order in
  (foldr String.append EmptyString (learned_header binary ++ lines), length lines).

(** ** The end of a run *)

Inductive end_step := WroteProfile (path text : string) (entries : nat) | ProfileFailed | CloseMap | DestroyedSkel | CloseLog.

(** After the wait: the profile of a learning run, when its file can be created, and
    the cleanup; the status is 0. *)
Definition loader_end (o : options) (binary : string) (can_create : bool) (skel : bool) (learned : gmap Z Z) (order : list Z)
  : list end_step * Z :=
  ((if o_learn o then
      if can_create then let '(text, n) := learned_file binary learned order in [WroteProfile (learned_path binary) text n]
      else [ProfileFailed]
    else []) ++
   [CloseMap] ++ (if skel then [DestroyedSkel] else []) ++ (if o_syslog o then [CloseLog] else []), 0).
