(* ===== verification/LearnProofs.v ===== *)
(** * The learned profile

    Learning composed: the enforcer's records of a run, and the file that the loader
    writes from them. *)

From S2P Require Import Prelude CStrings KvmiSetup Enforcer EnforcerProofs LoaderPolicy LoaderCli LoaderCliProofs LoaderReport.
From stdpp Require Import prelude gmap strings list.
From Stdlib Require Import ZArith Lia Ascii.
#[local] Open Scope Z_scope.

(** ** Records *)

(** The record of a call: its offset, with its module and number. *)
Definition record_of (e : enforcer) (call : hook_ctx * Z) : option (Z * Z) :=
  match user_rip call.1 with
  | None => None
  | Some rip =>
      match trie_lookup (vma_map e) (addr_key (site_of rip)) with
      | None => None
      | Some m => Some (offset_of rip m, Z.lor (u64 (Z.shiftl (module_id m) 32)) call.2)
      end
  end.

(** The first record of an offset stays. *)
Definition add_record (m : gmap Z Z) (r : Z * Z) : gmap Z Z :=
  match m !! r.1 with Some _ => m | None => <[r.1 := r.2]> m end.

Fixpoint first_record (k : Z) (rs : list (Z * Z)) : option Z :=
  match rs with
  | [] => None
  | (k', v) :: rest => if k =? k' then Some v else first_record k rest
  end.

Lemma add_records_lookup rs m k :
  foldl add_record m rs !! k = match m !! k with Some v => Some v | None => first_record k rs end.
Proof.
  revert m. induction rs as [|[k' v'] rs IH]; intros m; cbn [foldl first_record]; [by destruct (m !! k)|].
  rewrite IH. unfold add_record. cbn [fst snd]. destruct (m !! k') eqn:E.
  - destruct (k =? k') eqn:Ek; boolify; [subst; by rewrite E|done].
  - destruct (k =? k') eqn:Ek; boolify; [subst; by rewrite lookup_insert_eq, E|]. by rewrite lookup_insert_ne.
Qed.

Lemma add_record_size m r : (size (add_record m r) <= S (size m))%nat.
Proof. unfold add_record. destruct (m !! r.1) eqn:E; [lia|]. rewrite map_size_insert, E. cbn. lia. Qed.

(** What a learning call keeps. *)
Record learns (rs : list (Z * Z)) (e e' : enforcer) : Prop := {
  ln_policy : same_policy e e';
  ln_targets : target_pid_map e' = target_pid_map e;
  ln_signals : signals e' = signals e;
  ln_learned : (size (learn_map e) + length rs <= LEARN_MAP_SIZE)%nat -> learn_map e' = foldl add_record (learn_map e) rs;
}.

Lemma learns_trans r1 r2 e1 e2 e3 : learns r1 e1 e2 -> learns r2 e2 e3 -> learns (r1 ++ r2) e1 e3.
Proof.
  intros [P1 T1 S1 L1] [P2 T2 S2 L2]. split; [|congruence..|].
  - destruct P1, P2. split; congruence.
  - rewrite length_app. intros Hs. rewrite foldl_app, <- L1 by lia. apply L2. rewrite L1 by lia.
    assert (forall rs m, size (foldl add_record m rs) <= size m + length rs)%nat as Hsz.
    { induction rs as [|r rs IH]; intros m; cbn; [lia|]. specialize (IH (add_record m r)). pose proof (add_record_size m r). lia. }
    specialize (Hsz r1 (learn_map e1)). lia.
Qed.

Lemma silent_learns e e' : silent e e' -> learns [] e e'.
Proof. intros [[] Hs]. split; [by split|done|done|done]. Qed.

Section learning.
Context (cfg : bpf_config) (Hlearn : learn_mode cfg <> 0).

Lemma call_learns c nr e rip :
  in_scope cfg e c -> user_rip c = Some rip ->
  wp (sentinel_check cfg c nr) e (fun _ e' => learns (option_list (record_of e (c, nr))) e e').
Proof.
  intros [[t Ht] Hs] Hr. unfold sentinel_check, record_of. cbn [fst snd]. do 2 wp_step. rewrite Ht. do 2 wp_step. rewrite Hs, Hr.
  cbn [negb]. wp_step. unfold site_check. do 2 wp_step. fold (site_of rip). rewrite (proj2 (Z.eqb_neq _ _) Hlearn). cbn [negb].
  destruct (trie_lookup (vma_map e) (addr_key (site_of rip))) as [m|]; cbn [option_list].
  - fold (offset_of rip m). do 2 wp_step. eapply wp_mono; [apply emit_silent|]. intros [] e' He%silent_learns. wp_step.
    eapply (learns_trans [_] []); [|exact He]. clear He. unfold hash_update_noexist.
    destruct (learn_map e !! offset_of rip m) eqn:El; [|destruct (size (learn_map e) <? LEARN_MAP_SIZE)%nat eqn:Es; boolify].
    + split; [by split|done|done|]. intros _. cbn. unfold add_record. cbn [fst]. by rewrite El.
    + split; [by split|done|done|]. intros _. cbn. unfold add_record. cbn [fst snd]. by rewrite El.
    + split; [by split|done|done|]. cbn [length]. lia.
  - eapply wp_mono; [apply emit_silent|]. intros [] e' He%silent_learns. by wp_step.
Qed.
(** The calls of a run: of monitored processes in scope, with their registers at
    hand. *)
Definition learnable (e : enforcer) (call : hook_ctx * Z) : Prop :=
  in_scope cfg e call.1 /\ is_Some (user_rip call.1) /\ is_u32 call.2.

Definition calls_of (calls : list (hook_ctx * Z)) : list kernel_event := (fun c => EvSyscall c.1 c.2) <$> calls.

Lemma calls_learn calls e :
  Forall (learnable e) calls ->
  wp (run_events cfg (calls_of calls)) e (fun _ e' => learns (omap (record_of e) calls) e e').
Proof.
  revert e. induction calls as [|[c nr] calls IH]; intros e Hall.
  { cbn. wp_step. split; [by split|done|done|done]. }
  apply Forall_cons in Hall as [(Hs & [rip Hr] & _) Hall]. cbn [calls_of fmap list_fmap run_events run_event fst snd] in *.
  wp_step. eapply wp_mono; [by eapply call_learns|]. intros r e1 H1. destruct (ln_policy _ _ _ H1) as [_ Hv _ Hg _ _ _].
  assert (forall call, record_of e1 call = record_of e call) as Hrec by (intros call; unfold record_of; by rewrite Hv).
  eapply wp_mono; [apply (IH e1)|].
  - eapply Forall_impl; [exact Hall|]. intros call ([Ht Hc] & Hc1). split; [|done]. split.
    + unfold tracked in *. by rewrite (ln_targets _ _ _ H1).
    + unfold in_cgroup_scope in *. by rewrite Hg.
  - intros r2 e2 H2. rewrite (list_omap_ext (record_of e1) (record_of e) calls calls) in H2
      by (apply Forall_Forall2_diag, Forall_true, Hrec).
    pose proof (learns_trans _ _ _ _ _ H1 H2) as H. revert H. cbn [omap list_omap]. by destruct (record_of e (c, nr)).
Qed.
End learning.

(** ** The file *)

Lemma walk_all order : 0 ∉ order -> walk order = order.
Proof.
  intros Hn. unfold walk. assert (after_key 0 order = None) as ->; [|done]. induction order as [|x order IH]; [done|]. cbn [after_key].
  apply not_elem_of_cons in Hn as [Hx Hn]. rewrite (proj2 (Z.eqb_neq x 0)) by done. by apply IH.
Qed.

(** The parts of a record. *)
Lemma record_parts m nr : is_u32 (module_id m) -> is_u32 nr ->
  let v := Z.lor (u64 (Z.shiftl (module_id m) 32)) nr in u32 v = nr /\ u32 (Z.shiftr v 32) = module_id m.
Proof.
  intros Hm Hn. cbn zeta. rewrite Z.shiftl_mul_pow2 by lia. change (2 ^ 32) with 4294967296.
  rewrite u64_id by ulia. change 4294967296 with (2 ^ 32). rewrite lor_low by ulia. rewrite Z.shiftr_div_pow2 by lia.
  change (2 ^ 32) with 4294967296. split; ulia.
Qed.

(** C19. The learned profile is the first record of each site: in a learning run of
    at most 8192 hooked system calls of processes in scope, each with a call site on its
    user stack, and of no other events (the hooks that deny ptrace, bpf and seccomp signal
    in learning mode too), from an empty table, nobody is signalled and the policy stays
    as it is; for each offset the table has the module and the number
    of the first call from it; and when no call came from offset 0 the loader's file
    has, after its header, exactly one line for each recorded offset, with that offset,
    number and module. *)
Theorem learned_profile_exact cfg calls e :
  learn_mode cfg <> 0 -> Forall (learnable cfg e) calls -> learn_map e = ∅ ->
  (length calls <= LEARN_MAP_SIZE)%nat ->
  exists e', run_events cfg (calls_of calls) e = Some (tt, e') /\ signals e' = signals e /\ same_policy e e' /\
    (forall k, learn_map e' !! k = first_record k (omap (record_of e) calls)) /\
    (forall c nr rip m, user_rip c = Some rip -> trie_lookup (vma_map e) (addr_key (site_of rip)) = Some m ->
       is_u32 (module_id m) -> is_u32 nr ->
       exists v, record_of e (c, nr) = Some (offset_of rip m, v) /\ u32 v = nr /\ u32 (Z.shiftr v 32) = module_id m) /\
    forall binary order, order ≡ₚ (map_to_list (learn_map e')).*1 -> first_record 0 (omap (record_of e) calls) = None ->
      learned_file binary (learn_map e') order =
        (foldr String.append EmptyString (learned_header binary ++ ((fun k => learned_line k (default 0 (learn_map e' !! k))) <$> order)),
         size (learn_map e')).
Proof.
  intros Hl Hall He Hn. destruct (calls_learn cfg Hl calls e Hall) as ([] & e' & Hrun & [Hp _ Hs Hm]).
  assert (length (omap (record_of e) calls) <= length calls)%nat as Hlen.
  { clear. induction calls as [|c calls IH]; [done|]. cbn. case_match; cbn; lia. }
  rewrite He in Hm. specialize (Hm ltac:(change (size (∅ : gmap Z Z)) with 0%nat; lia)).
  assert (forall k, learn_map e' !! k = first_record k (omap (record_of e) calls)) as Hk.
  { intros k. by rewrite Hm, add_records_lookup, lookup_empty. }
  exists e'. split_and!; [done..| |].
  { intros c nr rip m Hr Hm' H1 H2. eexists. unfold record_of. cbn [fst snd]. rewrite Hr, Hm'. split; [reflexivity|].
    by apply record_parts. }
  intros binary order Ho H0.
  assert (forall k, k ∈ order -> is_Some (learn_map e' !! k)) as Hin.
  { intros k Hkin. rewrite Ho in Hkin. apply list_elem_of_fmap in Hkin as ([k' v] & -> & Hkv).
    apply elem_of_map_to_list in Hkv. by exists v. }
  unfold learned_file, learned_lines. rewrite walk_all by (intros [v Hv]%Hin; by rewrite Hk, H0 in Hv).
  assert (omap (fun k => learned_line k <$> learn_map e' !! k) order =
    (fun k => learned_line k (default 0 (learn_map e' !! k))) <$> order) as ->.
  { clear Ho. induction order as [|k order IH]; [done|]. cbn. destruct (Hin k) as [v ->]; [left|]. cbn.
    by rewrite IH by (intros; apply Hin; by right). }
  f_equal. rewrite length_fmap, (Permutation_length Ho), length_fmap. apply length_map_to_list.
Qed.

(** Two modules with a call at the same offset leave one record. *)
Definition learn_cfg : bpf_config := BpfConfig 1 0 ENFORCE_PERMISSIVE 1 0 0 0.
Definition learn_trie : list trie_entry :=
  [TrieEntry 52 (addr_key 0x401000) (VmaValue 0 0x400000); TrieEntry 52 (addr_key 0x7001000) (VmaValue 1 0x7000000)].
Definition learn_state : enforcer :=
  Enforcer ∅ learn_trie {[500 := 1]} ∅ ∅ ∅ ∅ ∅ ∅ 16 [] [].
Definition learn_call (rip nr : Z) : hook_ctx * Z := (HookCtx (500 * 4294967296 + 501) 0 (Some rip) None 7, nr).

Lemma learned_profile_exact_witness :
  exists e', run_events learn_cfg (calls_of [learn_call 0x401012 1; learn_call 0x7001012 59; learn_call 0x401022 3]) learn_state = Some (tt, e') /\
    learn_map e' !! 0x1010 = Some 1 /\ learn_map e' !! 0x1020 = Some 3.
Proof.
  destruct (learned_profile_exact learn_cfg [learn_call 0x401012 1; learn_call 0x7001012 59; learn_call 0x401022 3] learn_state)
    as (e' & Hrun & _ & _ & Hk & _ & _).
  - done.
  - repeat constructor; cbn; try (by eexists); try done; ulia.
  - done.
  - apply Nat.leb_le. by vm_compute.
  - exists e'. split; [exact Hrun|]. by rewrite !Hk.
Defined.

(** On a terminating signal the enforcement ends with the loader, while the program
    has only been asked to end. *)
Lemma signal_detaches sig g :
  sig = SIGINT \/ sig = SIGTERM -> 0 < g_child g -> g_skel g = true ->
  exists h, handler_of sig = Some h /\
    (h g).2 = [KillChild (g_child g) SIGTERM; ReapChild (g_child g); DestroySkel; ExitNow (128 + sig)].
Proof.
  intros Hs Hc Hk. exists (signal_handler sig). destruct Hs as [-> | ->]; (split; [done|]); unfold signal_handler;
    by rewrite (proj2 (Z.ltb_lt _ _) Hc), Hk.
Qed.
