(* ===== verification/Tui.v ===== *)
(** * The terminal dashboard (sentinel_tui.c)

    Reading the audit events that the loader prints as JSON, and the statistics
    over them.  Drawing the screen is modelled in TuiRender. *)

From S2P Require Import Prelude CStrings KvmiSetup LoaderTrust LoaderCli.
From stdpp Require Import prelude strings list.
From Stdlib Require Import ZArith Lia Ascii.
#[local] Open Scope string_scope.
#[local] Open Scope list_scope.
#[local] Open Scope Z_scope.

Definition MAX_HISTORY : nat := 256.
Definition MAX_SYSCALLS : nat := 512.

Record tui_event := TuiEvent {
  te_action : string;
  te_pid : Z;
  te_tid : Z;
  te_syscall_nr : Z;
  te_ret : Z;
  te_rip : string;
  te_offset : string;
  te_module : Z;
  te_timestamp : string;
  te_is_fexit : bool;
}.

(** ** Values of a JSON object *)

(** The text after the first occurrence of the pattern. *)
Definition after_pattern (json pat : string) : option string :=
  string_drop (strlen pat) <$> strstr json pat.

Definition json_get_str (json key : string) (max : nat) : option string :=
  match after_pattern json (jkey key +:+ q1) with
  | None => None
  | Some p =>
      match strchr p quote with
      | None => None
      | Some rest => Some (strncpyz max (String.substring 0 (strlen p - strlen rest) p))
      end
  end.

Fixpoint skip_blank (s : string) : string :=
  match s with
  | String " " s' => skip_blank s'
  | _ => s
  end.

(** [(unsigned int)strtoul(p, NULL, 10)] *)
Definition strtoul32 (p : string) : Z := u32 (default 0 (strto_value (strtoull 10 p))).

Definition json_get_uint (json key : string) : option Z :=
  match after_pattern json (jkey key) with
  | None => None
  | Some p =>
      match skip_blank p with
      | String c _ as v => if Ascii.eqb c quote then None else Some (strtoul32 v)
      | EmptyString => Some (strtoul32 EmptyString)
      end
  end.

Definition json_get_long (json key : string) : option Z :=
  match after_pattern json (jkey key) with
  | None => None
  | Some p => Some (strtol10 (skip_blank p))
  end.

(** A key that is missing leaves the field at zero. *)
Definition parse_event (line : string) : option tui_event :=
  match json_get_str line "action" 16 with
  | None => None
  | Some act =>
      let fexit := streq act "FEXIT" in
      Some (TuiEvent act (default 0 (json_get_uint line "pid")) (default 0 (json_get_uint line "tid"))
              (default 0 (json_get_uint line "syscall_nr"))
              (if fexit then default 0 (json_get_long line "ret") else 0)
              (default EmptyString (json_get_str line "rip" 20)) (default EmptyString (json_get_str line "offset" 20))
              (default 0 (json_get_uint line "module")) (default EmptyString (json_get_str line "ts" 32)) fexit)
  end.

(** ** Statistics *)

Record syscall_stats := SyscallStats { ss_nr : Z; allow_count : Z; block_count : Z; fexit_count : Z }.

Record counters := Counters {
  total_allow : Z; total_block : Z; total_cfi_ok : Z; total_cfi_fail : Z; total_nr_mismatch : Z;
  total_fork : Z; total_fexit : Z; total_permissive : Z; total_learn : Z; total_lib_deny : Z;
  total_shadow_ok : Z; total_shadow_fail : Z; total_fallback : Z; total_kobj_deny : Z; total_events : Z;
}.

(** The counters, the statistics per system call and the ring of events. *)
Record dashboard := Dashboard {
  totals : counters;
  sys_stats : list syscall_stats;
  history : list tui_event;
  history_idx : nat;
}.

Definition zero_counters : counters := Counters 0 0 0 0 0 0 0 0 0 0 0 0 0 0 0.
Definition empty_dashboard : dashboard := Dashboard zero_counters [] [] 0.

(** [get_stats(nr)] and the update of the entry; a full table is left alone. *)
Fixpoint bump_stats (nr : Z) (f : syscall_stats -> syscall_stats) (room : nat) (l : list syscall_stats)
  : list syscall_stats :=
  match l with
  | [] => if (0 <? room)%nat then [f (SyscallStats nr 0 0 0)] else []
  | s :: rest => if ss_nr s =? nr then f s :: rest else s :: bump_stats nr f (room - 1) rest
  end.

Definition inc_allow (s : syscall_stats) : syscall_stats :=
  SyscallStats (ss_nr s) (u64 (allow_count s + 1)) (block_count s) (fexit_count s).
Definition inc_block (s : syscall_stats) : syscall_stats :=
  SyscallStats (ss_nr s) (allow_count s) (u64 (block_count s + 1)) (fexit_count s).
Definition inc_fexit (s : syscall_stats) : syscall_stats :=
  SyscallStats (ss_nr s) (allow_count s) (block_count s) (u64 (fexit_count s + 1)).

(** The counters that an action adds to. *)
Definition count_action (act : string) (c : counters) : counters :=
  let '(Counters al bl co cf nm fo fe pe le ld so sf fb ko ev) := c in
  let ev := u64 (ev + 1) in
  if streq act "ALLOW" then Counters (u64 (al + 1)) bl co cf nm fo fe pe le ld so sf fb ko ev
  else if streq act "ALLOW+CFI" then Counters (u64 (al + 1)) bl (u64 (co + 1)) cf nm fo fe pe le ld so sf fb ko ev
  else if streq act "BLOCK" then Counters al (u64 (bl + 1)) co cf nm fo fe pe le ld so sf fb ko ev
  else if streq act "CFI-FAIL" then Counters al (u64 (bl + 1)) co (u64 (cf + 1)) nm fo fe pe le ld so sf fb ko ev
  else if streq act "NR-MISMATCH" then Counters al (u64 (bl + 1)) co cf (u64 (nm + 1)) fo fe pe le ld so sf fb ko ev
  else if streq act "FORK-TRACK" then Counters al bl co cf nm (u64 (fo + 1)) fe pe le ld so sf fb ko ev
  else if streq act "FEXIT" then Counters al bl co cf nm fo (u64 (fe + 1)) pe le ld so sf fb ko ev
  else if streq act "PERMISSIVE" then Counters al (u64 (bl + 1)) co cf nm fo fe (u64 (pe + 1)) le ld so sf fb ko ev
  else if streq act "DLOPEN-EXT" then Counters al bl co cf nm fo fe pe le ld so sf fb ko ev
  else if streq act "LEARN" then Counters al bl co cf nm fo fe pe (u64 (le + 1)) ld so sf fb ko ev
  else if streq act "LIB-DENY" then Counters al (u64 (bl + 1)) co cf nm fo fe pe le (u64 (ld + 1)) so sf fb ko ev
  else if streq act "SHADOW-OK" then Counters al bl co cf nm fo fe pe le ld (u64 (so + 1)) sf fb ko ev
  else if streq act "SHADOW-FAIL" then Counters al (u64 (bl + 1)) co cf nm fo fe pe le ld so (u64 (sf + 1)) fb ko ev
  else if streq act "FALLBACK" then Counters al (u64 (bl + 1)) co cf nm fo fe pe le ld so sf (u64 (fb + 1)) ko ev
  else if streq act "KOBJ-DENY" then Counters al (u64 (bl + 1)) co cf nm fo fe pe le ld so sf fb (u64 (ko + 1)) ev
  else Counters al bl co cf nm fo fe pe le ld so sf fb ko ev.

(** The action's entry in the table per system call. *)
Definition count_syscall (act : string) (nr : Z) (l : list syscall_stats) : list syscall_stats :=
  if streq act "ALLOW" || streq act "ALLOW+CFI" then bump_stats nr inc_allow MAX_SYSCALLS l
  else if streq act "BLOCK" then bump_stats nr inc_block MAX_SYSCALLS l
  else if streq act "FEXIT" then bump_stats nr inc_fexit MAX_SYSCALLS l
  else l.

(** The ring: slots are filled in order, then overwritten from the first. *)
Definition push_history (e : tui_event) (h : list tui_event) (idx : nat) : list tui_event * nat :=
  (if (idx <? length h)%nat then <[idx := e]> h else h ++ [e], (idx + 1) mod MAX_HISTORY)%nat.

Definition update_stats (e : tui_event) (d : dashboard) : dashboard :=
  let '(h, i) := push_history e (history d) (history_idx d) in
  Dashboard (count_action (te_action e) (totals d)) (count_syscall (te_action e) (te_syscall_nr e) (sys_stats d)) h i.

(** ** The loop over the input *)

Fixpoint skip_indent (s : string) : string :=
  match s with
  | String c s' => if Ascii.eqb c " " || Ascii.eqb c tab then skip_indent s' else s
  | EmptyString => s
  end.

Definition tui_line (line : string) (d : dashboard) : dashboard :=
  match skip_indent line with
  | String "{" _ as p => match parse_event p with Some e => update_stats e d | None => d end
  | _ => d
  end.

Definition tui_run (input : string) : dashboard :=
  fold_left (fun d line => tui_line line d) (fgets_lines 4095 input 4095) empty_dashboard.
