(* ===== verification/TuiProofs.v ===== *)
(** * Audit output and dashboard: theorems

    The dashboard reads back what the loader prints, and its statistics count
    the events. *)

From S2P Require Import Prelude CStrings KvmiSetup KvmiMapsProofs Enforcer LoaderTrust LoaderTrustProofs LoaderCli Tui.
From stdpp Require Import prelude strings list.
From Stdlib Require Import ZArith Lia Ascii.
#[local] Open Scope string_scope.
#[local] Open Scope list_scope.
#[local] Open Scope Z_scope.

(** ** Searching a text made of pieces *)

Definition no_quote (s : string) : bool := str_forall (fun c => negb (Ascii.eqb quote c)) s.

(** The pattern does not start inside the piece, whatever follows it. *)
Definition skips (needle s : string) : Prop := forall b, strstr (s +:+ b) needle = strstr b needle.

Lemma skips_app n a b : skips n a -> skips n b -> skips n (a +:+ b).
Proof. intros Ha Hb x. rewrite str_app_assoc. by rewrite Ha. Qed.

Lemma skips_no_quote n s : no_quote s = true -> skips (String quote n) s.
Proof. intros H b. by apply strstr_app. Qed.

(** Two texts that differ at some position. *)
Fixpoint mismatch (s n : string) : bool :=
  match s, n with
  | String a s', String b n' => if Ascii.eqb a b then mismatch s' n' else true
  | _, _ => false
  end.

Lemma mismatch_prefix s n b : mismatch s n = true -> String.prefix n (s +:+ b) = false.
Proof.
  revert n. induction s as [|a s IH]; intros [|c n]; cbn [mismatch]; [done..|].
  change (String a s +:+ b) with (String a (s +:+ b)). cbn [String.prefix].
  destruct (ascii_dec c a) as [->|Hne]; [rewrite Ascii.eqb_refl; auto|done].
Qed.

Fixpoint piece_ok (s n : string) : bool :=
  match s with
  | EmptyString => true
  | String _ s' => mismatch s n && piece_ok s' n
  end.

Lemma skips_piece n s : piece_ok s n = true -> skips n s.
Proof.
  intros H b. induction s as [|c s IH]; [done|]. cbn [piece_ok] in H. apply andb_prop in H as [H1 H2].
  change (String c s +:+ b) with (String c (s +:+ b)). cbn [strstr].
  change (String c (s +:+ b)) with (String c s +:+ b). rewrite mismatch_prefix by done. auto.
Qed.

(** A quote followed by a character that the pattern does not have there. *)
Lemma skips_opening k n c t :
  Ascii.eqb k c = false -> no_quote (String c t) = true -> skips (String quote (String k n)) (String quote (String c t)).
Proof.
  intros Hk Hq b. change (String quote (String c t) +:+ b) with (String quote (String c t +:+ b)). cbn [strstr].
  assert (String.prefix (String quote (String k n)) (String quote (String c t +:+ b)) = false) as ->; [|by apply strstr_app].
  change (String c t +:+ b) with (String c (t +:+ b)). apply Ascii.eqb_neq in Hk. cbn [String.prefix].
  destruct (ascii_dec quote quote); [|done]. by destruct (ascii_dec k c).
Qed.

Lemma after_found pre pat rest : skips pat pre -> after_pattern (pre +:+ pat +:+ rest) pat = Some rest.
Proof.
  intros H. unfold after_pattern. rewrite H, strstr_here. cbn. f_equal. unfold string_drop. apply substring_after.
Qed.

Lemma after_missing text pat : pat <> EmptyString -> skips pat text -> after_pattern text pat = None.
Proof.
  intros Hp H. unfold after_pattern. rewrite <- (string_app_nil_r text), H. by destruct pat.
Qed.

(** ** Values *)

Lemma get_str_found pre key v rest max :
  skips (jkey key +:+ q1) pre -> no_quote v = true -> (strlen v < max)%nat ->
  json_get_str (pre +:+ jkey key +:+ q1 +:+ v +:+ q1 +:+ rest) key max = Some v.
Proof.
  intros Hs Hv Hm. unfold json_get_str. rewrite <- (str_app_assoc (jkey key)).
  change (q1 +:+ rest) with (String quote rest). rewrite after_found, strchr_app by done. f_equal.
  rewrite strlen_app. replace (strlen v + _ - _)%nat with (strlen v) by lia. rewrite substring_prefix.
  by apply strncpyz_id.
Qed.

Lemma fmt_u_head n b : 0 <= n -> exists d r, 0 <= d < 10 /\ fmt_u n +:+ b = String (digit_char d) r.
Proof.
  intros Hn. unfold fmt_u. rewrite fmt_digits_app. by apply fmt_digits_head.
Qed.

Lemma get_uint_found pre key n c rest :
  skips (jkey key) pre -> is_u32 n -> 10 <= digit_value c ->
  json_get_uint (pre +:+ jkey key +:+ fmt_u n +:+ String c EmptyString +:+ rest) key = Some n.
Proof.
  intros Hs Hn Hc. change (String c EmptyString +:+ rest) with (String c rest). unfold json_get_uint. rewrite after_found by done.
  pose proof (strtoull_fmt_u n c rest ltac:(ulia) Hc) as Hv.
  destruct (fmt_u_head n (String c rest)) as (d & r & Hd & E); [ulia|]. rewrite E in Hv |- *.
  assert (strtoul32 (String (digit_char d) r) = n) as Hu. { unfold strtoul32. rewrite Hv. cbn. ulia. }
  revert Hu. pattern (digit_char d). apply digit_char_cases; [done|..]; intros Hu; cbn [skip_blank]; by rewrite <- Hu.
Qed.

Lemma strtol10_fmt_d z c rest :
  - 9223372036854775808 <= z < 9223372036854775808 -> 10 <= digit_value c ->
  strtol10 (fmt_d z +:+ String c rest) = z.
Proof.
  intros Hz Hc. assert (forall n, 0 <= n <= 9223372036854775808 -> exists d r, 0 <= d < 10 /\
    fmt_u n +:+ String c rest = String (digit_char d) r /\ (scan_digits 10 (String (digit_char d) r) 0 false).1 = n) as Hu.
  { intros n Hn. unfold fmt_u. rewrite fmt_digits_app. change (EmptyString +:+ ?x) with x.
    destruct (scan_fmt_digits 20 n (String c rest) ltac:(cbn; lia) ltac:(lia) 0 false) as [j Hj].
    destruct (fmt_digits_head 20 n (String c rest) ltac:(lia) ltac:(done)) as (d & r & Hd & E). exists d, r.
    split_and!; [lia|lia|done|]. rewrite <- E, Hj. cbn [scan_digits]. by rewrite (proj2 (Z.ltb_ge _ _)) by done. }
  unfold fmt_d. destruct (z <? 0) eqn:E; boolify.
  - destruct (Hu (- z)) as (d & r & Hd & E1 & E2); [lia|]. change (String "-" (fmt_u (- z)) +:+ ?x) with (String "-" (fmt_u (- z) +:+ x)).
    rewrite E1. unfold strtol10. change (skip_space (String "-" ?x)) with (String "-" x). cbv iota beta zeta. rewrite E2. lia.
  - destruct (Hu z) as (d & r & Hd & E1 & E2); [lia|]. rewrite E1. revert E2. pattern (digit_char d).
    apply digit_char_cases; [done|..]; intros E2; unfold strtol10;
      match type of E2 with (scan_digits _ ?x _ _).1 = _ => change (skip_space x) with x end; cbv iota beta zeta;
      rewrite E2; lia.
Qed.

(** ** Numbers have no quotes *)

Lemma str_forall_impl f g s : (forall c, f c = true -> g c = true) -> str_forall f s = true -> str_forall g s = true.
Proof.
  intros H. induction s as [|c s IH]; [done|]. cbn [str_forall]. intros [H1 H2]%andb_prop. by rewrite H, IH.
Qed.

Lemma no_quote_hex n : no_quote (fmt_x n) = true.
Proof.
  eapply str_forall_impl; [|apply (fmt_digits_hex 16 n EmptyString eq_refl)]. intros c Hc.
  destruct (Ascii.eqb quote c) eqn:E; [|done]. apply Ascii.eqb_eq in E. by subst c.
Qed.

Lemma no_quote_dec n : 0 <= n -> no_quote (fmt_u n) = true.
Proof.
  apply fmt_digits_chars; [|done]. intros d Hd. by apply (digit_char_cases d (fun c => negb (Ascii.eqb quote c) = true)).
Qed.

Lemma no_quote_signed z : no_quote (fmt_d z) = true.
Proof.
  unfold fmt_d. destruct (z <? 0) eqn:E; boolify; [|apply no_quote_dec; lia].
  change (no_quote (String "-" ?x)) with (no_quote x). apply no_quote_dec. lia.
Qed.

Lemma fmt_03_shape ms : 0 <= ms < 1000 -> no_quote (fmt_03 ms) = true /\ strlen (fmt_03 ms) = 3%nat.
Proof.
  intros H. split; [|done]. unfold no_quote, fmt_03. cbn [str_forall].
  assert (forall d, 0 <= d < 10 -> negb (Ascii.eqb quote (digit_char d)) = true) as Hd
    by (intros d Hd; by apply (digit_char_cases d (fun c => negb (Ascii.eqb quote c) = true))).
  rewrite !Hd by lia. done.
Qed.

(** ** The actions *)

Definition action_names : list string :=
  ["ALLOW"; "BLOCK"; "ALLOW+CFI"; "CFI-FAIL"; "NR-MISMATCH"; "FORK-TRACK"; "FEXIT"; "DLOPEN-EXT"; "PERMISSIVE";
   "LEARN"; "LIB-DENY"; "SHADOW-OK"; "SHADOW-FAIL"; "FALLBACK"; "KOBJ-DENY"; "UNKNOWN"].

Lemma action_str_named a : action_str a ∈ action_names.
Proof. unfold action_str. repeat case_match; apply (bool_decide_unpack _); vm_compute; exact I. Qed.

(** What holds of all names holds of the action. *)
Lemma action_check a f : forallb f action_names = true -> f (action_str a) = true.
Proof. rewrite forallb_forall. intros H. apply H, list_elem_of_In, action_str_named. Qed.

Lemma action_fexit a : streq (action_str a) "FEXIT" = (a =? EVENT_FEXIT_OK).
Proof.
  destruct (a =? EVENT_FEXIT_OK) eqn:E; boolify; [by subst|]. unfold action_str.
  repeat (case_match; [done|]). case_match; [boolify; done|]. by repeat case_match.
Qed.

(** ** The object, piece by piece *)

(** A time stamp as [strftime] makes it: a digit first, no quotes, and short. *)
Record wf_stamp (tbuf : string) (ms : Z) : Prop := {
  ws_head : exists d t, 0 <= d < 10 /\ tbuf = String (digit_char d) t;
  ws_quote : no_quote tbuf = true;
  ws_len : (strlen tbuf <= 26)%nat;
  ws_ms : 0 <= ms < 1000;
}.

(** The widths of the fields. *)
Record wf_event (ev : audit_event) : Prop := {
  wv_tgid : is_u32 (ev_tgid ev);
  wv_tid : is_u32 (ev_tid ev);
  wv_rip : is_u64 (syscall_rip ev);
  wv_offset : is_u64 (ev_offset ev);
  wv_module : is_u32 (ev_module_id ev);
  wv_nr : is_u32 (ev_syscall_nr ev);
}.

(** A pattern that starts with a quote and a character that is no digit, and does
    not occur in the fixed text before the action. *)
Definition key_ok (n : string) : bool :=
  match n with
  | String c (String k _) =>
      Ascii.eqb c quote && (10 <=? digit_value k) && piece_ok ("{" +:+ jkey "ts") n && piece_ok (q1 +:+ ",") n && piece_ok "," n
  | _ => false
  end.

Section object.
Context (tbuf : string) (ms : Z) (ev : audit_event).
Hypotheses (Ht : wf_stamp tbuf ms) (He : wf_event ev).

Definition stamp : string := tbuf +:+ "." +:+ fmt_03 ms +:+ "Z".
Definition act : string := action_str (action ev).
Definition P0 : string := "{" +:+ (jkey "ts" +:+ q1) +:+ stamp +:+ q1 +:+ ",".
Definition P1 : string := P0 +:+ (jkey "action" +:+ q1) +:+ act +:+ q1 +:+ ",".
Definition P2 : string := P1 +:+ jkey "pid" +:+ fmt_u (ev_tgid ev) +:+ ",".
Definition P3 : string := P2 +:+ jkey "tid" +:+ fmt_u (ev_tid ev) +:+ ",".
Definition P4 : string := P3 +:+ jkey "syscall_nr" +:+ fmt_u (ev_syscall_nr ev) +:+ ",".
Definition P5 : string := P4 +:+ (jkey "rip" +:+ q1) +:+ ("0x" +:+ fmt_x (syscall_rip ev)) +:+ q1 +:+ ",".
Definition P6 : string := P5 +:+ (jkey "offset" +:+ q1) +:+ ("0x" +:+ fmt_x (ev_offset ev)) +:+ q1 +:+ ",".
Definition obj_fexit (nl : string) : string := P4 +:+ jkey "ret" +:+ fmt_d (s64 (ev_offset ev)) +:+ String "}" nl.
Definition obj_check (nl : string) : string := P6 +:+ jkey "module" +:+ fmt_u (ev_module_id ev) +:+ String "}" nl.

Lemma audit_json_pieces nl :
  audit_json tbuf ms ev +:+ nl = if action ev =? EVENT_FEXIT_OK then obj_fexit nl else obj_check nl.
Proof.
  unfold audit_json, obj_fexit, obj_check, P6, P5, P4, P3, P2, P1, P0, stamp, act.
  destruct (action ev =? EVENT_FEXIT_OK); rewrite !str_app_assoc; reflexivity.
Qed.

Lemma no_quote_app a b : no_quote (a +:+ b) = no_quote a && no_quote b.
Proof. apply str_forall_app. Qed.

Lemma stamp_shape : no_quote stamp = true /\ (strlen stamp < 32)%nat.
Proof.
  destruct Ht as [_ Hq Hl Hm]. destruct (fmt_03_shape ms Hm) as [F1 F2]. unfold stamp.
  rewrite !no_quote_app, !strlen_app, Hq, F1, F2. cbn. split; [done|lia].
Qed.

Lemma key_ok_shape n : key_ok n = true ->
  exists k n', n = String quote (String k n') /\ 10 <= digit_value k /\ piece_ok ("{" +:+ jkey "ts") n = true /\
    piece_ok (q1 +:+ ",") n = true /\ piece_ok "," n = true.
Proof.
  destruct n as [|c [|k n']]; [done..|]. unfold key_ok. intros H. repeat apply andb_prop in H as [H ?].
  apply Ascii.eqb_eq in H as ->. boolify. by exists k, n'.
Qed.

Lemma skips_comma n : key_ok n = true -> skips n ",".
Proof. intros (? & ? & _ & _ & _ & _ & H)%key_ok_shape. by apply skips_piece. Qed.

Lemma skips_close n : key_ok n = true -> skips n (q1 +:+ ",").
Proof. intros (? & ? & _ & _ & _ & H & _)%key_ok_shape. by apply skips_piece. Qed.

Lemma skips_text n s : key_ok n = true -> no_quote s = true -> skips n s.
Proof. intros (? & ? & -> & _)%key_ok_shape. apply skips_no_quote. Qed.

Lemma skips_P0 n : key_ok n = true -> skips n P0.
Proof.
  intros Hn. destruct (key_ok_shape n Hn) as (k & n' & -> & Hk & H1 & H2 & _).
  replace P0 with (("{" +:+ jkey "ts") +:+ (q1 +:+ stamp) +:+ (q1 +:+ ",")) by (unfold P0; by rewrite !str_app_assoc).
  apply skips_app; [by apply skips_piece|]. apply skips_app; [|by apply skips_piece].
  destruct Ht as [(d & t & Hd & Htb) _ _ _]. pose proof (proj1 stamp_shape) as Hs.
  unfold stamp in *. rewrite Htb in *. change (q1 +:+ String ?c t +:+ ?x) with (String quote (String c (t +:+ x))).
  apply skips_opening; [|exact Hs]. apply Ascii.eqb_neq. intros ->. rewrite digit_value_char in Hk by lia. lia.
Qed.

Lemma skips_P1 n :
  key_ok n = true -> forallb (fun a => piece_ok ((jkey "action" +:+ q1) +:+ a +:+ q1 +:+ ",") n) action_names = true ->
  skips n P1.
Proof.
  intros Hn Ha. apply skips_app; [by apply skips_P0|]. apply skips_piece.
  apply (action_check (action ev) (fun a => piece_ok ((jkey "action" +:+ q1) +:+ a +:+ q1 +:+ ",") n) Ha).
Qed.

Lemma skips_num n p key v : key_ok n = true -> skips n p -> piece_ok (jkey key) n = true -> 0 <= v ->
  skips n (p +:+ jkey key +:+ fmt_u v +:+ ",").
Proof.
  intros Hn Hp Hk Hv. apply skips_app; [done|]. apply skips_app; [by apply skips_piece|].
  apply skips_app; [by apply skips_text, no_quote_dec|by apply skips_comma].
Qed.

Lemma skips_hex n p key v : key_ok n = true -> skips n p -> piece_ok ((jkey key +:+ q1) +:+ "0x") n = true ->
  skips n (p +:+ (jkey key +:+ q1) +:+ ("0x" +:+ fmt_x v) +:+ q1 +:+ ",").
Proof.
  intros Hn Hp Hk. apply skips_app; [done|].
  replace ((jkey key +:+ q1) +:+ ("0x" +:+ fmt_x v) +:+ q1 +:+ ",")
    with (((jkey key +:+ q1) +:+ "0x") +:+ fmt_x v +:+ (q1 +:+ ",")) by (by rewrite !str_app_assoc).
  apply skips_app; [by apply skips_piece|]. apply skips_app; [by apply skips_text, no_quote_hex|by apply skips_close].
Qed.
End object.

(** [skip] discharges the search of a concrete pattern. *)
Ltac skip :=
  repeat first
    [ apply skips_hex; [reflexivity| |reflexivity]
    | apply skips_num; [reflexivity| |reflexivity|ulia]
    | apply skips_P1; [assumption|reflexivity|reflexivity]
    | apply skips_P0; [assumption|reflexivity] ].

Section fields.
Context (tbuf : string) (ms : Z) (ev : audit_event).
Hypotheses (Ht : wf_stamp tbuf ms) (He : wf_event ev).

Lemma act_shape : no_quote (act ev) = true /\ (strlen (act ev) < 16)%nat.
Proof.
  split; [by apply (action_check (action ev) no_quote)|]. apply Nat.ltb_lt.
  by apply (action_check (action ev) (fun a => (strlen a <? 16)%nat)).
Qed.

Lemma hex_shape v : is_u64 v -> no_quote ("0x" +:+ fmt_x v) = true /\ (strlen ("0x" +:+ fmt_x v) < 20)%nat.
Proof.
  intros Hv. split; [exact (no_quote_hex v)|]. rewrite strlen_app. pose proof (fmt_x_len_u64 v Hv). change (strlen "0x") with 2%nat. lia.
Qed.

(** The fields that every object has. *)
Lemma common_fields rest :
  let text := P4 tbuf ms ev +:+ rest in
  json_get_str text "ts" 32 = Some (stamp tbuf ms) /\ json_get_str text "action" 16 = Some (act ev) /\
  json_get_uint text "pid" = Some (ev_tgid ev) /\ json_get_uint text "tid" = Some (ev_tid ev) /\
  json_get_uint text "syscall_nr" = Some (ev_syscall_nr ev).
Proof.
  destruct He as [H1 H2 _ _ _ H3], (stamp_shape tbuf ms Ht) as [S1 S2], act_shape as [A1 A2]. cbn zeta.
  split_and!.
  - unfold P4, P3, P2, P1, P0. rewrite !str_app_assoc. apply get_str_found; [by apply skips_piece|done|done].
  - unfold P4, P3, P2, P1. rewrite !str_app_assoc. apply get_str_found; [skip|done|done].
  - unfold P4, P3, P2. rewrite !str_app_assoc. apply get_uint_found; [skip|done|done].
  - unfold P4, P3. rewrite !str_app_assoc. apply get_uint_found; [unfold P2; skip|done|done].
  - unfold P4. rewrite !str_app_assoc. apply get_uint_found; [unfold P3, P2; skip|done|done].
Qed.

(** An object for a return value has [ret] and not the other three. *)
Lemma fexit_fields nl :
  no_quote nl = true ->
  let text := obj_fexit tbuf ms ev (String newline nl) in
  json_get_long text "ret" = Some (s64 (ev_offset ev)) /\ json_get_str text "rip" 20 = None /\
  json_get_str text "offset" 20 = None /\ json_get_uint text "module" = None.
Proof.
  intros Hnl. destruct He as [H1 H2 _ H3 _ H4]. cbn zeta. unfold obj_fexit.
  assert (forall n, key_ok n = true -> skips n (P4 tbuf ms ev) -> piece_ok (jkey "ret") n = true -> after_pattern
    (P4 tbuf ms ev +:+ jkey "ret" +:+ fmt_d (s64 (ev_offset ev)) +:+ String "}" (String newline nl)) n = None) as Hmiss.
  { intros n Hn Hs Hp. apply after_missing; [by intros ->|]. apply skips_app; [done|]. apply skips_app; [by apply skips_piece|].
    apply skips_text; [done|]. rewrite no_quote_app, no_quote_signed. exact Hnl. }
  split_and!.
  - unfold json_get_long. rewrite after_found by (unfold P4, P3, P2; skip). f_equal.
    pose proof (strtol10_fmt_d (s64 (ev_offset ev)) "}" (String newline nl)) as Hl.
    assert (- 9223372036854775808 <= s64 (ev_offset ev) < 9223372036854775808) as Hb
      by (unfold s64; destruct (_ <? _) eqn:E; boolify; ulia).
    assert (skip_blank (fmt_d (s64 (ev_offset ev)) +:+ String "}" (String newline nl)) =
      fmt_d (s64 (ev_offset ev)) +:+ String "}" (String newline nl)) as ->; [|by apply Hl].
    unfold fmt_d. destruct (s64 (ev_offset ev) <? 0) eqn:E; boolify; [done|].
    destruct (fmt_u_head (s64 (ev_offset ev)) (String "}" (String newline nl))) as (d & r & Hd & ->); [done|].
    by apply (digit_char_cases d (fun c => skip_blank (String c r) = String c r)).
  - unfold json_get_str. rewrite Hmiss; [done|done|unfold P4, P3, P2; skip|done].
  - unfold json_get_str. rewrite Hmiss; [done|done|unfold P4, P3, P2; skip|done].
  - unfold json_get_uint. rewrite Hmiss; [done|done|unfold P4, P3, P2; skip|done].
Qed.

(** The other objects have those three. *)
Lemma check_fields nl :
  let text := obj_check tbuf ms ev nl in
  json_get_str text "rip" 20 = Some ("0x" +:+ fmt_x (syscall_rip ev)) /\
  json_get_str text "offset" 20 = Some ("0x" +:+ fmt_x (ev_offset ev)) /\
  json_get_uint text "module" = Some (ev_module_id ev).
Proof.
  destruct He as [H1 H2 H3 H4 H5 H6]. destruct (hex_shape _ H3) as [R1 R2], (hex_shape _ H4) as [O1 O2]. cbn zeta. split_and!.
  - unfold obj_check, P6, P5. rewrite !str_app_assoc. rewrite <- (str_app_assoc "0x").
    apply get_str_found; [unfold P4, P3, P2; skip|done|done].
  - unfold obj_check, P6. rewrite !str_app_assoc. rewrite <- (str_app_assoc "0x").
    apply get_str_found; [unfold P5, P4, P3, P2; skip|done|done].
  - unfold obj_check. change (String "}" nl) with ("}" +:+ nl). apply get_uint_found; [unfold P6, P5, P4, P3, P2; skip|done|done].
Qed.
End fields.

(** ** Whole lines *)

(** The event as the dashboard should see it. *)
Definition seen_event (tbuf : string) (ms : Z) (ev : audit_event) : tui_event :=
  let fexit := action ev =? EVENT_FEXIT_OK in
  TuiEvent (action_str (action ev)) (ev_tgid ev) (ev_tid ev) (ev_syscall_nr ev)
    (if fexit then s64 (ev_offset ev) else 0)
    (if fexit then EmptyString else "0x" +:+ fmt_x (syscall_rip ev))
    (if fexit then EmptyString else "0x" +:+ fmt_x (ev_offset ev))
    (if fexit then 0 else ev_module_id ev) (stamp tbuf ms) fexit.

Lemma parse_printed tbuf ms ev :
  wf_stamp tbuf ms -> wf_event ev ->
  parse_event (audit_json tbuf ms ev +:+ String newline EmptyString) = Some (seen_event tbuf ms ev).
Proof.
  intros Ht He. rewrite audit_json_pieces. unfold parse_event, seen_event.
  destruct (action ev =? EVENT_FEXIT_OK) eqn:Ef.
  - destruct (fexit_fields tbuf ms ev Ht He EmptyString eq_refl) as (F1 & F2 & F3 & F4). unfold obj_fexit in *.
    destruct (common_fields tbuf ms ev Ht He (jkey "ret" +:+ fmt_d (s64 (ev_offset ev)) +:+ String "}" (String newline EmptyString)))
      as (C1 & C2 & C3 & C4 & C5).
    rewrite C2, C3, C4, C5, F2, F3, F4, C1. cbn [default]. unfold act. by rewrite action_fexit, Ef, F1.
  - destruct (check_fields tbuf ms ev Ht He (String newline EmptyString)) as (F1 & F2 & F3). unfold obj_check in *.
    destruct (common_fields tbuf ms ev Ht He ((jkey "rip" +:+ q1) +:+ ("0x" +:+ fmt_x (syscall_rip ev)) +:+ (q1 +:+ ",") +:+
      (jkey "offset" +:+ q1) +:+ ("0x" +:+ fmt_x (ev_offset ev)) +:+ (q1 +:+ ",") +:+
      jkey "module" +:+ fmt_u (ev_module_id ev) +:+ String "}" (String newline EmptyString))) as (C1 & C2 & C3 & C4 & C5).
    assert (P6 tbuf ms ev +:+ jkey "module" +:+ fmt_u (ev_module_id ev) +:+ String "}" (String newline EmptyString) =
      P4 tbuf ms ev +:+ (jkey "rip" +:+ q1) +:+ ("0x" +:+ fmt_x (syscall_rip ev)) +:+ (q1 +:+ ",") +:+
      (jkey "offset" +:+ q1) +:+ ("0x" +:+ fmt_x (ev_offset ev)) +:+ (q1 +:+ ",") +:+
      jkey "module" +:+ fmt_u (ev_module_id ev) +:+ String "}" (String newline EmptyString)) as E
      by (unfold P6, P5; by rewrite !str_app_assoc).
    rewrite F1, F2, F3, E, C2, C3, C4, C5, C1. cbn [default]. unfold act. by rewrite action_fexit, Ef.
Qed.

Lemma no_newline_hex n : no_newline (fmt_x n) = true.
Proof.
  eapply str_forall_impl; [|apply (fmt_digits_hex 16 n EmptyString eq_refl)]. intros c Hc.
  destruct (Ascii.eqb newline c) eqn:E; [|done]. apply Ascii.eqb_eq in E. by subst c.
Qed.

Lemma no_newline_dec n : 0 <= n -> no_newline (fmt_u n) = true.
Proof.
  apply fmt_digits_chars; [|done]. intros d Hd. by apply (digit_char_cases d (fun c => negb (Ascii.eqb newline c) = true)).
Qed.

Lemma no_newline_signed z : no_newline (fmt_d z) = true /\ (- 9223372036854775808 <= z < 9223372036854775808 -> (strlen (fmt_d z) <= 21)%nat).
Proof.
  unfold fmt_d. destruct (z <? 0) eqn:E; boolify.
  - split; [exact (no_newline_dec (- z) ltac:(lia))|]. intros Hz. pose proof (fmt_u_len_u64 (- z) ltac:(ulia)). cbn [String.length]. lia.
  - split; [by apply no_newline_dec|]. intros Hz. pose proof (fmt_u_len_u64 z ltac:(ulia)). lia.
Qed.

Lemma no_newline_03 ms : 0 <= ms < 1000 -> no_newline (fmt_03 ms) = true.
Proof.
  intros H. unfold no_newline, fmt_03. cbn [str_forall].
  assert (forall d, 0 <= d < 10 -> negb (Ascii.eqb newline (digit_char d)) = true) as Hd
    by (intros d Hd; by apply (digit_char_cases d (fun c => negb (Ascii.eqb newline c) = true))).
  rewrite !Hd by lia. done.
Qed.

(** The object is one line, and fits its buffer. *)
Lemma audit_json_line tbuf ms ev :
  wf_stamp tbuf ms -> wf_event ev -> no_newline tbuf = true ->
  no_newline (audit_json tbuf ms ev) = true /\ (strlen (audit_json tbuf ms ev) < 300)%nat.
Proof.
  intros [_ _ Hl Hm] [H1 H2 H3 H4 H5 H6] Hn. unfold audit_json. rewrite !strlen_app.
  assert (forall a b, no_newline (a +:+ b) = no_newline a && no_newline b) as Hap by (intros; apply str_forall_app).
  rewrite !Hap, Hn, (no_newline_03 ms Hm), !no_newline_dec by ulia.
  assert (no_newline (action_str (action ev)) = true) as -> by by apply (action_check (action ev) no_newline).
  assert (strlen (action_str (action ev)) <= 16)%nat as Ha.
  { apply Nat.leb_le. by apply (action_check (action ev) (fun a => (strlen a <=? 16)%nat)). }
  pose proof (fmt_u_len_u32 _ H1). pose proof (fmt_u_len_u32 _ H2). pose proof (fmt_u_len_u32 _ H6).
  pose proof (fmt_u_len_u32 _ H5). pose proof (fmt_x_len_u64 _ H3). pose proof (fmt_x_len_u64 _ H4).
  assert (- 9223372036854775808 <= s64 (ev_offset ev) < 9223372036854775808) as Hb
    by (unfold s64; destruct (_ <? _) eqn:E; boolify; ulia).
  destruct (no_newline_signed (s64 (ev_offset ev))) as [N1 N2]. specialize (N2 Hb).
  change (strlen (fmt_03 ms)) with 3%nat.
  destruct (action ev =? EVENT_FEXIT_OK); rewrite !Hap, !strlen_app, ?N1, ?no_newline_hex, ?no_newline_dec by ulia;
    (split; [reflexivity|]);
    repeat match goal with |- context [strlen (jkey ?k)] => let n := eval vm_compute in (strlen (jkey k)) in change (strlen (jkey k)) with n end;
    change (strlen q1) with 1%nat; cbn [String.length]; lia.
Qed.

(** ** Statistics *)

Definition is_allow (a : string) : bool := existsb (streq a) ["ALLOW"; "ALLOW+CFI"].
Definition is_blocked (a : string) : bool :=
  existsb (streq a) ["BLOCK"; "CFI-FAIL"; "NR-MISMATCH"; "PERMISSIVE"; "LIB-DENY"; "SHADOW-FAIL"; "FALLBACK"; "KOBJ-DENY"].

Lemma count_action_step a c :
  total_events (count_action a c) = u64 (total_events c + 1) /\
  total_allow (count_action a c) = (if is_allow a then u64 (total_allow c + 1) else total_allow c) /\
  total_block (count_action a c) = (if is_blocked a then u64 (total_block c + 1) else total_block c).
Proof.
  destruct c as [c1 c2 c3 c4 c5 c6 c7 c8 c9 c10 c11 c12 c13 c14 c15]. unfold count_action.
  repeat match goal with |- context [if streq a ?x then _ else _] =>
    let E := fresh "E" in destruct (streq a x) eqn:E; [apply streq_eq in E; subst a; by split_and!|] end.
  unfold is_allow, is_blocked. cbn [existsb total_events total_allow total_block].
  repeat match goal with H : streq a _ = false |- _ => rewrite H; clear H end. done.
Qed.

Definition tally (f : string -> bool) (evs : list tui_event) : Z :=
  Z.of_nat (length (List.filter (fun e => f (te_action e)) evs)).

Lemma tally_snoc f evs e : tally f (evs ++ [e]) = tally f evs + (if f (te_action e) then 1 else 0).
Proof. unfold tally. rewrite List.filter_app, length_app. cbn. case_match; cbn; lia. Qed.

Lemma tally_le f evs : 0 <= tally f evs <= Z.of_nat (length evs).
Proof. unfold tally. pose proof (List.filter_length_le (fun e => f (te_action e)) evs). lia. Qed.

Lemma bump_stats_ok nr f room l :
  (forall s, ss_nr (f s) = ss_nr s) -> NoDup (ss_nr <$> l) -> (length l <= room)%nat ->
  (forall x, x ∈ ss_nr <$> bump_stats nr f room l -> x ∈ ss_nr <$> l \/ x = nr) /\
  NoDup (ss_nr <$> bump_stats nr f room l) /\ (length (bump_stats nr f room l) <= room)%nat.
Proof.
  intros Hf. revert room. induction l as [|s l IH]; intros room Hnd Hl; cbn [bump_stats].
  - destruct (0 <? room)%nat eqn:E; boolify; cbn.
    + rewrite Hf. split_and!; [set_solver|apply NoDup_singleton|lia].
    + split_and!; [set_solver|constructor|lia].
  - cbn [fmap list_fmap length] in *. apply NoDup_cons in Hnd as [Hni Hnd]. destruct (ss_nr s =? nr) eqn:E; boolify.
    + cbn. rewrite Hf. split_and!; [set_solver|by apply NoDup_cons|lia].
    + destruct (IH (room - 1)%nat Hnd ltac:(lia)) as (H1 & H2 & H3). cbn. split_and!; [|apply NoDup_cons; split; [|done]|lia].
      * intros x [->|Hx]%elem_of_cons; [left; by left|]. destruct (H1 x Hx); [left; by right|by right].
      * intros Hx. destruct (H1 _ Hx); done.
Qed.

Lemma count_syscall_ok a nr l :
  NoDup (ss_nr <$> l) -> (length l <= MAX_SYSCALLS)%nat ->
  NoDup (ss_nr <$> count_syscall a nr l) /\ (length (count_syscall a nr l) <= MAX_SYSCALLS)%nat.
Proof.
  intros H1 H2. unfold count_syscall. repeat case_match; [..|done]; by apply bump_stats_ok.
Qed.

(** The dashboard after a sequence of events. *)
Record shows (d : dashboard) (evs : list tui_event) : Prop := {
  sh_events : total_events (totals d) = Z.of_nat (length evs);
  sh_allow : total_allow (totals d) = tally is_allow evs;
  sh_block : total_block (totals d) = tally is_blocked evs;
  sh_syscalls : NoDup (ss_nr <$> sys_stats d) /\ (length (sys_stats d) <= MAX_SYSCALLS)%nat;
  sh_len : length (history d) = Nat.min (length evs) MAX_HISTORY;
  sh_idx : history_idx d = (length evs mod MAX_HISTORY)%nat;
  sh_history : forall i, (length evs - MAX_HISTORY <= i < length evs)%nat ->
    history d !! (i mod MAX_HISTORY)%nat = evs !! i;
}.

Lemma push_history_ok e evs h idx :
  length h = Nat.min (length evs) MAX_HISTORY -> idx = (length evs mod MAX_HISTORY)%nat ->
  (forall i, (length evs - MAX_HISTORY <= i < length evs)%nat -> h !! (i mod MAX_HISTORY)%nat = evs !! i) ->
  let r := push_history e h idx in
  length r.1 = Nat.min (S (length evs)) MAX_HISTORY /\ r.2 = (S (length evs) mod MAX_HISTORY)%nat /\
  forall i, (S (length evs) - MAX_HISTORY <= i < S (length evs))%nat -> r.1 !! (i mod MAX_HISTORY)%nat = (evs ++ [e]) !! i.
Proof.
  intros Hl -> Hh. unfold push_history. cbn [fst snd]. unfold MAX_HISTORY in *.
  pose proof (Nat.mod_upper_bound (length evs) 256 ltac:(lia)) as Hub.
  assert ((length evs mod 256 + 1) mod 256 = S (length evs) mod 256)%nat as Hidx.
  { rewrite Nat.add_1_r, <- Nat.add_1_r, Nat.Div0.add_mod_idemp_l. f_equal. lia. }
  assert (forall i, (i < length evs)%nat -> (evs ++ [e]) !! i = evs !! i) as Hold by (intros; by apply lookup_app_l).
  assert ((evs ++ [e]) !! length evs = Some e) as Hnew by by apply list_lookup_middle.
  destruct (length evs mod 256 <? length h)%nat eqn:E; boolify.
  - rewrite length_insert. split_and!; [|done|].
    + rewrite Hl in *. destruct (decide (length evs < 256)%nat); [|lia]. rewrite Nat.mod_small in E by lia. lia.
    + intros i Hi. destruct (decide (i = length evs)) as [->|Hne].
      * rewrite list_lookup_insert_eq by done. done.
      * rewrite list_lookup_insert_ne, Hold by lia || (intros Heq; pose proof (Nat.div_mod i 256); pose proof (Nat.div_mod (length evs) 256); lia).
        apply Hh. lia.
  - rewrite length_app. cbn [length]. assert (length evs < 256)%nat as Hs by lia. rewrite Nat.mod_small in E by lia.
    split_and!; [lia|done|]. intros i Hi. rewrite Nat.mod_small by lia. destruct (decide (i = length evs)) as [->|Hne].
    + rewrite Hnew. replace (length evs) with (length h) by lia. by apply list_lookup_middle.
    + rewrite lookup_app_l, Hold by lia. rewrite <- (Nat.mod_small i 256) at 1 by lia. apply Hh. lia.
Qed.

Lemma update_shows e d evs :
  shows d evs -> Z.of_nat (length evs) < 18446744073709551615 -> shows (update_stats e d) (evs ++ [e]).
Proof.
  intros [H1 H2 H3 [H4 H4'] H5 H6 H7] Hn. unfold update_stats.
  destruct (count_action_step (te_action e) (totals d)) as (C1 & C2 & C3).
  pose proof (push_history_ok e evs (history d) (history_idx d) H5 H6 H7) as (P1' & P2' & P3').
  destruct (push_history e (history d) (history_idx d)) as [h i]. cbn [fst snd] in *.
  pose proof (tally_le is_allow evs). pose proof (tally_le is_blocked evs).
  split; cbn [totals sys_stats history history_idx]; rewrite ?length_app, ?Nat.add_1_r; try done.
  - rewrite C1, H1. cbn [length]. clear - Hn. ulia.
  - rewrite C2, H2, tally_snoc. clear - Hn H. destruct (is_allow _); ulia.
  - rewrite C3, H3, tally_snoc. clear - Hn H0. destruct (is_blocked _); ulia.
  - by apply count_syscall_ok.
Qed.

(** The dashboard of a sequence of events. *)
Definition dashboard_of (evs : list tui_event) : dashboard :=
  fold_left (fun d e => update_stats e d) evs empty_dashboard.

Lemma dashboard_shows evs : Z.of_nat (length evs) < 18446744073709551616 -> shows (dashboard_of evs) evs.
Proof.
  induction evs as [|e evs IH] using rev_ind; intros Hn.
  - split; try done. split; [constructor|]. cbn. unfold MAX_SYSCALLS. lia.
  - unfold dashboard_of. rewrite fold_left_app. rewrite length_app in Hn. cbn in Hn. apply update_shows; [apply IH; lia|lia].
Qed.

(** A line of the loader, as the dashboard reads it. *)
Definition printed (tbuf : string) (ms : Z) (ev : audit_event) : string :=
  audit_json tbuf ms ev +:+ String newline EmptyString.

Lemma tui_line_printed tbuf ms ev d :
  wf_stamp tbuf ms -> wf_event ev -> tui_line (printed tbuf ms ev) d = update_stats (seen_event tbuf ms ev) d.
Proof.
  intros Ht He. pose proof (parse_printed tbuf ms ev Ht He) as Hp. fold (printed tbuf ms ev) in Hp.
  unfold tui_line. assert (exists r, printed tbuf ms ev = String "{" r) as [r Hr] by (eexists; reflexivity).
  rewrite Hr in *. change (skip_indent (String "{" r)) with (String "{" r). cbv iota. by rewrite Hp.
Qed.

(** ** Theorems *)

Record report := Report { rp_tbuf : string; rp_ms : Z; rp_event : audit_event }.
Record wf_report (r : report) : Prop := {
  wr_stamp : wf_stamp (rp_tbuf r) (rp_ms r);
  wr_one_line : no_newline (rp_tbuf r) = true;
  wr_event : wf_event (rp_event r);
}.

(** The output of the loader for a sequence of events. *)
Definition loader_output (rs : list report) : string :=
  foldr (fun r s => match audit_event_handler true false (rp_tbuf r) (rp_ms r) AUDIT_EVENT_SIZE (rp_event r) with
                    | Some (Printed line) => line +:+ s
                    | _ => s
                    end) EmptyString rs.

Lemma handler_prints r : wf_report r ->
  audit_event_handler true false (rp_tbuf r) (rp_ms r) AUDIT_EVENT_SIZE (rp_event r)
  = Some (Printed (printed (rp_tbuf r) (rp_ms r) (rp_event r))).
Proof.
  intros [H1 H2 H3]. destruct (audit_json_line _ _ _ H1 H3 H2) as [_ Hl]. unfold audit_event_handler.
  cbn [Z.ltb]. rewrite Z.ltb_irrefl. rewrite (proj2 (Nat.leb_gt _ _)) by (unfold JSON_BUF; lia). done.
Qed.

Lemma loader_output_read rs : Forall wf_report rs ->
  tui_run (loader_output rs) = dashboard_of ((fun r => seen_event (rp_tbuf r) (rp_ms r) (rp_event r)) <$> rs).
Proof.
  intros Hw. set (lines := (fun r => printed (rp_tbuf r) (rp_ms r) (rp_event r)) <$> rs).
  assert (loader_output rs = file_of lines) as ->.
  { subst lines. induction Hw as [|r rs Hr _ IH]; [done|]. cbn [loader_output foldr]. rewrite handler_prints by done.
    change (file_of _) with (printed (rp_tbuf r) (rp_ms r) (rp_event r) +:+ file_of ((fun r => printed (rp_tbuf r) (rp_ms r) (rp_event r)) <$> rs)).
    by rewrite <- IH. }
  unfold tui_run. rewrite fgets_file.
  - subst lines. unfold dashboard_of. generalize empty_dashboard. induction Hw as [|r rs Hr _ IH]; intros d; [done|].
    cbn [fmap list_fmap fold_left]. rewrite tui_line_printed by apply Hr. apply IH.
  - subst lines. apply Forall_fmap. eapply Forall_impl; [exact Hw|]. intros r [H1 H2 H3]. cbn.
    destruct (audit_json_line _ _ _ H1 H3 H2) as [Hn Hl]. split; [by apply one_line_app|].
    unfold printed. rewrite strlen_app. cbn [String.length]. lia.
Qed.

(** The dashboard reads back what the loader prints: no audit event is dropped
    or cut by the loader's buffer, and when the loader's JSON lines for any sequence of
    events are the dashboard's input, the dashboard processes exactly those events, in
    order, each with its action, process, thread, system call, and either its address,
    offset and module or its signed return value. *)
Theorem dashboard_reads_audit rs :
  Forall wf_report rs ->
  Forall (fun r => exists line, audit_event_handler true false (rp_tbuf r) (rp_ms r) AUDIT_EVENT_SIZE (rp_event r)
    = Some (Printed line)) rs /\
  tui_run (loader_output rs) = dashboard_of ((fun r => seen_event (rp_tbuf r) (rp_ms r) (rp_event r)) <$> rs).
Proof.
  intros Hw. split; [|by apply loader_output_read].
  eapply Forall_impl; [exact Hw|]. intros r Hr. eexists. by apply handler_prints.
Qed.

(** The statistics count the events: after fewer than [2^64] events, the totals
    are the numbers of all events, of the allowed ones and of the blocked ones (the
    seven kinds of refusal and those only reported in permissive mode); the table per
    system call has no number twice and at most 512; and the ring of events holds the
    last 256 (or all), each in the slot of its position modulo 256. *)
Theorem dashboard_counts evs :
  Z.of_nat (length evs) < 18446744073709551616 ->
  let d := dashboard_of evs in
  total_events (totals d) = Z.of_nat (length evs) /\
  total_allow (totals d) = Z.of_nat (length (List.filter (fun e => is_allow (te_action e)) evs)) /\
  total_block (totals d) = Z.of_nat (length (List.filter (fun e => is_blocked (te_action e)) evs)) /\
  NoDup (ss_nr <$> sys_stats d) /\ (length (sys_stats d) <= MAX_SYSCALLS)%nat /\
  length (history d) = Nat.min (length evs) MAX_HISTORY /\
  forall i, (length evs - MAX_HISTORY <= i < length evs)%nat -> history d !! (i mod MAX_HISTORY)%nat = evs !! i.
Proof.
  intros Hn d. destruct (dashboard_shows evs Hn) as [H1 H2 H3 [H4 H4'] H5 H6 H7]. by split_and!.
Qed.


(** ** Witnesses *)

Definition demo_reports : list report :=
  [Report "2026-01-31T12:00:00" 7 (AuditEvent 5 500 501 0x401000 0x1000 1 59 EVENT_BLOCK);
   Report "2026-01-31T12:00:01" 42 (AuditEvent 6 500 501 0 18446744073709551615 0 1 EVENT_FEXIT_OK)].

Lemma demo_reports_wf : Forall wf_report demo_reports.
Proof.
  repeat constructor; cbn; try reflexivity; try ulia.
  all: exists 2; eexists; split; [lia|reflexivity].
Qed.

Lemma dashboard_reads_audit_witness :
  tui_run (loader_output demo_reports) = dashboard_of
    [TuiEvent "BLOCK" 500 501 59 0 "0x401000" "0x1000" 1 "2026-01-31T12:00:00.007Z" false;
     TuiEvent "FEXIT" 500 501 1 (-1) EmptyString EmptyString 0 "2026-01-31T12:00:01.042Z" true].
Proof.
  destruct (dashboard_reads_audit demo_reports demo_reports_wf) as [_ H]. etransitivity; [exact H|]. vm_compute. reflexivity.
Defined.

Lemma dashboard_counts_witness :
  total_block (totals (dashboard_of ((fun r => seen_event (rp_tbuf r) (rp_ms r) (rp_event r)) <$> demo_reports))) = 1.
Proof.
  destruct (dashboard_counts ((fun r => seen_event (rp_tbuf r) (rp_ms r) (rp_event r)) <$> demo_reports)) as (_ & _ & H & _).
  - reflexivity.
  - etransitivity; [exact H|]. vm_compute. reflexivity.
Defined.
