(* ===== verification/AuditTrail.v ===== *)
(** * The audit trail, from the kernel to the screen

    The enforcer's programs, the loader's audit output and the dashboard composed:
    what the dashboard counts is what the enforcer did. *)

From S2P Require Import Prelude CStrings Enforcer EnforcerProofs KvmiMapsProofs LoaderCli Tui TuiProofs.
From stdpp Require Import prelude gmap strings list.
From Stdlib Require Import ZArith Lia Ascii.
#[local] Open Scope Z_scope.

(** ** The trail of the enforcer *)

(** The kinds of event that the dashboard counts as blocked. *)
Definition is_denial (act : Z) : bool := is_blocked (action_str act).

Definition wf_modules (e : enforcer) : Prop := Forall (fun t => is_u32 (module_id (te_value t))) (vma_map e).

(** The arguments that the hooks pass to the programs. *)
Definition wf_kernel_event (ev : kernel_event) : Prop :=
  match ev with
  | EvSyscall _ nr => is_u32 nr
  | EvForbidden _ nr event => is_u32 nr /\ (event = EVENT_BLOCK \/ event = EVENT_KOBJ_DENY)
  | EvReturn _ nr _ => is_u32 nr
  | EvFork _ parent child => is_u32 parent /\ is_u32 child
  | EvConnect _ _ => True
  end.

(** What a program adds to the ring and to the signals: while the ring has room,
    one denial is recorded for each signal, for the same process. *)
Record trail (e e' : enforcer) : Prop := {
  tr_vma : vma_map e' = vma_map e;
  tr_room : (ring_free e' <= ring_free e)%nat;
  tr_added : exists new sent,
    audit_ringbuf e' = audit_ringbuf e ++ new /\ signals e' = signals e ++ sent /\ Forall wf_event new /\
    ((0 < ring_free e')%nat -> sent.*1 = ev_tgid <$> List.filter (fun ev => is_denial (action ev)) new);
}.

#[global] Instance trail_preorder : PreOrder trail.
Proof.
  split.
  - intros e. split; [done|done|]. exists [], []. by rewrite !app_nil_r.
  - intros e1 e2 e3 [V1 R1 (n1 & s1 & A1 & S1 & W1 & D1)] [V2 R2 (n2 & s2 & A2 & S2 & W2 & D2)].
    split; [congruence|lia|]. exists (n1 ++ n2), (s1 ++ s2). rewrite A2, A1, S2, S1, <- !app_assoc.
    split_and!; [done|done|by apply Forall_app|]. intros Hr.
    rewrite fmap_app, List.filter_app, fmap_app. f_equal; [apply D1; lia|by apply D2].
Qed.

Section trail.
Context (cfg : bpf_config) (Henf : enforce_mode cfg <> ENFORCE_PERMISSIVE).

(** Programs that finish and leave such a trail. *)
Definition trails {A} (m : M enforcer A) : Prop :=
  forall e, wf_modules e -> wp m e (fun _ e' => trail e e').

Lemma trails_bind {A B} (m : M enforcer A) (f : A -> M enforcer B) :
  trails m -> (forall a, trails (f a)) -> trails (m ≫= f).
Proof.
  intros Hm Hf e He. wp_step. eapply wp_mono; [by apply Hm|]. intros a e1 H1.
  eapply wp_mono; [apply Hf|]; [|intros b e2 H2; by transitivity e1].
  unfold wf_modules. by rewrite (tr_vma _ _ H1).
Qed.

Lemma trails_ret {A} (a : A) : trails (mret a).
Proof. intros e _. wp_step. reflexivity. Qed.

Lemma trails_gets {A} (f : enforcer -> A) : trails (gets f).
Proof. intros e _. wp_step. reflexivity. Qed.

Lemma trie_best_elem t k v : trie_best t k = Some v -> v ∈ t.
Proof.
  induction t as [|x t IH]; cbn; [done|]. destruct (trie_best t k) as [y|].
  - case_match; intros [= <-]; [left|right; by apply IH].
  - case_match; intros [= <-]. left.
Qed.

(** The module of a site is one of the map's. *)
Lemma trails_module {B} key (f : option vma_value -> M enforcer B) :
  trails (f None) -> (forall m, is_u32 (module_id m) -> trails (f (Some m))) ->
  trails (gets (fun e => trie_lookup (vma_map e) key) ≫= f).
Proof.
  intros Hn Hs e He. wp_step. wp_step. unfold trie_lookup. destruct (trie_best (vma_map e) key) as [t|] eqn:E; cbn; [|by apply Hn].
  apply Hs; [|done]. apply trie_best_elem in E. unfold wf_modules in He. rewrite Forall_forall in He. by apply He.
Qed.

Lemma trails_learn k v :
  trails (modify (fun e => match hash_update_noexist LEARN_MAP_SIZE k v (learn_map e) with
                           | Some l => set_learned l e | None => e end)).
Proof.
  intros e _. wp_step. destruct (hash_update_noexist _ _ _ _); [|reflexivity].
  split; [done|done|]. exists [], []. by rewrite !app_nil_r.
Qed.

Lemma trail_push e ev sent : wf_event ev -> sent.*1 = (if is_denial (action ev) then [ev_tgid ev] else []) ->
  trail e (fold_left (fun e s => push_signal s.1 s.2 e) sent (push_event ev e)).
Proof.
  intros Hw Hs. assert (forall sent d, let d' := fold_left (fun e s => push_signal s.1 s.2 e) sent d in
    vma_map d' = vma_map d /\ ring_free d' = ring_free d /\ audit_ringbuf d' = audit_ringbuf d /\
    signals d' = signals d ++ sent) as H.
  { clear. induction sent as [|[tg sg] l IH]; intros d; cbn; [by rewrite app_nil_r|].
    destruct (IH (push_signal tg sg d)) as (-> & -> & -> & ->). cbn. by rewrite <- app_assoc. }
  destruct (H sent (push_event ev e)) as (H1 & H2 & H3 & H4). split; [done|rewrite H2; cbn; lia|].
  exists [ev], sent. rewrite H3, H4. split_and!; [done..|by constructor|]. intros _. rewrite Hs. cbn [List.filter].
  by destruct (is_denial (action ev)).
Qed.

Lemma trails_emit c tgid tid rip off mid nr act :
  wf_event (AuditEvent (ktime c) tgid tid rip off mid nr (u8 act)) -> is_denial (u8 act) = false ->
  trails (emit_audit c tgid tid rip off mid nr act).
Proof.
  intros Hw Hd e _. unfold emit_audit. do 3 wp_step; [wp_step; reflexivity|]. wp_step.
  apply (trail_push e _ [] Hw). cbn [action]. by rewrite Hd.
Qed.

Lemma trails_deny c tid rip off mid nr act :
  wf_event (AuditEvent (ktime c) (ctx_tgid c) tid rip off mid nr (u8 act)) -> is_denial (u8 act) = true ->
  trails (deny_action cfg c (ctx_tgid c) tid rip off mid nr act).
Proof.
  intros Hw Hd e _. unfold deny_action. rewrite (proj2 (Z.eqb_neq _ _) Henf). wp_step.
  unfold emit_audit. do 3 wp_step.
  - wp_step. unfold bpf_send_signal. wp_step; wp_step; (split; [done|done|]; eexists [], [_]; cbn;
      rewrite app_nil_r; split_and!; [done|reflexivity|constructor|rewrite E; lia]).
  - wp_step. unfold bpf_send_signal. wp_step; wp_step.
    + apply (trail_push e _ [(ctx_tgid c, SIGTERM)] Hw). cbn [action]. by rewrite Hd.
    + apply (trail_push e _ [(ctx_tgid c, SIGKILL)] Hw). cbn [action]. by rewrite Hd.
Qed.

Ltac wf := split; cbn; unfold ctx_tgid, ctx_tid; first [assumption|apply u32_is_u32|apply u64_is_u64|ulia].

Ltac trails := repeat match goal with
  | |- trails (mret _) => apply trails_ret
  | |- trails (gets (fun e => trie_lookup (vma_map e) _) ≫= _) => apply trails_module; [|intros ? ?]
  | |- trails (gets _) => apply trails_gets
  | |- trails (_ ≫= _) => apply trails_bind; [|intros ?]
  | |- trails (deny_action _ _ _ _ _ _ _ _ _) => apply trails_deny; [wf|reflexivity]
  | |- trails (emit_audit _ _ _ _ _ _ _ _) => apply trails_emit; [wf|reflexivity]
  | |- trails (modify _) => apply trails_learn
  | |- trails (if ?b then _ else _) => destruct b
  | |- trails (match ?x with _ => _ end) => destruct x
  end.

Lemma fork_trails c parent child : is_u32 parent -> is_u32 child -> trails (sentinel_fork_track c parent child).
Proof.
  intros Hp Hc. unfold sentinel_fork_track. trails. intros e _. wp_step. split; [done|done|].
  exists [], []. by rewrite !app_nil_r.
Qed.

Lemma event_trails ev : wf_kernel_event ev -> trails (run_event cfg ev).
Proof.
  destruct ev; cbn [run_event wf_kernel_event]; intros Hw.
  - unfold sentinel_check, site_check, policy_check, nr_check, caller_check, shadow_check. trails.
  - destruct Hw as [Hnr [-> | ->]]; unfold deny_monitored; trails.
  - unfold fexit_audit. trails.
  - destruct Hw. by apply fork_trails.
  - unfold sentinel_socket_connect. trails.
Qed.

Lemma events_trails evs : Forall wf_kernel_event evs -> trails (run_events cfg evs).
Proof.
  induction 1 as [|ev evs Hev _ IH]; cbn [run_events]; [apply trails_ret|].
  apply trails_bind; [by apply event_trails|done].
Qed.
End trail.

(** ** Room in the ring *)

(** Programs that take at most [k] places of the ring. *)
Section room.
Context (cfg : bpf_config).

Definition emits {A} (k : nat) (m : M enforcer A) : Prop :=
  forall e, wp m e (fun _ e' => ring_free e <= ring_free e' + k)%nat.

Lemma emits_bind {A B} k1 k2 (m : M enforcer A) (f : A -> M enforcer B) :
  emits k1 m -> (forall a, emits k2 (f a)) -> emits (k1 + k2) (m ≫= f).
Proof.
  intros Hm Hf e. wp_step. eapply wp_mono; [apply Hm|]. intros a e1 H1. cbn in H1.
  eapply wp_mono; [apply Hf|]. intros b e2 H2. cbn in *. lia.
Qed.

Lemma emits_ret {A} k (a : A) : emits k (mret a).
Proof. intros e. wp_step. lia. Qed.

Lemma emits_gets {A} k (f : enforcer -> A) : emits k (gets f).
Proof. intros e. wp_step. lia. Qed.

Lemma emits_modify k f : (forall e, ring_free (f e) = ring_free e) -> emits k (modify f).
Proof. intros Hf e. wp_step. rewrite Hf. lia. Qed.

Lemma emits_emit k c tgid tid rip off mid nr act : emits (S k) (emit_audit c tgid tid rip off mid nr act).
Proof. intros e. unfold emit_audit. do 3 wp_step; wp_step; cbn; lia. Qed.

Lemma emits_deny k c tgid tid rip off mid nr act : emits (S k) (deny_action cfg c tgid tid rip off mid nr act).
Proof.
  unfold deny_action. case_match; [apply emits_emit|]. rewrite <- (Nat.add_0_r (S k)).
  apply emits_bind; [apply emits_emit|]. intros _. case_match; by apply emits_modify.
Qed.

Ltac emits := repeat match goal with
  | |- emits _ (mret _) => apply emits_ret
  | |- emits _ (gets _) => apply emits_gets
  | |- emits _ (modify (set_targets _)) => by apply emits_modify
  | |- emits _ (modify _) => apply emits_modify; intros ?; by case_match
  | |- emits _ (emit_audit _ _ _ _ _ _ _ _) => apply emits_emit
  | |- emits _ (deny_action _ _ _ _ _ _ _ _ _) => apply emits_deny
  | |- emits ?k (gets _ ≫= _) => apply (emits_bind 0 k); [|intros ?]
  | |- emits ?k (modify _ ≫= _) => apply (emits_bind 0 k); [|intros ?]
  | |- emits ?k (_ ≫= (fun _ => mret _)) => rewrite <- (Nat.add_0_r k); apply emits_bind; [|intros ?]
  | |- emits _ (if ?b then _ else _) => destruct b
  | |- emits _ (match ?x with _ => _ end) => destruct x
  end.

Lemma event_emits ev : emits 2 (run_event cfg ev).
Proof.
  destruct ev; cbn [run_event].
  - unfold sentinel_check, site_check, policy_check, nr_check. emits.
    apply (emits_bind 1 1); [unfold shadow_check; emits|]. intros ?. unfold caller_check. emits.
  - unfold deny_monitored. emits.
  - unfold fexit_audit. emits.
  - unfold sentinel_fork_track. emits.
  - unfold sentinel_socket_connect. emits.
Qed.

Lemma events_emit evs : emits (2 * length evs) (run_events cfg evs).
Proof.
  induction evs as [|ev evs IH]; cbn [run_events length]; [apply emits_ret|].
  rewrite Nat.mul_succ_r, Nat.add_comm. by apply emits_bind; [apply event_emits|].
Qed.
End room.

(** ** To the screen *)

Definition seen_of (r : report) : tui_event := seen_event (rp_tbuf r) (rp_ms r) (rp_event r).

Lemma filter_seen rs :
  te_pid <$> List.filter (fun t => is_blocked (te_action t)) (seen_of <$> rs) =
  ev_tgid <$> List.filter (fun ev => is_denial (action ev)) (rp_event <$> rs).
Proof.
  induction rs as [|r rs IH]; [done|]. rewrite !fmap_cons. cbn [List.filter].
  change (is_blocked (te_action (seen_of r))) with (is_denial (action (rp_event r))).
  destruct (is_denial _); [|done]. rewrite !fmap_cons. by f_equal.
Qed.

Record wf_stamped (r : report) : Prop := {
  wt_stamp : wf_stamp (rp_tbuf r) (rp_ms r);
  wt_one_line : no_newline (rp_tbuf r) = true;
}.

Lemma stamped_wf rs : Forall wf_stamped rs -> Forall wf_event (rp_event <$> rs) -> Forall wf_report rs.
Proof.
  rewrite Forall_fmap, !Forall_forall. intros Hs He r Hr. destruct (Hs r Hr). split; [done..|]. by apply He.
Qed.

(** C6. Every denial reaches the screen: for any sequence of system calls, forbidden
    calls, returns, forks and connections in an enforcing mode, and a ring with room
    for two records per event, the enforcer sends its signals, and when the loader
    prints the records of the ring as JSON for the dashboard, whatever the times are,
    the number of blocked events on the dashboard is the number of processes that
    were signalled, and the blocked events are theirs, in the order of the signals. *)
Theorem denials_reach_dashboard cfg evs e :
  enforce_mode cfg <> ENFORCE_PERMISSIVE -> wf_modules e -> Forall wf_kernel_event evs ->
  audit_ringbuf e = [] -> (2 * length evs < ring_free e)%nat ->
  exists e' sent, run_events cfg evs e = Some (tt, e') /\ signals e' = signals e ++ sent /\
    forall rs, rp_event <$> rs = audit_ringbuf e' -> Forall wf_stamped rs ->
      Z.of_nat (length rs) < 18446744073709551616 ->
      let d := tui_run (loader_output rs) in
      d = dashboard_of (seen_of <$> rs) /\
      total_events (totals d) = Z.of_nat (length (audit_ringbuf e')) /\
      total_block (totals d) = Z.of_nat (length sent) /\
      sent.*1 = te_pid <$> List.filter (fun t => is_blocked (te_action t)) (seen_of <$> rs).
Proof.
  intros Henf Hwf Hev Hr Hroom. destruct (events_trails cfg Henf evs Hev e Hwf) as ([] & e' & Hrun & [_ _ Ha]).
  destruct Ha as (new & sent & Hnew & Hsent & Hwn & Hd).
  pose proof (wp_run _ _ _ _ _ (events_emit cfg evs e) Hrun) as Hk. cbn beta in Hk. rewrite Hr in Hnew. cbn in Hnew.
  exists e', sent. split; [done|]. split; [done|]. intros rs Hrs Hst Hlen d.
  assert (d = dashboard_of (seen_of <$> rs)) as Hdash.
  { apply loader_output_read, stamped_wf; [done|]. by rewrite Hrs, Hnew. }
  assert (sent.*1 = te_pid <$> List.filter (fun t => is_blocked (te_action t)) (seen_of <$> rs)) as Hs.
  { rewrite filter_seen, Hrs, Hnew. apply Hd. lia. }
  split; [done|]. rewrite Hdash. destruct (dashboard_shows (seen_of <$> rs)) as [H1 _ H3 _ _ _ _]; [by rewrite length_fmap|].
  rewrite H1, H3. split_and!; [|unfold tally; f_equal|done].
  - by rewrite <- Hrs, !length_fmap.
  - apply (f_equal length) in Hs. by rewrite !length_fmap in Hs.
Qed.

Definition trail_cfg : bpf_config := BpfConfig 1 1 ENFORCE_KILL 0 0 0 0.
Definition trail_state : enforcer :=
  Enforcer ∅ [] {[500 := 1]} ∅ ∅ ∅ ∅ ∅ ∅ 16 [] [].
Definition trail_ctx : hook_ctx := HookCtx (500 * 4294967296 + 501) 0 (Some 0x401002) None 7.
Definition trail_events : list kernel_event :=
  [EvFork trail_ctx 500 600; EvSyscall trail_ctx 59; EvReturn trail_ctx 1 (-1); EvForbidden trail_ctx 321 EVENT_KOBJ_DENY].

(** What the dashboard shows of a fork, a call from unknown code, a return and a
    call of bpf. *)
Lemma denials_reach_dashboard_witness :
  exists e' sent, run_events trail_cfg trail_events trail_state = Some (tt, e') /\ signals e' = sent /\
    let d := tui_run (loader_output (Report "2026-01-31T12:00:00" 7 <$> audit_ringbuf e')) in
    total_events (totals d) = Z.of_nat (length (audit_ringbuf e')) /\ total_block (totals d) = Z.of_nat (length sent) /\
    length sent = 2%nat.
Proof.
  destruct (denials_reach_dashboard trail_cfg trail_events trail_state) as (e' & sent & Hrun & Hs & H).
  - done.
  - constructor.
  - repeat constructor; cbn; (ulia || by right).
  - done.
  - cbn. lia.
  - exists e', sent. split; [done|]. split; [done|].
    assert (exists r, run_events trail_cfg trail_events trail_state = Some r) as [[[] e1] E] by (eexists; vm_compute; reflexivity).
    assert (e1 = e') as -> by (rewrite E in Hrun; by injection Hrun).
    destruct (H (Report "2026-01-31T12:00:00" 7 <$> audit_ringbuf e')) as (_ & H1 & H2 & H3).
    + rewrite <- list_fmap_compose. apply list_fmap_id.
    + apply Forall_fmap, Forall_forall. intros ev _. split; [|done]. split; cbn; try done; [|lia].
      exists 2. eexists. split; [lia|reflexivity].
    + rewrite length_fmap. vm_compute in E. injection E as <-. by vm_compute.
    + split; [done|]. split; [done|]. vm_compute in E. injection E as <-. cbn in Hs. by rewrite <- Hs.
Defined.
