(* ===== verification/TuiRender.v ===== *)
(** * Drawing the dashboard (sentinel_tui.c)

    The frame that [render] prints, line by line, and the session: when frames
    are drawn, and what [main] does with its arguments and its input. *)

From S2P Require Import Prelude CStrings KvmiSetup LoaderTrust LoaderCli Tui.
From stdpp Require Import prelude strings list.
From Stdlib Require Import ZArith Lia Ascii.
#[local] Open Scope string_scope.
#[local] Open Scope list_scope.
#[local] Open Scope Z_scope.

Definition VERSION : string := "4.4.0".

(** ** Escape codes *)

Definition esc (s : string) : string := String "027" s.
Definition CLR : string := esc "[H" +:+ esc "[J".
Definition BOLD : string := esc "[1m".
Definition DIM : string := esc "[2m".
Definition RED : string := esc "[31m".
Definition GREEN : string := esc "[32m".
Definition YELLOW : string := esc "[33m".
Definition CYAN : string := esc "[36m".
Definition RESET : string := esc "[0m".

(** ** Text *)

Definition syscall_names : list (Z * string) :=
  [(0, "read"); (1, "write"); (2, "open"); (3, "close"); (9, "mmap"); (10, "mprotect"); (16, "ioctl"); (33, "dup2");
   (42, "connect"); (46, "sendmsg"); (56, "clone"); (57, "fork"); (59, "execve"); (101, "ptrace"); (157, "prctl");
   (257, "openat"); (311, "vm_writev"); (317, "seccomp"); (272, "unshare"); (308, "setns"); (319, "memfd_create");
   (321, "bpf")].

(** The switch: the name of the case with the number. *)
Fixpoint assoc_name (table : list (Z * string)) (nr : Z) : option string :=
  match table with
  | [] => None
  | (k, name) :: rest => if nr =? k then Some name else assoc_name rest nr
  end.
Definition syscall_name (nr : Z) : option string := assoc_name syscall_names nr.

Definition action_color (action : string) : string :=
  if streq action "ALLOW" || streq action "ALLOW+CFI" then GREEN
  else if streq action "BLOCK" || streq action "CFI-FAIL" || streq action "NR-MISMATCH" then RED
  else if streq action "FORK-TRACK" then CYAN
  else if streq action "FEXIT" then YELLOW
  else RESET.

(** ** The terminal *)

(** The window size, when the terminal has one. *)
Record winsize := Winsize { ws_row : Z; ws_col : Z }.

Definition get_term_width (ws : option winsize) : Z :=
  match ws with Some w => if 0 <? ws_col w then ws_col w else 80 | None => 80 end.
Definition get_term_height (ws : option winsize) : Z :=
  match ws with Some w => if 0 <? ws_row w then ws_row w else 24 | None => 24 end.

(** ** One frame *)

Definition rule_line (width : Z) : string := BOLD +:+ CYAN +:+ repeat_char "=" (Z.to_nat width) +:+ RESET.

Definition title_line (events elapsed : Z) : string :=
  BOLD +:+ "  Sentinel-CC Dashboard v" +:+ VERSION +:+ RESET +:+
  (if 0 <? elapsed then
     "  |  " +:+ fmt_u events +:+ " events  |  " +:+ fmt_u (events / elapsed) +:+ " evt/s  |  uptime " +:+ fmt_d elapsed +:+ "s"
   else EmptyString).

Definition counter (color label : string) (n : Z) : string := color +:+ label +:+ ": " +:+ fmt_u n +:+ RESET.

(** A counter that is only shown when it is not zero. *)
Definition extra (color label : string) (n : Z) : string :=
  if 0 <? n then "  " +:+ counter color label n else EmptyString.

Definition counters_line (c : counters) : string :=
  "    " +:+ counter GREEN "ALLOW" (total_allow c) +:+ "  " +:+ counter RED "BLOCK" (total_block c) +:+ "  " +:+
  counter GREEN "CFI-OK" (total_cfi_ok c) +:+ "  " +:+ counter RED "CFI-FAIL" (total_cfi_fail c) +:+ "  " +:+
  counter RED "NR-MISMATCH" (total_nr_mismatch c) +:+ "  " +:+ counter CYAN "FORK" (total_fork c) +:+ "  " +:+
  counter YELLOW "FEXIT" (total_fexit c) +:+
  extra YELLOW "PERMISSIVE" (total_permissive c) +:+ extra YELLOW "LEARN" (total_learn c) +:+
  extra GREEN "SHADOW-OK" (total_shadow_ok c) +:+ extra RED "SHADOW-FAIL" (total_shadow_fail c) +:+
  extra RED "LIB-DENY" (total_lib_deny c) +:+ extra RED "FALLBACK" (total_fallback c).

Definition stats_label (nr : Z) : string :=
  strncpyz 32 (match syscall_name nr with
               | Some name => name +:+ "(" +:+ fmt_u nr +:+ ")"
               | None => "NR=" +:+ fmt_u nr
               end).

Definition stats_line (s : syscall_stats) : string :=
  "    " +:+ pad_right 14 (stats_label (ss_nr s)) +:+ " " +:+ GREEN +:+ pad_left 10 (fmt_u (allow_count s)) +:+ RESET +:+ " " +:+
  RED +:+ pad_left 10 (fmt_u (block_count s)) +:+ RESET +:+ " " +:+ YELLOW +:+ pad_left 10 (fmt_u (fexit_count s)) +:+ RESET.

(** At most 12 system calls, in the order in which they were first seen. *)
Definition breakdown (l : list syscall_stats) : list string :=
  match l with
  | [] => []
  | _ =>
      [BOLD +:+ "  Per-Syscall Breakdown:" +:+ RESET;
       "    " +:+ pad_right 14 "Syscall" +:+ " " +:+ pad_left 10 "Allow" +:+ " " +:+ pad_left 10 "Block" +:+ " " +:+
         pad_left 10 "Fexit";
       "    " +:+ pad_right 14 "──────────────" +:+ " " +:+ pad_left 10 "──────────" +:+ " " +:+ pad_left 10 "──────────" +:+
         " " +:+ pad_left 10 "──────────"] ++ (stats_line <$> take 12 l) ++ [EmptyString]
  end.

(** The number of events in the tail. *)
Definition avail (height : Z) (sys_stats_count history_count : nat) : nat :=
  let room := height - 16 - (if (0 <? sys_stats_count)%nat then Z.of_nat sys_stats_count + 4 else 0) in
  Nat.min (Z.to_nat (if room <? 3 then 3 else room)) history_count.

Definition event_line (e : tui_event) : string :=
  let text s := match s with EmptyString => "-" | _ => s end in
  let head := "    " +:+ action_color (te_action e) +:+ pad_right 12 (te_action e) +:+ RESET +:+ " " +:+
    pad_right 6 (fmt_u (te_pid e)) +:+ " " +:+ pad_right 6 (fmt_u (te_tid e)) +:+ " " +:+ pad_right 3 (fmt_u (te_syscall_nr e)) in
  if te_is_fexit e then head +:+ " " +:+ pad_right 14 "-" +:+ " ret=" +:+ fmt_d (te_ret e)
  else head +:+ " " +:+ pad_right 14 (text (te_rip e)) +:+ " " +:+ text (te_offset e).

(** The ring, read backwards from the write index. *)
Definition back_index (history_idx i : nat) : nat :=
  Z.to_nat (Z.rem (Z.of_nat history_idx - 1 - Z.of_nat i + Z.of_nat MAX_HISTORY) (Z.of_nat MAX_HISTORY)).
Definition tail_events (d : dashboard) (n : nat) : list tui_event :=
  omap (fun i => history d !! back_index (history_idx d) i) (seq 0 n).

Definition recent (d : dashboard) (height : Z) : list string :=
  let n := avail height (length (sys_stats d)) (length (history d)) in
  [BOLD +:+ "  Recent Events (" +:+ fmt_u (Z.of_nat n) +:+ " shown):" +:+ RESET;
   DIM +:+ "    " +:+ pad_right 12 "Action" +:+ " " +:+ pad_right 6 "PID" +:+ " " +:+ pad_right 6 "TID" +:+ " " +:+
     pad_right 3 "NR" +:+ " " +:+ pad_right 14 "RIP" +:+ " " +:+ pad_right 12 "Offset/Ret" +:+ RESET] ++
  (event_line <$> tail_events d n).

(** The lines of a frame. *)
Definition render_lines (ws : option winsize) (elapsed : Z) (d : dashboard) : list string :=
  let width := get_term_width ws in
  [CLR +:+ rule_line width; title_line (total_events (totals d)) elapsed; rule_line width;
   BOLD +:+ "  Counters:" +:+ RESET; counters_line (totals d); EmptyString] ++
  breakdown (sys_stats d) ++ recent d (get_term_height ws) ++
  [EmptyString; DIM +:+ "  Press Ctrl+C to exit" +:+ RESET].

(** ** The session *)

(** What the outside answers while a frame is drawn: the size of the terminal, and
    the clock, which is read for the start time and for the elapsed time. *)
Record moment := Moment { mo_size : option winsize; mo_start : Z; mo_time : Z }.

(** [render] keeps the time of its first call. *)
Definition render (mo : moment) (start_time : Z) (d : dashboard) : Z * list string :=
  let start := if start_time =? 0 then mo_start mo else start_time in
  (start, render_lines (mo_size mo) (mo_time mo - start) d).

(** What the outside answers for one line of the input: whether a signal has come,
    the clock, and the moment of the frame. *)
Record turn := Turn { tu_running : bool; tu_now : Z; tu_moment : moment }.

Record session := Session { se_dash : dashboard; se_start : Z; se_last : Z; se_frames : list (list string) }.

(** One turn of the loop: a frame when the second has changed. *)
Definition session_line (tu : turn) (line : string) (s : session) : session :=
  match skip_indent line with
  | String "{" _ as p =>
      match parse_event p with
      | None => s
      | Some e =>
          let d := update_stats e (se_dash s) in
          if tu_now tu =? se_last s then Session d (se_start s) (se_last s) (se_frames s)
          else let '(start, frame) := render (tu_moment tu) (se_start s) d in
               Session d start (tu_now tu) (se_frames s ++ [frame])
      end
  | _ => s
  end.

Fixpoint session_loop (turns : nat -> turn) (i : nat) (lines : list string) (s : session) : session :=
  match lines with
  | [] => s
  | line :: rest => if tu_running (turns i) then session_loop turns (S i) rest (session_line (turns i) line s) else s
  end.

Inductive tui_exit :=
| TuiHelp
| TuiVersion
| TuiNoInput
| TuiDone (frames : list (list string)) (last : list string) (events : Z).

(** [main]: the arguments after the program's name, whether the input is a terminal,
    and the input. *)
Definition tui_main (args : list string) (tty : bool) (turns : nat -> turn) (final : moment) (input : string) : tui_exit :=
  let arg := nth 0 args EmptyString in
  if streq arg "--help" || streq arg "-h" then TuiHelp
  else if streq arg "--version" || streq arg "-v" then TuiVersion
  else if tty then TuiNoInput
  else
    let s := session_loop turns 0 (fgets_lines 4095 input 4095) (Session empty_dashboard 0 0 []) in
    let '(_, frame) := render final (se_start s) (se_dash s) in
    TuiDone (se_frames s) frame (total_events (totals (se_dash s))).

Definition exit_code (x : tui_exit) : Z := match x with TuiNoInput => 1 | _ => 0 end.
