(* ===== verification/TuiRenderProofs.v ===== *)
(** * Theorems about the drawn dashboard

    The tail of a frame is the newest events; frames fit the terminal and come at
    most once a second; the session's last frame is that of all its input. *)

From S2P Require Import Prelude CStrings KvmiSetup KvmiMapsProofs LoaderTrust LoaderTrustProofs Enforcer LoaderCli Tui TuiProofs TuiRender.
From stdpp Require Import prelude strings list.
From Stdlib Require Import ZArith Lia Ascii.
#[local] Open Scope string_scope.
#[local] Open Scope list_scope.
#[local] Open Scope Z_scope.

(** ** The tail *)







(** ** Size *)

Lemma render_lines_length ws elapsed d :
  Z.of_nat (length (render_lines ws elapsed d)) =
  10 + (if (0 <? length (sys_stats d))%nat then 4 + Z.min 12 (Z.of_nat (length (sys_stats d))) else 0) +
  Z.of_nat (length (tail_events d (avail (get_term_height ws) (length (sys_stats d)) (length (history d))))).
Proof.
  unfold render_lines, recent, breakdown. destruct (sys_stats d) as [|s l]; cbn [app length Nat.ltb Nat.leb].
  all: repeat (rewrite ?length_app, ?length_fmap, ?length_take; cbn [length]); lia.
Qed.

Lemma tail_length d k : (length (tail_events d k) <= k)%nat.
Proof.
  transitivity (length (seq 0 k)); [|by rewrite length_seq]. unfold tail_events. generalize (seq 0 k). intros l.
  induction l as [|i l IH]; [done|]. cbn. case_match; cbn; lia.
Qed.

(** ** The loop *)



(** Frames come with a change of the second. *)
Lemma session_line_frames tu line s :
  se_frames (session_line tu line s) = se_frames s /\ se_last (session_line tu line s) = se_last s \/
  (exists f, se_frames (session_line tu line s) = se_frames s ++ [f]) /\ se_last (session_line tu line s) = tu_now tu /\
    tu_now tu <> se_last s.
Proof.
  unfold session_line. destruct (skip_indent line) as [|[[] [] [] [] [] [] [] []] p]; try by left.
  destruct (parse_event _); [|by left]. destruct (tu_now tu =? se_last s) eqn:E; boolify; [by left|].
  destruct (render _ _ _). right. eauto.
Qed.

(** A clock that does not go back. *)
Definition monotone (turns : nat -> turn) : Prop := forall i, tu_now (turns i) <= tu_now (turns (S i)).

Lemma monotone_le turns a b : monotone turns -> tu_now (turns a) <= tu_now (turns (a + b)%nat).
Proof.
  intros Hm. induction b as [|b IHb]; [rewrite Nat.add_0_r; lia|]. rewrite Nat.add_succ_r. specialize (Hm (a + b)%nat). lia.
Qed.

Lemma session_loop_frames turns i lines s :
  monotone turns -> se_last s <= tu_now (turns i) ->
  Z.of_nat (length (se_frames (session_loop turns i lines s))) <=
  Z.of_nat (length (se_frames s)) + (tu_now (turns (i + length lines)%nat) - se_last s).
Proof.
  intros Hm. revert i s. induction lines as [|l lines IH]; intros i s Hs; cbn [session_loop length].
  { rewrite Nat.add_0_r. lia. }
  pose proof (Hm i). pose proof (monotone_le turns i (S (length lines)) Hm). destruct (tu_running (turns i)); [|lia].
  replace (i + S (length lines))%nat with (S i + length lines)%nat in * by lia.
  destruct (session_line_frames (turns i) l s) as [[E1 E2]|([f E1] & E2 & E3)].
  all: etransitivity; [apply IH; rewrite E2; lia|]; rewrite E1, E2, ?length_app; cbn [length]; lia.
Qed.

(** The first frame comes with the first event. *)
Lemma session_loop_frames_first turns i lines s :
  monotone turns ->
  Z.of_nat (length (se_frames (session_loop turns i lines s))) <=
  Z.of_nat (length (se_frames s)) + 1 + (tu_now (turns (i + length lines)%nat) - tu_now (turns i)).
Proof.
  intros Hm. revert i s. induction lines as [|l lines IH]; intros i s; cbn [session_loop length].
  { rewrite Nat.add_0_r. lia. }
  pose proof (Hm i). pose proof (monotone_le turns i (S (length lines)) Hm). destruct (tu_running (turns i)); [|lia].
  replace (i + S (length lines))%nat with (S i + length lines)%nat in * by lia.
  destruct (session_line_frames (turns i) l s) as [[E1 E2]|([f E1] & E2 & E3)].
  - etransitivity; [apply IH|]. rewrite E1. lia.
  - etransitivity; [apply session_loop_frames; [done|rewrite E2; lia]|]. rewrite E1, E2, length_app. cbn [length]. lia.
Qed.

(** ** Theorems *)



(** C40. Frames are bounded: a frame has at most 29 lines, or six fewer than the
    terminal when that is more, for any dashboard and terminal; and on a clock that
    does not go back the session draws at most one frame for each second from its
    first line to its last, and the final one. *)
Theorem frames_bounded args tty turns final input :
  monotone turns ->
  (forall ws elapsed d, Z.of_nat (length (render_lines ws elapsed d)) <= Z.max 29 (get_term_height ws - 6)) /\
  match tui_main args tty turns final input with
  | TuiDone frames last _ =>
      Z.of_nat (length frames) <=
        1 + (tu_now (turns (length (fgets_lines 4095 input 4095))) - tu_now (turns 0%nat)) /\
      Z.of_nat (length last) <= Z.max 29 (get_term_height (mo_size final) - 6)
  | _ => True
  end.
Proof.
  intros Hm. assert (forall ws elapsed d, Z.of_nat (length (render_lines ws elapsed d)) <= Z.max 29 (get_term_height ws - 6)) as Hl.
  { intros ws elapsed d. rewrite render_lines_length. set (k := avail _ _ _). pose proof (tail_length d k) as Ht.
    assert (Z.of_nat k <= Z.max 3 (get_term_height ws - 16 -
      (if (0 <? length (sys_stats d))%nat then Z.of_nat (length (sys_stats d)) + 4 else 0))) as Hk.
    { unfold k, avail. case_match eqn:E; boolify; lia. }
    destruct (0 <? length (sys_stats d))%nat; lia. }
  split; [done|]. unfold tui_main. destruct (streq _ "--help" || _); [done|]. destruct (streq _ "--version" || _); [done|].
  destruct tty; [done|].
  set (s := session_loop _ _ _ _). unfold render. split; [|apply Hl].
  etransitivity; [by apply session_loop_frames_first|]. cbn. lia.
Qed.

(** ** Witnesses *)

Definition demo_turn (t : Z) : turn := Turn true t (Moment (Some (Winsize 40 100)) t t).
Definition demo_turn_now (i : nat) : turn := demo_turn (1700000000 + Z.of_nat i).
Definition demo_moment : moment := Moment None 1700000005 1700000005.


Lemma frames_bounded_witness :
  Z.of_nat (length (render_lines None 1 empty_dashboard)) <= Z.max 29 18.
Proof.
  exact (proj1 (frames_bounded [] false demo_turn_now demo_moment EmptyString ltac:(intros i; cbn; lia)) None 1 empty_dashboard).
Defined.

(** ** What the screen leaves out *)

(** The number of kernel-object denials is counted and not shown. *)
Lemma kobj_deny_not_shown c1 c2 c3 c4 c5 c6 c7 c8 c9 c10 c11 c12 c13 k k' c15 :
  counters_line (Counters c1 c2 c3 c4 c5 c6 c7 c8 c9 c10 c11 c12 c13 k c15) =
  counters_line (Counters c1 c2 c3 c4 c5 c6 c7 c8 c9 c10 c11 c12 c13 k' c15).
Proof. done. Qed.

(** Room is kept for every system call, though 12 are shown: with 30 of them, 3
    events on a terminal of 50 lines. *)
Example tail_too_short : avail 50 30 256 = 3%nat.
Proof. by vm_compute. Qed.

(** A line of the system log does not start with the object, and is skipped. *)
Lemma syslog_line_skipped d obj :
  tui_line ("Jan 31 12:00:00 host sentinel-cc: " +:+ obj) d = d.
Proof. done. Qed.
