(* ===== verification/DumpTool.v ===== *)
(** * The policy inspector (sentinel_dump.c)

    What the tool reads from the sections of a binary, as data; how it lays the
    values out on the screen is not modelled. *)

From S2P Require Import Prelude CStrings LoaderPolicy LoaderElf LoaderElfProofs LoaderTrust EnforcerClaims.
From stdpp Require Import prelude strings list.
From Stdlib Require Import ZArith Lia Ascii.
#[local] Open Scope string_scope.
#[local] Open Scope list_scope.
#[local] Open Scope Z_scope.

(** ** The policy section *)

Definition syscall_name (nr : Z) : option string :=
  snd <$> List.find (fun b => nr =? b.1)
    [(0, "read"); (1, "write"); (2, "open"); (3, "close"); (9, "mmap"); (10, "mprotect"); (16, "ioctl");
     (33, "dup2"); (42, "connect"); (46, "sendmsg"); (56, "clone"); (57, "fork"); (59, "execve"); (101, "ptrace");
     (157, "prctl"); (257, "openat"); (311, "process_vm_writev"); (317, "seccomp"); (319, "memfd_create")].

(** [(int)z] *)
Definition to_int (z : Z) : Z := let r := u32 z in if r <? 2147483648 then r else r - 4294967296.

Record dump_row := DumpRow { dr_site : Z; dr_func : Z; dr_offset : Z; dr_nr : option Z; dr_name : option string }.

Definition dump_row_of (text_vaddr : Z) (pe : sentinel_policy_entry) : dump_row :=
  let nr := if 0 <? enc_nr pe then to_int (enc_nr pe - 1) else -1 in
  DumpRow (site_addr pe) (func_addr pe) (u64 (site_addr pe - text_vaddr))
    (if 0 <=? nr then Some nr else None) (if 0 <=? nr then syscall_name nr else None).

(** [n] entries from the start of the data. *)
Fixpoint dump_entries (n : nat) (bs : list Z) : list sentinel_policy_entry :=
  match n with
  | O => []
  | S n' => decode_entry (take ENTRY_SIZE bs) :: dump_entries n' (drop ENTRY_SIZE bs)
  end.

(** [None] is printed as empty. *)
Definition dump_sentinel (data : option (list Z)) (text_vaddr : Z) : option (list dump_row) :=
  match data with
  | None | Some [] => None
  | Some bs => Some (dump_row_of text_vaddr <$> dump_entries (length bs / ENTRY_SIZE) bs)
  end.

(** ** The other sections *)

Fixpoint dump_cfi_rows (n : nat) (bs : list Z) (text_vaddr : Z) : list (Z * Z * Z * Z) :=
  match n with
  | O => []
  | S n' =>
      let site := le_decode (take 8 bs) in
      let func := le_decode (take 8 (drop 8 bs)) in
      (site, func, u64 (site - text_vaddr), u64 (func - text_vaddr)) :: dump_cfi_rows n' (drop 16 bs) text_vaddr
  end.

Definition dump_cfi (data : option (list Z)) (text_vaddr : Z) : option (list (Z * Z * Z * Z)) :=
  match data with
  | None | Some [] => None
  | Some bs => Some (dump_cfi_rows (length bs / 16) bs text_vaddr)
  end.

(** The names in the blob; one that does not end inside the section is printed
    past its end ([None]). *)
Fixpoint dump_names (fuel : nat) (bs : list Z) : option (list (list Z)) :=
  match bs, fuel with
  | [], _ => Some []
  | _, O => None
  | _, S fuel' =>
      match take_name bs with
      | None => None
      | Some ([], rest) => dump_names fuel' rest
      | Some (n, rest) => (n ::.) <$> dump_names fuel' rest
      end
  end.

Definition dump_imports (data : list Z) : option (list (list Z)) := dump_names (length data) data.

Inductive sig_kind := SigEd25519 | SigRsa2048 | SigUnknown.

Record sig_dump := SigDump { sd_size : nat; sd_kind : sig_kind; sd_signed : bool; sd_hex : string }.

Definition dump_signature (data : option (list Z)) : option sig_dump :=
  match data with
  | None | Some [] => None
  | Some bs =>
      Some (SigDump (length bs)
              (if (length bs =? 64)%nat then SigEd25519 else if (length bs =? 256)%nat then SigRsa2048 else SigUnknown)
              (negb (forallb (Z.eqb 0) bs))
              (hex_string (take 32 bs) +:+ (if (32 <? length bs)%nat then "..." else "")))
  end.

(** ** The program *)

Inductive dump_cli := DumpHelp | DumpVersion | DumpUsage | DumpRun (json : bool) (path : string).

Fixpoint dump_args (json : bool) (args : list string) : dump_cli :=
  match args with
  | [] => DumpUsage
  | a :: rest =>
      if streq a "--help" || streq a "-h" then DumpHelp
      else if streq a "--version" || streq a "-v" then DumpVersion
      else if streq a "--json" then dump_args true rest
      else DumpRun json a
  end.

Record dump_report := DumpReport {
  du_text_vaddr : Z;
  du_sentinel : option (option (list dump_row));
  du_cfi : option (option (list (Z * Z * Z * Z)));
  du_imports : option (list Z);
  du_signature : option (option sig_dump);
}.

(** The address of the last [.text]. *)
Definition text_vaddr_of (l : list elf_section) : Z :=
  fold_left (fun acc s => if named ".text" s then sh_addr s else acc) l 0.

(** The sections that are there; [None] is the exit status 1. *)
Definition dump_file (f : option elf_file) : option dump_report :=
  match f with
  | None => None
  | Some e =>
      let l := e_sections e in
      let has name := existsb (named name) l in
      let when (b : bool) {A} (x : A) : option A := if b then Some x else None in
      if negb (has ".sentinel" || has ".sentinel_cfi" || has ".sentinel_imports" || has ".signature") then None
      else
        let tv := text_vaddr_of l in
        Some (DumpReport tv
                (when (has ".sentinel") (dump_sentinel (last_data ".sentinel" l) tv))
                (when (has ".sentinel_cfi") (dump_cfi (last_data ".sentinel_cfi" l) tv))
                (when (has ".sentinel_imports") (default [] (last_data ".sentinel_imports" l)))
                (when (has ".signature") (dump_signature (last_data ".signature" l))))
  end.

(** ** Theorems *)

Definition count0 (bs : list Z) : nat := length (List.filter (Z.eqb 0) bs).

Lemma take_name_split bs n r : take_name bs = Some (n, r) -> bs = n ++ 0 :: r /\ Forall (fun b => b <> 0) n.
Proof.
  revert n r. induction bs as [|b bs IH]; intros n r; cbn [take_name]; [done|].
  destruct (b =? 0) eqn:E; boolify; [intros [= <- <-]; by subst|].
  destruct (take_name bs) as [[n' r']|]; [|done]. intros [= <- <-]. destruct (IH n' r' eq_refl) as [-> H]. by split; [|constructor].
Qed.

Lemma count0_name n r : Forall (fun b => b <> 0) n -> count0 (n ++ 0 :: r) = S (count0 r).
Proof.
  unfold count0. induction 1 as [|b n Hb _ IH]; [done|]. cbn [app List.filter].
  by rewrite (proj2 (Z.eqb_neq 0 b)) by done.
Qed.

(** The loader's loop and the tool's, on a blob that ends with a NUL. *)
Lemma names_agree fuel bs room :
  (bs = [] \/ last bs = Some 0) -> (count0 bs <= room)%nat -> (length bs <= fuel)%nat ->
  imports_loop fuel bs room = dump_names fuel bs.
Proof.
  revert bs room. induction fuel as [|fuel IH]; intros bs room Hend Hc Hf.
  { destruct bs; [by destruct room|cbn in Hf; lia]. }
  destruct bs as [|b bs]; [by destruct room|]. destruct Hend as [?|Hend]; [done|].
  assert (exists n r, take_name (b :: bs) = Some (n, r)) as (n & r & Hn).
  { revert Hend. clear. generalize (b :: bs). intros l. induction l as [|x l IHl]; [done|]. cbn [take_name].
    destruct (x =? 0) eqn:E; [eauto|]. destruct l as [|y l]; [cbn; intros [= ->]; done|].
    intros H. destruct (IHl H) as (n & r & ->). eauto. }
  destruct (take_name_split _ _ _ Hn) as [Hbs Hnz]. rewrite Hbs, count0_name in Hc by done.
  assert (r = [] \/ last r = Some 0) as Hr.
  { destruct r as [|y r]; [by left|]. right. rewrite Hbs, last_app in Hend.
    change (last (0 :: y :: r)) with (last (y :: r)) in Hend. destruct (last (y :: r)) eqn:E; [done|].
    by apply last_None in E. }
  assert (length r <= fuel)%nat as Hlr.
  { rewrite Hbs, length_app in Hf. cbn in Hf. lia. }
  destruct room as [|room]; [lia|]. cbn [imports_loop dump_names]. rewrite Hn. cbn [take_name] in Hn.
  destruct (b =? 0) eqn:Eb.
  - injection Hn as <- <-. apply IH; [done|lia|done].
  - destruct n as [|x n]; [exfalso; destruct (take_name bs) as [[? ?]|]; simplify_eq|].
    rewrite (IH r room Hr ltac:(lia) Hlr). by destruct (dump_names fuel r).
Qed.

(** The inspector shows the imports that the loader uses: on every import
    section that ends with a NUL byte, the names that the tool lists are exactly the
    names that the loader parses. *)
Theorem dump_imports_agrees blob :
  last blob = Some 0 -> dump_imports blob = parse_imports_blob blob.
Proof. intros H. symmetry. apply names_agree; [by right|done|done]. Qed.

Lemma dump_imports_agrees_witness : dump_imports [119; 0; 0; 114; 100; 0] = Some [[119]; [114; 100]].
Proof. rewrite (dump_imports_agrees [119; 0; 0; 114; 100; 0]) by reflexivity. vm_compute. reflexivity. Defined.

(** The tool does not skip the magic number and the version, so it shows other
    entries than those of the section. *)
Example dump_ignores_header :
  dump_sentinel (Some (encode_section [PolicyEntry 0x401000 0x400f00 2])) 0 =
  Some [DumpRow 0x253454e54 0x401000 0x253454e54 (Some 0x400eff) None].
Proof. vm_compute. reflexivity. Qed.
