(* ===== verification/Arm64.v ===== *)
(** * The ARM64 hypervisor (sentinel-arm64/src)

    Stage-2 table construction (mmu.c), the exception hook and the software
    walk of the guest's stage-1 tables (hypervisor.c), over the descriptor
    layouts of hypervisor.h.

    The machine is a record: the two stage-2 tables, the characters written to
    the UART data register, whether stage 2 is switched on and whether the guest
    has been entered.  What the assembly files do ([configure_stage2_mmu],
    [jump_to_el1]) appears as these two flags.  The guest's registers and memory
    are arguments of the hook. *)

From S2P Require Import Prelude CStrings BitFields.
From stdpp Require Import prelude strings list.
From Stdlib Require Import ZArith Lia Ascii.
#[local] Open Scope string_scope.
#[local] Open Scope list_scope.
#[local] Open Scope Z_scope.

(** ** Descriptors (hypervisor.h) *)

(** [stage2_desc_t] *)
Definition s2_type := Bitfield 0 2.
Definition s2_memattr := Bitfield 2 4.
Definition s2_s2ap := Bitfield 6 2.
Definition s2_sh := Bitfield 8 2.
Definition s2_af := Bitfield 10 1.
Definition s2_ipa := Bitfield 12 36.
Definition s2_xn := Bitfield 54 1.

(** [stage1_desc_t]: the fields that the walker reads. *)
Definition s1_type := Bitfield 0 2.
Definition s1_oa := Bitfield 12 36.

Definition PGD_SHIFT : Z := 39.
Definition PUD_SHIFT : Z := 30.
Definition PMD_SHIFT : Z := 21.
Definition PTE_SHIFT : Z := 12.
Definition PT_INDEX_MASK : Z := 0x1FF.

(** ** State *)

Record hypervisor := Hypervisor {
  stage2_l1_table : list Z;
  stage2_l2_table : list Z;
  uart : string;
  stage2_enabled : bool;
  guest_entered : bool;
}.

(** The static tables are zero, nothing is printed yet. *)
Definition hypervisor_boot : hypervisor :=
  Hypervisor (replicate 512 0) (replicate 512 0) "" false false.

Definition set_l1 (i : nat) (d : Z) (h : hypervisor) : hypervisor :=
  Hypervisor (<[i := d]> (stage2_l1_table h)) (stage2_l2_table h) (uart h) (stage2_enabled h)
    (guest_entered h).
Definition set_l2 (i : nat) (d : Z) (h : hypervisor) : hypervisor :=
  Hypervisor (stage2_l1_table h) (<[i := d]> (stage2_l2_table h)) (uart h) (stage2_enabled h)
    (guest_entered h).
Definition put_char (c : ascii) (h : hypervisor) : hypervisor :=
  Hypervisor (stage2_l1_table h) (stage2_l2_table h) (uart h ++ String c "") (stage2_enabled h)
    (guest_entered h).

(** ** The UART *)

Fixpoint uart_puts (s : string) : M hypervisor unit :=
  match s with
  | "" => mret tt
  | String c rest => _ ← modify (put_char c); uart_puts rest
  end.

(** ['0' + nibble] or ['A' + (nibble - 10)] *)
Definition hex_char (nibble : Z) : ascii :=
  ascii_of_nat (Z.to_nat (if nibble <? 10 then 48 + nibble else 65 + (nibble - 10))).

(** The loop from bit [i] down in steps of 4; [n] nibbles are left. *)
Fixpoint puthex_loop (n : nat) (val : Z) : M hypervisor unit :=
  match n with
  | O => mret tt
  | S n' =>
      _ ← modify (put_char (hex_char (Z.land (Z.shiftr val (4 * Z.of_nat n')) 0xF)));
      puthex_loop n' val
  end.

Definition uart_puthex (val : Z) : M hypervisor unit :=
  _ ← uart_puts "0x"; puthex_loop 16 val.

(** The newline of the C literals. *)
Definition nl : string := String "010" "".

(** ** Stage-2 tables (mmu.c) *)

(** The block descriptor of entry [i] of the level 2 table. *)
Definition l2_block (i : nat) : Z :=
  let phys_base := u64 (0x40000000 + Z.of_nat i * 0x200000) in
  let desc := set_field s2_ipa (Z.shiftr phys_base 12)
                (set_field s2_memattr 0xF (set_field s2_af 1 (set_field s2_type 1 0))) in
  if phys_base =? 0x40000000 then set_field s2_xn 0 (set_field s2_s2ap 1 desc)
  else if phys_base =? 0x40200000 then set_field s2_xn 1 (set_field s2_s2ap 1 desc)
  else set_field s2_xn 1 (set_field s2_s2ap 3 desc).

Definition l1_link (l2_phys_addr : Z) : Z :=
  set_field s2_ipa (Z.shiftr l2_phys_addr 12) (set_field s2_type 3 0).

Definition uart_desc : Z :=
  set_field s2_ipa (Z.shiftr 0 12)
    (set_field s2_s2ap 3 (set_field s2_memattr 0 (set_field s2_af 1 (set_field s2_type 1 0)))).

(** [l2_phys_addr] is the address of the level 2 table. *)
Definition mmu_init_stage2 (l2_phys_addr : Z) : M hypervisor unit :=
  _ ← uart_puts ("[Sentinel-VMI] Initializing Stage 2 MMU..." ++ nl);
  _ ← modify (set_l1 1 (l1_link l2_phys_addr));
  _ ← forM (seq 0 512) (fun i => modify (set_l2 i (l2_block i)));
  _ ← modify (set_l1 0 uart_desc);
  uart_puts ("[Sentinel-VMI] Stage 2 MMU Tables Populated in Memory." ++ nl).

(** ** The exception hook (hypervisor.c) *)

Definition ESR_EC_MASK : Z := Z.shiftl 0x3F 26.
Definition ESR_EC_SHIFT : Z := 26.
Definition ESR_EC_DATA_ABORT_L : Z := 0x24.
Definition ESR_EC_INSTR_ABORT_L : Z := 0x20.
Definition ESR_EC_HVC_EL1 : Z := 0x16.
Definition ESR_ISS_MASK : Z := 0x1FFFFFF.
Definition ESR_ISS_WnR : Z := 64.
Definition ESR_ISS_DFSC_MASK : Z := 0x3F.
Definition DFSC_S2_FAULT_L0 : Z := 0x04.
Definition DFSC_S2_FAULT_L3 : Z := 0x07.
Definition DFSC_S2_PERM_L0 : Z := 0x0C.
Definition DFSC_S2_PERM_L3 : Z := 0x0F.

(** The hook returns to the guest, or stays in its waiting loop for ever. *)
Inductive hook_outcome := Resume | Frozen.
#[global] Instance hook_outcome_eq_dec : EqDecision hook_outcome.
Proof. solve_decision. Defined.

(** What the hook reads of the guest: the two table bases and memory, as
    64-bit words at physical addresses. *)
Record guest := Guest { ttbr0_el1 : Z; ttbr1_el1 : Z; load64 : Z -> Z }.

(** One level of the walk: the index and the entry are printed; an entry that
    is not valid ends the walk. *)
Definition walk_level (g : guest) (name : string) (shift base guest_va : Z)
  : M hypervisor (option Z) :=
  let idx := Z.land (Z.shiftr guest_va shift) PT_INDEX_MASK in
  let entry := load64 g (u64 (base + 8 * idx)) in
  _ ← uart_puts ("[Sentinel-VMI] " ++ name ++ " Index: ");
  _ ← uart_puthex idx;
  _ ← uart_puts " -> Entry: ";
  _ ← uart_puthex entry;
  _ ← uart_puts nl;
  if Z.land (get_field s1_type entry) 1 =? 0 then
    _ ← uart_puts ("[Sentinel-VMI] VMI Failed: Invalid " ++ name ++ " Entry" ++ nl); mret None
  else mret (Some entry).

(** [entry.fields.oa << PTE_SHIFT]: for the compiler of the Makefile (gcc) a
    36-bit field has a 36-bit type, and so has the shifted value. *)
Definition next_base (entry : Z) : Z := Z.shiftl (get_field s1_oa entry) PTE_SHIFT mod 2 ^ 36.

(** [~0xFFF] is a negative [int], so the mask keeps all high bits. *)
Definition pgd_base (g : guest) (guest_va : Z) : Z :=
  if negb (Z.land guest_va (Z.shiftl 1 55) =? 0)
  then Z.land (ttbr1_el1 g) (u64 (Z.lnot 0xFFF)) else Z.land (ttbr0_el1 g) (u64 (Z.lnot 0xFFF)).

Definition report_success (guest_va final_pa : Z) : M hypervisor unit :=
  _ ← uart_puts "[Sentinel-VMI] *** VMI SUCCESS: VA ";
  _ ← uart_puthex guest_va;
  _ ← uart_puts " maps to PA ";
  _ ← uart_puthex final_pa;
  uart_puts (" ***" ++ nl).

(** The branch of the hook for HVC: a walk of the guest's stage-1 tables. *)
Definition introspect_va (g : guest) (guest_va : Z) : M hypervisor unit :=
  _ ← uart_puts (nl ++ "[Sentinel-VMI] Intercepted HVC. Introspecting Guest VA: ");
  _ ← uart_puthex guest_va;
  _ ← uart_puts nl;
  let base := pgd_base g guest_va in
  _ ← uart_puts "[Sentinel-VMI] TTBR Base PA: ";
  _ ← uart_puthex base;
  _ ← uart_puts nl;
  pgd ← walk_level g "PGD" PGD_SHIFT base guest_va;
  match pgd with None => mret tt | Some pgd_entry =>
  pud ← walk_level g "PUD" PUD_SHIFT (next_base pgd_entry) guest_va;
  match pud with None => mret tt | Some pud_entry =>
  pmd ← walk_level g "PMD" PMD_SHIFT (next_base pud_entry) guest_va;
  match pmd with None => mret tt | Some pmd_entry =>
  pte ← walk_level g "PTE" PTE_SHIFT (next_base pmd_entry) guest_va;
  match pte with None => mret tt | Some pte_entry =>
    report_success guest_va (Z.lor (next_base pte_entry) (Z.land guest_va 0xFFF))
  end end end end.

Definition is_stage2_fault (dfsc : Z) : bool :=
  ((DFSC_S2_FAULT_L0 <=? dfsc) && (dfsc <=? DFSC_S2_FAULT_L3)) ||
  ((DFSC_S2_PERM_L0 <=? dfsc) && (dfsc <=? DFSC_S2_PERM_L3)).

(** [regs] are the saved registers; only [x0] is read. *)
Definition handle_sync_lower (g : guest) (esr far : Z) (regs : list Z) : M hypervisor hook_outcome :=
  let ec := u32 (Z.shiftr (Z.land esr ESR_EC_MASK) ESR_EC_SHIFT) in
  if ec =? ESR_EC_DATA_ABORT_L then
    let iss := u32 (Z.land esr ESR_ISS_MASK) in
    let dfsc := Z.land iss ESR_ISS_DFSC_MASK in
    if is_stage2_fault dfsc then
      if negb (Z.land iss ESR_ISS_WnR =? 0) then
        _ ← uart_puts ("[EL2-SECURITY] STAGE-2 FAULT TRAPPED: Malicious write attempt blocked!" ++ nl);
        _ ← uart_puts ("[EL2-SECURITY] HALT: System lockdown initiated." ++ nl);
        mret Frozen
      else
        _ ← uart_puts ("[EL2-SECURITY] STAGE-2 FAULT: Unauthorized Read Blocked." ++ nl);
        mret Resume
    else mret Resume
  else if ec =? ESR_EC_INSTR_ABORT_L then
    _ ← uart_puts (nl ++ "[!!!] SENTINEL MITIGATION TRIGGERED [!!!]" ++ nl);
    _ ← uart_puts ("CRITICAL: Malicious Instruction Execution Attempt Intercepted at EL2." ++ nl);
    _ ← uart_puts "Violating Guest Virtual Address (FAR_EL2): ";
    _ ← uart_puthex far;
    _ ← uart_puts (nl ++ "Exception Syndrome Register (ESR_EL2):    ");
    _ ← uart_puthex esr;
    _ ← uart_puts (nl ++ "ACTION: Freezing Guest Execution Context Environment." ++ nl);
    mret Frozen
  else if ec =? ESR_EC_HVC_EL1 then
    match regs !! 0%nat with
    | None => stuck
    | Some guest_va => _ ← introspect_va g guest_va; mret Resume
    end
  else mret Resume.

(** ** Boot *)

(** boot.S: VTTBR and VTCR are set and stage 2 is enabled in HCR. *)
Definition configure_stage2_mmu (h : hypervisor) : hypervisor :=
  Hypervisor (stage2_l1_table h) (stage2_l2_table h) (uart h) true (guest_entered h).
Definition jump_to_el1 (h : hypervisor) : hypervisor :=
  Hypervisor (stage2_l1_table h) (stage2_l2_table h) (uart h) (stage2_enabled h) true.

Definition hypervisor_main (l2_phys_addr : Z) : M hypervisor unit :=
  _ ← uart_puts ("[Sentinel-VMI] Booting Type-1 Hypervisor at EL2..." ++ nl);
  _ ← mmu_init_stage2 l2_phys_addr;
  _ ← modify configure_stage2_mmu;
  _ ← uart_puts ("[Sentinel-VMI] Initialization complete. Dropping to EL1 Guest..." ++ nl);
  modify jump_to_el1.
