(* ===== verification/Arm64Proofs.v ===== *)
(** * The ARM64 hypervisor: theorems

    The tables of [mmu_init_stage2] against a reference walk of stage 2, the
    outcomes of the exception hook, and the software walk of the guest's
    tables against a reference walk of stage 1. *)

From S2P Require Import Prelude CStrings BitFields Arm64.
From stdpp Require Import prelude strings list.
From Stdlib Require Import ZArith Lia Ascii.
#[local] Open Scope string_scope.
#[local] Open Scope list_scope.
#[local] Open Scope Z_scope.

(** ** The UART *)

Definition emit (s : string) (h : hypervisor) : hypervisor :=
  Hypervisor (stage2_l1_table h) (stage2_l2_table h) (uart h +:+ s) (stage2_enabled h)
    (guest_entered h).

Lemma emit_emit a b h : emit b (emit a h) = emit (a +:+ b) h.
Proof. unfold emit. cbn. by rewrite str_app_assoc. Qed.

Lemma str_app_nil s : s +:+ "" = s.
Proof. induction s as [|c s IH]; [done|]. exact (f_equal (String c) IH). Qed.

Lemma emit_nil h : emit "" h = h.
Proof. destruct h. unfold emit. cbn -[String.append]. by rewrite str_app_nil. Qed.

Lemma run_puts s h : uart_puts s h = Some (tt, emit s h).
Proof.
  revert h. induction s as [|c s IH]; intros h; cbn [uart_puts].
  - by rewrite emit_nil.
  - unfold mbind, M_bind, modify. rewrite IH.
    change (put_char c h) with (emit (String c "") h). by rewrite emit_emit.
Qed.

(** The [n] low nibbles of a value, the highest first, and back. *)
Fixpoint hex_of (n : nat) (val : Z) : string :=
  match n with
  | O => ""
  | S n' => String (hex_char ((val / 16 ^ Z.of_nat n') mod 16)) (hex_of n' val)
  end.
Definition hex_digit (c : ascii) : Z :=
  let n := Z.of_nat (nat_of_ascii c) in if n <? 65 then n - 48 else n - 55.
Fixpoint hex_value (s : string) (acc : Z) : Z :=
  match s with "" => acc | String c s' => hex_value s' (16 * acc + hex_digit c) end.
Definition hex16 (val : Z) : string := "0x" +:+ hex_of 16 val.

Lemma hex_digit_char d : 0 <= d < 16 -> hex_digit (hex_char d) = d.
Proof.
  intros Hd. assert (d ∈ (map Z.of_nat (seq 0 16))) as Hin.
  { apply list_elem_of_fmap. exists (Z.to_nat d). split; [lia|]. apply elem_of_seq. lia. }
  revert d Hin Hd. apply (Forall_forall (fun d => _ -> _)). by repeat constructor.
Qed.

Lemma hex_value_of n val acc :
  hex_value (hex_of n val) acc = acc * 16 ^ Z.of_nat n + val mod 16 ^ Z.of_nat n.
Proof.
  revert acc. induction n as [|n IH]; intros acc; cbn [hex_of hex_value].
  { change (16 ^ Z.of_nat 0) with 1. rewrite Z.mod_1_r. lia. }
  rewrite IH, hex_digit_char by (apply Z.mod_pos_bound; lia).
  rewrite Nat2Z.inj_succ, Z.pow_succ_r by lia.
  rewrite (Z.mul_comm 16 (16 ^ _)), Z.rem_mul_r by (try apply Z.pow_pos_nonneg; lia). ring.
Qed.

(** The printed form determines the value. *)
Lemma hex_of_inj a b : is_u64 a -> is_u64 b -> hex_of 16 a = hex_of 16 b -> a = b.
Proof.
  intros Ha Hb He. pose proof (f_equal (fun s => hex_value s 0) He) as Hv. cbn beta in Hv.
  rewrite !hex_value_of in Hv. change (16 ^ Z.of_nat 16) with 18446744073709551616 in Hv.
  rewrite !Z.mod_small in Hv by (unfold is_u64 in *; lia). lia.
Qed.

Lemma run_puthex_loop n val h : puthex_loop n val h = Some (tt, emit (hex_of n val) h).
Proof.
  revert h. induction n as [|n IH]; intros h; cbn [puthex_loop hex_of].
  - by rewrite emit_nil.
  - unfold mbind, M_bind, modify. rewrite IH.
    change 0xF with (Z.ones 4). rewrite Z.land_ones, Z.shiftr_div_pow2 by lia.
    rewrite Z.pow_mul_r by lia. change (2 ^ 4) with 16.
    set (c := hex_char _). change (put_char c h) with (emit (String c "") h). by rewrite emit_emit.
Qed.

Lemma run_puthex val h : uart_puthex val h = Some (tt, emit (hex16 val) h).
Proof.
  unfold uart_puthex, mbind, M_bind. by rewrite run_puts, run_puthex_loop, emit_emit.
Qed.

(** Running the prints of a computation. *)
Ltac run_uart :=
  repeat (unfold mbind, M_bind; rewrite ?run_puts, ?run_puthex, ?emit_emit; cbn beta iota).

(** ** Stage 2 *)

(** What a translation grants. *)
Record s2_access := S2Access { s2_pa : Z; s2_write : bool; s2_exec : bool }.
#[global] Instance s2_access_eq_dec : EqDecision s2_access.
Proof. solve_decision. Defined.

(** A block of [2^k] bytes: output address, access flag, permissions; every
    descriptor of this program is readable or grants nothing. *)
Definition s2_block (d ipa k : Z) : option s2_access :=
  if Z.testbit d 10 && Z.testbit d 6
  then Some (S2Access ((d / 2 ^ k) mod 2 ^ (48 - k) * 2 ^ k + ipa mod 2 ^ k) (Z.testbit d 7)
               (negb (Z.testbit d 54)))
  else None.

(** The walk from level 1, with the level 2 table at [l2_addr]; a level 3 table
    does not exist. *)
Definition stage2_translate (l2_addr : Z) (h : hypervisor) (ipa : Z) : option s2_access :=
  match stage2_l1_table h !! Z.to_nat (ipa / 2 ^ 30) with
  | None => None
  | Some d =>
      if negb (Z.testbit d 0) then None
      else if negb (Z.testbit d 1) then s2_block d ipa 30
      else if (d / 2 ^ 12) mod 2 ^ 36 * 2 ^ 12 =? l2_addr then
        match stage2_l2_table h !! Z.to_nat ((ipa / 2 ^ 21) mod 512) with
        | None => None
        | Some e => if Z.testbit e 0 && negb (Z.testbit e 1) then s2_block e ipa 21 else None
        end
      else None
  end.

(** The intended map: device space, guest text, the locked block, data. *)
Definition stage2_map (ipa : Z) : option s2_access :=
  if ipa <? 0x40000000 then Some (S2Access ipa true true)
  else if ipa <? 0x40200000 then Some (S2Access ipa false true)
  else if ipa <? 0x40400000 then Some (S2Access ipa false false)
  else if ipa <? 0x80000000 then Some (S2Access ipa true false)
  else None.

(** Filling a table entry by entry. *)
Lemma run_fill_l2 n k h :
  (n + k <= length (stage2_l2_table h))%nat ->
  exists h', forM (seq n k) (fun i => modify (set_l2 i (l2_block i))) h = Some (tt, h') /\
    stage2_l1_table h' = stage2_l1_table h /\ uart h' = uart h /\
    stage2_enabled h' = stage2_enabled h /\ guest_entered h' = guest_entered h /\
    length (stage2_l2_table h') = length (stage2_l2_table h) /\
    forall i, stage2_l2_table h' !! i =
      if decide (n <= i < n + k)%nat then Some (l2_block i) else stage2_l2_table h !! i.
Proof.
  revert n h. induction k as [|k IH]; intros n h Hlen; cbn [seq forM].
  { exists h. split_and!; try done. intros i. by rewrite decide_False by lia. }
  destruct (IH (S n) (set_l2 n (l2_block n) h)) as (h' & Hr & H1 & H2 & H3 & H4 & H5 & H6).
  { cbn. rewrite length_insert. lia. }
  exists h'. unfold mbind, M_bind, modify at 1. rewrite Hr. cbn in H5. rewrite length_insert in H5.
  split_and!; try done. intros i. rewrite H6. cbn.
  destruct (decide (i = n)) as [->|].
  - rewrite decide_False, decide_True by lia. rewrite list_lookup_insert_eq by lia. done.
  - rewrite list_lookup_insert_ne by done. by do 2 case_decide; try lia.
Qed.

(** The fields of the 512 block descriptors, by evaluation. *)
Definition l2_block_ok (i : nat) : bool :=
  let d := l2_block i in
  Z.testbit d 0 && negb (Z.testbit d 1) && Z.testbit d 10 && Z.testbit d 6 &&
  Bool.eqb (Z.testbit d 7) (2 <=? i)%nat && Bool.eqb (Z.testbit d 54) (1 <=? i)%nat &&
  ((d / 2 ^ 21) mod 2 ^ 27 =? 512 + Z.of_nat i).

Lemma l2_blocks_ok i : (i < 512)%nat -> l2_block_ok i = true.
Proof.
  assert (forallb l2_block_ok (seq 0 512) = true) as Hall by (by vm_compute).
  intros Hi. rewrite forallb_forall in Hall. apply Hall, in_seq. lia.
Qed.

Lemma l1_link_fields a :
  0 <= a < 2 ^ 48 -> a mod 4096 = 0 ->
  Z.testbit (l1_link a) 0 = true /\ Z.testbit (l1_link a) 1 = true /\
  (l1_link a / 2 ^ 12) mod 2 ^ 36 * 2 ^ 12 = a.
Proof.
  intros Ha Hal. unfold l1_link.
  rewrite !testbit_set_field by (cbn; lia). rewrite !decide_False by (cbn; lia). split_and!; [done..|].
  pose proof (get_set_field s2_ipa (Z.shiftr a 12) (set_field s2_type 3 0) ltac:(done) ltac:(done)) as Hg.
  rewrite get_field_arith in Hg by done. cbn [bf_low bf_width s2_ipa] in Hg. rewrite Hg.
  rewrite Z.shiftr_div_pow2 by lia. rewrite Z.mod_small; lia.
Qed.

Definition tables_built (l2_addr : Z) (h : hypervisor) : Prop :=
  stage2_l1_table h = <[0%nat := uart_desc]> (<[1%nat := l1_link l2_addr]> (replicate 512 0)) /\
  forall i, stage2_l2_table h !! i = if decide (i < 512)%nat then Some (l2_block i) else None.

Lemma run_mmu_init a h :
  stage2_l1_table h = replicate 512 0 -> length (stage2_l2_table h) = 512%nat ->
  exists h', mmu_init_stage2 a h = Some (tt, h') /\ tables_built a h'.
Proof.
  intros H1 H2. unfold mmu_init_stage2, mbind, M_bind. rewrite run_puts. cbn beta iota.
  match goal with |- context [emit ?s h] => set (h1 := set_l1 1 (l1_link a) (emit s h)) end.
  destruct (run_fill_l2 0 512 h1 ltac:(cbn -[seq]; lia)) as (h2 & Hr & E1 & _ & _ & _ & _ & E2).
  unfold modify at 1. fold h1. rewrite Hr. unfold modify. cbn beta iota. rewrite run_puts.
  eexists. split; [done|]. split; cbn -[seq].
  - rewrite E1. cbn -[replicate]. by rewrite H1.
  - intros i. rewrite E2. case_decide as Hd; [by rewrite decide_True by lia|].
    rewrite decide_False by lia. apply lookup_ge_None_2. cbn. lia.
Qed.

Lemma built_translate a h ipa :
  0 <= a < 2 ^ 48 -> a mod 4096 = 0 -> tables_built a h -> 0 <= ipa < 2 ^ 39 ->
  stage2_translate a h ipa = stage2_map ipa.
Proof.
  intros Ha Hal [H1 H2] Hipa. unfold stage2_translate, stage2_map. rewrite H1.
  change (2 ^ 30) with 1073741824. change (2 ^ 39) with 549755813888 in Hipa.
  destruct (decide (ipa < 0x40000000)).
  { rewrite (proj2 (Z.ltb_lt _ _)) by done. rewrite Z.div_small by lia.
    rewrite list_lookup_insert_eq by (rewrite length_insert, length_replicate; lia).
    unfold s2_block. change (Z.testbit uart_desc 0) with true. change (Z.testbit uart_desc 1) with false.
    change (Z.testbit uart_desc 10 && Z.testbit uart_desc 6) with true.
    change ((uart_desc / 2 ^ 30) mod 2 ^ (48 - 30)) with 0.
    cbn [negb]. change (2 ^ 30) with 1073741824. by rewrite Z.mod_small by lia. }
  rewrite (proj2 (Z.ltb_ge _ _)) by lia. rewrite list_lookup_insert_ne by lia.
  destruct (decide (ipa < 0x80000000)).
  2:{ rewrite !(proj2 (Z.ltb_ge _ _)) by lia.
      rewrite list_lookup_insert_ne by lia. rewrite lookup_replicate_2 by lia. done. }
  replace (Z.to_nat (ipa / 1073741824)) with 1%nat by lia.
  rewrite list_lookup_insert_eq by (rewrite length_replicate; lia).
  destruct (l1_link_fields a Ha Hal) as (B0 & B1 & Hf). rewrite B0, B1, Hf, Z.eqb_refl. cbn [negb].
  change (2 ^ 21) with 2097152. set (i := Z.to_nat ((ipa / 2097152) mod 512)).
  assert (Z.of_nat i = (ipa - 0x40000000) / 2097152) as Hi by (unfold i; lia).
  rewrite H2, decide_True by lia. pose proof (l2_blocks_ok i ltac:(lia)) as Hok.
  unfold l2_block_ok in Hok. boolify.
  repeat match goal with H : Bool.eqb _ _ = true |- _ => apply Bool.eqb_prop in H end.
  unfold s2_block. change (2 ^ (48 - 21)) with 134217728. change (2 ^ 21) with 2097152 in *.
  change (2 ^ 27) with 134217728 in *.
  replace (Z.testbit (l2_block i) 0) with true by done.
  replace (Z.testbit (l2_block i) 1) with false by done.
  replace (Z.testbit (l2_block i) 10) with true by done.
  replace (Z.testbit (l2_block i) 6) with true by done. cbn [andb negb].
  repeat match goal with H : Z.testbit (l2_block i) _ = _ |- _ => rewrite H; clear H end.
  match goal with H : _ mod 134217728 = _ |- _ => rewrite H end. rewrite Hi.
  assert ((512 + (ipa - 0x40000000) / 2097152) * 2097152 + ipa mod 2097152 = ipa) as -> by lia.
  destruct (decide (ipa < 0x40200000)).
  { rewrite (proj2 (Z.ltb_lt _ _)) by done. by replace i with 0%nat by lia. }
  rewrite (proj2 (Z.ltb_ge _ _)) by lia. destruct (decide (ipa < 0x40400000)).
  { rewrite (proj2 (Z.ltb_lt _ _)) by done. by replace i with 1%nat by lia. }
  rewrite (proj2 (Z.ltb_ge _ 0x40400000)), (proj2 (Z.ltb_lt _ 0x80000000)) by lia.
  by rewrite (proj2 (Nat.leb_le 2 i)), (proj2 (Nat.leb_le 1 i)) by lia.
Qed.

(** C14. The hypervisor enters the guest with stage 2 switched on, and the
    tables it has built by then translate every guest address below 2^39 exactly
    as intended: device space, read-only executable text, the read-only and
    non-executable block, read-write data, nothing else; and no address that the
    guest can write leads to the first 4 MiB of memory, where the hypervisor and
    these tables lie. *)
Theorem stage2_map_exact l2_addr :
  0 <= l2_addr < 2 ^ 48 -> l2_addr mod 4096 = 0 ->
  exists h, hypervisor_main l2_addr hypervisor_boot = Some (tt, h) /\
    guest_entered h = true /\ stage2_enabled h = true /\
    forall ipa, 0 <= ipa < 2 ^ 39 ->
      stage2_translate l2_addr h ipa = stage2_map ipa /\
      (forall a, stage2_translate l2_addr h ipa = Some a -> s2_write a = true ->
         s2_pa a < 0x40000000 \/ 0x40400000 <= s2_pa a).
Proof.
  intros Ha Hal. unfold hypervisor_main, mbind, M_bind. rewrite run_puts. cbn beta iota.
  destruct (run_mmu_init l2_addr (emit ("[Sentinel-VMI] Booting Type-1 Hypervisor at EL2..." +:+ nl)
    hypervisor_boot)) as (h & Hr & Hb); [done..|]. rewrite Hr. unfold modify at 1. rewrite run_puts.
  eexists. split; [done|]. split_and!; [done..|]. intros ipa Hipa.
  match goal with |- context [stage2_translate _ ?x _] => assert (tables_built l2_addr x) as Hb' by done end.
  rewrite (built_translate _ _ _ Ha Hal Hb' Hipa). split; [done|].
  intros x Hx Hw. unfold stage2_map in Hx.
  repeat (case_match; boolify; simplify_eq/=); lia.
Qed.

Lemma stage2_map_exact_witness :
  exists h, hypervisor_main 0x40081000 hypervisor_boot = Some (tt, h) /\
    stage2_translate 0x40081000 h 0x40212345 = Some (S2Access 0x40212345 false false).
Proof.
  destruct (stage2_map_exact 0x40081000) as (h & H1 & _ & _ & H2).
  - lia.
  - reflexivity.
  - exists h. split; [exact H1|]. destruct (H2 0x40212345 ltac:(lia)) as [-> _]. reflexivity.
Defined.

(** ** Stage 1: the reference walk

    Four levels of 512 entries; an entry is invalid when bit 0 is clear, a
    block when bit 1 is clear (allowed at the two middle levels), and otherwise
    points to the next table or, at the last level, to the page. *)

Definition s1_frame (e k : Z) : Z := (e / 2 ^ k) mod 2 ^ (48 - k) * 2 ^ k.

Fixpoint s1_walk (mem : Z -> Z) (level : nat) (base va : Z) : option Z :=
  match level with
  | O => None
  | S l =>
      let shift := 12 + 9 * Z.of_nat l in
      let e := mem (base + 8 * ((va / 2 ^ shift) mod 512)) in
      if negb (Z.testbit e 0) then None
      else if negb (Z.testbit e 1) then
        if (l =? 1)%nat || (l =? 2)%nat then Some (s1_frame e shift + va mod 2 ^ shift) else None
      else if (l =? 0)%nat then Some (s1_frame e 12 + va mod 4096)
      else s1_walk mem l (s1_frame e 12) va
  end.

Definition s1_translate (g : guest) (va : Z) : option Z :=
  s1_walk (load64 g) 4
    (s1_frame (if Z.testbit va 55 then ttbr1_el1 g else ttbr0_el1 g) 12) va.

(** What the hook's walk supports: along the way, entries that are valid are
    tables or pages, and lie below 2^36. *)
Fixpoint s1_supported (mem : Z -> Z) (level : nat) (base va : Z) : bool :=
  match level with
  | O => true
  | S l =>
      let e := mem (base + 8 * ((va / 2 ^ (12 + 9 * Z.of_nat l)) mod 512)) in
      negb (Z.testbit e 0) ||
      (Z.testbit e 1 && (s1_frame e 12 <? 2 ^ 36) && s1_supported mem l (s1_frame e 12) va)
  end.

Lemma next_base_frame e : s1_frame e 12 < 2 ^ 36 -> next_base e = s1_frame e 12.
Proof.
  intros H. unfold next_base. rewrite get_field_arith by done. cbn [bf_low bf_width s1_oa].
  unfold s1_frame in H |- *. change (48 - 12) with 36 in *.
  change PTE_SHIFT with 12. rewrite Z.shiftl_mul_pow2 by lia. rewrite Z.mod_small; lia.
Qed.

Lemma type_valid e : (Z.land (get_field s1_type e) 1 =? 0) = negb (Z.testbit e 0).
Proof.
  change 1 with (2 ^ 0). rewrite land_bit_zero by done. f_equal. unfold get_field.
  rewrite Z.land_spec, Z.shiftr_spec by done. by rewrite andb_true_r.
Qed.

Lemma table_index va shift :
  0 <= shift -> Z.land (Z.shiftr va shift) PT_INDEX_MASK = (va / 2 ^ shift) mod 512.
Proof.
  intros H. change PT_INDEX_MASK with (Z.ones 9). by rewrite Z.land_ones, Z.shiftr_div_pow2 by lia.
Qed.

(** The lines that end an introspection. *)
Definition success_line (va pa : Z) : string :=
  "[Sentinel-VMI] *** VMI SUCCESS: VA " +:+ hex16 va +:+ " maps to PA " +:+ hex16 pa +:+ " ***" +:+ nl.
Definition failure_line (name : string) : string :=
  "[Sentinel-VMI] VMI Failed: Invalid " +:+ name +:+ " Entry" +:+ nl.

(** One level of the hook: it prints, and goes on with a valid entry. *)
Lemma run_walk_level g name shift base va h :
  0 <= shift -> 0 <= base < 2 ^ 63 ->
  let e := load64 g (base + 8 * ((va / 2 ^ shift) mod 512)) in
  exists txt, walk_level g name shift base va h =
    if Z.testbit e 0 then Some (Some e, emit txt h)
    else Some (None, emit (txt +:+ failure_line name) h).
Proof.
  intros Hs Hb e. unfold walk_level. rewrite table_index by done.
  rewrite u64_id by (unfold is_u64; pose proof (Z.mod_pos_bound (va / 2 ^ shift) 512); lia).
  fold e. eexists. rewrite type_valid. run_uart.
  destruct (Z.testbit e 0); cbn [negb]; run_uart; [reflexivity|].
  reflexivity.
Qed.

Definition ends_with (line out out' : string) : Prop := exists txt, out' = out +:+ txt +:+ line.

Lemma ends_with_emit line a h h1 :
  (exists b, h1 = emit b h) -> ends_with line (uart h) (uart (emit (a +:+ line) h1)).
Proof.
  intros [b ->]. exists (b +:+ a). rewrite emit_emit. unfold emit. cbn [uart]. by rewrite str_app_assoc.
Qed.

Lemma run_success va pa h :
  report_success va pa h = Some (tt, emit ("" +:+ success_line va pa) h).
Proof.
  unfold report_success. run_uart. unfold success_line. by rewrite !str_app_assoc.
Qed.

Definition reports (r : option Z) (va : Z) (h h' : hypervisor) : Prop :=
  match r with
  | Some pa => ends_with (success_line va pa) (uart h) (uart h')
  | None => exists name, name ∈ ["PGD"; "PUD"; "PMD"; "PTE"] /\
                         ends_with (failure_line name) (uart h) (uart h')
  end.

Lemma s1_frame_bound e : 0 <= s1_frame e 12 < 2 ^ 48.
Proof.
  unfold s1_frame. change (48 - 12) with 36. pose proof (Z.mod_pos_bound (e / 2 ^ 12) (2 ^ 36)). lia.
Qed.

(** The base register that the address selects, and its use without an ASID. *)
Definition ttbr_of (g : guest) (va : Z) : Z := if Z.testbit va 55 then ttbr1_el1 g else ttbr0_el1 g.

Lemma pgd_base_frame g va : 0 <= ttbr_of g va < 2 ^ 48 -> pgd_base g va = s1_frame (ttbr_of g va) 12.
Proof.
  intros H. unfold pgd_base. change (Z.shiftl 1 55) with (2 ^ 55). rewrite land_bit_zero by done.
  rewrite negb_involutive. unfold ttbr_of in H |- *.
  assert (forall t, 0 <= t < 2 ^ 48 -> Z.land t (u64 (Z.lnot 0xFFF)) = s1_frame t 12) as Hm.
  { intros t Ht. change (u64 (Z.lnot 0xFFF)) with (Z.shiftl (Z.ones 52) 12).
    rewrite land_field by lia. unfold s1_frame. change (48 - 12) with 36.
    rewrite !Z.mod_small; lia. }
  destruct (Z.testbit va 55); by apply Hm.
Qed.

Lemma final_pa e va : Z.lor (s1_frame e 12) (Z.land va 0xFFF) = s1_frame e 12 + va mod 4096.
Proof.
  change 0xFFF with (Z.ones 12).
  rewrite Z.land_ones by lia. unfold s1_frame. apply lor_low; [lia|].
  apply Z.mod_pos_bound. lia.
Qed.

(** Steps through one level: the code and the reference look at the same
    entry; without it, the failure is the last line. *)
Ltac walk_step name e Hb Hsup :=
  cbn [s1_walk s1_supported Nat.eqb orb] in Hsup |- *;
  match goal with
  | |- context [walk_level ?g name ?sh ?b ?va ?h] =>
      let txt := fresh "txt" in
      destruct (run_walk_level g name sh b va h ltac:(done) ltac:(lia)) as [txt ->];
      set (e := load64 g (b + 8 * ((va / 2 ^ sh) mod 512))) in Hsup |- *;
      destruct (Z.testbit e 0); cbn [negb orb andb] in Hsup |- *;
      [ let B1 := fresh in let Hf := fresh "Hf" in
        apply andb_prop in Hsup as [[B1 Hf]%andb_prop Hsup]; rewrite B1; clear B1; apply Z.ltb_lt in Hf;
        cbn [negb]; rewrite ?(next_base_frame e Hf); pose proof (s1_frame_bound e) as Hb
      | eexists; split; [reflexivity|]; split; [|done]; cbn [reports]; exists name; split; [set_solver|];
        apply ends_with_emit; eexists; rewrite ?emit_emit; reflexivity ]
  end.

(** C30. The introspection of a guest address prints exactly what the
    architectural walk of the guest's tables gives: the physical address of the
    page, or a failure when an entry on the way is invalid; provided that the
    table base has no address-space tag and the entries on the way are tables
    and pages below 2^36.  The hook always returns, and changes nothing but the
    console. *)
Theorem hvc_reports_translation g va h :
  0 <= ttbr_of g va < 2 ^ 48 ->
  s1_supported (load64 g) 4 (s1_frame (ttbr_of g va) 12) va = true ->
  exists h', introspect_va g va h = Some (tt, h') /\
    reports (s1_translate g va) va h h' /\
    stage2_l1_table h' = stage2_l1_table h /\ stage2_l2_table h' = stage2_l2_table h.
Proof.
  intros Ht Hsup. unfold introspect_va, s1_translate. fold (ttbr_of g va).
  rewrite pgd_base_frame by done. pose proof (s1_frame_bound (ttbr_of g va)) as Hb.
  set (b := s1_frame (ttbr_of g va) 12) in *. run_uart.
  match goal with |- context [emit ?s h] => generalize s; intros pre end.
  change PGD_SHIFT with (12 + 9 * Z.of_nat 3). change PUD_SHIFT with (12 + 9 * Z.of_nat 2).
  change PMD_SHIFT with (12 + 9 * Z.of_nat 1). change PTE_SHIFT with (12 + 9 * Z.of_nat 0).
  walk_step "PGD" e4 Hb4 Hsup. walk_step "PUD" e3 Hb3 Hsup. walk_step "PMD" e2 Hb2 Hsup.
  walk_step "PTE" e1 Hb1 Hsup. rewrite final_pa.
  rewrite run_success. eexists. split; [reflexivity|]. split; [|done].
  apply ends_with_emit. eexists. rewrite ?emit_emit. reflexivity.
Qed.

(** A guest with one mapped page: all tables at address 0x1000 and its
    successors, page frame 0x7000. *)
Definition guest_one : guest := Guest 0x1000 0 (fun a =>
  if a =? 0x1000 then 0x2003 else if a =? 0x2000 then 0x3003 else if a =? 0x3000 then 0x4003
  else if a =? 0x4000 + 8 * 5 then 0x7003 else 0).

Lemma hvc_reports_translation_witness :
  exists h', introspect_va guest_one 0x5123 hypervisor_boot = Some (tt, h') /\
    ends_with (success_line 0x5123 0x7123) "" (uart h').
Proof.
  destruct (hvc_reports_translation guest_one 0x5123 hypervisor_boot) as (h' & H1 & H2 & _).
  - vm_compute. split; congruence.
  - reflexivity.
  - exists h'. split; [exact H1|]. exact H2.
Defined.

(** Outside these limits the printed address is wrong: a 2 MiB block is taken
    for a table, and a page frame above 2^36 is truncated. *)
Definition guest_block : guest := Guest 0x1000 0 (fun a =>
  if a =? 0x1000 then 0x2003 else if a =? 0x2000 then 0x3003 else if a =? 0x3000 then 0x400001
  else if a =? 0x400000 + 8 * 5 then 0x7003 else 0).
Definition guest_high : guest := Guest 0x1000 0 (fun a =>
  if a =? 0x1000 then 0x2003 else if a =? 0x2000 then 0x3003 else if a =? 0x3000 then 0x4003
  else if a =? 0x4000 + 8 * 5 then 0x1000007003 else 0).

Lemma block_mapping_misreported :
  s1_translate guest_block 0x5123 = Some 0x405123 /\
  exists h', introspect_va guest_block 0x5123 hypervisor_boot = Some (tt, h') /\
    strstr (uart h') (success_line 0x5123 0x7123) = Some (success_line 0x5123 0x7123).
Proof. split; [by vm_compute|]. eexists. split; by vm_compute. Qed.

Lemma high_frame_truncated :
  s1_translate guest_high 0x5123 = Some 0x1000007123 /\
  exists h', introspect_va guest_high 0x5123 hypervisor_boot = Some (tt, h') /\
    strstr (uart h') (success_line 0x5123 0x7123) = Some (success_line 0x5123 0x7123).
Proof. split; [by vm_compute|]. eexists. split; by vm_compute. Qed.

(** ** The hook *)

Lemma run_introspect g va h : exists txt, introspect_va g va h = Some (tt, emit txt h).
Proof.
  assert (forall name sh b txt0, exists r txt,
    walk_level g name sh b va (emit txt0 h) = Some (r, emit txt h)) as Hl.
  { intros name sh b txt0. unfold walk_level. run_uart.
    case_match; run_uart; unfold mret, M_ret; eauto. }
  unfold introspect_va. run_uart.
  match goal with |- context [walk_level g "PGD" ?s ?b va (emit ?t h)] =>
    destruct (Hl "PGD" s b t) as ([e4|] & t4 & ->) end; [|by eauto].
  destruct (Hl "PUD" PUD_SHIFT (next_base e4) t4) as ([e3|] & t3 & ->); [|by eauto].
  destruct (Hl "PMD" PMD_SHIFT (next_base e3) t3) as ([e2|] & t2 & ->); [|by eauto].
  destruct (Hl "PTE" PTE_SHIFT (next_base e2) t2) as ([e1|] & t1 & ->); [|by eauto].
  rewrite run_success, emit_emit. eauto.
Qed.

(** The syndrome in terms of its fields. *)
Definition esr_class (esr : Z) : Z := (esr / 2 ^ 26) mod 64.
Definition stage2_violation (esr : Z) : Prop :=
  4 <= esr mod 64 <= 7 \/ 12 <= esr mod 64 <= 15.

Lemma esr_class_of esr : u32 (Z.shiftr (Z.land esr ESR_EC_MASK) ESR_EC_SHIFT) = esr_class esr.
Proof.
  change ESR_EC_MASK with (Z.shiftl (Z.ones 6) 26). rewrite land_field by lia.
  change ESR_EC_SHIFT with 26. rewrite Z.shiftr_div_pow2, Z.div_mul by lia.
  change (2 ^ 6) with 64. fold (esr_class esr). unfold u32. apply Z.mod_small.
  unfold esr_class. pose proof (Z.mod_pos_bound (esr / 2 ^ 26) 64). lia.
Qed.

Lemma esr_dfsc_of esr : Z.land (u32 (Z.land esr ESR_ISS_MASK)) ESR_ISS_DFSC_MASK = esr mod 64.
Proof.
  change ESR_ISS_MASK with (Z.ones 25). change ESR_ISS_DFSC_MASK with (Z.ones 6).
  rewrite !Z.land_ones by lia. unfold u32. change (2 ^ 25) with 33554432. change (2 ^ 6) with 64. lia.
Qed.

Lemma esr_wnr_of esr : negb (Z.land (u32 (Z.land esr ESR_ISS_MASK)) ESR_ISS_WnR =? 0) = Z.testbit esr 6.
Proof.
  change ESR_ISS_WnR with (2 ^ 6). rewrite land_bit_zero, negb_involutive by done.
  unfold u32. change 4294967296 with (2 ^ 32). rewrite Z.mod_pow2_bits_low by lia.
  change ESR_ISS_MASK with (Z.ones 25). rewrite Z.land_spec, Z.ones_spec_low by lia. apply andb_true_r.
Qed.

Lemma is_stage2_fault_spec z : is_stage2_fault z = true <-> 4 <= z <= 7 \/ 12 <= z <= 15.
Proof.
  unfold is_stage2_fault, DFSC_S2_FAULT_L0, DFSC_S2_FAULT_L3, DFSC_S2_PERM_L0, DFSC_S2_PERM_L3.
  rewrite orb_true_iff, !andb_true_iff, !Z.leb_le. lia.
Qed.

(** The exception hook always finishes its work, and freezes the guest if
    and only if the exception is an instruction abort or a write that stage 2
    refused; every other exception returns to the guest.  It only prints: the
    stage-2 tables and the flags of the machine stay as they are. *)
Theorem hook_freezes_iff g esr far regs h :
  regs <> [] ->
  exists o txt, handle_sync_lower g esr far regs h = Some (o, emit txt h) /\
    (o = Frozen <->
       esr_class esr = 0x20 \/
       (esr_class esr = 0x24 /\ stage2_violation esr /\ Z.testbit esr 6 = true)).
Proof.
  intros Hr. unfold handle_sync_lower. rewrite esr_class_of, esr_dfsc_of, esr_wnr_of.
  unfold ESR_EC_DATA_ABORT_L, ESR_EC_INSTR_ABORT_L, ESR_EC_HVC_EL1.
  assert (forall o : hook_outcome, exists txt, Some (o, h) = Some (o, emit txt h)) as Hsame.
  { intros o. exists "". by rewrite emit_nil. }
  destruct (esr_class esr =? 0x24) eqn:E1; boolify.
  { destruct (is_stage2_fault _) eqn:Ef; [apply is_stage2_fault_spec in Ef; destruct (Z.testbit esr 6) eqn:Ew|].
    - run_uart. do 2 eexists. split; [reflexivity|]. split; [by right|done].
    - run_uart. do 2 eexists. split; [reflexivity|]. split; [done|]. intros [?|(_ & _ & ?)]; [lia|done].
    - destruct (Hsame Resume) as [txt Ht]. do 2 eexists. split; [exact Ht|]. split; [done|].
      intros [?|(_ & Hv & _)]; [lia|]. apply is_stage2_fault_spec in Hv. congruence. }
  destruct (esr_class esr =? 0x20) eqn:E2; boolify.
  { run_uart. do 2 eexists. split; [reflexivity|]. split; [by left|done]. }
  assert (Resume = Frozen <-> esr_class esr = 0x20 \/
    (esr_class esr = 0x24 /\ stage2_violation esr /\ Z.testbit esr 6 = true)) as Hno by (split; [done|lia]).
  destruct (esr_class esr =? 0x16).
  - destruct regs as [|va regs]; [done|]. destruct (run_introspect g va h) as [txt Hi].
    cbn [lookup list_lookup]. unfold mbind, M_bind. rewrite Hi. by do 2 eexists.
  - destruct (Hsame Resume) as [txt Ht]. do 2 eexists. by split; [exact Ht|].
Qed.

Lemma hook_freezes_iff_witness :
  exists txt, handle_sync_lower guest_one (0x24 * 2 ^ 26 + 64 + 14) 0 [0x5123] hypervisor_boot =
    Some (Frozen, emit txt hypervisor_boot).
Proof.
  destruct (hook_freezes_iff guest_one (0x24 * 2 ^ 26 + 64 + 14) 0 [0x5123] hypervisor_boot)
    as (o & txt & H1 & H2).
  - discriminate.
  - exists txt. rewrite H1. f_equal. f_equal. apply H2. right. split; [reflexivity|].
    split; [right; vm_compute; split; congruence | reflexivity].
Defined.
