(* ===== verification/Arm64Asm.v ===== *)
(** * The assembly of the ARM64 hypervisor

    boot.S and exceptions.S as lists of instructions over the registers of EL2,
    the vector table, and the guest of dummy_guest.S with its page tables.

    The call of the hook in C is a function on the machine that keeps to the
    procedure call standard; what the hook does is [handle_sync_lower]. *)

From S2P Require Import Prelude CStrings BitFields Arm64.
From stdpp Require Import prelude strings list.
From Stdlib Require Import ZArith Lia Ascii.
#[local] Open Scope string_scope.
#[local] Open Scope list_scope.
#[local] Open Scope Z_scope.

(** ** The machine *)

Inductive sysreg := CurrentEL | ESR_EL2 | FAR_EL2 | ELR_EL2 | SPSR_EL2 | VBAR_EL2 | VTTBR_EL2 | VTCR_EL2 | HCR_EL2.
#[global] Instance sysreg_eq_dec : EqDecision sysreg.
Proof. solve_decision. Defined.

(** x0 to x30, the stack pointer, the system registers, and memory by 64-bit words
    at byte addresses. *)
Record el2 := El2 { xr : nat -> Z; sp : Z; sys : sysreg -> Z; dram : Z -> Z }.

Definition set_x (r : nat) (v : Z) (c : el2) : el2 :=
  El2 (fun r' => if decide (r = r') then v else xr c r') (sp c) (sys c) (dram c).
Definition set_sp (v : Z) (c : el2) : el2 := El2 (xr c) v (sys c) (dram c).
Definition set_sys (s : sysreg) (v : Z) (c : el2) : el2 :=
  El2 (xr c) (sp c) (fun s' => if decide (s = s') then v else sys c s') (dram c).
Definition store_word (a v : Z) (c : el2) : el2 :=
  El2 (xr c) (sp c) (sys c) (fun a' => if decide (a = a') then v else dram c a').

(** ** Instructions *)

Inductive ainstr :=
| SubSp (k : Z)
| AddSp (k : Z)
| MovFromSp (d : nat)
| MovToSp (s : nat)
| Stp (a b : nat) (off : Z)
| Str (a : nat) (off : Z)
| Ldp (a b : nat) (off : Z)
| Ldr (a : nat) (off : Z)
| LdrConst (d : nat) (v : Z)
| MovImm (d : nat) (v : Z)
| Lsl (d s : nat) (k : Z)
| Lsr (d s : nat) (k : Z)
| OrrReg (d a b : nat)
| OrrImm (d a : nat) (v : Z)
| Mrs (d : nat) (s : sysreg)
| Msr (s : sysreg) (r : nat)
| Barrier
| BlHook.

Section exec.
Context (hook : el2 -> el2).

Definition aexec (i : ainstr) (c : el2) : el2 :=
  match i with
  | SubSp k => set_sp (u64 (sp c - k)) c
  | AddSp k => set_sp (u64 (sp c + k)) c
  | MovFromSp d => set_x d (sp c) c
  | MovToSp s => set_sp (xr c s) c
  | Stp a b off => store_word (u64 (sp c + off + 8)) (xr c b) (store_word (u64 (sp c + off)) (xr c a) c)
  | Str a off => store_word (u64 (sp c + off)) (xr c a) c
  | Ldp a b off => set_x b (dram c (u64 (sp c + off + 8))) (set_x a (dram c (u64 (sp c + off))) c)
  | Ldr a off => set_x a (dram c (u64 (sp c + off))) c
  | LdrConst d v => set_x d v c
  | MovImm d v => set_x d v c
  | Lsl d s k => set_x d (u64 (Z.shiftl (xr c s) k)) c
  | Lsr d s k => set_x d (Z.shiftr (xr c s) k) c
  | OrrReg d a b => set_x d (Z.lor (xr c a) (xr c b)) c
  | OrrImm d a v => set_x d (Z.lor (xr c a) v) c
  | Mrs d s => set_x d (sys c s) c
  | Msr s r => set_sys s (xr c r) c
  | Barrier => c
  | BlHook => hook c
  end.

Definition arun (code : list ainstr) (c : el2) : el2 := fold_left (fun c i => aexec i c) code c.
End exec.

(** ** exceptions.S *)

Definition save_guest_context : list ainstr :=
  [SubSp 256; Stp 0 1 0; Stp 2 3 16; Stp 4 5 32; Stp 6 7 48; Stp 8 9 64; Stp 10 11 80; Stp 12 13 96; Stp 14 15 112;
   Stp 16 17 128; Stp 18 19 144; Stp 20 21 160; Stp 22 23 176; Stp 24 25 192; Stp 26 27 208; Stp 28 29 224; Str 30 240].

Definition restore_guest_context : list ainstr :=
  [Ldp 0 1 0; Ldp 2 3 16; Ldp 4 5 32; Ldp 6 7 48; Ldp 8 9 64; Ldp 10 11 80; Ldp 12 13 96; Ldp 14 15 112;
   Ldp 16 17 128; Ldp 18 19 144; Ldp 20 21 160; Ldp 22 23 176; Ldp 24 25 192; Ldp 26 27 208; Ldp 28 29 224; Ldr 30 240;
   AddSp 256].

Definition hook_args : list ainstr := [Mrs 0 ESR_EL2; Mrs 1 FAR_EL2; MovFromSp 2].

(** Up to the [eret]. *)
Definition sync_lower_el64 : list ainstr := save_guest_context ++ hook_args ++ [BlHook] ++ restore_guest_context.

(** The sixteen vectors; each of the two others branches to itself. *)
Inductive vector := SyncCurrentEl | SyncLowerEl64 | DefaultHandler.
#[global] Instance vector_eq_dec : EqDecision vector.
Proof. solve_decision. Defined.

Definition el2_vector_table : list vector :=
  [DefaultHandler; DefaultHandler; DefaultHandler; DefaultHandler;
   SyncCurrentEl; DefaultHandler; DefaultHandler; DefaultHandler;
   SyncLowerEl64; DefaultHandler; DefaultHandler; DefaultHandler;
   DefaultHandler; DefaultHandler; DefaultHandler; DefaultHandler].

(** Where an exception comes from, and its kind, in the order of the table. *)
Inductive ex_source := CurrentSp0 | CurrentSpx | LowerA64 | LowerA32.
Inductive ex_kind := ExSync | ExIrq | ExFiq | ExSError.
Definition vector_index (s : ex_source) (k : ex_kind) : nat :=
  (4 * (match s with CurrentSp0 => 0 | CurrentSpx => 1 | LowerA64 => 2 | LowerA32 => 3 end) +
   match k with ExSync => 0 | ExIrq => 1 | ExFiq => 2 | ExSError => 3 end)%nat.
Definition dispatch (s : ex_source) (k : ex_kind) : vector := nth (vector_index s k) el2_vector_table DefaultHandler.

(** The registers that the hook is given. *)
Definition hook_regs (c : el2) : list Z := (fun i => dram c (u64 (xr c 2 + 8 * Z.of_nat i))) <$> seq 0 31.

(** An exception of the guest: the processor stays at EL2, or returns to the guest
    at ELR with the registers as they are then. *)
Inductive el2_outcome := Returned (c : el2) | Waiting.

Definition take_exception (hook : el2 -> el2) (g : guest) (s : ex_source) (k : ex_kind) (c : el2) : M hypervisor el2_outcome :=
  match dispatch s k with
  | SyncLowerEl64 =>
      let call := arun hook (save_guest_context ++ hook_args) c in
      out ← handle_sync_lower g (xr call 0) (xr call 1) (hook_regs call);
      match out with
      | Resume => mret (Returned (arun hook ([BlHook] ++ restore_guest_context) call))
      | Frozen => mret Waiting
      end
  | _ => mret Waiting
  end.

(** The procedure call standard, for a function that writes neither system
    registers nor the frame of its caller. *)
Record aapcs (hook : el2 -> el2) : Prop := {
  aa_sp c : sp (hook c) = sp c;
  aa_sys c s : sys (hook c) s = sys c s;
  aa_mem c a : sp c <= a -> dram (hook c) a = dram c a;
}.

(** ** boot.S *)

(** [_start] and [el2_entry] up to the call of [hypervisor_main], for the addresses
    of the stack and of the vectors; [None] waits for ever. *)
Definition el_check : list ainstr := [Mrs 0 CurrentEL; Lsr 0 0 2].
Definition el2_entry (stack_top vectors : Z) : list ainstr :=
  [LdrConst 1 stack_top; MovToSp 1; LdrConst 0 vectors; Msr VBAR_EL2 0; Barrier].
Definition boot_start (stack_top vectors : Z) (c : el2) : option el2 :=
  let c1 := arun id el_check c in
  if xr c1 0 =? 2 then Some (arun id (el2_entry stack_top vectors) c1) else None.

Definition stage2_setup (l1_addr : Z) : list ainstr :=
  [LdrConst 0 l1_addr; MovImm 1 1; Lsl 1 1 48; OrrReg 0 0 1; Msr VTTBR_EL2 0;
   LdrConst 0 0x80023058; Msr VTCR_EL2 0;
   Mrs 0 HCR_EL2; OrrImm 0 0 1; MovImm 1 1; Lsl 1 1 31; OrrReg 0 0 1; Msr HCR_EL2 0; Barrier; Barrier].

(** Up to the [eret], which enters the guest at ELR in the mode of SPSR. *)
Definition enter_el1 (guest_entry : Z) : list ainstr :=
  [LdrConst 0 0x3C5; Msr SPSR_EL2 0; LdrConst 0 guest_entry; Msr ELR_EL2 0].

(** ** dummy_guest.S *)

(** The five tables from the address [base], a page each. *)
Definition guest_word (base a : Z) : Z :=
  if a =? base then (base + 0x1000) + 3
  else if a =? base + 8 * 36 then (base + 0x2000) + 3
  else if a =? base + 0x1000 + 8 * 1 then 0x40000701
  else if a =? base + 0x2000 + 8 * 209 then (base + 0x3000) + 3
  else if a =? base + 0x3000 + 8 * 179 then (base + 0x4000) + 3
  else if a =? base + 0x4000 + 8 * 393 then 0x40200703
  else 0.

Definition dummy_guest (guest_pgd : Z) : guest := Guest guest_pgd 0 (guest_word guest_pgd).

(** What the guest does that EL2 sees: the call with the address in x0, and the
    branch. *)
Inductive guest_act := ActHvc (x0 : Z) | ActBranch (va : Z).
Definition dummy_guest_entry : list guest_act := [ActHvc 0x123456789000; ActBranch 0x40200000].
