(* ===== verification/Arm64AsmProofs.v ===== *)
(** * Theorems about the assembly of the ARM64 hypervisor

    The path of an exception of the guest, the control registers, and the demo
    guest from boot to its end. *)

From S2P Require Import Prelude CStrings BitFields Arm64 Arm64Proofs Arm64Asm.
From stdpp Require Import prelude strings list.
From Stdlib Require Import ZArith Lia Ascii.
#[local] Open Scope string_scope.
#[local] Open Scope list_scope.
#[local] Open Scope Z_scope.

(** ** Saving and restoring *)

Section context.
Context (hook : el2 -> el2).

Lemma arun_app a b c : arun hook (a ++ b) c = arun hook b (arun hook a c).
Proof. apply fold_left_app. Qed.

Definition save_pair (j : nat) : ainstr := Stp (2 * j) (2 * j + 1) (16 * Z.of_nat j).
Definition load_pair (j : nat) : ainstr := Ldp (2 * j) (2 * j + 1) (16 * Z.of_nat j).

Record saved (n : nat) (c c' : el2) : Prop := {
  sv_x : xr c' = xr c; sv_sp : sp c' = sp c; sv_sys : sys c' = sys c;
  sv_words i : (i < n)%nat -> dram c' (sp c + 8 * Z.of_nat i) = xr c i;
}.

Lemma store_saved n c v c' : saved n c c' -> 0 <= sp c -> sp c + 8 * Z.of_nat n + 8 < 18446744073709551616 -> v = xr c n ->
  saved (S n) c (store_word (u64 (sp c + 8 * Z.of_nat n)) v c').
Proof.
  intros [H1 H2 H3 H4] Hs Hb ->. split; [done..|]. intros i Hi. cbn [store_word dram].
  rewrite u64_id by (unfold is_u64; lia). destruct (decide (i = n)) as [->|Hne]; [by rewrite decide_True|].
  rewrite decide_False by lia. apply H4. lia.
Qed.

Lemma run_save_pairs n c : 0 <= sp c -> sp c + 16 * Z.of_nat n < 18446744073709551616 ->
  saved (2 * n) c (arun hook (save_pair <$> seq 0 n) c).
Proof.
  intros H0 Hb. induction n as [|n IH]; [split; (done || lia)|].
  rewrite seq_S, fmap_app, arun_app. cbn [Nat.add fmap list_fmap]. specialize (IH ltac:(lia)).
  generalize dependent (arun hook (save_pair <$> seq 0 n) c). intros d Hd.
  change (arun hook [save_pair n] d) with (aexec hook (save_pair n) d). unfold save_pair. cbn [aexec].
  rewrite (sv_sp _ _ _ Hd), (sv_x _ _ _ Hd). replace (2 * S n)%nat with (S (S (2 * n))) by lia.
  replace (sp c + 16 * Z.of_nat n + 8) with (sp c + 8 * Z.of_nat (S (2 * n))) by lia.
  replace (sp c + 16 * Z.of_nat n) with (sp c + 8 * Z.of_nat (2 * n)) by lia.
  apply store_saved; [|lia|lia|f_equal; lia]. apply store_saved; [done|lia|lia|done].
Qed.

Record loaded (n : nat) (c c' : el2) : Prop := {
  ld_sp : sp c' = sp c; ld_sys : sys c' = sys c; ld_mem : dram c' = dram c;
  ld_words i : (i < n)%nat -> xr c' i = dram c (sp c + 8 * Z.of_nat i);
}.

Lemma load_loaded n c v c' : loaded n c c' -> v = dram c (sp c + 8 * Z.of_nat n) -> loaded (S n) c (set_x n v c').
Proof.
  intros [H1 H2 H3 H4] ->. split; [done..|]. intros i Hi. cbn [set_x xr].
  destruct (decide (n = i)) as [->|Hne]; [done|]. apply H4. lia.
Qed.

Lemma run_load_pairs n c : 0 <= sp c -> sp c + 16 * Z.of_nat n < 18446744073709551616 ->
  loaded (2 * n) c (arun hook (load_pair <$> seq 0 n) c).
Proof.
  intros H0 Hb. induction n as [|n IH]; [split; (done || lia)|].
  rewrite seq_S, fmap_app, arun_app. cbn [Nat.add fmap list_fmap]. specialize (IH ltac:(lia)).
  generalize dependent (arun hook (load_pair <$> seq 0 n) c). intros d Hd.
  change (arun hook [load_pair n] d) with (aexec hook (load_pair n) d). unfold load_pair. cbn [aexec].
  rewrite (ld_sp _ _ _ Hd), (ld_mem _ _ _ Hd). replace (2 * S n)%nat with (S (S (2 * n))) by lia.
  replace (2 * n + 1)%nat with (S (2 * n)) by lia.
  apply load_loaded; [apply load_loaded; [done|]|]; rewrite u64_id by (unfold is_u64; lia); f_equal; lia.
Qed.
End context.

(** ** The path of an exception *)

Section trap.
Context (hook : el2 -> el2) (Hhook : aapcs hook) (c : el2) (Hsp : 256 <= sp c < 18446744073709551616).

Notation call := (arun hook (save_guest_context ++ hook_args) c).

Lemma save_state : saved 31 (set_sp (sp c - 256) c) (arun hook save_guest_context c).
Proof.
  change save_guest_context with ([SubSp 256] ++ (save_pair <$> seq 0 15) ++ [Str 30 240]). rewrite !arun_app.
  assert (arun hook [SubSp 256] c = set_sp (sp c - 256) c) as ->.
  { unfold arun. cbn [fold_left aexec]. by rewrite u64_id by (unfold is_u64; lia). }
  pose proof (run_save_pairs hook 15 (set_sp (sp c - 256) c)) as H. cbn [sp set_sp] in H.
  specialize (H ltac:(lia) ltac:(lia)). revert H. generalize (arun hook (save_pair <$> seq 0 15) (set_sp (sp c - 256) c)).
  intros d Hd. unfold arun. cbn [fold_left aexec]. rewrite (sv_sp _ _ _ Hd), (sv_x _ _ _ Hd).
  apply (store_saved hook 30%nat); [done|cbn; lia|cbn; lia|done].
Qed.

Lemma call_args :
  xr call 0 = sys c ESR_EL2 /\ xr call 1 = sys c FAR_EL2 /\ xr call 2 = sp c - 256 /\ sp call = sp c - 256 /\
  sys call = sys c /\ forall i, (i < 31)%nat -> dram call (sp c - 256 + 8 * Z.of_nat i) = xr c i.
Proof.
  rewrite arun_app. destruct save_state as [H1 H2 H3 H4]. revert H1 H2 H3 H4.
  generalize (arun hook save_guest_context c). intros d H1 H2 H3 H4. cbn [set_sp sp sys xr] in *.
  unfold hook_args, arun. cbn [fold_left aexec set_x xr sp sys dram]. rewrite H2, H3.
  repeat (rewrite decide_False by lia || rewrite decide_True by lia). done.
Qed.

Lemma call_regs : hook_regs call = xr c <$> seq 0 31.
Proof.
  destruct call_args as (_ & _ & H2 & _ & _ & Hw). unfold hook_regs. rewrite H2. apply list_fmap_ext.
  intros k i [-> Hi]%lookup_seq. rewrite u64_id by (unfold is_u64; lia). apply Hw. lia.
Qed.

Lemma return_state :
  let c' := arun hook ([BlHook] ++ restore_guest_context) call in
  (forall i, (i < 31)%nat -> xr c' i = xr c i) /\ sp c' = sp c /\ forall s, sys c' s = sys c s.
Proof.
  destruct call_args as (_ & _ & _ & Hs & Hy & Hw). revert Hs Hy Hw. generalize call. intros d Hs Hy Hw.
  change ([BlHook] ++ restore_guest_context) with ([BlHook] ++ (load_pair <$> seq 0 15) ++ [Ldr 30 240; AddSp 256]).
  rewrite !arun_app. change (arun hook [BlHook] d) with (hook d).
  pose proof (aa_sp _ Hhook d) as Hs'. pose proof (run_load_pairs hook 15 (hook d)) as H. rewrite Hs', Hs in H.
  specialize (H ltac:(lia) ltac:(lia)). revert H. generalize (arun hook (load_pair <$> seq 0 15) (hook d)). intros e He.
  unfold arun. cbn [fold_left aexec]. rewrite (ld_sp _ _ _ He), (ld_mem _ _ _ He), Hs', Hs.
  assert (loaded 31 (hook d) (set_x 30 (dram (hook d) (u64 (sp c - 256 + 240))) e)) as [L1 L2 L3 L4].
  { apply (load_loaded hook 30%nat); [done|]. rewrite Hs', Hs, u64_id by (unfold is_u64; lia). done. }
  split_and!.
  - intros i Hi. cbn [set_sp xr]. rewrite (L4 i Hi), Hs', Hs, (aa_mem _ Hhook) by lia. by apply Hw.
  - cbn [set_sp sp set_x]. rewrite (ld_sp _ _ _ He), Hs', Hs. rewrite u64_id by (unfold is_u64; lia). lia.
  - intros s. change (sys (set_x 30 (dram (hook d) (u64 (sp c - 256 + 240))) e) s = sys c s).
    by rewrite L2, (aa_sys _ Hhook), Hy.
Qed.
End trap.

(** C16. Exceptions of the guest: with room on the stack and a hook that keeps to the
    call standard, a synchronous exception of the guest reaches the hook with the
    syndrome, the fault address and the guest's 31 registers; the processor stays at
    EL2 if and only if it was an instruction abort or a write that stage 2 refused,
    and otherwise the guest goes on at the same ELR with its registers, the stack
    pointer and the system registers as they were.  Every other exception, the
    interrupts of the guest among them, stops the processor. *)
Theorem guest_trap_exact hook g c h s k :
  aapcs hook -> 256 <= sp c < 18446744073709551616 ->
  exists o txt, take_exception hook g s k c h = Some (o, emit txt h) /\
    if decide (dispatch s k = SyncLowerEl64) then
      s = LowerA64 /\ k = ExSync /\
      (exists out, handle_sync_lower g (sys c ESR_EL2) (sys c FAR_EL2) (xr c <$> seq 0 31) h = Some (out, emit txt h)) /\
      (o = Waiting <-> esr_class (sys c ESR_EL2) = 0x20 \/
         (esr_class (sys c ESR_EL2) = 0x24 /\ stage2_violation (sys c ESR_EL2) /\ Z.testbit (sys c ESR_EL2) 6 = true)) /\
      (forall c', o = Returned c' ->
         (forall i, (i < 31)%nat -> xr c' i = xr c i) /\ sp c' = sp c /\ forall s, sys c' s = sys c s)
    else o = Waiting /\ txt = "".
Proof.
  intros Hhook Hsp. unfold take_exception. destruct (decide (dispatch s k = SyncLowerEl64)) as [E|E].
  - assert (s = LowerA64 /\ k = ExSync) as [-> ->] by by destruct s, k.
    rewrite E. destruct (call_args hook c Hsp) as (-> & -> & _). rewrite (call_regs hook c Hsp).
    destruct (hook_freezes_iff g (sys c ESR_EL2) (sys c FAR_EL2) (xr c <$> seq 0 31) h) as (out & txt & Hr & Hf); [done|].
    unfold mbind, M_bind. rewrite Hr. pose proof (return_state hook Hhook c Hsp) as Hret. cbn zeta in Hret.
    revert Hret. generalize (arun hook ([BlHook] ++ restore_guest_context) (arun hook (save_guest_context ++ hook_args) c)).
    clear E. intros d Hret. destruct out; unfold mret, M_ret; (eexists _, txt; split; [reflexivity|]; split_and!; [reflexivity|reflexivity|by eexists|..]).
    + rewrite <- Hf. done.
    + by intros c' [= <-].
    + rewrite <- Hf. done.
    + done.
  - exists Waiting, "". rewrite emit_nil. by destruct (dispatch s k).
Qed.

(** A hook that scratches the registers and the stack below it. *)
Definition demo_hook (c : el2) : el2 := store_word (sp c - 16) 9 (set_x 0 7 (set_x 19 8 c)).

Lemma demo_hook_aapcs : aapcs demo_hook.
Proof. split; [done|done|]. intros c a Ha. cbn. by rewrite decide_False by lia. Qed.

Definition demo_el2 : el2 :=
  El2 (fun i => Z.of_nat i) 0x40008000 (fun s => match s with ESR_EL2 => 0x92000006 | ELR_EL2 => 0x40000100 | _ => 0 end) (fun _ => 0).

Lemma guest_trap_exact_witness :
  exists c' txt, take_exception demo_hook guest_one LowerA64 ExSync demo_el2 hypervisor_boot = Some (Returned c', emit txt hypervisor_boot) /\
    xr c' 19 = 19 /\ sys c' ELR_EL2 = 0x40000100.
Proof.
  destruct (guest_trap_exact demo_hook guest_one demo_el2 hypervisor_boot LowerA64 ExSync demo_hook_aapcs) as (o & txt & H1 & H2).
  - cbn. lia.
  - destruct (decide (dispatch LowerA64 ExSync = SyncLowerEl64)) as [_|E]; [|by destruct E].
    destruct H2 as (_ & _ & _ & Hw & Hr). destruct o as [c'|].
    + exists c', txt. destruct (Hr c' eq_refl) as (Hx & _ & Hs). split; [exact H1|]. split; [apply Hx; lia|apply Hs].
    + exfalso. assert (esr_class 0x92000006 = 0x24) as Hc by (by vm_compute).
      destruct (proj1 Hw eq_refl) as [H|(_ & _ & H)]; [|by vm_compute in H]. change (sys demo_el2 ESR_EL2) with 0x92000006 in H.
      rewrite Hc in H. lia.
Defined.

(** A read that stage 2 refuses is answered with the same instruction again: the
    exception repeats for ever. *)
Lemma refused_read_repeats n hook g c h :
  aapcs hook -> 256 <= sp c < 18446744073709551616 ->
  esr_class (sys c ESR_EL2) = 0x24 -> stage2_violation (sys c ESR_EL2) -> Z.testbit (sys c ESR_EL2) 6 = false ->
  exists c' h', Nat.iter n (fun r => match r with Some (Returned c1, h1) => take_exception hook g LowerA64 ExSync c1 h1 | _ => None end)
      (Some (Returned c, h)) = Some (Returned c', h') /\
    sp c' = sp c /\ forall s, sys c' s = sys c s.
Proof.
  intros Hh Hsp Hc Hv Hw. induction n as [|n (c1 & h1 & IH & Hs & Hy)]; [by exists c, h|].
  rewrite Nat.iter_succ, IH. unfold take_exception. change (dispatch LowerA64 ExSync) with SyncLowerEl64. cbv iota.
  assert (256 <= sp c1 < 18446744073709551616) as Hsp1 by by rewrite Hs.
  destruct (call_args hook c1 Hsp1) as (-> & -> & _). rewrite (call_regs hook c1 Hsp1), !Hy.
  destruct (hook_freezes_iff g (sys c ESR_EL2) (sys c FAR_EL2) (xr c1 <$> seq 0 31) h1) as ([] & txt & Hr & Hf); [done|..].
  - unfold mbind, M_bind. rewrite Hr. destruct (return_state hook Hh c1 Hsp1) as (_ & R2 & R3).
    revert R2 R3. generalize (arun hook ([BlHook] ++ restore_guest_context) (arun hook (save_guest_context ++ hook_args) c1)).
    intros d R2 R3. exists d, (emit txt h1). split; [reflexivity|]. split; [congruence|]. intros s. by rewrite R3.
  - exfalso. destruct (proj1 Hf eq_refl) as [?|(_ & _ & ?)]; [lia|congruence].
Qed.

(** ** Control registers *)

(** What [configure_stage2_mmu] asks for: the table with VMID 1; the regime of 40
    bits of address from level 1 with a granule of 4 KiB, 40 bits of output; and in
    HCR the bits VM and RW. *)
Lemma stage2_setup_regs l1 c : 0 <= l1 < 2 ^ 48 ->
  let c' := arun id (stage2_setup l1) c in
  sys c' VTTBR_EL2 mod 2 ^ 48 = l1 /\ sys c' VTTBR_EL2 / 2 ^ 48 = 1 /\
  (let v := sys c' VTCR_EL2 in v mod 64 = 24 /\ (v / 2 ^ 6) mod 4 = 1 /\ (v / 2 ^ 14) mod 4 = 0 /\ (v / 2 ^ 16) mod 8 = 2) /\
  (forall b, 0 <= b -> Z.testbit (sys c' HCR_EL2) b = (b =? 0) || (b =? 31) || Z.testbit (sys c HCR_EL2) b).
Proof.
  intros Hl c'. assert (sys c' VTTBR_EL2 = Z.lor (1 * 2 ^ 48) l1) as -> by (rewrite Z.lor_comm; reflexivity).
  assert (sys c' HCR_EL2 = Z.lor (Z.lor (sys c HCR_EL2) (2 ^ 0)) (2 ^ 31)) as -> by reflexivity.
  change (sys c' VTCR_EL2) with 0x80023058. clear c'. rewrite lor_low by lia. split_and!; [lia|lia|by vm_compute|].
  intros b Hb. rewrite !Z.lor_spec, !Z.pow2_bits_eqb by lia. rewrite (Z.eqb_sym 0 b), (Z.eqb_sym 31 b).
  by destruct (b =? 0), (b =? 31), (Z.testbit (sys c HCR_EL2) b).
Qed.

(** The regime needs [2^(40 - 30)] entries at level 1, in a table aligned to its
    size; the array has 512. *)
Lemma root_table_short l1 c : 0 <= l1 < 2 ^ 48 ->
  let v := sys (arun id (stage2_setup l1) c) VTCR_EL2 in
  2 ^ (64 - v mod 64 - 30) = 2 * Z.of_nat (length (stage2_l1_table hypervisor_boot)).
Proof. intros _. by vm_compute. Qed.

(** The boot code goes on only at EL2, with the stack and the vectors set. *)
Lemma boot_start_el2 stack_top vectors c :
  match boot_start stack_top vectors c with
  | Some c' => Z.shiftr (sys c CurrentEL) 2 = 2 /\ sp c' = stack_top /\ sys c' VBAR_EL2 = vectors
  | None => Z.shiftr (sys c CurrentEL) 2 <> 2
  end.
Proof.
  unfold boot_start. change (xr (arun id el_check c) 0) with (Z.shiftr (sys c CurrentEL) 2).
  destruct (_ =? 2) eqn:E; boolify; [|done]. split; [done|]. by split.
Qed.

(** ** The demo guest *)

(** A call of the hypervisor has class 0x16; an instruction fetch that stage 2
    refuses has class 0x20, with a permission or a translation fault of level 2. *)
Fixpoint run_guest (hook : el2 -> el2) (g : guest) (l2_addr : Z) (acts : list guest_act) (c : el2) : M hypervisor el2_outcome :=
  match acts with
  | [] => mret (Returned c)
  | ActHvc v :: rest =>
      out ← take_exception hook g LowerA64 ExSync (set_x 0 v (set_sys ESR_EL2 0x5A000000 c));
      match out with Returned c' => run_guest hook g l2_addr rest c' | Waiting => mret Waiting end
  | ActBranch va :: rest =>
      match s1_translate g va with
      | None => stuck
      | Some ipa =>
          access ← gets (fun h => stage2_translate l2_addr h ipa);
          let abort iss := take_exception hook g LowerA64 ExSync (set_sys ESR_EL2 (0x82000000 + iss) (set_sys FAR_EL2 va c)) in
          match access with
          | Some a => if s2_exec a then run_guest hook g l2_addr rest c else abort 0x0E
          | None => abort 0x06
          end
      end
  end.

Definition demo_system : M hypervisor el2_outcome :=
  _ ← hypervisor_main 0x40001000;
  run_guest demo_hook (dummy_guest 0x40002000) 0x40001000 dummy_guest_entry demo_el2.

(** The text of output.txt, and the report of the branch. *)
Definition demo_output : string :=
  "[Sentinel-VMI] Booting Type-1 Hypervisor at EL2..." +:+ nl +:+
  "[Sentinel-VMI] Initializing Stage 2 MMU..." +:+ nl +:+
  "[Sentinel-VMI] Stage 2 MMU Tables Populated in Memory." +:+ nl +:+
  "[Sentinel-VMI] Initialization complete. Dropping to EL1 Guest..." +:+ nl +:+ nl +:+
  "[Sentinel-VMI] Intercepted HVC. Introspecting Guest VA: 0x0000123456789000" +:+ nl +:+
  "[Sentinel-VMI] TTBR Base PA: 0x0000000040002000" +:+ nl +:+
  "[Sentinel-VMI] PGD Index: 0x0000000000000024 -> Entry: 0x0000000040004003" +:+ nl +:+
  "[Sentinel-VMI] PUD Index: 0x00000000000000D1 -> Entry: 0x0000000040005003" +:+ nl +:+
  "[Sentinel-VMI] PMD Index: 0x00000000000000B3 -> Entry: 0x0000000040006003" +:+ nl +:+
  "[Sentinel-VMI] PTE Index: 0x0000000000000189 -> Entry: 0x0000000040200703" +:+ nl +:+
  "[Sentinel-VMI] *** VMI SUCCESS: VA 0x0000123456789000 maps to PA 0x0000000040200000 ***" +:+ nl +:+ nl +:+
  "[!!!] SENTINEL MITIGATION TRIGGERED [!!!]" +:+ nl +:+
  "CRITICAL: Malicious Instruction Execution Attempt Intercepted at EL2." +:+ nl +:+
  "Violating Guest Virtual Address (FAR_EL2): 0x0000000040200000" +:+ nl +:+
  "Exception Syndrome Register (ESR_EL2):    0x000000008200000E" +:+ nl +:+
  "ACTION: Freezing Guest Execution Context Environment." +:+ nl.

Example demo_system_frozen :
  exists h, demo_system hypervisor_boot = Some (Waiting, h) /\ uart h = demo_output.
Proof. eexists. split; [vm_compute; reflexivity|]. by vm_compute. Qed.
