(* ===== verification/Smm.v ===== *)
(** * The SMM supervisor driver (sentinel-smm/src/SentinelSmmDxe.c)

    The lockdown of the SPI flash, the I/O port policy and the trap handler,
    over the registers of SentinelSpiLockdown.h.

    The chipset and the UEFI services are a class of operations; the classes of
    laws state the register behaviour that SentinelSpiLockdown.h documents.
    DEBUG output is not modelled. *)

From S2P Require Import Prelude.
From stdpp Require Import prelude list.
From Stdlib Require Import ZArith Lia.
#[local] Open Scope Z_scope.

(** ** Registers (SentinelSpiLockdown.h) *)

Definition LPC_BUS : Z := 0.
Definition LPC_DEV : Z := 31.
Definition LPC_FUNC : Z := 0.
Definition R_BIOS_CNTL : Z := 0xDC.
Definition B_BIOS_CNTL_BIOSWE : Z := 1.
Definition B_BIOS_CNTL_BLE : Z := 2.
Definition B_BIOS_CNTL_SMM_BWP : Z := 32.
Definition R_RCBA : Z := 0xF0.
Definition B_RCBA_ENABLE : Z := 1.
Definition RCBA_ADDR_MASK : Z := 0xFFFFC000.
Definition SPIBAR_OFFSET : Z := 0x3800.
Definition R_HSFS : Z := 0x04.
Definition B_HSFS_FLOCKDN : Z := 32768.
Definition R_PR0 : Z := 0x74.
Definition B_PR_WP_ENABLE : Z := 32768.
Definition B_PR_RP_ENABLE : Z := 2147483648.
Definition R_FREG2_ME : Z := 0x58.
Definition FREG_BASE_MASK : Z := 0x00001FFF.
Definition FREG_LIMIT_MASK : Z := 0x1FFF0000.
Definition FREG_LIMIT_SHIFT : Z := 16.

Definition PR_BASE (PhysAddr : Z) : Z := Z.land (Z.shiftr PhysAddr 12) 0x1FFF.
Definition PR_LIMIT (PhysAddr : Z) : Z := Z.shiftl (Z.land (Z.shiftr PhysAddr 12) 0x1FFF) 16.
Definition PR_VALUE (Base Limit : Z) (WriteProtect ReadProtect : bool) : Z :=
  Z.lor (Z.lor (Z.lor (PR_BASE Base) (PR_LIMIT Limit)) (if WriteProtect then B_PR_WP_ENABLE else 0))
        (if ReadProtect then B_PR_RP_ENABLE else 0).

(** ** The platform *)

(** The opcodes that the driver records for the resume from S3. *)
Inductive s3_op :=
  | PciConfigWrite8 (address value : Z)
  | MemWrite32 (address value : Z).
#[global] Instance s3_op_eq_dec : EqDecision s3_op.
Proof. solve_decision. Defined.

Inductive EFI_STATUS := EFI_SUCCESS | EFI_DEVICE_ERROR | EFI_ACCESS_DENIED.
#[global] Instance EFI_STATUS_eq_dec : EqDecision EFI_STATUS.
Proof. solve_decision. Defined.

(** PciLib, IoLib and the boot services: [LocateS3] is [LocateProtocol] of the
    S3 save state protocol, [S3Write] its recording of one opcode. *)
Class Platform (W : Type) := {
  PCI_LIB_ADDRESS : Z -> Z -> Z -> Z -> Z;
  PciRead32 : Z -> W -> Z;
  PciRead8 : Z -> W -> Z;
  PciWrite8 : Z -> Z -> W -> W;
  MmioRead32 : Z -> W -> Z;
  MmioWrite32 : Z -> Z -> W -> W;
  MmioOr32 : Z -> Z -> W -> W;
  LocateS3 : W -> bool * W;
  S3Write : s3_op -> W -> bool * W;
}.

Definition LPC_PCI_ADDR `{Platform W} (Offset : Z) : Z :=
  PCI_LIB_ADDRESS LPC_BUS LPC_DEV LPC_FUNC Offset.

Definition EFI_BOOT_SCRIPT_PCI_ADDRESS (bus dev func reg : Z) : Z :=
  Z.lor (Z.lor (Z.lor (Z.shiftl bus 24) (Z.shiftl dev 16)) (Z.shiftl func 8)) reg.

(** ** Phase 3: the flash lockdown *)

Section lockdown.
Context {W : Type} `{PF : Platform W}.

(** The region of the management engine, from FREG2. *)
Definition me_region (Freg2 : Z) : Z * Z :=
  let MeBase := u32 (Z.shiftl (Z.land Freg2 FREG_BASE_MASK) 12) in
  let MeLimit := u32 (Z.shiftl (Z.shiftr (Z.land Freg2 FREG_LIMIT_MASK) FREG_LIMIT_SHIFT) 12) in
  (MeBase, Z.lor MeLimit 0xFFF).

(** Step 4; the result is the last value of HSFS that was read. *)
Definition assert_flockdn (SpiBar : Z) : M W Z :=
  Hsfs ← gets (MmioRead32 (u32 (SpiBar + R_HSFS)));
  if Z.land Hsfs B_HSFS_FLOCKDN =? 0 then
    _ ← modify (MmioOr32 (u32 (SpiBar + R_HSFS)) B_HSFS_FLOCKDN);
    gets (MmioRead32 (u32 (SpiBar + R_HSFS)))
  else mret Hsfs.

(** Step 5; the result is the value of BIOS_CNTL read back. *)
Definition lock_bios_cntl : M W Z :=
  BiosCntl ← gets (PciRead8 (LPC_PCI_ADDR R_BIOS_CNTL));
  let v := Z.lor (Z.lor (Z.land BiosCntl (u8 (Z.lnot B_BIOS_CNTL_BIOSWE))) B_BIOS_CNTL_BLE)
             B_BIOS_CNTL_SMM_BWP in
  _ ← modify (PciWrite8 (LPC_PCI_ADDR R_BIOS_CNTL) v);
  gets (PciRead8 (LPC_PCI_ADDR R_BIOS_CNTL)).

(** Step 6; a failure to record is only printed. *)
Definition record_s3 (SpiBar BiosCntl Pr0Value Hsfs : Z) : M W unit :=
  _ ← lift (S3Write (PciConfigWrite8
        (EFI_BOOT_SCRIPT_PCI_ADDRESS LPC_BUS LPC_DEV LPC_FUNC R_BIOS_CNTL) BiosCntl));
  _ ← lift (S3Write (MemWrite32 (u32 (SpiBar + R_PR0)) Pr0Value));
  _ ← lift (S3Write (MemWrite32 (u32 (SpiBar + R_HSFS)) (Z.lor Hsfs B_HSFS_FLOCKDN)));
  mret tt.

(** The read-back of PR0 and the checks of the latched bits only choose
    messages. *)
Definition EnforceSpiLockdown : M W EFI_STATUS :=
  S3SaveState ← lift LocateS3;
  RcbaRaw ← gets (PciRead32 (LPC_PCI_ADDR R_RCBA));
  if Z.land RcbaRaw B_RCBA_ENABLE =? 0 then mret EFI_DEVICE_ERROR
  else
    let RcbaBase := Z.land RcbaRaw RCBA_ADDR_MASK in
    let SpiBar := u32 (RcbaBase + SPIBAR_OFFSET) in
    Freg2 ← gets (MmioRead32 (u32 (SpiBar + R_FREG2_ME)));
    let '(MeBase, MeLimit) := me_region Freg2 in
    let Pr0Value := PR_VALUE MeBase MeLimit true false in
    _ ← modify (MmioWrite32 (u32 (SpiBar + R_PR0)) Pr0Value);
    Hsfs ← assert_flockdn SpiBar;
    BiosCntl ← lock_bios_cntl;
    _ ← (if S3SaveState : bool then record_s3 SpiBar BiosCntl Pr0Value Hsfs else mret tt);
    mret EFI_SUCCESS.
End lockdown.

(** ** The I/O port policy *)

Definition IO_MAP_BYTES : nat := Z.to_nat 8192.

(** [IoAllowMap[port / 8] |= (1 << (port % 8))] *)
Definition allow_port (port : Z) (IoAllowMap : list Z) : list Z :=
  alter (fun b => u8 (Z.lor b (Z.shiftl 1 (port mod 8)))) (Z.to_nat (port / 8)) IoAllowMap.

Definition InitPolicyTable (IoAllowMap : list Z) : list Z :=
  allow_port 0x400 (allow_port 0x71 (allow_port 0x70 IoAllowMap)).

(** [IoAllowMap[Port / 8] & (1 << (Port % 8))] *)
Definition port_allowed (IoAllowMap : list Z) (Port : Z) : option bool :=
  match IoAllowMap !! Z.to_nat (Port / 8) with
  | None => None
  | Some b => Some (negb (Z.land b (Z.shiftl 1 (Port mod 8)) =? 0))
  end.

(** The registers that the handler reads of [SENTINEL_CPU_CONTEXT]. *)
Record cpu_context := CpuContext { Rdx : Z; Rcx : Z }.

Definition SafeMsrList : list Z := [].

Definition check_port (IoAllowMap : list Z) (Port : Z) : option EFI_STATUS :=
  match port_allowed IoAllowMap Port with
  | None => None
  | Some true => Some EFI_SUCCESS
  | Some false => Some EFI_ACCESS_DENIED
  end.

(** [Instruction] is the code at the faulting address; [None] is an access
    outside the map. *)
Definition PolicyCheckTrapHandler (IoAllowMap : list Z) (Instruction : nat -> Z) (Context : cpu_context)
  : option EFI_STATUS :=
  let op := Instruction 0%nat in
  if (op =? 0x0F) && ((Instruction 1%nat =? 0x32) || (Instruction 1%nat =? 0x30)) then
    Some (if existsb (Z.eqb (u32 (Rcx Context))) SafeMsrList then EFI_SUCCESS else EFI_ACCESS_DENIED)
  else if (op =? 0xE4) || (op =? 0xE5) || (op =? 0xE6) || (op =? 0xE7) then
    check_port IoAllowMap (Instruction 1%nat)
  else if (op =? 0xEC) || (op =? 0xED) || (op =? 0xEE) || (op =? 0xEF) then
    check_port IoAllowMap (u16 (Rdx Context))
  else Some EFI_ACCESS_DENIED.

(** ** The entry point *)

(** The driver returns, or stops the boot in [CpuDeadLoop]. *)
Inductive dxe_outcome := Returned (s : EFI_STATUS) | DeadLoop.

Definition SentinelSmmDxeEntry {W} `{PF : Platform W} : M (list Z * W) dxe_outcome :=
  _ ← modify (fun s => (InitPolicyTable s.1, s.2));
  Status ← zoom snd (fun w s => (s.1, w)) EnforceSpiLockdown;
  mret (match Status with EFI_SUCCESS => Returned EFI_SUCCESS | _ => DeadLoop end).
