(* ===== verification/SmmProofs.v ===== *)
(** * The SMM supervisor driver: theorems

    What the lockdown achieves on a chipset with the documented register
    behaviour, that nothing short of a reset undoes it, that the recorded
    script restores it on resume, and the exact policy of the trap handler. *)

From S2P Require Import Prelude Smm.
From stdpp Require Import prelude list relations.
From Stdlib Require Import ZArith Lia.
#[local] Open Scope Z_scope.

(** ** The chipset as SentinelSpiLockdown.h documents it *)

Record spi_regs := SpiRegs { rcba : Z; freg2 : Z; pr0 : Z; hsfs : Z; bios_cntl : Z }.

Definition flockdn (r : spi_regs) : bool := Z.testbit (hsfs r) 15.
Definition spibar (r : spi_regs) : Z := u32 (Z.land (rcba r) RCBA_ADDR_MASK + SPIBAR_OFFSET).
Definition spi_addr (r : spi_regs) (off : Z) : Z := u32 (spibar r + off).

(** PR0 is read-only once FLOCKDN is set; FLOCKDN and BLE stay set until a
    reset; FREG2 and RCBA are not written here.  The other bits of HSFS are
    status bits, of which nothing is assumed. *)
Class Ich9 (W : Type) `{PF : Platform W} := {
  regs : W -> spi_regs;
  script : W -> list s3_op;
  read_rcba w : PciRead32 (LPC_PCI_ADDR R_RCBA) w = rcba (regs w);
  read_bios w : PciRead8 (LPC_PCI_ADDR R_BIOS_CNTL) w = bios_cntl (regs w);
  read_freg2 w : MmioRead32 (spi_addr (regs w) R_FREG2_ME) w = freg2 (regs w);
  read_pr0 w : MmioRead32 (spi_addr (regs w) R_PR0) w = pr0 (regs w);
  read_hsfs w : MmioRead32 (spi_addr (regs w) R_HSFS) w = hsfs (regs w);
  write_pr0 v w : let r := regs w in
    regs (MmioWrite32 (spi_addr r R_PR0) v w) =
      SpiRegs (rcba r) (freg2 r) (if flockdn r then pr0 r else v) (hsfs r) (bios_cntl r);
  write_hsfs v w : let r := regs w in
    exists x, regs (MmioWrite32 (spi_addr r R_HSFS) v w) =
      SpiRegs (rcba r) (freg2 r) (pr0 r) x (bios_cntl r) /\
      Z.testbit x 15 = flockdn r || Z.testbit v 15;
  write_bios v w : let r := regs w in
    exists x, regs (PciWrite8 (LPC_PCI_ADDR R_BIOS_CNTL) v w) =
      SpiRegs (rcba r) (freg2 r) (pr0 r) (hsfs r) x /\
      Z.testbit x 1 = Z.testbit (bios_cntl r) 1 || Z.testbit v 1 /\
      (Z.testbit v 0 = false -> Z.testbit x 0 = false) /\
      (Z.testbit v 5 = true -> Z.testbit x 5 = true);
  or_is_write a v w : MmioOr32 a v w = MmioWrite32 a (Z.lor (MmioRead32 a w) v) w;
  script_mmio a v w : script (MmioWrite32 a v w) = script w;
  script_pci a v w : script (PciWrite8 a v w) = script w;
  locate_keeps w : regs (LocateS3 w).2 = regs w /\ script (LocateS3 w).2 = script w;
  s3_write op w : regs (S3Write op w).2 = regs w /\
    ((S3Write op w).1 = true -> script (S3Write op w).2 = script w ++ [op]);
}.

(** The flash addresses that a protected range register covers: from base to
    limit in units of 4 KiB, when writes are protected. *)
Definition range_protects (pr a : Z) : Prop :=
  Z.testbit pr 15 = true /\ (pr mod 8192) * 4096 <= a < ((pr / 65536) mod 8192 + 1) * 4096.

(** The flash region of the management engine, as FREG2 describes it. *)
Definition in_me_region (freg a : Z) : Prop :=
  (freg mod 8192) * 4096 <= a < ((freg / 65536) mod 8192 + 1) * 4096.

Definition me_locked (r : spi_regs) : Prop :=
  flockdn r = true /\ forall a, in_me_region (freg2 r) a -> range_protects (pr0 r) a.

Definition bios_locked (r : spi_regs) : Prop :=
  Z.testbit (bios_cntl r) 0 = false /\ Z.testbit (bios_cntl r) 1 = true /\
  Z.testbit (bios_cntl r) 5 = true.

(** ** The value of PR0 *)

Lemma pr_value_arith base limit :
  PR_VALUE base limit true false =
    ((limit / 4096) mod 8192) * 65536 + (32768 + (base / 4096) mod 8192).
Proof.
  unfold PR_VALUE, PR_BASE, PR_LIMIT, B_PR_WP_ENABLE. change 0x1FFF with (Z.ones 13).
  rewrite Z.lor_0_r, !Z.land_ones, !Z.shiftr_div_pow2, Z.shiftl_mul_pow2 by lia.
  change (2 ^ 12) with 4096. change (2 ^ 13) with 8192.
  pose proof (Z.mod_pos_bound (base / 4096) 8192 ltac:(lia)) as Hb.
  rewrite (Z.lor_comm (_ mod _)), <- Z.lor_assoc, (Z.lor_comm _ 32768).
  change 32768 with (1 * 2 ^ 15) at 1. rewrite (lor_low 1 _ 15) by lia.
  rewrite lor_low by lia. change (2 ^ 16) with 65536. change (1 * 2 ^ 15) with 32768. lia.
Qed.

Lemma me_region_arith f :
  me_region f = ((f mod 8192) * 4096, ((f / 65536) mod 8192) * 4096 + 4095).
Proof.
  unfold me_region. change FREG_BASE_MASK with (Z.ones 13).
  change FREG_LIMIT_MASK with (Z.shiftl (Z.ones 13) 16). change FREG_LIMIT_SHIFT with 16.
  rewrite land_field, Z.land_ones, !Z.shiftl_mul_pow2, Z.shiftr_div_pow2, Z.div_mul by lia.
  change (2 ^ 13) with 8192. change (2 ^ 16) with 65536.
  pose proof (Z.mod_pos_bound f 8192 ltac:(lia)).
  pose proof (Z.mod_pos_bound (f / 65536) 8192 ltac:(lia)).
  assert (forall z, 0 <= z < 8192 -> u32 (z * 2 ^ 12) = z * 2 ^ 12) as Hu by (intros; ulia).
  rewrite !Hu by done. rewrite lor_low by lia. by change (2 ^ 12) with 4096.
Qed.

Definition me_pr0 (f : Z) : Z := let '(b, l) := me_region f in PR_VALUE b l true false.

Lemma me_pr0_protects f a : in_me_region f a -> range_protects (me_pr0 f) a.
Proof.
  intros Ha. unfold me_pr0. rewrite me_region_arith, pr_value_arith. unfold range_protects.
  unfold in_me_region in Ha.
  pose proof (Z.mod_pos_bound f 8192 ltac:(lia)).
  pose proof (Z.mod_pos_bound (f / 65536) 8192 ltac:(lia)).
  set (x := f mod 8192) in *. set (y := (f / 65536) mod 8192) in *.
  replace ((y * 4096 + 4095) / 4096) with y by lia. rewrite Z.div_mul by lia.
  rewrite !(Z.mod_small _ 8192) by lia. split; [|split; lia].
  rewrite Z.testbit_true by lia. change (2 ^ 15) with 32768. lia.
Qed.

(** ** The lockdown *)

Section ich9.
Context {W : Type} `{CH : Ich9 W}.
Implicit Types (w : W).

Lemma land_flockdn x : (Z.land x B_HSFS_FLOCKDN =? 0) = negb (Z.testbit x 15).
Proof. change B_HSFS_FLOCKDN with (2 ^ 15). by apply land_bit_zero. Qed.

(** Asserting FLOCKDN sets it, and only touches HSFS; the value returned has it. *)
Lemma assert_flockdn_spec w :
  wp (assert_flockdn (spibar (regs w))) w (fun x w' =>
    Z.testbit x 15 = true /\ script w' = script w /\
    exists y, Z.testbit y 15 = true /\
      regs w' = SpiRegs (rcba (regs w)) (freg2 (regs w)) (pr0 (regs w)) y (bios_cntl (regs w))).
Proof.
  unfold assert_flockdn. fold (spi_addr (regs w) R_HSFS). do 2 wp_step. rewrite read_hsfs, land_flockdn.
  destruct (Z.testbit (hsfs (regs w)) 15) eqn:E; cbn [negb].
  - wp_step. split_and!; [done..|]. exists (hsfs (regs w)). split; [done|]. by destruct (regs w).
  - do 2 wp_step. rewrite or_is_write, read_hsfs. wp_step.
    destruct (write_hsfs (Z.lor (hsfs (regs w)) B_HSFS_FLOCKDN) w) as (y & Hr & Hy).
    rewrite Z.lor_spec in Hy. change (Z.testbit B_HSFS_FLOCKDN 15) with true in Hy.
    rewrite !orb_true_r in Hy.
    split_and!; [|apply script_mmio|by exists y].
    set (w1 := MmioWrite32 _ _ w) in *. assert (spi_addr (regs w) R_HSFS = spi_addr (regs w1) R_HSFS) as ->.
    { by rewrite Hr. }
    by rewrite read_hsfs, Hr.
Qed.

Lemma lock_bios_spec w :
  wp lock_bios_cntl w (fun x w' =>
    script w' = script w /\ x = bios_cntl (regs w') /\ bios_locked (regs w') /\
    exists y, regs w' = SpiRegs (rcba (regs w)) (freg2 (regs w)) (pr0 (regs w)) (hsfs (regs w)) y).
Proof.
  unfold lock_bios_cntl. do 4 wp_step. rewrite read_bios. wp_step. rewrite read_bios.
  destruct (write_bios (Z.lor (Z.lor (Z.land (bios_cntl (regs w)) (u8 (Z.lnot B_BIOS_CNTL_BIOSWE)))
    B_BIOS_CNTL_BLE) B_BIOS_CNTL_SMM_BWP) w) as (y & Hr & B1 & B0 & B5).
  rewrite !Z.lor_spec, !Z.land_spec in B1, B0, B5. cbn -[Z.testbit] in B0.
  split_and!; [apply script_pci|done| |by exists y].
  rewrite Hr. unfold bios_locked. cbn [bios_cntl]. split_and!.
  - apply B0. change (Z.testbit (u8 (Z.lnot B_BIOS_CNTL_BIOSWE)) 0) with false.
    by rewrite andb_false_r.
  - rewrite B1. change (Z.testbit B_BIOS_CNTL_BLE 1) with true. by rewrite !orb_true_r.
  - apply B5. change (Z.testbit B_BIOS_CNTL_SMM_BWP 5) with true. by rewrite orb_true_r.
Qed.

(** The opcodes that a successful recording adds, in this order. *)
Definition lock_script (r : spi_regs) (cntl h : Z) : list s3_op :=
  [PciConfigWrite8 (EFI_BOOT_SCRIPT_PCI_ADDRESS LPC_BUS LPC_DEV LPC_FUNC R_BIOS_CNTL) cntl;
   MemWrite32 (spi_addr r R_PR0) (me_pr0 (freg2 r));
   MemWrite32 (spi_addr r R_HSFS) h].

Definition s3_available w : Prop := (LocateS3 w).1 = true /\ forall op w', (S3Write op w').1 = true.

Lemma record_s3_spec r cntl h w :
  wp (record_s3 (spibar r) cntl (me_pr0 (freg2 r)) h) w (fun _ w' =>
    regs w' = regs w /\
    ((forall op w', (S3Write op w').1 = true) ->
       script w' = script w ++ lock_script r cntl (Z.lor h B_HSFS_FLOCKDN))).
Proof.
  unfold record_s3. do 7 wp_step.
  fold (spi_addr r R_PR0) (spi_addr r R_HSFS).
  match goal with |- regs (S3Write ?o3 (S3Write ?o2 (S3Write ?o1 w).2).2).2 = _ /\ _ =>
    destruct (s3_write o1 w) as [R1 S1]; destruct (s3_write o2 (S3Write o1 w).2) as [R2 S2];
    destruct (s3_write o3 (S3Write o2 (S3Write o1 w).2).2) as [R3 S3] end.
  split; [by rewrite R3, R2|]. intros Hok. rewrite S3, S2, S1 by apply Hok.
  by rewrite <- !app_assoc.
Qed.

(** What the lockdown leaves, whatever was locked before. *)
Record locked_down w w' : Prop := {
  ld_bios : bios_locked (regs w');
  ld_flockdn : flockdn (regs w') = true;
  ld_fixed : rcba (regs w') = rcba (regs w) /\ freg2 (regs w') = freg2 (regs w);
  ld_pr0 : pr0 (regs w') = if flockdn (regs w) then pr0 (regs w) else me_pr0 (freg2 (regs w));
  ld_script : s3_available w -> exists h, Z.testbit h 15 = true /\
    script w' = script w ++ lock_script (regs w) (bios_cntl (regs w')) h;
}.

Lemma lockdown_spec w :
  wp EnforceSpiLockdown w (fun st w' =>
    if Z.testbit (rcba (regs w)) 0 then st = EFI_SUCCESS /\ locked_down w w'
    else st = EFI_DEVICE_ERROR /\ regs w' = regs w).
Proof.
  unfold EnforceSpiLockdown. do 4 wp_step. destruct (locate_keeps w) as [RL SL].
  set (w0 := (LocateS3 w).2) in *. rewrite read_rcba, RL.
  change B_RCBA_ENABLE with (2 ^ 0). rewrite land_bit_zero by done.
  destruct (Z.testbit (rcba (regs w)) 0); cbn [negb]; [|by wp_step].
  fold (spibar (regs w)). fold (spi_addr (regs w) R_FREG2_ME) (spi_addr (regs w) R_PR0).
  do 2 wp_step. rewrite <- RL, read_freg2, RL. fold (me_pr0 (freg2 (regs w))).
  destruct (me_region (freg2 (regs w))) as [mb ml] eqn:Em.
  assert (PR_VALUE mb ml true false = me_pr0 (freg2 (regs w))) as -> by (unfold me_pr0; by rewrite Em).
  do 2 wp_step. pose proof (write_pr0 (me_pr0 (freg2 (regs w))) w0) as R1. cbn zeta in R1. rewrite RL in R1.
  set (w1 := MmioWrite32 _ _ w0) in *.
  assert (spibar (regs w) = spibar (regs w1)) as Hsb by (unfold spibar; by rewrite R1).
  wp_step. rewrite Hsb. eapply wp_mono; [apply assert_flockdn_spec|].
  intros h w2 (Hh & S2 & y & Hy & R2). wp_step. eapply wp_mono; [apply lock_bios_spec|].
  intros c w3 (S3 & -> & Hbl & z & R3). wp_step.
  assert (forall w4, regs w4 = regs w3 -> (s3_available w -> exists h, Z.testbit h 15 = true /\
    script w4 = script w ++ lock_script (regs w) (bios_cntl (regs w4)) h) -> locked_down w w4) as Hfin.
  { intros w4 R4 S4. split; rewrite ?R4; try done.
    - rewrite R3. unfold flockdn. cbn. by rewrite R2.
    - rewrite R3. cbn. rewrite R2. cbn. by rewrite R1.
    - rewrite R3. cbn. rewrite R2. cbn. by rewrite R1.
    - rewrite <- R4. done. }
  destruct ((LocateS3 w).1) eqn:Es.
  - rewrite <- Hsb. eapply wp_mono; [apply record_s3_spec|]. intros _ w4 [R4 S4]. wp_step.
    split; [done|]. apply Hfin; [done|]. intros [_ Hok]. exists (Z.lor h B_HSFS_FLOCKDN). split.
    + rewrite Z.lor_spec, Hh. done.
    + rewrite S4, S3, S2 by done. unfold w1. rewrite script_mmio, SL, R4. done.
  - do 2 wp_step. split; [done|]. apply Hfin; [done|]. intros [Hl _]. congruence.
Qed.

(** ** Software that is not trusted *)

(** Ring 0 writes any value to any of the registers. *)
Inductive ring0 : W -> W -> Prop :=
  | ring0_pr0 v w : ring0 w (MmioWrite32 (spi_addr (regs w) R_PR0) v w)
  | ring0_hsfs v w : ring0 w (MmioWrite32 (spi_addr (regs w) R_HSFS) v w)
  | ring0_bios v w : ring0 w (PciWrite8 (LPC_PCI_ADDR R_BIOS_CNTL) v w).

Lemma ring0_keeps w w' :
  ring0 w w' -> flockdn (regs w) = true ->
  flockdn (regs w') = true /\ pr0 (regs w') = pr0 (regs w) /\ freg2 (regs w') = freg2 (regs w) /\
  (Z.testbit (bios_cntl (regs w)) 1 = true -> Z.testbit (bios_cntl (regs w')) 1 = true).
Proof.
  intros [v w0|v w0|v w0] Hl.
  - rewrite write_pr0. by rewrite Hl.
  - destruct (write_hsfs v w0) as (x & Hr & Hx). rewrite Hr. split_and!; [|done..].
    change (Z.testbit x 15 = true). by rewrite Hx, Hl.
  - destruct (write_bios v w0) as (x & Hr & H1 & _). rewrite Hr. split_and!; try done.
    cbn [bios_cntl]. intros E. by rewrite H1, E.
Qed.

Lemma ring0_steps_keep w w' :
  rtc ring0 w w' -> flockdn (regs w) = true ->
  flockdn (regs w') = true /\ pr0 (regs w') = pr0 (regs w) /\ freg2 (regs w') = freg2 (regs w) /\
  (Z.testbit (bios_cntl (regs w)) 1 = true -> Z.testbit (bios_cntl (regs w')) 1 = true).
Proof.
  induction 1 as [w|w w1 w2 Hs _ IH]; intros Hl; [done|].
  destruct (ring0_keeps _ _ Hs Hl) as (L1 & P1 & F1 & B1).
  destruct (IH L1) as (L2 & P2 & F2 & B2). split_and!; [done|congruence..|auto].
Qed.

(** ** Resume from S3 *)

(** The firmware executes the recorded opcodes; a PCI address of the script
    has its parts in bytes. *)
Definition s3_execute (op : s3_op) : W -> W :=
  match op with
  | PciConfigWrite8 a v =>
      PciWrite8 (PCI_LIB_ADDRESS ((a / 2 ^ 24) mod 256) ((a / 2 ^ 16) mod 256) ((a / 2 ^ 8) mod 256)
                   (a mod 256)) v
  | MemWrite32 a v => MmioWrite32 a v
  end.
Definition s3_replay (ops : list s3_op) (w : W) : W := fold_left (fun w op => s3_execute op w) ops w.

Lemma script_bios_addr v :
  s3_execute (PciConfigWrite8 (EFI_BOOT_SCRIPT_PCI_ADDRESS LPC_BUS LPC_DEV LPC_FUNC R_BIOS_CNTL) v) =
  PciWrite8 (LPC_PCI_ADDR R_BIOS_CNTL) v.
Proof. done. Qed.

Lemma replay_locks r cntl h w :
  rcba (regs w) = rcba r -> freg2 (regs w) = freg2 r -> flockdn (regs w) = false ->
  Z.testbit h 15 = true -> Z.testbit cntl 0 = false -> Z.testbit cntl 1 = true -> Z.testbit cntl 5 = true ->
  me_locked (regs (s3_replay (lock_script r cntl h) w)) /\
  bios_locked (regs (s3_replay (lock_script r cntl h) w)).
Proof.
  intros Hrc Hfr Hl Hh B0 B1 B5. cbn [s3_replay lock_script fold_left]. rewrite script_bios_addr.
  set (w1 := PciWrite8 _ cntl w). destruct (write_bios cntl w) as (y & R1 & Y1 & Y0 & Y5).
  cbn zeta in R1. fold w1 in R1. cbn [s3_execute].
  assert (forall off, spi_addr r off = spi_addr (regs w1) off) as Ha.
  { intros off. unfold spi_addr, spibar. by rewrite R1, <- Hrc. }
  rewrite !Ha. pose proof (write_pr0 (me_pr0 (freg2 r)) w1) as R2. cbn zeta in R2.
  set (w2 := MmioWrite32 _ _ w1) in *.
  assert (forall off, spi_addr (regs w1) off = spi_addr (regs w2) off) as Ha2.
  { intros off. unfold spi_addr, spibar. by rewrite R2. }
  rewrite !Ha2. destruct (write_hsfs h w2) as (x & R3 & Hx). cbn zeta in R3. rewrite R3.
  rewrite Hh, orb_true_r in Hx. split.
  - split; [done|]. cbn. intros a Hin. rewrite R2 in *. cbn in *. rewrite R1 in *.
    unfold flockdn in Hl |- *. cbn in *. rewrite Hl. rewrite Hfr in Hin. by apply me_pr0_protects.
  - unfold bios_locked. cbn [bios_cntl]. rewrite R2. cbn [bios_cntl]. rewrite R1. cbn [bios_cntl].
    split_and!; [by apply Y0| |by apply Y5]. by rewrite Y1, B1, orb_true_r.
Qed.
End ich9.

(** ** A concrete chipset *)

Record chip := Chip { chip_regs : spi_regs; chip_script : list s3_op }.

Definition chip_mmio_write (a v : Z) (c : chip) : chip :=
  let r := chip_regs c in
  if a =? spi_addr r R_PR0 then
    Chip (SpiRegs (rcba r) (freg2 r) (if flockdn r then pr0 r else v) (hsfs r) (bios_cntl r)) (chip_script c)
  else if a =? spi_addr r R_HSFS then
    Chip (SpiRegs (rcba r) (freg2 r) (pr0 r) (Z.lor (hsfs r) (Z.land v B_HSFS_FLOCKDN)) (bios_cntl r))
      (chip_script c)
  else c.
Definition chip_mmio_read (a : Z) (c : chip) : Z :=
  let r := chip_regs c in
  if a =? spi_addr r R_PR0 then pr0 r else if a =? spi_addr r R_HSFS then hsfs r
  else if a =? spi_addr r R_FREG2_ME then freg2 r else 0.
Definition chip_pci_write (a v : Z) (c : chip) : chip :=
  let r := chip_regs c in
  if a =? 31 * 2 ^ 15 + R_BIOS_CNTL then
    Chip (SpiRegs (rcba r) (freg2 r) (pr0 r) (hsfs r) (Z.lor v (Z.land (bios_cntl r) B_BIOS_CNTL_BLE)))
      (chip_script c)
  else c.

#[global] Instance chip_platform : Platform chip := {|
  PCI_LIB_ADDRESS bus dev func off := bus * 2 ^ 20 + dev * 2 ^ 15 + func * 2 ^ 12 + off;
  PciRead32 _ c := rcba (chip_regs c);
  PciRead8 _ c := bios_cntl (chip_regs c);
  PciWrite8 := chip_pci_write;
  MmioRead32 := chip_mmio_read;
  MmioWrite32 := chip_mmio_write;
  MmioOr32 a v c := chip_mmio_write a (Z.lor (chip_mmio_read a c) v) c;
  LocateS3 c := (true, c);
  S3Write op c := (true, Chip (chip_regs c) (chip_script c ++ [op]));
|}.

Lemma spi_addr_neq r i j : 0 <= i < 1024 -> 0 <= j < 1024 -> i <> j -> (spi_addr r i =? spi_addr r j) = false.
Proof. intros. apply Z.eqb_neq. unfold spi_addr, spibar. ulia. Qed.

#[global] Program Instance chip_ich9 : Ich9 chip := {| regs := chip_regs; script := chip_script |}.
Next Obligation. done. Qed.
Next Obligation. done. Qed.
Next Obligation.
  intros w. unfold MmioRead32, chip_platform, chip_mmio_read.
  by rewrite !spi_addr_neq, Z.eqb_refl by done.
Qed.
Next Obligation. intros w. unfold MmioRead32, chip_platform, chip_mmio_read. by rewrite Z.eqb_refl. Qed.
Next Obligation.
  intros w. unfold MmioRead32, chip_platform, chip_mmio_read. by rewrite spi_addr_neq, Z.eqb_refl by done.
Qed.
Next Obligation. intros v w. unfold MmioWrite32, chip_platform, chip_mmio_write. by rewrite Z.eqb_refl. Qed.
Next Obligation.
  intros v w. unfold MmioWrite32, chip_platform, chip_mmio_write.
  rewrite spi_addr_neq, Z.eqb_refl by done. eexists. split; [done|].
  rewrite Z.lor_spec, Z.land_spec. change (Z.testbit B_HSFS_FLOCKDN 15) with true. by rewrite andb_true_r.
Qed.
Next Obligation.
  intros v w. unfold PciWrite8, chip_platform, chip_pci_write. cbn -[Z.testbit]. eexists. split; [done|].
  rewrite !Z.lor_spec, !Z.land_spec.
  change (Z.testbit B_BIOS_CNTL_BLE 1) with true. change (Z.testbit B_BIOS_CNTL_BLE 0) with false.
  change (Z.testbit B_BIOS_CNTL_BLE 5) with false. rewrite !andb_true_r, !andb_false_r, !orb_false_r.
  split_and!; [by rewrite orb_comm|done..].
Qed.
Next Obligation. done. Qed.
Next Obligation.
  intros a v w. unfold MmioWrite32, chip_platform, chip_mmio_write. by repeat case_match.
Qed.
Next Obligation. intros a v w. unfold PciWrite8, chip_platform, chip_pci_write. by repeat case_match. Qed.
Next Obligation. done. Qed.
Next Obligation. done. Qed.

(** RCBA enabled at 0xFED1C000, a management engine region of 1 MiB, unlocked. *)
Definition chip_boot : chip := Chip (SpiRegs 0xFED1C001 0x01FF0100 0 0x6008 1) [].

Section claims.
Context {W : Type} `{CH : Ich9 W}.

(** C11. With RCBA enabled and the flash configuration not yet locked, the
    lockdown succeeds and protects every flash address of the management engine
    region against writes, locks this configuration and turns off BIOS writes;
    and no sequence of register writes by ring 0 afterwards lifts the protection
    of the region or disarms the SMI trap. *)
Theorem lockdown_irreversible (w : W) :
  Z.testbit (rcba (regs w)) 0 = true -> flockdn (regs w) = false ->
  exists w', EnforceSpiLockdown w = Some (EFI_SUCCESS, w') /\
    me_locked (regs w') /\ bios_locked (regs w') /\ freg2 (regs w') = freg2 (regs w) /\
    forall w'', rtc ring0 w' w'' ->
      me_locked (regs w'') /\ freg2 (regs w'') = freg2 (regs w) /\
      Z.testbit (bios_cntl (regs w'')) 1 = true.
Proof.
  intros Hr Hl. destruct (lockdown_spec w) as (st & w' & Hrun & Hs). rewrite Hr in Hs.
  destruct Hs as [-> [Hb Hf [_ Hfr] Hp _]]. rewrite Hl in Hp.
  assert (me_locked (regs w')) as Hm.
  { split; [done|]. intros a Ha. rewrite Hp. apply me_pr0_protects. by rewrite <- Hfr. }
  exists w'. split_and!; try done. intros w'' Hsteps.
  destruct (ring0_steps_keep _ _ Hsteps Hf) as (L & P & F & B).
  split_and!; [split; [done|] |congruence|apply B, Hb]. rewrite P, F. apply Hm.
Qed.

(** The script that the lockdown records restores it on resume from S3: in
    any state with the same base and the same flash layout in which the lock was
    lost, executing the recorded opcodes in order protects the region again
    before it locks the configuration, and locks BIOS writes. *)
Theorem s3_resume_relocks (w w2 : W) :
  Z.testbit (rcba (regs w)) 0 = true -> s3_available w ->
  rcba (regs w2) = rcba (regs w) -> freg2 (regs w2) = freg2 (regs w) -> flockdn (regs w2) = false ->
  exists w' ops, EnforceSpiLockdown w = Some (EFI_SUCCESS, w') /\ script w' = script w ++ ops /\
    me_locked (regs (s3_replay ops w2)) /\ bios_locked (regs (s3_replay ops w2)).
Proof.
  intros Hr Hs3 Hrc Hfr Hl. destruct (lockdown_spec w) as (st & w' & Hrun & Hs). rewrite Hr in Hs.
  destruct Hs as [-> [Hb Hf _ _ Hscr]]. destruct (Hscr Hs3) as (h & Hh & Hsc).
  eexists w', _. split_and!; [done|exact Hsc|..]; destruct Hb as (B0 & B1 & B5);
    by apply (replay_locks (regs w) _ h w2).
Qed.

(** The driver stops the boot if and only if RCBA is disabled; otherwise it
    returns success with the port policy installed and BIOS writes locked.  When
    the platform had locked the configuration before, PR0 keeps its old value. *)
Theorem entry_halts_iff_rcba_disabled (w : W) (table : list Z) :
  exists o table' w', SentinelSmmDxeEntry (table, w) = Some (o, (table', w')) /\
    table' = InitPolicyTable table /\
    (o = DeadLoop <-> Z.testbit (rcba (regs w)) 0 = false) /\
    (o <> DeadLoop -> o = Returned EFI_SUCCESS /\ bios_locked (regs w') /\ flockdn (regs w') = true /\
       (flockdn (regs w) = true -> pr0 (regs w') = pr0 (regs w))).
Proof.
  destruct (lockdown_spec w) as (st & w' & Hrun & Hs).
  unfold SentinelSmmDxeEntry, mbind, M_bind, modify, zoom. cbn [fst snd]. rewrite Hrun.
  eexists _, _, w'. split; [reflexivity|]. split; [done|].
  destruct (Z.testbit (rcba (regs w)) 0).
  - destruct Hs as [-> [Hb Hf _ Hp _]]. split; [done|]. intros _. split_and!; try done.
    intros E. by rewrite E in Hp.
  - destruct Hs as [-> _]. done.
Qed.
End claims.

Lemma lockdown_irreversible_witness :
  exists w', EnforceSpiLockdown chip_boot = Some (EFI_SUCCESS, w') /\ me_locked (regs w').
Proof.
  destruct (lockdown_irreversible chip_boot) as (w' & H1 & H2 & _).
  - reflexivity.
  - reflexivity.
  - exists w'. exact (conj H1 H2).
Defined.

Lemma s3_resume_relocks_witness :
  exists w' ops, EnforceSpiLockdown chip_boot = Some (EFI_SUCCESS, w') /\ script w' = script chip_boot ++ ops.
Proof.
  destruct (s3_resume_relocks chip_boot chip_boot) as (w' & ops & H1 & H2 & _).
  - reflexivity.
  - split; [reflexivity|]. intros op w'. reflexivity.
  - reflexivity.
  - reflexivity.
  - reflexivity.
  - exists w', ops. exact (conj H1 H2).
Defined.

(** With FLOCKDN set by the platform, the driver reports success although the
    region is not protected. *)
Definition chip_prelocked : chip := Chip (SpiRegs 0xFED1C001 0x01FF0100 0 0xE008 1) [].

Lemma prelocked_reports_success :
  exists w', EnforceSpiLockdown chip_prelocked = Some (EFI_SUCCESS, w') /\ ~ me_locked (regs w').
Proof.
  eexists. split; [by vm_compute|]. intros [_ Hp].
  destruct (Hp 0x100000) as [H _]; [by vm_compute|]. by vm_compute in H.
Qed.

(** ** The trap policy *)

Definition is_byte_map (m : list Z) : Prop := length m = IO_MAP_BYTES.

Lemma port_bit b k : 0 <= k -> negb (Z.land b (Z.shiftl 1 k) =? 0) = Z.testbit b k.
Proof. intros Hk. rewrite Z.shiftl_1_l. by rewrite land_bit_zero, negb_involutive. Qed.

Lemma allow_port_spec m p q :
  is_byte_map m -> 0 <= p < 65536 -> 0 <= q < 65536 ->
  is_byte_map (allow_port q m) /\
  port_allowed (allow_port q m) p = (fun b => b || (p =? q)) <$> port_allowed m p.
Proof.
  intros Hm Hp Hq. unfold is_byte_map in Hm. split.
  { unfold is_byte_map, allow_port. by rewrite length_alter. }
  unfold port_allowed, allow_port.
  destruct (decide (Z.to_nat (q / 8) = Z.to_nat (p / 8))) as [He|Hne].
  - rewrite He, list_lookup_alter_eq. destruct (m !! _) as [b|]; [|done]. cbn. f_equal.
    rewrite !port_bit by lia. unfold u8. change 256 with (2 ^ 8).
    rewrite <- (Z.land_ones _ 8) by lia. rewrite Z.land_spec, Z.lor_spec.
    rewrite Z.ones_spec_low, andb_true_r by lia. f_equal.
    rewrite Z.shiftl_1_l, Z.pow2_bits_eqb by lia. apply Bool.eq_iff_eq_true. rewrite !Z.eqb_eq. lia.
  - rewrite list_lookup_alter_ne by done. destruct (m !! _) as [b|]; [|done]. cbn. f_equal.
    rewrite (proj2 (Z.eqb_neq p q)) by (intros ->; lia). by rewrite orb_false_r.
Qed.

Definition policy_table : list Z := InitPolicyTable (replicate IO_MAP_BYTES 0).

Lemma policy_table_ports p :
  0 <= p < 65536 -> port_allowed policy_table p = Some ((p =? 0x70) || (p =? 0x71) || (p =? 0x400)).
Proof.
  intros Hp. unfold policy_table, InitPolicyTable.
  assert (is_byte_map (replicate IO_MAP_BYTES 0)) as H0 by apply length_replicate.
  destruct (allow_port_spec _ p 0x70 H0 Hp ltac:(lia)) as [H1 E1].
  destruct (allow_port_spec _ p 0x71 H1 Hp ltac:(lia)) as [H2 E2].
  destruct (allow_port_spec _ p 0x400 H2 Hp ltac:(lia)) as [_ ->]. rewrite E2, E1.
  unfold port_allowed. rewrite lookup_replicate_2 by (unfold IO_MAP_BYTES; lia). done.
Qed.

(** The port of an IN or OUT instruction: an immediate byte, or DX. *)
Definition io_port (code : nat -> Z) (c : cpu_context) : option Z :=
  if decide (0xE4 <= code 0%nat <= 0xE7) then Some (code 1%nat)
  else if decide (0xEC <= code 0%nat <= 0xEF) then Some (Rdx c mod 65536)
  else None.

Lemma opcode_range op a :
  (op =? a) || (op =? a + 1) || (op =? a + 2) || (op =? a + 3) = bool_decide (a <= op <= a + 3).
Proof. apply Bool.eq_iff_eq_true. rewrite !orb_true_iff, !Z.eqb_eq, bool_decide_eq_true. lia. Qed.

(** C38. The trap handler decides every instruction, and permits exactly the IN
    and OUT instructions whose port is 0x70, 0x71 or 0x400; in particular no
    access to a model-specific register passes, since the list of safe ones is
    empty. *)
Theorem trap_policy_exact code c :
  is_u8 (code 1%nat) ->
  exists st, PolicyCheckTrapHandler policy_table code c = Some st /\
    (st = EFI_SUCCESS <-> exists p, io_port code c = Some p /\ (p = 0x70 \/ p = 0x71 \/ p = 0x400)) /\
    (st <> EFI_SUCCESS -> st = EFI_ACCESS_DENIED).
Proof.
  intros Hb. unfold PolicyCheckTrapHandler.
  set (op := code 0%nat).
  assert ((op =? 0xE4) || (op =? 0xE5) || (op =? 0xE6) || (op =? 0xE7) = bool_decide (0xE4 <= op <= 0xE7))
    as -> by exact (opcode_range op 0xE4).
  assert ((op =? 0xEC) || (op =? 0xED) || (op =? 0xEE) || (op =? 0xEF) = bool_decide (0xEC <= op <= 0xEF))
    as -> by exact (opcode_range op 0xEC).
  assert (forall p, 0 <= p < 65536 -> exists st, check_port policy_table p = Some st /\
    (st = EFI_SUCCESS <-> p = 0x70 \/ p = 0x71 \/ p = 0x400) /\ (st <> EFI_SUCCESS -> st = EFI_ACCESS_DENIED)) as Hc.
  { intros p Hp. unfold check_port. rewrite policy_table_ports by done.
    destruct (_ || _) eqn:E; eexists; (split; [reflexivity|]); (split; [|done]).
    - rewrite !orb_true_iff, !Z.eqb_eq in E. split; [tauto|done].
    - boolify. split; [done|lia]. }
  unfold io_port. fold op. destruct (op =? 0x0F) eqn:E0; cbn [andb].
  - boolify. rewrite !bool_decide_eq_false_2, !decide_False by lia.
    assert (forall st, st = EFI_ACCESS_DENIED -> (st = EFI_SUCCESS <-> exists p, None = Some p /\
      (p = 0x70 \/ p = 0x71 \/ p = 0x400)) /\ (st <> EFI_SUCCESS -> st = EFI_ACCESS_DENIED)) as Hd.
    { intros st ->. split; [|done]. split; [done|]. by intros (? & ? & _). }
    destruct (_ || _); (eexists; split; [reflexivity|]); by apply Hd.
  - case_decide as H1.
    + rewrite bool_decide_eq_true_2 by lia. destruct (Hc (code 1%nat)) as (st & H & H2 & H3); [ulia|].
      exists st. split; [done|]. split; [|done]. rewrite H2. split; [eauto|]. intros (p & [= <-] & ?). done.
    + rewrite bool_decide_eq_false_2 by lia. case_decide as H2.
      * rewrite bool_decide_eq_true_2 by lia. destruct (Hc (u16 (Rdx c))) as (st & H & H3 & H4); [ulia|].
        exists st. split; [done|]. split; [|done]. rewrite H3. split; [eauto|]. intros (p & [= <-] & ?). done.
      * rewrite bool_decide_eq_false_2 by lia. eexists. split; [reflexivity|]. split; [|done].
        split; [done|]. by intros (? & ? & _).
Qed.

Lemma trap_policy_exact_witness :
  exists st, PolicyCheckTrapHandler policy_table (fun i => if (i =? 0)%nat then 0xE6 else 0x70)
    (CpuContext 0 0) = Some st /\ st = EFI_SUCCESS.
Proof.
  destruct (trap_policy_exact (fun i => if (i =? 0)%nat then 0xE6 else 0x70) (CpuContext 0 0))
    as (st & H1 & H2 & _).
  - vm_compute. split; congruence.
  - exists st. split; [exact H1|]. apply H2. exists 0x70. split; [reflexivity|left; reflexivity].
Defined.
