(* ===== verification/SmmTrap.v ===== *)
(** * The trap stub of the SMM supervisor

    The code of SentinelSmmTrap.nasm as a list of instructions, over the registers
    and the stack; the frame that the processor pushes for a general protection
    fault; and the driver that provokes one (SentinelRogueSmi.c).

    The policy handler in C is a function on the machine that keeps to the calling
    convention of the platform; what it answers is [PolicyCheckTrapHandler]. *)

From S2P Require Import Prelude Smm.
From stdpp Require Import prelude list.
From Stdlib Require Import ZArith Lia.
#[local] Open Scope Z_scope.

(** ** The machine *)

Inductive reg :=
| RAX | RBX | RCX | RDX | RBP | RSI | RDI | R8 | R9 | R10 | R11 | R12 | R13 | R14 | R15 | RSP.
#[global] Instance reg_eq_dec : EqDecision reg.
Proof. solve_decision. Defined.

(** Memory by 64-bit words at byte addresses. *)
Record cpu := Cpu { gpr : reg -> Z; rip : Z; rflags : Z; cs : Z; ss : Z; mem : Z -> Z }.

Definition set_reg (r : reg) (v : Z) (c : cpu) : cpu :=
  Cpu (fun r' => if decide (r = r') then v else gpr c r') (rip c) (rflags c) (cs c) (ss c) (mem c).
Definition store (a v : Z) (c : cpu) : cpu :=
  Cpu (gpr c) (rip c) (rflags c) (cs c) (ss c) (fun a' => if decide (a = a') then v else mem c a').

Definition push_word (v : Z) (c : cpu) : cpu :=
  let a := u64 (gpr c RSP - 8) in store a v (set_reg RSP a c).

(** The processor's frame on the stack of the supervisor, with the error code. *)
Definition gp_fault (stack err : Z) (c : cpu) : cpu :=
  push_word err (push_word (rip c) (push_word (cs c) (push_word (rflags c) (push_word (gpr c RSP)
    (push_word (ss c) (set_reg RSP stack c)))))).

(** ** Instructions *)

Inductive instr :=
| Push (r : reg)
| Pop (r : reg)
| MovLoad (dst base : reg) (off : Z)
| MovReg (dst src : reg)
| AndMask (r : reg) (mask : Z)
| SubImm (r : reg) (k : Z)
| AddImm (r : reg) (k : Z)
| CallPolicy
| Iretq.

Section step.
Context (policy : cpu -> cpu).

Definition iretq (c : cpu) : cpu :=
  let sp := gpr c RSP in
  Cpu (fun r => if decide (r = RSP) then mem c (u64 (sp + 24)) else gpr c r)
    (mem c sp) (mem c (u64 (sp + 16))) (mem c (u64 (sp + 8))) (mem c (u64 (sp + 32))) (mem c).

Definition exec (i : instr) (c : cpu) : cpu :=
  match i with
  | Push r => push_word (gpr c r) c
  | Pop r => set_reg r (mem c (gpr c RSP)) (set_reg RSP (u64 (gpr c RSP + 8)) c)
  | MovLoad dst base off => set_reg dst (mem c (u64 (gpr c base + off))) c
  | MovReg dst src => set_reg dst (gpr c src) c
  | AndMask r mask => set_reg r (Z.land (gpr c r) mask) c
  | SubImm r k => set_reg r (u64 (gpr c r - k)) c
  | AddImm r k => set_reg r (u64 (gpr c r + k)) c
  | CallPolicy => policy c
  | Iretq => iretq c
  end.

Definition run (code : list instr) (c : cpu) : cpu := fold_left (fun c i => exec i c) code c.
End step.

(** ** The stub *)

Definition saved_regs : list reg := [RAX; RBX; RCX; RDX; RBP; RSI; RDI; R8; R9; R10; R11; R12; R13; R14; R15].

Definition stub_save : list instr :=
  [Push RAX; Push RBX; Push RCX; Push RDX; Push RBP; Push RSI; Push RDI; Push R8; Push R9; Push R10; Push R11;
   Push R12; Push R13; Push R14; Push R15].

(** Error code, faulting address and context, then the aligned stack with the
    shadow space. *)
Definition stub_args : list instr :=
  [MovLoad RCX RSP 0x78; MovLoad RDX RSP 0x80; MovReg R8 RSP;
   MovReg RBP RSP; AndMask RSP (u64 (Z.lnot 0x0F)); SubImm RSP 0x20].

Definition stub_restore : list instr :=
  [MovReg RSP RBP;
   Pop R15; Pop R14; Pop R13; Pop R12; Pop R11; Pop R10; Pop R9; Pop R8; Pop RDI; Pop RSI; Pop RBP; Pop RDX; Pop RCX;
   Pop RBX; Pop RAX;
   AddImm RSP 8; Iretq].

Definition SentinelGpFaultHandler : list instr := stub_save ++ stub_args ++ [CallPolicy] ++ stub_restore.

(** A fault, up to the return from the interrupt. *)
Definition trap (policy : cpu -> cpu) (stack err : Z) (c : cpu) : cpu :=
  run policy SentinelGpFaultHandler (gp_fault stack err c).

(** ** The handler in C *)

(** The Microsoft convention: registers that a function keeps, and the memory of
    its caller above the shadow space. *)
Definition nonvolatile : list reg := [RBX; RBP; RSI; RDI; RSP; R12; R13; R14; R15].
Record ms_abi (policy : cpu -> cpu) : Prop := {
  abi_regs c r : r ∈ nonvolatile -> gpr (policy c) r = gpr c r;
  abi_mem c a : gpr c RSP + 0x20 <= a -> mem (policy c) a = mem c a;
}.

(** [SENTINEL_CPU_CONTEXT]: the registers in the order of the structure. *)
Definition context_order : list reg := [R15; R14; R13; R12; R11; R10; R9; R8; RDI; RSI; RBP; RDX; RCX; RBX; RAX].

Definition context_field (c : cpu) (r : reg) : Z :=
  match list_find (eq r) context_order with
  | Some (i, _) => mem c (u64 (gpr c R8 + 8 * Z.of_nat i))
  | None => 0
  end.

(** Arguments two and three of the call: the code at the faulting address, and the
    saved registers. *)
Definition policy_verdict (IoAllowMap : list Z) (code : Z -> Z) (c : cpu) : option EFI_STATUS :=
  PolicyCheckTrapHandler IoAllowMap (fun i => code (u64 (gpr c RDX + Z.of_nat i)))
    (CpuContext (context_field c RDX) (context_field c RCX)).

(** ** The driver that provokes a fault (SentinelRogueSmi.c) *)

Definition ROGUE_SMI_SW_VALUE : Z := 0xCC.
Definition IA32_EFER : Z := 0xC0000080.

(** The instructions of [RogueSmiHandler], up to the WRMSR. *)
Definition rogue_setup (c : cpu) : cpu := set_reg RDX 0 (set_reg RAX 0 (set_reg RCX IA32_EFER c)).
Definition rogue_wrmsr (i : nat) : Z := nth i [0x0F; 0x30] 0.

Inductive rogue_log := RogueTriggered | RogueSucceeded.

(** One attempt at the WRMSR with interrupts to the stub: the handler goes on only
    when the instruction pointer has moved. *)
Fixpoint rogue_attempts (n : nat) (policy : cpu -> cpu) (stack : Z) (c : cpu) : list rogue_log :=
  match n with
  | O => []
  | S n' =>
      let c' := trap policy stack 0 c in
      if rip c' =? rip c then rogue_attempts n' policy stack c' else [RogueSucceeded]
  end.
Definition RogueSmiHandler (n : nat) (policy : cpu -> cpu) (stack : Z) (c : cpu) : list rogue_log :=
  RogueTriggered :: rogue_attempts n policy stack (rogue_setup c).

(** [RogueSmiEntry]: the answers of [SmmLocateProtocol] and [Register] as 64-bit
    status words, in which the highest bit marks an error; the status that is
    returned, and the input value with which the handler was registered. *)
Definition EFI_ERROR (status : Z) : bool := Z.testbit status 63.
Definition RogueSmiEntry (locate : Z) (register : Z -> Z) : Z * option Z :=
  if EFI_ERROR locate then (locate, None) else (register ROGUE_SMI_SW_VALUE, Some ROGUE_SMI_SW_VALUE).
