(* ===== verification/SmmTrapProofs.v ===== *)
(** * Theorems about the trap stub

    What the handler in C is given, and what the interrupted code gets back. *)

From S2P Require Import Prelude Smm SmmTrap.
From stdpp Require Import prelude list.
From Stdlib Require Import ZArith Lia.
#[local] Open Scope Z_scope.

(** ** Registers *)

Record same_flow (c c' : cpu) : Prop := {
  sf_rip : rip c' = rip c; sf_flags : rflags c' = rflags c; sf_cs : cs c' = cs c; sf_ss : ss c' = ss c;
}.
#[global] Instance same_flow_preorder : PreOrder same_flow.
Proof. split; [done|]. intros c1 c2 c3 [? ? ? ?] [? ? ? ?]. split; congruence. Qed.

Lemma gpr_set_eq r v c : gpr (set_reg r v c) r = v.
Proof. unfold set_reg. cbn [gpr]. by rewrite decide_True. Qed.
Lemma gpr_set_ne r r' v c : r <> r' -> gpr (set_reg r v c) r' = gpr c r'.
Proof. intros. unfold set_reg. cbn [gpr]. by rewrite decide_False. Qed.
Lemma mem_set r v c : mem (set_reg r v c) = mem c.
Proof. done. Qed.
Lemma set_flow r v c : same_flow c (set_reg r v c).
Proof. done. Qed.
#[local] Hint Rewrite gpr_set_eq mem_set : cpu.
#[local] Hint Rewrite gpr_set_ne using done : cpu.

(** ** The stack *)

Definition push_words (vs : list Z) (c : cpu) : cpu := fold_left (fun c v => push_word v c) vs c.

Record pushed (vs : list Z) (c c' : cpu) : Prop := {
  pu_flow : same_flow c c';
  pu_sp : gpr c' RSP = gpr c RSP - 8 * Z.of_nat (length vs);
  pu_regs r : r <> RSP -> gpr c' r = gpr c r;
  pu_words i v : vs !! i = Some v -> mem c' (gpr c RSP - 8 * (Z.of_nat i + 1)) = v;
  pu_above a : gpr c RSP <= a -> mem c' a = mem c a;
}.

Lemma push_words_pushed vs c :
  8 * Z.of_nat (length vs) <= gpr c RSP < 18446744073709551616 -> pushed vs c (push_words vs c).
Proof.
  revert c. induction vs as [|v vs IH]; intros c Hc; cbn [push_words fold_left length] in *.
  { split; try done. cbn. lia. }
  assert (gpr (push_word v c) RSP = gpr c RSP - 8) as Hsp.
  { unfold push_word, store, set_reg. cbn [gpr]. rewrite decide_True by done. ulia. }
  destruct (IH (push_word v c)) as [F S R W A]; [rewrite Hsp; lia|]. rewrite Hsp in *.
  assert (u64 (gpr c RSP - 8) = gpr c RSP - 8) as Hu by ulia.
  split.
  - etransitivity; [|exact F]. by split.
  - cbn [length]. etransitivity; [exact S|]. lia.
  - intros r Hr. etransitivity; [exact (R r Hr)|]. cbn. by rewrite decide_False.
  - intros [|i] w Hw; cbn in Hw.
    + injection Hw as ->. etransitivity; [apply A; lia|]. cbn. rewrite Hu, decide_True by lia. done.
    + etransitivity; [|apply (W i w Hw)]. unfold push_words. f_equal. lia.
  - intros a Ha. etransitivity; [apply A; lia|]. cbn. rewrite Hu, decide_False by lia. done.
Qed.

Lemma run_app policy a b c : run policy (a ++ b) c = run policy b (run policy a c).
Proof. apply fold_left_app. Qed.

(** Registers that are pushed one after the other. *)
Lemma run_pushes policy rs c :
  RSP ∉ rs -> run policy (Push <$> rs) c = push_words (gpr c <$> rs) c.
Proof.
  revert c. induction rs as [|r rs IH]; intros c Hr; [done|].
  apply not_elem_of_cons in Hr as [Hr Hrs]. cbn [fmap list_fmap run fold_left push_words exec].
  change (run policy (Push <$> rs) (push_word (gpr c r) c) = push_words (gpr c <$> rs) (push_word (gpr c r) c)).
  rewrite IH by done. f_equal. apply list_fmap_ext. intros i x Hx. cbn. rewrite decide_False; [done|].
  intros <-. apply Hrs. by eapply list_elem_of_lookup_2.
Qed.

(** Registers that are popped one after the other. *)
Lemma run_pops policy rs c :
  RSP ∉ rs -> NoDup rs -> 0 <= gpr c RSP -> gpr c RSP + 8 * Z.of_nat (length rs) < 18446744073709551616 ->
  let c' := run policy (Pop <$> rs) c in
  same_flow c c' /\ mem c' = mem c /\ gpr c' RSP = gpr c RSP + 8 * Z.of_nat (length rs) /\
  (forall i r, rs !! i = Some r -> gpr c' r = mem c (gpr c RSP + 8 * Z.of_nat i)) /\
  (forall r, r ∉ rs -> r <> RSP -> gpr c' r = gpr c r).
Proof.
  revert c. induction rs as [|x rs IH]; intros c Hr Hn H0 Hb; cbn [fmap list_fmap].
  { cbn. split_and!; [done|done|lia|done|done]. }
  apply not_elem_of_cons in Hr as [Hr Hrs]. apply NoDup_cons in Hn as [Hx Hn]. cbn [length] in *.
  set (c1 := exec policy (Pop x) c). cbn [run fold_left]. fold c1.
  change (fold_left (fun c i => exec policy i c) (Pop <$> rs) c1) with (run policy (Pop <$> rs) c1).
  assert (gpr c1 RSP = gpr c RSP + 8) as Hsp
    by (unfold c1, exec, set_reg; cbn [gpr]; rewrite decide_False, decide_True by done; ulia).
  assert (forall r, r <> x -> r <> RSP -> gpr c1 r = gpr c r) as Hother
    by (intros; unfold c1, exec, set_reg; cbn [gpr]; by rewrite !decide_False).
  assert (gpr c1 x = mem c (gpr c RSP)) as Hgot
    by (unfold c1, exec, set_reg; cbn [gpr mem]; by rewrite decide_True).
  destruct (IH c1 Hrs Hn ltac:(lia) ltac:(lia)) as (F & M & S & G & O). cbn zeta. rewrite M, S, Hsp in *.
  split_and!; [by etransitivity; [|exact F]|done|lia| |].
  - intros [|i] r Hi; cbn in Hi.
    + injection Hi as ->. rewrite O by done. rewrite Hgot. f_equal. lia.
    + rewrite (G i r Hi). change (mem c1) with (mem c). f_equal. lia.
  - intros r [Hrx Hri]%not_elem_of_cons Hrs'. by rewrite O, Hother.
Qed.

(** ** The stub *)

Lemma align_stack x : 0 <= x < 18446744073709551616 -> Z.land x (u64 (Z.lnot 0x0F)) = x - x mod 16.
Proof.
  intros Hx. change (u64 (Z.lnot 0x0F)) with (Z.ldiff (Z.ones 64) (Z.ones 4)).
  rewrite Z.ldiff_land, Z.land_assoc, Z.land_ones, Z.mod_small by (cbn; lia).
  rewrite <- Z.ldiff_land, Z.ldiff_ones_r, Z.shiftl_mul_pow2, Z.shiftr_div_pow2 by lia. change (2 ^ 4) with 16. lia.
Qed.

(** The words of the frame and of the saved registers, in the order of the pushes. *)
Definition frame_words (err : Z) (c : cpu) : list Z :=
  [ss c; gpr c RSP; rflags c; cs c; rip c; err] ++ (gpr c <$> saved_regs).

Lemma stub_save_pushes policy stack err c :
  run policy stub_save (gp_fault stack err c) = push_words (frame_words err c) (set_reg RSP stack c).
Proof.
  change stub_save with (Push <$> saved_regs). rewrite run_pushes by (apply (bool_decide_unpack _); by vm_compute).
  unfold frame_words, push_words. rewrite fold_left_app. reflexivity.
Qed.

(** Where a register is in the context and among the words. *)
Lemma saved_place r : r <> RSP -> exists i, (i <= 14)%nat /\ list_find (eq r) context_order = Some (i, r) /\
  context_order !! i = Some r /\ forall err c, frame_words err c !! (20 - i)%nat = Some (gpr c r).
Proof. intros Hr. destruct r; try done; (eexists; split_and!; [|reflexivity..]; vm_compute; lia). Qed.

Section stub.
Context (policy : cpu -> cpu) (Habi : ms_abi policy).
Context (stack err : Z) (c : cpu) (Hstack : 256 <= stack < 18446744073709551616).

Notation c_saved := (run policy stub_save (gp_fault stack err c)).
Notation c_call := (run policy (stub_save ++ stub_args) (gp_fault stack err c)).

Lemma saved_pushed : pushed (frame_words err c) (set_reg RSP stack c) c_saved.
Proof. rewrite stub_save_pushes. apply push_words_pushed. rewrite gpr_set_eq. cbn. lia. Qed.

(** The words below the top of the stack. *)
Lemma saved_word k v a :
  frame_words err c !! k = Some v -> a = stack - 8 * (Z.of_nat k + 1) -> mem c_saved a = v.
Proof. intros Hk ->. pose proof (pu_words _ _ _ saved_pushed k v Hk) as H. by rewrite gpr_set_eq in H. Qed.

Lemma saved_sp : gpr c_saved RSP = stack - 168.
Proof. rewrite (pu_sp _ _ _ saved_pushed), gpr_set_eq. change (Z.of_nat (length (frame_words err c))) with 21. lia. Qed.

(** At the call. *)
Lemma call_state :
  mem c_call = mem c_saved /\ same_flow c_saved c_call /\
  gpr c_call RSP = stack - 168 - (stack - 168) mod 16 - 32 /\ gpr c_call RBP = stack - 168 /\
  gpr c_call R8 = stack - 168 /\ gpr c_call RCX = err /\ gpr c_call RDX = rip c.
Proof.
  rewrite run_app. pose proof saved_sp as Hsp. pose proof (saved_word 5 err (stack - 48) eq_refl eq_refl) as Herr.
  pose proof (saved_word 4 (rip c) (stack - 40) eq_refl eq_refl) as Hrip.
  revert Hsp Herr Hrip. generalize c_saved. intros d Hsp Herr Hrip. unfold stub_args, run. cbn [fold_left exec].
  autorewrite with cpu. rewrite Hsp, align_stack by lia.
  split_and!; [done|done|ulia|done|done| |]; [rewrite <- Herr|rewrite <- Hrip]; f_equal; ulia.
Qed.

Lemma call_context r : r <> RSP -> context_field c_call r = gpr c r.
Proof.
  intros Hr. destruct call_state as (Hm & _ & _ & _ & H8 & _). destruct (saved_place r Hr) as (i & Hi & Hf & _ & Hw).
  unfold context_field. rewrite Hf, Hm, H8. apply (saved_word (20 - i)); [apply Hw|ulia].
Qed.

(** After the return from the interrupt. *)
Lemma trap_restores :
  let c' := trap policy stack err c in
  (forall r, gpr c' r = gpr c r) /\ same_flow c c'.
Proof.
  unfold trap, SentinelGpFaultHandler. rewrite app_assoc, run_app.
  destruct call_state as (Hm & _ & Hsp & Hbp & _). pose proof saved_word as Hw. rewrite <- Hm in Hw.
  revert Hsp Hbp Hw. generalize c_call. clear Hm. intros d Hsp Hbp Hw.
  assert (gpr (policy d) RBP = stack - 168) as Hbp' by (rewrite (abi_regs _ Habi) by set_solver; done).
  assert (forall k v a, frame_words err c !! k = Some v -> a = stack - 8 * (Z.of_nat k + 1) -> stack - 168 <= a ->
    mem (policy d) a = v) as Hw'.
  { intros k v a Hk Ha Hle. rewrite (abi_mem _ Habi); [by apply (Hw k)|]. rewrite Hsp. ulia. }
  set (e := set_reg RSP (stack - 168) (policy d)).
  change ([CallPolicy] ++ stub_restore) with ([CallPolicy; MovReg RSP RBP] ++ (Pop <$> context_order) ++ [AddImm RSP 8; Iretq]).
  rewrite !run_app. assert (run policy [CallPolicy; MovReg RSP RBP] d = e) as ->.
  { unfold run. cbn [fold_left exec]. by rewrite Hbp'. }
  assert (gpr e RSP = stack - 168) as He by apply gpr_set_eq.
  destruct (run_pops policy context_order e) as (_ & M & S & G & _).
  { apply (bool_decide_unpack _). by vm_compute. }
  { apply (bool_decide_unpack _). by vm_compute. }
  { lia. }
  { change (length context_order) with 15%nat. lia. }
  revert M S G. generalize (run policy (Pop <$> context_order) e). intros g M S G.
  change (Z.of_nat (length context_order)) with 15 in S. rewrite He in S, G.
  unfold run. cbn [fold_left exec]. rewrite S. unfold iretq. rewrite gpr_set_eq, mem_set, M. unfold e. rewrite mem_set.
  split.
  - intros r. cbn [gpr]. destruct (decide (r = RSP)) as [->|Hr].
    + apply (Hw' 1%nat); [done|ulia|ulia].
    + rewrite gpr_set_ne by done. destruct (saved_place r Hr) as (i & Hi & _ & Ho & Hfw). rewrite (G i r Ho). unfold e. rewrite mem_set.
      apply (Hw' (20 - i)%nat); [apply Hfw|ulia|ulia].
  - split; cbn [rip rflags cs ss].
    + apply (Hw' 4%nat); [done|ulia|ulia].
    + apply (Hw' 2%nat); [done|ulia|ulia].
    + apply (Hw' 3%nat); [done|ulia|ulia].
    + apply (Hw' 0%nat); [done|ulia|ulia].
Qed.
End stub.

(** ** Theorems *)

(** C17. The trap is transparent: for every fault, on a stack with room and a handler
    that keeps to the calling convention, the handler is called with the stack
    aligned, the error code, the faulting address and a context in which each field
    of the structure is the register of the interrupted code, so that its verdict is
    that of the policy on the faulting instruction; and afterwards the interrupted
    code goes on at the same instruction with every register as it was, whatever the
    verdict was, any number of times. *)
Theorem gp_trap_transparent policy stack err c io code :
  ms_abi policy -> 256 <= stack < 18446744073709551616 ->
  let c_call := run policy (stub_save ++ stub_args) (gp_fault stack err c) in
  (gpr c_call RSP mod 16 = 0 /\ gpr c_call RCX = err /\ gpr c_call RDX = rip c /\
   (forall r, r <> RSP -> context_field c_call r = gpr c r) /\
   policy_verdict io code c_call =
     PolicyCheckTrapHandler io (fun i => code (u64 (rip c + Z.of_nat i))) (CpuContext (gpr c RDX) (gpr c RCX))) /\
  forall n, let c' := Nat.iter n (trap policy stack err) c in
    (forall r, gpr c' r = gpr c r) /\ rip c' = rip c /\ rflags c' = rflags c /\ cs c' = cs c /\ ss c' = ss c.
Proof.
  intros Habi Hs c_call. destruct (call_state policy stack err c Hs) as (_ & _ & H1 & _ & _ & H2 & H3). fold c_call in H1, H2, H3.
  assert (forall r, r <> RSP -> context_field c_call r = gpr c r) as Hc by (intros; by apply call_context).
  split; [split_and!; [rewrite H1; lia|done|done|done|]|].
  - unfold policy_verdict. rewrite H3, !Hc by done. done.
  - intros n. cbn zeta. induction n as [|n IH]; [done|]. cbn [Nat.iter].
    destruct IH as (G & R & F & C & S). destruct (trap_restores policy Habi stack err (Nat.iter n (trap policy stack err) c) Hs) as [G' [R' F' C' S']].
    rewrite Nat.iter_succ. split_and!; [intros r; by rewrite G', G|congruence..].
Qed.

(** The write of IA32_EFER is denied, and the handler that tries it never says that
    it succeeded. *)
Theorem rogue_smi_denied policy stack c io n :
  ms_abi policy -> 256 <= stack < 18446744073709551616 ->
  PolicyCheckTrapHandler io rogue_wrmsr (CpuContext (gpr (rogue_setup c) RDX) (gpr (rogue_setup c) RCX)) = Some EFI_ACCESS_DENIED /\
  RogueSmiHandler n policy stack c = [RogueTriggered].
Proof.
  intros Habi Hs. split; [done|]. unfold RogueSmiHandler. f_equal. generalize (rogue_setup c). clear c.
  induction n as [|n IH]; intros c; [done|]. cbn [rogue_attempts].
  destruct (trap_restores policy Habi stack 0 c Hs) as [_ [-> _ _ _]]. by rewrite Z.eqb_refl.
Qed.

(** ** Witnesses *)

(** A handler that leaves its answer in RAX and scratches the registers and the
    memory that it may. *)
Definition demo_policy (c : cpu) : cpu :=
  set_reg RAX 15 (set_reg RCX 7 (set_reg R11 7 (store (gpr c RSP - 8) 1 (store (gpr c RSP + 8) 2 c)))).

Lemma demo_policy_abi : ms_abi demo_policy.
Proof.
  split.
  - intros c r Hr. unfold demo_policy. rewrite !gpr_set_ne by (intros <-; revert Hr; by apply (bool_decide_unpack _)). done.
  - intros c a Ha. unfold demo_policy. rewrite !mem_set. unfold store. cbn [mem]. by rewrite !decide_False by lia.
Qed.

Definition demo_cpu : cpu := Cpu (fun r => match r with RCX => 0xC0000080 | RDX => 0x70 | RSP => 0x5000 | _ => 1 end) 0x401000 2 0x33 0x2B (fun _ => 0).

Lemma gp_trap_transparent_witness :
  rip (Nat.iter 3 (trap demo_policy 0x8000 0) demo_cpu) = 0x401000 /\
  context_field (run demo_policy (stub_save ++ stub_args) (gp_fault 0x8000 0 demo_cpu)) RDX = 0x70.
Proof.
  destruct (gp_trap_transparent demo_policy 0x8000 0 demo_cpu [] (fun _ => 0x90) demo_policy_abi ltac:(lia)) as [(_ & _ & _ & H & _) Hn].
  split; [apply (Hn 3%nat)|]. by apply H.
Defined.

Lemma rogue_smi_denied_witness : RogueSmiHandler 5 demo_policy 0x8000 demo_cpu = [RogueTriggered].
Proof. exact (proj2 (rogue_smi_denied demo_policy 0x8000 demo_cpu [] 5 demo_policy_abi ltac:(lia))). Defined.
