(* ===== verification/MeiHook.v ===== *)
(** * The MEI hook (sentinel-smm/src/mei/sentinel_mei_hook.c, .h)

    The kernel module that watches the messages of the host to the management
    engine: the policy by client GUID, the probes on [mei_cldev_send] and
    [mei_cldev_recv], the netlink event, and loading and unloading.

    What the kernel supplies at a probe hit (arguments, readable memory, the
    current process, the fate of the netlink calls) is a [probe_ctx]; the
    layout constants of kernel headers are parameters of the section.  The
    kernel log is a list of entries. *)

From S2P Require Import Prelude.
From stdpp Require Import prelude gmap strings list.
From Stdlib Require Import ZArith Lia.
#[local] Open Scope Z_scope.

(** ** Policy (sentinel_mei_hook.h) *)

Inductive sentinel_mei_policy := SMEI_ALLOW | SMEI_LOG_ONLY | SMEI_DENY.
#[global] Instance sentinel_mei_policy_eq_dec : EqDecision sentinel_mei_policy.
Proof. solve_decision. Defined.

(** [GUID_INIT]: the first three parts are stored in little-endian order. *)
Definition GUID_INIT (a b c : Z) (d : list Z) : list Z :=
  le_encode 4 a ++ le_encode 2 b ++ le_encode 2 c ++ d.

Record sentinel_mei_guid_entry := GuidEntry { ge_guid : list Z; ge_name : string; ge_policy : sentinel_mei_policy }.

Definition sentinel_mei_restricted_guids : list sentinel_mei_guid_entry :=
  [GuidEntry (GUID_INIT 0x12F80028 0xB4B7 0x4B2D [0xAC; 0xA8; 0x46; 0xE0; 0xFF; 0x65; 0x81; 0x4C])
     "AMT Remote Control" SMEI_DENY;
   GuidEntry (GUID_INIT 0xFB3B192E 0xE714 0x44A4 [0x8B; 0x22; 0x55; 0x82; 0x23; 0xDE; 0x6F; 0xF4])
     "AMT SOL" SMEI_DENY;
   GuidEntry (GUID_INIT 0xF934D0F2 0x3E42 0x402E [0x8C; 0xDF; 0x73; 0x01; 0x02; 0xAA; 0x13; 0xD1])
     "ICC Clock Control" SMEI_DENY;
   GuidEntry (GUID_INIT 0x8E6A6715 0x9ABC 0x4043 [0x88; 0xEF; 0x9E; 0x39; 0xC6; 0xF6; 0x3E; 0x0F])
     "MKHI" SMEI_LOG_ONLY].

Definition MEI_ME_CLIENT_GUID_OFFSET : Z := 24.

(** [sentinel_heci_event], packed. *)
Record sentinel_heci_event := HeciEvent { he_pid : Z; he_uid : Z; he_action : Z; he_guid : list Z }.

Definition heci_event_bytes (e : sentinel_heci_event) : list Z :=
  le_encode 4 (he_pid e) ++ le_encode 4 (he_uid e) ++ le_encode 4 (he_action e) ++ he_guid e.

(** ** State *)

Inductive klog :=
  | LogDeny (name : string) (guid : list Z) (len pid : Z)
  | LogOnly (name : string) (guid : list Z) (len pid : Z)
  | LogPass (name : string) (guid : list Z) (len : Z)
  | LogBlock (name : string) (guid : list Z) (pid : Z)
  | LogRecv (name : string) (guid : list Z) (len pid : Z).

(** Per-instance data of the return probe. *)
Record sentinel_mei_kretprobe_data := KretData {
  kd_policy : sentinel_mei_policy;
  kd_guid : list Z;
  kd_name : string;
}.

Record mei := Mei {
  strict_mkhi : Z;
  log_allowed : Z;
  mei_send_total : Z;
  mei_send_blocked : Z;
  mei_send_logged : Z;
  mei_recv_total : Z;
  instances : gmap Z sentinel_mei_kretprobe_data;
  nmissed : Z;
  netlink : list (list Z);
  dmesg : list klog;
}.

Definition mei_boot (strict logs : Z) : mei := Mei strict logs 0 0 0 0 ∅ 0 [] [].

Definition MAXACTIVE : nat := 16.

(** What a probe hit sees. *)
Record probe_ctx := ProbeCtx {
  arg0 : Z;
  arg2 : Z;
  copy_from_kernel_nofault : Z -> nat -> option (list Z);
  cur_tgid : Z;
  cur_pid : Z;
  cur_uid : Z;
  skb_alloc : bool;
  genlmsg_put_ok : bool;
  nla_put_ok : bool;
}.

Definition inc_send_total (m : mei) : mei :=
  Mei (strict_mkhi m) (log_allowed m) (u64 (mei_send_total m + 1)) (mei_send_blocked m) (mei_send_logged m)
    (mei_recv_total m) (instances m) (nmissed m) (netlink m) (dmesg m).
Definition inc_blocked (m : mei) : mei :=
  Mei (strict_mkhi m) (log_allowed m) (mei_send_total m) (u64 (mei_send_blocked m + 1)) (mei_send_logged m)
    (mei_recv_total m) (instances m) (nmissed m) (netlink m) (dmesg m).
Definition inc_logged (m : mei) : mei :=
  Mei (strict_mkhi m) (log_allowed m) (mei_send_total m) (mei_send_blocked m) (u64 (mei_send_logged m + 1))
    (mei_recv_total m) (instances m) (nmissed m) (netlink m) (dmesg m).
Definition inc_recv (m : mei) : mei :=
  Mei (strict_mkhi m) (log_allowed m) (mei_send_total m) (mei_send_blocked m) (mei_send_logged m)
    (u64 (mei_recv_total m + 1)) (instances m) (nmissed m) (netlink m) (dmesg m).
Definition set_instances (i : gmap Z sentinel_mei_kretprobe_data) (missed : Z) (m : mei) : mei :=
  Mei (strict_mkhi m) (log_allowed m) (mei_send_total m) (mei_send_blocked m) (mei_send_logged m)
    (mei_recv_total m) i missed (netlink m) (dmesg m).
Definition multicast (msg : list Z) (m : mei) : mei :=
  Mei (strict_mkhi m) (log_allowed m) (mei_send_total m) (mei_send_blocked m) (mei_send_logged m)
    (mei_recv_total m) (instances m) (nmissed m) (netlink m ++ [msg]) (dmesg m).
Definition printk (l : klog) (m : mei) : mei :=
  Mei (strict_mkhi m) (log_allowed m) (mei_send_total m) (mei_send_blocked m) (mei_send_logged m)
    (mei_recv_total m) (instances m) (nmissed m) (netlink m) (dmesg m ++ [l]).
(** Module parameters can be written while the module runs. *)
Definition set_strict (v : Z) (m : mei) : mei :=
  Mei v (log_allowed m) (mei_send_total m) (mei_send_blocked m) (mei_send_logged m)
    (mei_recv_total m) (instances m) (nmissed m) (netlink m) (dmesg m).

(** ** Lookup and extraction *)

Fixpoint lookup_guid_loop (strict : Z) (guid : list Z) (l : list sentinel_mei_guid_entry)
  : sentinel_mei_policy * string :=
  match l with
  | [] => (SMEI_ALLOW, "Unknown"%string)
  | e :: rest =>
      if bool_decide (guid = ge_guid e) then
        (if bool_decide (ge_policy e = SMEI_LOG_ONLY) && negb (strict =? 0) then SMEI_DENY
         else ge_policy e, ge_name e)
      else lookup_guid_loop strict guid rest
  end.

Definition sentinel_mei_lookup_guid (strict : Z) (guid : list Z) : sentinel_mei_policy * string :=
  lookup_guid_loop strict guid sentinel_mei_restricted_guids.

Section hook.
(** [offsetof(struct mei_cl_device, me_cl)] and the start of kernel addresses. *)
Context (ME_CL_OFFSET PAGE_OFFSET : Z).

Definition sentinel_mei_extract_guid (c : probe_ctx) : option (list Z) :=
  let cldev := arg0 c in
  if cldev =? 0 then None
  else match copy_from_kernel_nofault c (u64 (cldev + ME_CL_OFFSET)) 8 with
       | None => None
       | Some bs =>
           let me_cl_addr := le_decode bs in
           if (me_cl_addr =? 0) || (me_cl_addr <? PAGE_OFFSET) then None
           else copy_from_kernel_nofault c (u64 (me_cl_addr + MEI_ME_CLIENT_GUID_OFFSET)) 16
       end.

(** ** The probes *)

Definition sentinel_mei_netlink_broadcast (c : probe_ctx) (guid : list Z) (act : Z) : M mei unit :=
  if negb (skb_alloc c) then mret tt
  else if negb (genlmsg_put_ok c) then mret tt
  else
    let evt := HeciEvent (u32 (cur_tgid c)) (u32 (cur_uid c)) act guid in
    if negb (nla_put_ok c) then mret tt
    else modify (multicast (heci_event_bytes evt)).

Definition sentinel_mei_send_pre (c : probe_ctx) : M mei unit :=
  _ ← modify inc_send_total;
  match sentinel_mei_extract_guid c with
  | None => mret tt
  | Some guid =>
      strict ← gets strict_mkhi;
      let '(policy, client_name) := sentinel_mei_lookup_guid strict guid in
      match policy with
      | SMEI_DENY =>
          _ ← modify (printk (LogDeny client_name guid (arg2 c) (cur_pid c))); modify inc_blocked
      | SMEI_LOG_ONLY =>
          _ ← modify (printk (LogOnly client_name guid (arg2 c) (cur_pid c))); modify inc_logged
      | SMEI_ALLOW =>
          la ← gets log_allowed;
          if la =? 0 then mret tt else modify (printk (LogPass client_name guid (arg2 c)))
      end
  end.

(** The data that the entry handler leaves in the instance. *)
Definition sentinel_mei_send_ret_entry (c : probe_ctx) : M mei sentinel_mei_kretprobe_data :=
  match sentinel_mei_extract_guid c with
  | None => mret (KretData SMEI_ALLOW (replicate 16 0) "Unknown"%string)
  | Some guid =>
      strict ← gets strict_mkhi;
      let '(policy, client_name) := sentinel_mei_lookup_guid strict guid in
      mret (KretData policy guid client_name)
  end.

Definition EPERM_RETURN : Z := u64 (- 1).

(** The result is the return register after the handler. *)
Definition sentinel_mei_send_ret_handler (data : sentinel_mei_kretprobe_data) (c : probe_ctx) (rax : Z)
  : M mei Z :=
  if bool_decide (kd_policy data = SMEI_DENY) then
    _ ← modify (printk (LogBlock (kd_name data) (kd_guid data) (cur_pid c)));
    _ ← sentinel_mei_netlink_broadcast c (kd_guid data) 1;
    mret EPERM_RETURN
  else mret rax.

Definition sentinel_mei_recv_pre (c : probe_ctx) : M mei unit :=
  _ ← modify inc_recv;
  match sentinel_mei_extract_guid c with
  | None => mret tt
  | Some guid =>
      strict ← gets strict_mkhi;
      let '(_, client_name) := sentinel_mei_lookup_guid strict guid in
      modify (printk (LogRecv client_name guid (arg2 c) (cur_pid c)))
  end.

(** ** Probe hits

    An instance of the return probe is taken at the entry of a call, when one
    of the 16 is free, and released at its return; a call without an instance
    is counted as missed and runs unhandled. *)

Inductive mei_event :=
  | SendEnter (call : Z) (c : probe_ctx)
  | SendReturn (call : Z) (c : probe_ctx) (rax : Z)
  | RecvEnter (c : probe_ctx)
  | SetStrict (v : Z).

(** The result is the return register, for a return. *)
Definition mei_hit (e : mei_event) : M mei (option Z) :=
  match e with
  | SendEnter call c =>
      inst ← gets instances;
      missed ← gets nmissed;
      _ ← (if (size inst <? MAXACTIVE)%nat then
             d ← sentinel_mei_send_ret_entry c;
             modify (set_instances (<[call := d]> inst) missed)
           else modify (set_instances inst (missed + 1)));
      _ ← sentinel_mei_send_pre c;
      mret None
  | SendReturn call c rax =>
      inst ← gets instances;
      missed ← gets nmissed;
      match inst !! call with
      | None => mret (Some rax)
      | Some d =>
          r ← sentinel_mei_send_ret_handler d c rax;
          _ ← modify (set_instances (delete call inst) missed);
          mret (Some r)
      end
  | RecvEnter c => _ ← sentinel_mei_recv_pre c; mret None
  | SetStrict v => _ ← modify (set_strict v); mret None
  end.

Fixpoint mei_trace (es : list mei_event) : M mei unit :=
  match es with
  | [] => mret tt
  | e :: rest => _ ← mei_hit e; mei_trace rest
  end.
End hook.

(** ** Loading and unloading *)

(** What is registered with the kernel. *)
Record registered := Registered {
  reg_family : bool;
  reg_krp_send : bool;
  reg_kp_send : bool;
  reg_kp_recv : bool;
}.
Definition unloaded : registered := Registered false false false false.

Definition ENOENT : Z := 2.
Definition ENODEV : Z := 19.

(** The four results of the kernel's registration functions. *)
Definition sentinel_mei_init (genl krp kp_send kp_recv : Z) : M registered Z :=
  if negb (genl =? 0) then mret genl
  else
    _ ← modify (fun r => Registered true (reg_krp_send r) (reg_kp_send r) (reg_kp_recv r));
    if krp <? 0 then mret (if krp =? - ENOENT then - ENODEV else krp)
    else
      _ ← modify (fun r => Registered (reg_family r) true (reg_kp_send r) (reg_kp_recv r));
      if kp_send <? 0 then
        _ ← modify (fun r => Registered (reg_family r) false (reg_kp_send r) (reg_kp_recv r));
        _ ← modify (fun r => Registered false (reg_krp_send r) (reg_kp_send r) (reg_kp_recv r));
        mret kp_send
      else
        _ ← modify (fun r => Registered (reg_family r) (reg_krp_send r) true (reg_kp_recv r));
        _ ← (if kp_recv <? 0 then mret tt
             else modify (fun r => Registered (reg_family r) (reg_krp_send r) (reg_kp_send r) true));
        mret 0.

(** [recv_addr]: the kernel resolved the address of [kp_mei_recv]. *)
Definition sentinel_mei_exit (recv_addr : bool) : M registered unit :=
  _ ← (if recv_addr
       then modify (fun r => Registered (reg_family r) (reg_krp_send r) (reg_kp_send r) false)
       else mret tt);
  _ ← modify (fun r => Registered (reg_family r) (reg_krp_send r) false (reg_kp_recv r));
  _ ← modify (fun r => Registered (reg_family r) false (reg_kp_send r) (reg_kp_recv r));
  modify (fun r => Registered false (reg_krp_send r) (reg_kp_send r) (reg_kp_recv r)).
