(* ===== verification/MeiProofs.v ===== *)
(** * The MEI hook: theorems

    The verdict on a message under any interleaving of probe hits, the
    counters, the netlink event, and the registration life cycle. *)

From S2P Require Import Prelude MeiHook.
From stdpp Require Import prelude gmap strings list.
From Stdlib Require Import ZArith Lia.
#[local] Open Scope Z_scope.

(** ** The policy table *)

Definition MKHI_GUID : list Z :=
  GUID_INIT 0x8E6A6715 0x9ABC 0x4043 [0x88; 0xEF; 0x9E; 0x39; 0xC6; 0xF6; 0x3E; 0x0F].

(** What the table means: listed clients are denied, except that MKHI is only
    logged unless strict mode is on; all others are allowed. *)
Definition guid_policy (strict : Z) (guid : list Z) : sentinel_mei_policy :=
  if decide (guid = MKHI_GUID) then if strict =? 0 then SMEI_LOG_ONLY else SMEI_DENY
  else if decide (guid ∈ map ge_guid sentinel_mei_restricted_guids) then SMEI_DENY
  else SMEI_ALLOW.

Lemma lookup_guid_policy strict guid : (sentinel_mei_lookup_guid strict guid).1 = guid_policy strict guid.
Proof.
  unfold sentinel_mei_lookup_guid, guid_policy, sentinel_mei_restricted_guids.
  cbn [lookup_guid_loop map ge_guid ge_policy ge_name]. fold MKHI_GUID.
  assert (forall a b c : list Z, guid <> a -> guid <> b -> guid <> c -> guid <> MKHI_GUID ->
    guid ∉ [a; b; c; MKHI_GUID]) as Hno by set_solver.
  case_bool_decide as E1; [subst guid; by vm_compute|].
  case_bool_decide as E2; [subst guid; by vm_compute|].
  case_bool_decide as E3; [subst guid; by vm_compute|].
  case_bool_decide as E4; cbn [fst].
  - rewrite decide_True by done. cbn. by destruct (strict =? 0).
  - rewrite decide_False by done. by rewrite decide_False by (by apply Hno).
Qed.

Section hook.
Context (ME_CL_OFFSET PAGE_OFFSET : Z).
Notation extract := (sentinel_mei_extract_guid ME_CL_OFFSET PAGE_OFFSET).
Notation hit := (mei_hit ME_CL_OFFSET PAGE_OFFSET).
Notation trace := (mei_trace ME_CL_OFFSET PAGE_OFFSET).

(** The verdict on a message: a client that cannot be determined is allowed. *)
Definition verdict_on (strict : Z) (c : probe_ctx) : sentinel_mei_policy :=
  match extract c with None => SMEI_ALLOW | Some guid => guid_policy strict guid end.

(** ** One probe hit *)

(** The data that an entry leaves. *)
Definition entry_data (strict : Z) (c : probe_ctx) : sentinel_mei_kretprobe_data :=
  match extract c with
  | None => KretData SMEI_ALLOW (replicate 16 0) "Unknown"%string
  | Some guid => KretData (guid_policy strict guid) guid (sentinel_mei_lookup_guid strict guid).2
  end.

Lemma run_ret_entry c m :
  sentinel_mei_send_ret_entry ME_CL_OFFSET PAGE_OFFSET c m = Some (entry_data (strict_mkhi m) c, m).
Proof.
  unfold sentinel_mei_send_ret_entry, entry_data. destruct (extract c) as [guid|]; [|done].
  unfold mbind, M_bind, gets. cbn beta iota. rewrite <- lookup_guid_policy.
  by destruct (sentinel_mei_lookup_guid _ _).
Qed.

Definition bump (b : bool) (z : Z) : Z := if b then u64 (z + 1) else z.

(** The entry telemetry: counters and the log, nothing else. *)
Lemma run_send_pre c m :
  exists m', sentinel_mei_send_pre ME_CL_OFFSET PAGE_OFFSET c m = Some (tt, m') /\
    strict_mkhi m' = strict_mkhi m /\ instances m' = instances m /\ nmissed m' = nmissed m /\
    netlink m' = netlink m /\ mei_recv_total m' = mei_recv_total m /\
    mei_send_total m' = u64 (mei_send_total m + 1) /\
    mei_send_blocked m' = bump (bool_decide (verdict_on (strict_mkhi m) c = SMEI_DENY)) (mei_send_blocked m) /\
    mei_send_logged m' = bump (bool_decide (verdict_on (strict_mkhi m) c = SMEI_LOG_ONLY)) (mei_send_logged m).
Proof.
  unfold sentinel_mei_send_pre, verdict_on. destruct (extract c) as [guid|].
  - unfold mbind, M_bind, modify, gets. cbn beta iota. rewrite <- (lookup_guid_policy (strict_mkhi m)).
    cbn [strict_mkhi inc_send_total]. destruct (sentinel_mei_lookup_guid (strict_mkhi m) guid) as [[| |] nm];
      cbn [fst log_allowed]; [destruct (_ =? 0)|..]; eexists; (split; [reflexivity|]); done.
  - unfold mbind, M_bind, modify. eexists. by split.
Qed.

Lemma run_recv_pre c m :
  exists m', sentinel_mei_recv_pre ME_CL_OFFSET PAGE_OFFSET c m = Some (tt, m') /\
    strict_mkhi m' = strict_mkhi m /\ instances m' = instances m /\ netlink m' = netlink m /\
    mei_send_total m' = mei_send_total m /\ mei_send_blocked m' = mei_send_blocked m /\
    mei_send_logged m' = mei_send_logged m.
Proof.
  unfold sentinel_mei_recv_pre. destruct (extract c) as [guid|].
  - unfold mbind, M_bind, modify, gets. cbn beta iota.
    destruct (sentinel_mei_lookup_guid _ guid). eexists. by split.
  - unfold mbind, M_bind, modify. eexists. by split.
Qed.

Definition netlink_ok (c : probe_ctx) : bool := skb_alloc c && genlmsg_put_ok c && nla_put_ok c.

Lemma run_ret_handler d c rax m :
  exists m', sentinel_mei_send_ret_handler d c rax m =
      Some (if decide (kd_policy d = SMEI_DENY) then EPERM_RETURN else rax, m') /\
    strict_mkhi m' = strict_mkhi m /\ instances m' = instances m /\ nmissed m' = nmissed m /\
    mei_send_total m' = mei_send_total m /\ mei_send_blocked m' = mei_send_blocked m /\
    mei_send_logged m' = mei_send_logged m /\
    netlink m' = netlink m ++
      (if decide (kd_policy d = SMEI_DENY /\ netlink_ok c = true)
       then [heci_event_bytes (HeciEvent (u32 (cur_tgid c)) (u32 (cur_uid c)) 1 (kd_guid d))] else []).
Proof.
  unfold sentinel_mei_send_ret_handler, sentinel_mei_netlink_broadcast, netlink_ok.
  case_bool_decide as E.
  - rewrite decide_True by done. unfold mbind, M_bind, modify.
    destruct (skb_alloc c), (genlmsg_put_ok c), (nla_put_ok c); cbn [negb andb];
      (eexists; split; [reflexivity|]); split_and!; try done; cbn [netlink multicast printk];
      solve [by rewrite decide_True by done|by rewrite decide_False by naive_solver; rewrite app_nil_r].
  - rewrite !decide_False by tauto. exists m. rewrite app_nil_r. by split_and!.
Qed.

(** ** Hits in sequence *)

(** The call that a hit belongs to. *)
Definition call_of (e : mei_event) : option Z :=
  match e with SendEnter call _ | SendReturn call _ _ => Some call | _ => None end.

(** How a hit counts, and how it changes strict mode. *)
Definition hit_sends (e : mei_event) : bool := match e with SendEnter _ _ => true | _ => false end.
Definition hit_verdict (p : sentinel_mei_policy) (strict : Z) (e : mei_event) : bool :=
  match e with SendEnter _ c => bool_decide (verdict_on strict c = p) | _ => false end.
Definition strict_after (strict : Z) (e : mei_event) : Z :=
  match e with SetStrict v => v | _ => strict end.

Record hit_effect (e : mei_event) (m m' : mei) : Prop := {
  hf_strict : strict_mkhi m' = strict_after (strict_mkhi m) e;
  hf_total : mei_send_total m' = bump (hit_sends e) (mei_send_total m);
  hf_blocked : mei_send_blocked m' = bump (hit_verdict SMEI_DENY (strict_mkhi m) e) (mei_send_blocked m);
  hf_logged : mei_send_logged m' = bump (hit_verdict SMEI_LOG_ONLY (strict_mkhi m) e) (mei_send_logged m);
  hf_size : (size (instances m) <= MAXACTIVE)%nat -> (size (instances m') <= MAXACTIVE)%nat;
  hf_others : forall call, call_of e <> Some call -> instances m' !! call = instances m !! call;
}.

Lemma size_insert_le (i : gmap Z sentinel_mei_kretprobe_data) k d :
  (size i < MAXACTIVE)%nat -> (size (<[k := d]> i) <= MAXACTIVE)%nat.
Proof. intros H. rewrite map_size_insert. destruct (i !! k); cbn; lia. Qed.

Lemma size_delete_le (i : gmap Z sentinel_mei_kretprobe_data) k :
  (size i <= MAXACTIVE)%nat -> (size (delete k i) <= MAXACTIVE)%nat.
Proof. intros H. rewrite map_size_delete. destruct (i !! k); cbn; lia. Qed.

Lemma run_enter call c m :
  exists m', hit (SendEnter call c) m = Some (None, m') /\ hit_effect (SendEnter call c) m m' /\
    instances m' = if (size (instances m) <? MAXACTIVE)%nat
                   then <[call := entry_data (strict_mkhi m) c]> (instances m) else instances m.
Proof.
  unfold mei_hit, mbind, M_bind, gets. cbn beta iota.
  destruct (size (instances m) <? MAXACTIVE)%nat eqn:E; boolify.
  - rewrite run_ret_entry. unfold modify at 1.
    destruct (run_send_pre c (set_instances (<[call:=entry_data (strict_mkhi m) c]> (instances m)) (nmissed m) m))
      as (m' & Hr & H1 & H2 & _ & _ & _ & H3 & H4 & H5). rewrite Hr.
    exists m'. split; [reflexivity|]. split; [|done]. split; rewrite ?H2; try done.
    + intros _. cbn. by apply size_insert_le.
    + intros k Hk. cbn. apply lookup_insert_ne. naive_solver.
  - unfold modify at 1. destruct (run_send_pre c (set_instances (instances m) (nmissed m + 1) m))
      as (m' & Hr & H1 & H2 & _ & _ & _ & H3 & H4 & H5). rewrite Hr.
    exists m'. split; [reflexivity|]. split; [|done]. by split; rewrite ?H2.
Qed.

Lemma run_return call c rax m :
  exists m', hit (SendReturn call c rax) m =
      Some (Some (match instances m !! call with
                  | Some d => if decide (kd_policy d = SMEI_DENY) then EPERM_RETURN else rax
                  | None => rax end), m') /\
    hit_effect (SendReturn call c rax) m m' /\
    netlink m' = netlink m ++
      match instances m !! call with
      | Some d => if decide (kd_policy d = SMEI_DENY /\ netlink_ok c = true)
         then [heci_event_bytes (HeciEvent (u32 (cur_tgid c)) (u32 (cur_uid c)) 1 (kd_guid d))] else []
      | None => [] end.
Proof.
  unfold mei_hit, mbind, M_bind, gets. cbn beta iota. destruct (instances m !! call) as [d|] eqn:E.
  - destruct (run_ret_handler d c rax m) as (m' & Hr & H1 & H2 & H3 & H4 & H5 & H6 & H7). rewrite Hr.
    eexists. split; [reflexivity|]. split; [|by rewrite <- H7].
    split; try done; cbn [instances set_instances].
    + apply size_delete_le.
    + intros k Hk. apply lookup_delete_ne. cbn in Hk. congruence.
  - eexists. split; [reflexivity|]. rewrite app_nil_r. done.
Qed.

Lemma run_hit e m : exists r m', hit e m = Some (r, m') /\ hit_effect e m m'.
Proof.
  destruct e as [call c|call c rax|c|v].
  - destruct (run_enter call c m) as (m' & Hr & H & _). eauto.
  - destruct (run_return call c rax m) as (m' & Hr & H & _). eauto.
  - unfold mei_hit, mbind, M_bind. destruct (run_recv_pre c m) as (m' & Hr & H1 & H2 & H3 & H4 & H5 & H6).
    rewrite Hr. eexists _, m'. split; [reflexivity|]. by split; rewrite ?H2.
  - eexists _, _. split; [reflexivity|]. done.
Qed.

Lemma run_trace es m call :
  Forall (fun e => call_of e <> Some call) es ->
  exists m', trace es m = Some (tt, m') /\ instances m' !! call = instances m !! call.
Proof.
  intros Hes. revert m. induction Hes as [|e es He _ IH]; intros m; [by exists m|].
  destruct (run_hit e m) as (r & m1 & Hr & Hf). destruct (IH m1) as (m2 & Hr2 & Hi).
  exists m2. cbn [mei_trace]. unfold mbind, M_bind. rewrite Hr. split; [done|].
  rewrite Hi. by apply (hf_others _ _ _ Hf).
Qed.

(** C12. The verdict of the hook is free of races: between the entry of a send
    and its return, any sequence of other probe hits (sends and receives of other
    calls, a change of strict mode) can run; when an instance was free at the
    entry (fewer than 16 sends were in flight), the caller gets -EPERM exactly when the client found at the entry was
    denied by the policy of that moment, and its own result otherwise, and a
    denial is broadcast unless netlink fails. *)
Theorem interdiction_race_free call c c' rax es m :
  (size (instances m) < MAXACTIVE)%nat ->
  Forall (fun e => call_of e <> Some call) es ->
  let denied := verdict_on (strict_mkhi m) c = SMEI_DENY in
  exists m1 m2 r m3,
    hit (SendEnter call c) m = Some (None, m1) /\ trace es m1 = Some (tt, m2) /\
    hit (SendReturn call c' rax) m2 = Some (Some r, m3) /\
    (denied -> r = EPERM_RETURN) /\ (~ denied -> r = rax /\ netlink m3 = netlink m2) /\
    (denied -> netlink_ok c' = true -> exists guid, extract c = Some guid /\
       netlink m3 = netlink m2 ++
         [heci_event_bytes (HeciEvent (u32 (cur_tgid c')) (u32 (cur_uid c')) 1 guid)]).
Proof.
  intros Hfree Hes denied. destruct (run_enter call c m) as (m1 & R1 & _ & I1).
  rewrite (proj2 (Nat.ltb_lt _ _)) in I1 by done.
  destruct (run_trace es m1 call Hes) as (m2 & R2 & I2).
  destruct (run_return call c' rax m2) as (m3 & R3 & _ & N3).
  rewrite I2, I1, lookup_insert_eq in R3, N3.
  exists m1, m2. eexists. exists m3. split_and!; [done..| | |].
  - intros Hd. rewrite decide_True; [done|]. unfold denied, verdict_on in Hd. unfold entry_data.
    by destruct (extract c).
  - intros Hd. assert (kd_policy (entry_data (strict_mkhi m) c) <> SMEI_DENY) as Hk.
    { unfold denied, verdict_on in Hd. unfold entry_data. by destruct (extract c). }
    rewrite decide_False in N3 by tauto. rewrite app_nil_r in N3. by rewrite decide_False.
  - intros Hd Hn. unfold denied, verdict_on in Hd. unfold entry_data in N3.
    destruct (extract c) as [guid|]; [|done]. exists guid. split; [done|].
    cbn [kd_policy kd_guid] in N3. by rewrite decide_True in N3.
Qed.

(** The number of hits of a trace with a property that depends on strict mode. *)
Fixpoint count_hits (f : Z -> mei_event -> bool) (strict : Z) (es : list mei_event) : Z :=
  match es with
  | [] => 0
  | e :: rest => Z.b2z (f strict e) + count_hits f (strict_after strict e) rest
  end.

Lemma bump_count b z k : u64 (bump b z + k) = u64 (z + (Z.b2z b + k)).
Proof.
  destruct b; cbn [bump Z.b2z].
  - rewrite u64_add_l. f_equal. lia.
  - f_equal.
Qed.

(** The telemetry counters are exact: after any sequence of probe hits they
    have grown by the number of sends, of denied sends and of logged sends, each
    judged by the mode in force at its entry (in 64 bits); every hit is handled,
    and the instances in use never exceed 16. *)
Theorem counters_exact es m :
  (size (instances m) <= MAXACTIVE)%nat ->
  is_u64 (mei_send_total m) -> is_u64 (mei_send_blocked m) -> is_u64 (mei_send_logged m) ->
  exists m', trace es m = Some (tt, m') /\ (size (instances m') <= MAXACTIVE)%nat /\
    mei_send_total m' = u64 (mei_send_total m + count_hits (fun _ => hit_sends) (strict_mkhi m) es) /\
    mei_send_blocked m' = u64 (mei_send_blocked m + count_hits (hit_verdict SMEI_DENY) (strict_mkhi m) es) /\
    mei_send_logged m' = u64 (mei_send_logged m + count_hits (hit_verdict SMEI_LOG_ONLY) (strict_mkhi m) es).
Proof.
  revert m. induction es as [|e es IH]; intros m Hs H1 H2 H3.
  { exists m. cbn [count_hits]. rewrite !Z.add_0_r, !u64_id by done. by split_and!. }
  destruct (run_hit e m) as (r & m1 & Hr & [E1 E2 E3 E4 E5 _]).
  assert (forall b z, is_u64 z -> is_u64 (bump b z)) as Hb by (intros [] z Hz; cbn; auto with vmi).
  destruct (IH m1) as (m' & Hr' & S' & T' & B' & L'); [auto|rewrite ?E2, ?E3, ?E4; by apply Hb..|].
  exists m'. cbn [mei_trace count_hits]. unfold mbind, M_bind. rewrite Hr.
  split_and!; [done|done|..].
  - by rewrite T', E2, E1, bump_count.
  - by rewrite B', E3, E1, bump_count.
  - by rewrite L', E4, E1, bump_count.
Qed.
End hook.

(** A context whose client is AMT Serial-Over-LAN, at kernel addresses. *)
Definition ctx_sol : probe_ctx :=
  ProbeCtx 0xFFFF888000001000 8
    (fun a n => if a =? 0xFFFF888000001400 then Some (le_encode 8 0xFFFF888000002000)
                else if a =? 0xFFFF888000002018
                then Some (GUID_INIT 0xFB3B192E 0xE714 0x44A4 [0x8B; 0x22; 0x55; 0x82; 0x23; 0xDE; 0x6F; 0xF4])
                else None)
    100 101 0 true true true.

Lemma interdiction_race_free_witness :
  exists m1 m2 m3,
    mei_hit 0x400 0xFFFF888000000000 (SendEnter 1 ctx_sol) (mei_boot 0 0) = Some (None, m1) /\
    mei_trace 0x400 0xFFFF888000000000 [SendEnter 2 ctx_sol; SetStrict 1] m1 = Some (tt, m2) /\
    mei_hit 0x400 0xFFFF888000000000 (SendReturn 1 ctx_sol 8) m2 = Some (Some EPERM_RETURN, m3).
Proof.
  destruct (interdiction_race_free 0x400 0xFFFF888000000000 1 ctx_sol ctx_sol 8
    [SendEnter 2 ctx_sol; SetStrict 1] (mei_boot 0 0)) as (m1 & m2 & r & m3 & H1 & H2 & H3 & H4 & _).
  - vm_compute. lia.
  - repeat constructor; discriminate.
  - exists m1, m2, m3. rewrite H4 in H3 by reflexivity. exact (conj H1 (conj H2 H3)).
Defined.

Lemma counters_exact_witness :
  exists m', mei_trace 0x400 0xFFFF888000000000 [SendEnter 1 ctx_sol; SendReturn 1 ctx_sol 8] (mei_boot 0 0)
    = Some (tt, m') /\ mei_send_blocked m' = 1.
Proof.
  destruct (counters_exact 0x400 0xFFFF888000000000 [SendEnter 1 ctx_sol; SendReturn 1 ctx_sol 8] (mei_boot 0 0))
    as (m' & H1 & _ & _ & H2 & _).
  - vm_compute. lia.
  - vm_compute. split; congruence.
  - vm_compute. split; congruence.
  - vm_compute. split; congruence.
  - exists m'. split; [exact H1|]. rewrite H2. reflexivity.
Defined.

(** ** The device behind the hook

    The probed function runs between entry and return.  A denied caller sees
    -EPERM, but the message has been handed to the device by then. *)
Definition probed_send {D} (off page call : Z) (c : probe_ctx) (send : D -> Z * D) (m : mei) (d : D)
  : option (Z * mei * D) :=
  match mei_hit off page (SendEnter call c) m with
  | Some (_, m1) =>
      let '(rax, d') := send d in
      match mei_hit off page (SendReturn call c rax) m1 with
      | Some (Some r, m2) => Some (r, m2, d')
      | _ => None
      end
  | None => None
  end.

Lemma denied_send_transmitted {D} off page call c (send : D -> Z * D) m d :
  (size (instances m) < MAXACTIVE)%nat -> verdict_on off page (strict_mkhi m) c = SMEI_DENY ->
  exists m', probed_send off page call c send m d = Some (EPERM_RETURN, m', (send d).2).
Proof.
  intros Hs Hd. unfold probed_send. destruct (run_enter off page call c m) as (m1 & R1 & _ & I1).
  rewrite (proj2 (Nat.ltb_lt _ _)) in I1 by done. rewrite R1. destruct (send d) as [rax d'].
  destruct (run_return off page call c rax m1) as (m2 & R2 & _). rewrite I1, lookup_insert_eq in R2.
  rewrite R2, decide_True; [by exists m2|].
  unfold verdict_on in Hd. unfold entry_data. by destruct (sentinel_mei_extract_guid _ _ c).
Qed.

(** ** The netlink event *)

(** How user space reads the 28 bytes. *)
Definition decode_heci_event (bs : list Z) : sentinel_heci_event :=
  HeciEvent (le_decode (take 4 bs)) (le_decode (take 4 (drop 4 bs))) (le_decode (take 4 (drop 8 bs)))
    (drop 12 bs).

Lemma heci_event_roundtrip e :
  is_u32 (he_pid e) -> is_u32 (he_uid e) -> is_u32 (he_action e) -> length (he_guid e) = 16%nat ->
  length (heci_event_bytes e) = 28%nat /\ decode_heci_event (heci_event_bytes e) = e.
Proof.
  intros H1 H2 H3 H4. destruct e as [p u a g]. unfold heci_event_bytes, decode_heci_event.
  cbn [he_pid he_uid he_action he_guid] in *. split; [rewrite !length_app, !length_le_encode; lia|].
  change 12%nat with (4 + (4 + 4))%nat. change 8%nat with (4 + 4)%nat. rewrite <- !drop_drop.
  rewrite !drop_app_length' by (by rewrite length_le_encode).
  rewrite !take_app_length' by (by rewrite length_le_encode).
  rewrite !le_decode_encode; [done|..]; unfold is_u32 in *; change (256 ^ Z.of_nat 4) with 4294967296; lia.
Qed.

(** ** Life cycle *)

(** Loading and unloading: the module loads (returns 0) exactly when the
    netlink family, the return probe and the send probe register, and then these
    are in place, with the receive probe when it registered; unloading removes
    them all.  A failure of the family or of the send probe leaves nothing
    registered; a failure of the return probe leaves the netlink family
    registered although the module is not loaded. *)
Theorem module_lifecycle genl krp kp_send kp_recv :
  exists ret r, sentinel_mei_init genl krp kp_send kp_recv unloaded = Some (ret, r) /\
    (ret = 0 <-> genl = 0 /\ 0 <= krp /\ 0 <= kp_send) /\
    (ret = 0 -> r = Registered true true true (0 <=? kp_recv) /\
       forall recv_addr, (0 <= kp_recv -> recv_addr = true) ->
         sentinel_mei_exit recv_addr r = Some (tt, unloaded)) /\
    (ret <> 0 -> r = if decide (genl = 0 /\ krp < 0) then Registered true false false false else unloaded).
Proof.
  unfold sentinel_mei_init, ENOENT, ENODEV. destruct (genl =? 0) eqn:E1; boolify; cbn [negb].
  2:{ eexists _, _. split; [reflexivity|]. split; [lia|]. split; [done|]. intros _. by rewrite decide_False by tauto. }
  unfold mbind, M_bind, modify. cbn beta iota. destruct (krp <? 0) eqn:E2; boolify.
  { eexists _, _. split; [reflexivity|]. split; [case_match; boolify; lia|].
    split; [intros H; case_match; boolify; lia|]. intros _. by rewrite decide_True by done. }
  cbn beta iota. destruct (kp_send <? 0) eqn:E3; boolify.
  { eexists _, _. split; [reflexivity|]. split; [lia|]. split; [lia|]. intros _. by rewrite decide_False by lia. }
  cbn beta iota. destruct (kp_recv <? 0) eqn:E4; boolify; (eexists _, _; split; [reflexivity|]);
    (split; [lia|]); (split; [|done]); intros _.
  - rewrite (proj2 (Z.leb_gt _ _)) by lia. split; [done|]. by intros [] _.
  - rewrite (proj2 (Z.leb_le _ _)) by lia. split; [done|]. intros ra Hra. by rewrite Hra.
Qed.
