(* ===== verification/MeiAttack.v ===== *)
(** * The live-fire test of the MEI hook (sentinel-smm/src/mei/mock_mei_attack.c)

    The program that tries to reach four clients of the management engine, and the
    short one at src/mock_mei_attack.c.  The driver's answers are arguments. *)

From S2P Require Import Prelude CStrings MeiHook MeiProofs.
From stdpp Require Import prelude gmap strings list.
From Stdlib Require Import ZArith Lia Ascii.
#[local] Open Scope Z_scope.

(** ** Clients *)

(** [UUID_LE] *)
Definition UUID_LE (a b c : Z) (d : list Z) : list Z := le_encode 4 a ++ le_encode 2 b ++ le_encode 2 c ++ d.

Definition AMT_REMOTE_CONTROL_GUID : list Z := UUID_LE 0x12F80028 0xB4B7 0x4B2D [0xAC; 0xA8; 0x46; 0xE0; 0xFF; 0x65; 0x81; 0x4C].
Definition AMT_SOL_GUID : list Z := UUID_LE 0xFB3B192E 0xE714 0x44A4 [0x8B; 0x22; 0x55; 0x82; 0x23; 0xDE; 0x6F; 0xF4].
Definition ICC_CLOCK_CONTROL_GUID : list Z := UUID_LE 0xF934D0F2 0x3E42 0x402E [0x8C; 0xDF; 0x73; 0x01; 0x02; 0xAA; 0x13; 0xD1].
Definition MKHI_GUID : list Z := UUID_LE 0x8E6A6715 0x9ABC 0x4043 [0x88; 0xEF; 0x9E; 0x39; 0xC6; 0xF6; 0x3E; 0x0F].

Record target_client := TargetClient { tc_name : string; tc_uuid : list Z; is_restricted : bool }.

Definition target_clients : list target_client :=
  [TargetClient "AMT Remote Control" AMT_REMOTE_CONTROL_GUID true;
   TargetClient "AMT Serial-Over-LAN" AMT_SOL_GUID true;
   TargetClient "ICC Clock Control" ICC_CLOCK_CONTROL_GUID true;
   TargetClient "MKHI Management" MKHI_GUID false].

(** [%02X] of a byte. *)
Definition hex_upper (d : Z) : ascii := ascii_of_nat (Z.to_nat (if d <? 10 then 48 + d else 55 + d)).
Definition fmt_02X (b : Z) : string := String (hex_upper (b / 16)) (String (hex_upper (b mod 16)) EmptyString).

(** The order of the bytes in the text. *)
Definition guid_order : list (option nat) :=
  [Some 3; Some 2; Some 1; Some 0; None; Some 5; Some 4; None; Some 7; Some 6; None; Some 8; Some 9; None;
   Some 10; Some 11; Some 12; Some 13; Some 14; Some 15]%nat.
Definition uuid_str (b : list Z) : string :=
  foldr (fun o s => match o with
                    | Some i => String.append (fmt_02X (default 0 (b !! i))) s
                    | None => String "-" s
                    end) EmptyString guid_order.

(** ** The run *)

(** Errors are numbers of errno; [inr] is the value of a call that succeeds. *)
Record mei_device := MeiDevice {
  dev_open : string -> Z + unit;
  dev_connect : list Z -> Z + Z;
  dev_write : list Z -> list Z -> Z + Z;
}.

Definition payload : list Z := [0xAA; 0x55; 0x01; 0x02; 0x03; 0x04; 0x05; 0x06].
Definition errno_EPERM : Z := 1.

Inductive attack_line :=
| ClientLine (name : string) (restricted : bool)
| GuidLine (text : string)
| OpenFailed (err : Z)
| Connecting
| IoctlFailed (err : Z)
| ConnectBlocked
| Connected (max_msg_length : Z)
| Writing
| WriteFailed (err : Z)
| WriteInterdicted
| WritePassed (bytes : Z).
#[global] Instance attack_line_eq_dec : EqDecision attack_line.
Proof. solve_decision. Defined.

Definition attack_client (d : mei_device) (path : string) (tc : target_client) : list attack_line :=
  [ClientLine (tc_name tc) (is_restricted tc); GuidLine (strncpyz 64 (uuid_str (tc_uuid tc)))] ++
  match dev_open d path with
  | inl err => [OpenFailed err]
  | inr _ =>
      [Connecting] ++
      match dev_connect d (tc_uuid tc) with
      | inl err => [IoctlFailed err] ++ (if err =? errno_EPERM then [ConnectBlocked] else [])
      | inr len =>
          [Connected len; Writing] ++
          match dev_write d (tc_uuid tc) payload with
          | inl err => [WriteFailed err] ++ (if err =? errno_EPERM then [WriteInterdicted] else [])
          | inr n => [WritePassed n]
          end
      end
  end.

Inductive attack_exit :=
| AttackUsage (code : Z)
| AttackDone (path : string) (out : list attack_line).

Fixpoint attack_args (args : list string) (path : string) : Z + string :=
  match args with
  | [] => inr path
  | a :: rest =>
      if streq a "-d" || streq a "--device" then
        match rest with
        | p :: rest' => attack_args rest' p
        | [] => inl 1
        end
      else if streq a "-h" || streq a "--help" then inl 0
      else inl 1
  end.

(** [main]; the status of a run to the end is 0. *)
Definition attack_main (args : list string) (d : mei_device) : attack_exit :=
  match attack_args args "/dev/mei0" with
  | inl code => AttackUsage code
  | inr path => AttackDone path (target_clients ≫= attack_client d path)
  end.
Definition attack_status (x : attack_exit) : Z := match x with AttackUsage code => code | AttackDone _ _ => 0 end.

(** ** The short test (src/mock_mei_attack.c) *)

Definition amt_guid : list Z :=
  [0x28; 0x00; 0xF8; 0x12; 0xB7; 0xB4; 0x2D; 0x4B; 0xAC; 0xA8; 0x46; 0xE0; 0xFF; 0x65; 0x81; 0x4C].

(** [None]: the device cannot be opened; otherwise whether the connection was
    refused with EPERM. *)
Definition mock_main (d : mei_device) : option bool :=
  match dev_open d "/dev/mei0" with
  | inl _ => None
  | inr _ => Some (match dev_connect d amt_guid with inl err => err =? errno_EPERM | inr _ => false end)
  end.

(** ** Properties *)

(** The table of the test is the table of the hook: the same identifiers in the same
    order, restricted where the hook denies. *)
Lemma targets_match_hook :
  (tc_uuid <$> target_clients) = (ge_guid <$> sentinel_mei_restricted_guids) /\
  Forall (fun tc => is_restricted tc = true <-> (sentinel_mei_lookup_guid 0 (tc_uuid tc)).1 = SMEI_DENY) target_clients /\
  Forall (fun tc => (sentinel_mei_lookup_guid 1 (tc_uuid tc)).1 = SMEI_DENY) target_clients /\
  amt_guid = AMT_REMOTE_CONTROL_GUID.
Proof. split; [done|]. split; [repeat constructor; by vm_compute|]. split; [repeat constructor|done]. Qed.

Example guid_text : uuid_str AMT_REMOTE_CONTROL_GUID = "12F80028-B4B7-4B2D-ACA8-46E0FF65814C"%string.
Proof. by vm_compute. Qed.

(** ** Behind the hook *)

Section hooked.
Context (ME_CL_OFFSET PAGE_OFFSET cldev me_cl : Z).

(** The kernel's memory at a send: the device points to its client, which has the
    identifier. *)
Definition send_ctx (guid : list Z) (len : Z) : probe_ctx :=
  ProbeCtx cldev len
    (fun a n => if a =? u64 (cldev + ME_CL_OFFSET) then Some (le_encode 8 me_cl)
                else if a =? u64 (me_cl + MEI_ME_CLIENT_GUID_OFFSET) then Some guid else None)
    500 500 0 true true true.

(** A send of [len] bytes that the driver accepts, with the probes around it. *)
Definition hooked_send (guid : list Z) (len : Z) : M mei (Z + Z) :=
  _ ← mei_hit ME_CL_OFFSET PAGE_OFFSET (SendEnter 0 (send_ctx guid len));
  r ← mei_hit ME_CL_OFFSET PAGE_OFFSET (SendReturn 0 (send_ctx guid len) len);
  mret (match r with
        | Some v => if v =? EPERM_RETURN then inl errno_EPERM else inr v
        | None => inr len
        end).

(** The device behind the hook in state [m]: connections are not intercepted. *)
Definition hooked_device (m : mei) : mei_device :=
  MeiDevice (fun _ => inr tt) (fun _ => inr 512)
    (fun guid p => match hooked_send guid (Z.of_nat (length p)) m with Some (r, _) => r | None => inl 0 end).

Context (Hcldev : 0 < cldev < 18446744073709551616) (Hcl : PAGE_OFFSET <= me_cl < 18446744073709551616) (Hpos : 0 < me_cl).
Context (Hdis : u64 (cldev + ME_CL_OFFSET) <> u64 (me_cl + MEI_ME_CLIENT_GUID_OFFSET)).

Lemma extract_sent guid len : sentinel_mei_extract_guid ME_CL_OFFSET PAGE_OFFSET (send_ctx guid len) = Some guid.
Proof.
  unfold sentinel_mei_extract_guid. cbn [send_ctx arg0 copy_from_kernel_nofault].
  rewrite (proj2 (Z.eqb_neq cldev 0)), Z.eqb_refl by lia. rewrite le_decode_encode by (change (256 ^ Z.of_nat 8) with 18446744073709551616; lia).
  rewrite (proj2 (Z.eqb_neq me_cl 0)), (proj2 (Z.ltb_ge me_cl PAGE_OFFSET)) by lia. cbn [orb].
  rewrite (proj2 (Z.eqb_neq _ _)), Z.eqb_refl; [done|]. congruence.
Qed.

(** A send is answered with EPERM if and only if the policy denies its client. *)
Lemma hooked_send_exact guid len m :
  (size (instances m) < MAXACTIVE)%nat -> 0 <= len < 4294967296 ->
  exists m', hooked_send guid len m =
    Some (if decide (guid_policy (strict_mkhi m) guid = SMEI_DENY) then inl errno_EPERM else inr len, m').
Proof.
  intros Hsz Hlen. unfold hooked_send, mbind, M_bind.
  destruct (run_enter ME_CL_OFFSET PAGE_OFFSET 0 (send_ctx guid len) m) as (m1 & -> & _ & Hi).
  rewrite (proj2 (Nat.ltb_lt _ _) Hsz) in Hi.
  destruct (run_return ME_CL_OFFSET PAGE_OFFSET 0 (send_ctx guid len) len m1) as (m2 & -> & _).
  rewrite Hi, lookup_insert_eq. unfold entry_data. rewrite extract_sent. cbn [kd_policy].
  exists m2. unfold mret, M_ret. destruct (decide _); [done|].
  rewrite (proj2 (Z.eqb_neq len EPERM_RETURN)); [done|]. unfold EPERM_RETURN. ulia.
Qed.

(** The test behind the hook: with a free instance of the return probe, the test
    reports an interdicted write for exactly the clients that the policy denies, and
    for the others a write of all its bytes; its marks for restricted clients are
    those of the policy unless strict mode adds MKHI. *)
Theorem live_fire_exact m path tc :
  (size (instances m) < MAXACTIVE)%nat -> tc ∈ target_clients ->
  last (attack_client (hooked_device m) path tc) =
    Some (if decide (guid_policy (strict_mkhi m) (tc_uuid tc) = SMEI_DENY) then WriteInterdicted else WritePassed 8) /\
  (is_restricted tc = true -> guid_policy (strict_mkhi m) (tc_uuid tc) = SMEI_DENY) /\
  (strict_mkhi m = 0 -> guid_policy (strict_mkhi m) (tc_uuid tc) = SMEI_DENY -> is_restricted tc = true).
Proof.
  intros Hsz Htc. unfold attack_client, hooked_device. cbn [dev_open dev_connect dev_write].
  change (Z.of_nat (length payload)) with 8. destruct (hooked_send_exact (tc_uuid tc) 8 m Hsz ltac:(lia)) as [m' ->]. split.
  - by destruct (decide _).
  - clear Hsz. rewrite <- !lookup_guid_policy.
    repeat (apply elem_of_cons in Htc as [->|Htc]; [split; [done|]; intros Hs; rewrite ?Hs; by vm_compute|]).
    by apply not_elem_of_nil in Htc.
Qed.
End hooked.

(** The status is 0 whatever the device answers, so a bypass is not an error of the
    test; and a test of the connection alone reports a bypass behind the hook. *)
Lemma live_fire_status args d : (forall code, attack_args args "/dev/mei0" <> inl code) -> attack_status (attack_main args d) = 0.
Proof. intros H. unfold attack_main. destruct (attack_args _ _) as [code|]; [by destruct (H code)|done]. Qed.

Example connect_test_fails : mock_main (hooked_device 0 0 0x1000 0x2000 (mei_boot 0 0)) = Some false.
Proof. done. Qed.

Lemma live_fire_exact_witness :
  last (attack_client (hooked_device 8 0x1000 0x5000 0x6000 (mei_boot 0 0)) "/dev/mei0"
    (TargetClient "AMT Serial-Over-LAN" AMT_SOL_GUID true)) = Some WriteInterdicted.
Proof.
  destruct (live_fire_exact 8 0x1000 0x5000 0x6000 ltac:(lia) ltac:(lia) ltac:(lia) ltac:(by vm_compute) (mei_boot 0 0) "/dev/mei0"
    (TargetClient "AMT Serial-Over-LAN" AMT_SOL_GUID true)) as [H _].
  - change (0 < 16)%nat. lia.
  - right. left.
  - exact H.
Defined.
