(* ===== verification/MeDisable.v ===== *)
(** * The soft-disable tool (sentinel_me_disable.c, sentinel_bootguard_check.c)

    The pre-flight check of Boot Guard and the tool that asks the management
    engine to disable itself.  The operating system is a class of operations;
    console output is not modelled. *)

From S2P Require Import Prelude CStrings BitFields HostOS.
From stdpp Require Import prelude strings list.
From Stdlib Require Import ZArith Lia.
#[local] Open Scope Z_scope.

Class MeHost (W : Type) := {
  geteuid : W -> Z;
  me_open : string -> W -> sysret Z * W;
  me_lseek : Z -> Z -> W -> sysret unit * W;
  me_read : Z -> nat -> W -> sysret (list Z) * W;
  me_write : Z -> list Z -> W -> sysret Z * W;
  me_close : Z -> W -> W;
  mei_connect_client : Z -> list Z -> W -> sysret unit * W;
}.

(** ** sentinel_bootguard_check.c *)

Definition MSR_BOOT_GUARD_SACM_INFO : Z := 0x13A.
Definition B_BOOT_GUARD_NEM_ENABLED : Z := 1.
Definition B_BOOT_GUARD_MEASURED_BOOT : Z := 2.
Definition B_BOOT_GUARD_VERIFIED_BOOT : Z := 4.
Definition B_BOOT_GUARD_ENABLE : Z := 16.

(** The decision on the value of the register. *)
Definition bootguard_verdict (msr_val : Z) : bool :=
  if Z.land msr_val B_BOOT_GUARD_NEM_ENABLED =? 0 then false
  else if Z.land msr_val B_BOOT_GUARD_ENABLE =? 0 then false
  else if negb (Z.land msr_val B_BOOT_GUARD_VERIFIED_BOOT =? 0) then true
  else if negb (Z.land msr_val B_BOOT_GUARD_MEASURED_BOOT =? 0) then false
  else false.

Definition sentinel_bootguard_is_verified_boot_active {W} `{MH : MeHost W} : M W bool :=
  uid ← gets geteuid;
  if negb (uid =? 0) then mret false
  else
    r ← lift (me_open "/dev/cpu/0/msr"%string);
    match r with
    | SysErr _ => mret true
    | SysOk fd =>
        k ← lift (me_lseek fd MSR_BOOT_GUARD_SACM_INFO);
        match k with
        | SysErr _ => _ ← modify (me_close fd); mret true
        | SysOk _ =>
            b ← lift (me_read fd 8);
            _ ← modify (me_close fd);
            match b with
            | SysErr _ => mret true
            | SysOk bs =>
                if negb (length bs =? 8)%nat then mret true
                else mret (bootguard_verdict (le_decode bs))
            end
        end
    end.

(** ** sentinel_me_disable.c *)

(** [struct mkhi_header] *)
Definition mkhi_group_id := Bitfield 0 8.
Definition mkhi_command := Bitfield 8 7.
Definition mkhi_is_response := Bitfield 15 1.
Definition mkhi_reserved := Bitfield 16 8.
Definition mkhi_result := Bitfield 24 8.

Definition MKHI_GROUP_GEN : Z := 0x03.
Definition MKHI_GEN_CMD_ME_DISABLE : Z := 0x05.

(** [UUID_LE] of the MKHI client. *)
Definition MKHI_UUID : list Z :=
  le_encode 4 0x8E6A6715 ++ le_encode 2 0x9ABC ++ le_encode 2 0x4043 ++
  [0x88; 0xEF; 0x9E; 0x39; 0xC6; 0xF6; 0x3E; 0x0F].

Definition me_disable_request : list Z :=
  le_encode 4 (set_field mkhi_is_response 0
    (set_field mkhi_command MKHI_GEN_CMD_ME_DISABLE (set_field mkhi_group_id MKHI_GROUP_GEN 0))).

Definition EXIT_SUCCESS : Z := 0.
Definition EXIT_FAILURE : Z := 1.

(** Phase 3 on an open connection: the request and the response; whether the
    engine acknowledged only chooses the message that is printed. *)
Definition transmit_disable {W} `{MH : MeHost W} (fd : Z) : M W Z :=
  r ← lift (me_write fd me_disable_request);
  match r with
  | SysErr _ => _ ← modify (me_close fd); mret EXIT_FAILURE
  | SysOk _ =>
      b ← lift (me_read fd 4);
      match b with
      | SysErr _ => _ ← modify (me_close fd); mret EXIT_FAILURE
      | SysOk bs =>
          if (length bs <? 4)%nat then _ ← modify (me_close fd); mret EXIT_FAILURE
          else _ ← modify (me_close fd); mret EXIT_SUCCESS
      end
  end.

Definition me_disable_main {W} `{MH : MeHost W} (argv : list string) : M W Z :=
  match argv !! 1%nat with
  | None => mret EXIT_FAILURE
  | Some a =>
      if streq a "--enable-me-disable"%string then
        uid ← gets geteuid;
        if negb (uid =? 0) then mret EXIT_FAILURE
        else
          active ← sentinel_bootguard_is_verified_boot_active;
          if active : bool then mret EXIT_FAILURE
          else
            r ← lift (me_open "/dev/mei0"%string);
            match r with
            | SysErr _ => mret EXIT_FAILURE
            | SysOk fd =>
                k ← lift (mei_connect_client fd MKHI_UUID);
                match k with
                | SysErr _ => _ ← modify (me_close fd); mret EXIT_FAILURE
                | SysOk _ => transmit_disable fd
                end
            end
      else if streq a "-h"%string || streq a "--help"%string then mret EXIT_SUCCESS
      else mret EXIT_FAILURE
  end.

(** ** Safety of the tool *)

(** What the theorems need of the host: only a write delivers a message, and
    reading the register device yields the register. *)
Class MeLaws (W : Type) `{MH : MeHost W} := {
  sent : W -> list (list Z);
  msr : W -> Z;
  msr_u64 w : is_u64 (msr w);
  open_keeps p w : sent (me_open p w).2 = sent w /\ msr (me_open p w).2 = msr w;
  lseek_keeps fd o w : sent (me_lseek fd o w).2 = sent w /\ msr (me_lseek fd o w).2 = msr w;
  read_keeps fd n w : sent (me_read fd n w).2 = sent w;
  close_keeps fd w : sent (me_close fd w) = sent w;
  connect_keeps fd u w : sent (mei_connect_client fd u w).2 = sent w;
  write_sends fd bs w : sent (me_write fd bs w).2 = sent w \/ sent (me_write fd bs w).2 = sent w ++ [bs];
  write_ok fd bs w n : (me_write fd bs w).1 = SysOk n -> sent (me_write fd bs w).2 = sent w ++ [bs];
  msr_device fd w w1 w2 bs w3 :
    me_open "/dev/cpu/0/msr"%string w = (SysOk fd, w1) ->
    me_lseek fd MSR_BOOT_GUARD_SACM_INFO w1 = (SysOk tt, w2) ->
    me_read fd 8 w2 = (SysOk bs, w3) -> length bs = 8%nat -> bs = le_encode 8 (msr w);
}.

(** Verified boot is in force: capable, enabled and verifying. *)
Definition verified_boot (m : Z) : bool := Z.testbit m 0 && Z.testbit m 4 && Z.testbit m 2.

Lemma bootguard_verdict_spec m : bootguard_verdict m = verified_boot m.
Proof.
  unfold bootguard_verdict, verified_boot.
  change B_BOOT_GUARD_NEM_ENABLED with (2 ^ 0). change B_BOOT_GUARD_ENABLE with (2 ^ 4).
  change B_BOOT_GUARD_VERIFIED_BOOT with (2 ^ 2). rewrite !land_bit_zero by done.
  destruct (Z.testbit m 0), (Z.testbit m 4), (Z.testbit m 2); try done; cbn [negb andb]; by case_match.
Qed.

Section laws.
Context {W : Type} `{ML : MeLaws W}.
Implicit Types (w : W).

Lemma bootguard_spec w :
  wp sentinel_bootguard_is_verified_boot_active w (fun b w' =>
    sent w' = sent w /\ (b = false -> geteuid w = 0 -> verified_boot (msr w) = false)).
Proof.
  unfold sentinel_bootguard_is_verified_boot_active. do 2 wp_step.
  destruct (geteuid w =? 0) eqn:E0; cbn [negb]; boolify; [|wp_step; split; [done|congruence]].
  do 2 wp_step. pose proof (open_keeps "/dev/cpu/0/msr"%string w) as [K1 _].
  destruct (me_open "/dev/cpu/0/msr"%string w) as [[fd|?] w1] eqn:E1; cbn [fst snd] in *; [|by wp_step].
  do 2 wp_step. pose proof (lseek_keeps fd MSR_BOOT_GUARD_SACM_INFO w1) as [K2 _].
  destruct (me_lseek fd MSR_BOOT_GUARD_SACM_INFO w1) as [[[]|?] w2] eqn:E2; cbn [fst snd] in *;
    [|do 3 wp_step; split; [by rewrite close_keeps, K2|done]].
  do 4 wp_step. pose proof (read_keeps fd 8 w2) as K3.
  destruct (me_read fd 8 w2) as [[bs|?] w3] eqn:E3; cbn [fst snd] in *;
    [|wp_step; split; [by rewrite close_keeps, K3, K2|done]].
  destruct (length bs =? 8)%nat eqn:E4; cbn [negb]; boolify; wp_step;
    (split; [by rewrite close_keeps, K3, K2|]); [|done].
  intros Hb _. rewrite bootguard_verdict_spec in Hb.
  rewrite (msr_device fd w w1 w2 bs w3) in Hb by done.
  rewrite le_decode_encode in Hb; [done|]. pose proof (msr_u64 w). unfold is_u64 in *.
  change (256 ^ Z.of_nat 8) with 18446744073709551616. lia.
Qed.

Lemma transmit_spec fd w :
  wp (transmit_disable fd) w (fun code w' =>
    (sent w' = sent w \/ sent w' = sent w ++ [me_disable_request]) /\
    (code = EXIT_SUCCESS -> sent w' = sent w ++ [me_disable_request])).
Proof.
  unfold transmit_disable. do 2 wp_step.
  pose proof (write_sends fd me_disable_request w) as Hs. pose proof (write_ok fd me_disable_request w) as Hok.
  destruct (me_write fd me_disable_request w) as [[n|?] w1]; cbn [fst snd] in *;
    [|do 3 wp_step; rewrite close_keeps; done].
  specialize (Hok n eq_refl). do 2 wp_step. pose proof (read_keeps fd 4 w1) as K.
  destruct (me_read fd 4 w1) as [[bs|?] w2]; cbn [fst snd] in *.
  - wp_step; do 3 wp_step; rewrite close_keeps, K; auto.
  - do 3 wp_step. rewrite close_keeps, K. auto.
Qed.

(** C31. The soft-disable tool is safe against bricking: it always finishes, and
    it sends the engine nothing, or exactly the disable command (03 05 00 00), and
    that only when it was asked to by its flag, runs as root, and the register
    of Boot Guard does not show verified boot in force; it exits with success
    only after the command was sent or for the help text. *)
Theorem disable_only_when_safe argv w :
  exists code w', me_disable_main argv w = Some (code, w') /\
    (sent w' = sent w \/
     (sent w' = sent w ++ [[0x03; 0x05; 0; 0]] /\ argv !! 1%nat = Some "--enable-me-disable"%string /\
      geteuid w = 0 /\ verified_boot (msr w) = false)) /\
    (code = EXIT_SUCCESS -> argv !! 1%nat = Some "--enable-me-disable"%string ->
       sent w' = sent w ++ [[0x03; 0x05; 0; 0]]).
Proof.
  change [0x03; 0x05; 0; 0] with me_disable_request.
  change (wp (me_disable_main argv) w (fun code w' =>
    (sent w' = sent w \/
     (sent w' = sent w ++ [me_disable_request] /\ argv !! 1%nat = Some "--enable-me-disable"%string /\
      geteuid w = 0 /\ verified_boot (msr w) = false)) /\
    (code = EXIT_SUCCESS -> argv !! 1%nat = Some "--enable-me-disable"%string ->
       sent w' = sent w ++ [me_disable_request]))).
  unfold me_disable_main. destruct (argv !! 1%nat) as [a|]; [|wp_step; split; [auto|done]].
  destruct (streq a "--enable-me-disable") eqn:Ea.
  2:{ apply streq_neq in Ea. wp_step; wp_step; (split; [auto|]); [congruence|done]. }
  apply streq_eq in Ea as ->. do 2 wp_step. destruct (geteuid w =? 0) eqn:Eu; cbn [negb]; boolify;
    [|wp_step; split; [auto|done]].
  wp_step. eapply wp_mono; [apply bootguard_spec|]. intros [] w1 [K1 Hv]; [wp_step; split; [auto|done]|].
  specialize (Hv eq_refl Eu). do 2 wp_step. pose proof (open_keeps "/dev/mei0"%string w1) as [K2 _].
  destruct (me_open "/dev/mei0"%string w1) as [[fd|?] w2]; cbn [fst snd] in *;
    [|wp_step; split; [left; congruence|done]].
  do 2 wp_step. pose proof (connect_keeps fd MKHI_UUID w2) as K3.
  destruct (mei_connect_client fd MKHI_UUID w2) as [[[]|?] w3]; cbn [fst snd] in *.
  - eapply wp_mono; [apply transmit_spec|]. intros code w4 [Hs Hc].
    rewrite K3, K2, K1 in Hs, Hc. split; [|auto]. destruct Hs; [by left|by right].
  - do 3 wp_step. rewrite close_keeps. split; [left; congruence|done].
Qed.
End laws.

(** ** A concrete host: the register, the effective user and the messages *)

Record me_mock := MeMock { mm_msr : Z; mm_uid : Z; mm_sent : list (list Z) }.

#[global] Instance me_mock_host : MeHost me_mock := {|
  geteuid := mm_uid;
  me_open p w := (SysOk (if streq p "/dev/mei0" then 4 else 3), w);
  me_lseek _ _ w := (SysOk tt, w);
  me_read fd n w := (SysOk (if fd =? 3 then le_encode 8 (u64 (mm_msr w)) else [3; 0x85; 0; 0]), w);
  me_write _ bs w := (SysOk (Z.of_nat (length bs)), MeMock (mm_msr w) (mm_uid w) (mm_sent w ++ [bs]));
  me_close _ w := w;
  mei_connect_client _ _ w := (SysOk tt, w);
|}.

#[global] Program Instance me_mock_laws : MeLaws me_mock := {| sent := mm_sent; msr w := u64 (mm_msr w) |}.
Next Obligation. intros w. apply u64_is_u64. Qed.
Next Obligation. done. Qed.
Next Obligation. done. Qed.
Next Obligation. done. Qed.
Next Obligation. done. Qed.
Next Obligation. done. Qed.
Next Obligation. intros fd bs w. by right. Qed.
Next Obligation. done. Qed.
Next Obligation. intros fd w w1 w2 bs w3 [= <- <-] [= <-] [= <- <-] _. done. Qed.

(** Measured boot only: the command goes out; verified boot: nothing does. *)
Lemma disable_only_when_safe_witness :
  (exists w', me_disable_main ["me"; "--enable-me-disable"]%string (MeMock 0x13 0 []) = Some (EXIT_SUCCESS, w') /\
    sent w' = [[0x03; 0x05; 0; 0]]) /\
  exists code w', me_disable_main ["me"; "--enable-me-disable"]%string (MeMock 0x15 0 []) = Some (code, w') /\
    sent w' = [].
Proof.
  split.
  - destruct (disable_only_when_safe ["me"; "--enable-me-disable"]%string (MeMock 0x13 0 []))
      as (code & w' & H1 & _ & H2).
    assert (code = EXIT_SUCCESS) as -> by (vm_compute in H1; injection H1 as <- _; reflexivity).
    exists w'. split; [exact H1|]. apply H2; reflexivity.
  - destruct (disable_only_when_safe ["me"; "--enable-me-disable"]%string (MeMock 0x15 0 []))
      as (code & w' & H1 & [H2|(_ & _ & _ & H2)] & _).
    + exists code, w'. split; [exact H1|exact H2].
    + vm_compute in H2. congruence.
Defined.
