(* ===== verification/CompilerPass.v ===== *)
(** * The compiler pass (compiler/SentinelPass.cpp)

    The pass turns the markers of an intent into instructions: the load of its
    entry in the table [.tca_got] and [tca_set_intent] at the start, [tca_clear]
    where its scope ends.

    A module is the part of LLVM's intermediate code that the pass looks at:
    functions with their blocks, the first of which is the entry, and calls of the
    two markers with the identity of the instruction.  The dominator tree and the
    dominance frontier are analyses of LLVM, hence a class; they depend on the
    control-flow graph only, which the pass does not change. *)

From S2P Require Import Prelude.
From stdpp Require Import prelude list.
From Stdlib Require Import ZArith Lia.
#[local] Open Scope Z_scope.

(** ** Intermediate code *)

(** [SetIntent k] stands for the instructions that load entry [k] of the table and
    call [tca_set_intent] with it; [IntentStart] and [IntentEnd] are calls of
    llvm.telos.intent.start and llvm.telos.intent.end. *)
Inductive op :=
| IntentStart (id : nat)
| IntentEnd
| SetIntent (slot : nat)
| TcaClear
| Phi (id : nat)
| OtherInst (id : nat).
#[global] Instance op_eq_dec : EqDecision op.
Proof. solve_decision. Defined.

Inductive terminator :=
| Branch (succs : list nat)
| ReturnInst
| ResumeInst
| Unreachable.

Record basic_block := BasicBlock { bb_insts : list op; bb_term : terminator }.

(** A declaration has no blocks. *)
Notation func := (list basic_block).
Notation ir_module := (list (list basic_block)).

Definition succs_of (b : basic_block) : list nat :=
  match bb_term b with Branch l => l | _ => [] end.
Definition cfg_of (f : func) : list (list nat) := succs_of <$> f.

Definition is_exit (t : terminator) : bool :=
  match t with ReturnInst | ResumeInst => true | _ => false end.

(** The blocks below a block in the dominator tree, [None] when it has no node;
    and its dominance frontier. *)
Class Analyses := {
  dom_subtree : list (list nat) -> nat -> option (list nat);
  dom_frontier : list (list nat) -> nat -> list nat;
}.

(** ** Collecting the intents *)

Definition Z3Hash : Z := 0x89ABCDEF.

Record intent_info := IntentInfo { in_func : nat; in_block : nat; in_start : nat; in_hash : Z }.

Definition block_intents (fi bi : nat) (b : basic_block) : list intent_info :=
  omap (fun o => match o with IntentStart id => Some (IntentInfo fi bi id Z3Hash) | _ => None end) (bb_insts b).
Definition func_intents (fi : nat) (f : func) : list intent_info :=
  concat (imap (block_intents fi) f).
Definition collect (m : ir_module) : list intent_info := concat (imap func_intents m).

(** The table: the hash in the upper half, the marker in the lower. *)
Definition got_value (i : intent_info) : Z := Z.lor (u64 (Z.shiftl (in_hash i) 32)) 0x7CA.
Definition tca_got (intents : list intent_info) : list Z := got_value <$> intents.

(** ** Injection *)

(** Before the call with the identity [id]. *)
Fixpoint insert_before (id : nat) (o : op) (l : list op) : list op :=
  match l with
  | [] => []
  | x :: rest => if bool_decide (x = IntentStart id) then o :: x :: rest else x :: insert_before id o rest
  end.

Fixpoint erase (id : nat) (l : list op) : list op :=
  match l with
  | [] => []
  | x :: rest => if bool_decide (x = IntentStart id) then rest else x :: erase id rest
  end.

Definition on_insts (g : list op -> list op) (b : basic_block) : basic_block :=
  BasicBlock (g (bb_insts b)) (bb_term b).

(** [tca_clear] before the first instruction of a block, and before its
    terminator. *)
Definition clear_front : basic_block -> basic_block := on_insts (cons TcaClear).
Definition clear_term (b : basic_block) : basic_block :=
  if is_exit (bb_term b) then on_insts (fun l => l ++ [TcaClear]) b else b.

Definition clear_fronts (blocks : list nat) (f : func) : func := fold_left (fun f b => alter clear_front b f) blocks f.
Definition clear_terms (blocks : list nat) (f : func) : func := fold_left (fun f b => alter clear_term b f) blocks f.

Section pass.
Context `{A : Analyses}.

(** One intent, with slot [k]. *)
Definition inject_func (k : nat) (i : intent_info) (f : func) : option func :=
  let g := cfg_of f in
  match dom_subtree g (in_block i) with
  | None => None
  | Some dominated =>
      let f1 := alter (on_insts (insert_before (in_start i) (SetIntent k))) (in_block i) f in
      let f2 := clear_terms dominated (clear_fronts (dom_frontier g (in_block i)) f1) in
      Some (alter (on_insts (erase (in_start i))) (in_block i) f2)
  end.

Definition inject (k : nat) (i : intent_info) (m : ir_module) : option ir_module :=
  match m !! in_func i with
  | None => Some m
  | Some f => match inject_func k i f with
              | None => None
              | Some f' => Some (<[in_func i := f']> m)
              end
  end.

Fixpoint inject_all (k : nat) (intents : list intent_info) (m : ir_module) : option ir_module :=
  match intents with
  | [] => Some m
  | i :: rest => match inject k i m with None => None | Some m' => inject_all (S k) rest m' end
  end.

(** Calls of the end marker that the frontend has left. *)
Definition clean_end (o : op) : op := match o with IntentEnd => TcaClear | _ => o end.
Definition clean_ends (f : func) : func := on_insts (map clean_end) <$> f.

(** [run]: the module and the table afterwards; [None] is a crash of the pass.
    A module without intents is left as it is. *)
Definition sentinel_pass (m : ir_module) : option (ir_module * list Z) :=
  match collect m with
  | [] => Some (m, [])
  | intents =>
      match inject_all 0 intents m with
      | None => None
      | Some m' => Some (clean_ends <$> m', tca_got intents)
      end
  end.
End pass.

(** ** What the instructions do

    The intent that is in force after a sequence of instructions: the two
    intrinsics set and clear it.  Another instruction leaves it alone, unless it is a
    call that enters instrumented code with an intent of its own: such a function
    returns with none in force.  [drops] tells which instructions do so. *)
Definition exec_op (drops : nat -> bool) (active : option nat) (o : op) : option nat :=
  match o with
  | SetIntent k => Some k
  | TcaClear => None
  | OtherInst id => if drops id then None else active
  | _ => active
  end.
Definition exec_ops (drops : nat -> bool) (l : list op) (active : option nat) : option nat :=
  fold_left (exec_op drops) l active.

Definition insts_at (f : func) (b : nat) : list op := default [] (bb_insts <$> f !! b).

(** After the blocks of a walk, which has its last block first; and before
    instruction [j] of its last block.  What a call does may differ each time it is
    reached, so [drops] depends on the walk.  The function is entered with no intent. *)
Fixpoint active_after (drops : list nat -> nat -> bool) (f : func) (p : list nat) : option nat :=
  match p with
  | [] => None
  | b :: rest => exec_ops (drops p) (insts_at f b) (active_after drops f rest)
  end.
Definition active_at (drops : list nat -> nat -> bool) (f : func) (b : nat) (p : list nat) (j : nat) : option nat :=
  exec_ops (drops (b :: p)) (take j (insts_at f b)) (active_after drops f p).

(** ** The graph *)

Definition edge (g : list (list nat)) (a b : nat) : Prop := exists l, g !! a = Some l /\ b ∈ l.

(** A path from the entry, with its last block first. *)
Inductive walks (g : list (list nat)) : list nat -> Prop :=
| walks_entry : (0 < length g)%nat -> walks g [0%nat]
| walks_step a p b : walks g (a :: p) -> edge g a b -> walks g (b :: a :: p).

Definition reachable (g : list (list nat)) (b : nat) : Prop := exists p, walks g (b :: p).
Definition dominates (g : list (list nat)) (a b : nat) : Prop := forall p, walks g (b :: p) -> a ∈ b :: p.
Definition sdom (g : list (list nat)) (a b : nat) : Prop := a <> b /\ dominates g a b.

(** Branches lead to blocks of the function. *)
Definition cfg_wf (g : list (list nat)) : Prop := Forall (Forall (fun b => b < length g)%nat) g.

(** What LLVM documents of the analyses. *)
Class AnalysesLaws `{A : Analyses} := {
  subtree_nodes g b l : cfg_wf g -> dom_subtree g b = Some l ->
    NoDup l /\ forall x, x ∈ l <-> reachable g x /\ dominates g b x;
  subtree_root g b : cfg_wf g -> is_Some (dom_subtree g b) <-> reachable g b;
  frontier_blocks g b : cfg_wf g -> reachable g b ->
    NoDup (dom_frontier g b) /\
    forall y, y ∈ dom_frontier g b <-> exists p, reachable g p /\ dominates g b p /\ edge g p y /\ ~ sdom g b y;
}.
