(* ===== verification/CompilerPassProofs.v ===== *)
(** * Theorems about the compiler pass

    The closed form of the instrumented blocks, the scope of an intent, and what
    the pass keeps of the code. *)

From S2P Require Import Prelude CompilerPass.
From stdpp Require Import prelude list.
From Stdlib Require Import ZArith Lia.
#[local] Open Scope nat_scope.

(** ** Walks *)

Lemma walks_head g b p : walks g (b :: p) -> p <> [] -> exists a q, p = a :: q /\ walks g p /\ edge g a b.
Proof. inversion 1; subst; [done|]. intros _. eauto. Qed.

Lemma walks_reachable g b p : walks g (b :: p) -> reachable g b.
Proof. intros H. by exists p. Qed.

Lemma reachable_edge g a b : reachable g a -> edge g a b -> reachable g b.
Proof. intros [p Hp] He. exists (a :: p). by constructor. Qed.

Lemma dominates_refl g a : dominates g a a.
Proof. intros p _. left. Qed.

(** A strict dominator of a block dominates its predecessors. *)
Lemma sdom_pred g s a b : sdom g s b -> edge g a b -> dominates g s a.
Proof.
  intros [Hn Hd] He p Hp. specialize (Hd (a :: p) (walks_step _ _ _ _ Hp He)).
  apply elem_of_cons in Hd as [?|?]; [done|done].
Qed.

Lemma sdom_entry g s : (0 < length g) -> ~ sdom g s 0.
Proof. intros Hl [Hn Hd]. specialize (Hd [] (walks_entry _ Hl)). set_solver. Qed.

(** ** One injection *)

Definition starts (l : list op) : list nat := omap (fun o => match o with IntentStart id => Some id | _ => None end) l.
Definition subst_start (id k : nat) (o : op) : op := if bool_decide (o = IntentStart id) then SetIntent k else o.

Lemma elem_of_starts id l : id ∈ starts l <-> IntentStart id ∈ l.
Proof.
  unfold starts. rewrite list_elem_of_omap. split.
  - intros (o & Ho & E). destruct o; by simplify_eq.
  - intros H. by exists (IntentStart id).
Qed.

Lemma starts_cons o l :
  starts (o :: l) = match o with IntentStart id => id :: starts l | _ => starts l end.
Proof. by destruct o. Qed.

Lemma subst_start_absent id k l : id ∉ starts l -> map (subst_start id k) l = l.
Proof.
  rewrite elem_of_starts. induction l as [|o l IH]; [done|]. intros H. cbn. unfold subst_start at 1.
  rewrite bool_decide_false by set_solver. f_equal. apply IH. set_solver.
Qed.

(** Inserting before the start and erasing it replaces it. *)
Lemma erase_insert_before id k l :
  NoDup (starts l) -> erase id (insert_before id (SetIntent k) l) = map (subst_start id k) l.
Proof.
  induction l as [|o l IH]; [done|]. rewrite starts_cons. intros Hn. cbn [insert_before map]. unfold subst_start at 1.
  destruct (decide (o = IntentStart id)) as [->|E].
  - rewrite !bool_decide_true by done. cbn [erase]. rewrite bool_decide_false, bool_decide_true by done.
    apply NoDup_cons in Hn as [Hn _]. by rewrite subst_start_absent.
  - rewrite !bool_decide_false by done. cbn [erase]. rewrite bool_decide_false by done. f_equal. apply IH.
    destruct o; cbn in Hn |- *; try exact Hn. by apply NoDup_cons in Hn as [_ ?].
Qed.

Lemma erase_app_clear id l : erase id (l ++ [TcaClear]) = erase id l ++ [TcaClear].
Proof. induction l as [|o l IH]; [done|]. cbn. case_bool_decide; [done|]. cbn. by rewrite IH. Qed.

(** Folding one update per block over distinct blocks. *)
Lemma fold_alter_lookup {B} (g : B -> B) l (f : list B) x :
  NoDup l -> fold_left (fun f b => alter g b f) l f !! x = (if decide (x ∈ l) then g <$> f !! x else f !! x).
Proof.
  revert f. induction l as [|b l IH]; intros f Hn; cbn [fold_left]; [by rewrite decide_False by set_solver|].
  apply NoDup_cons in Hn as [Hb Hn]. rewrite IH by done.
  destruct (decide (x = b)) as [->|E].
  - rewrite decide_False, decide_True by set_solver. by rewrite list_lookup_alter_eq.
  - rewrite list_lookup_alter_ne by done. by destruct (decide (x ∈ l)); [rewrite decide_True by set_solver|rewrite decide_False by set_solver].
Qed.

(** ** The closed form *)

Section pass.
Context `{AL : AnalysesLaws}.

Definition in_frontier (g : list (list nat)) (x : nat) (i : intent_info) : bool :=
  bool_decide (x ∈ dom_frontier g (in_block i)).
Definition in_subtree (g : list (list nat)) (x : nat) (i : intent_info) : bool :=
  bool_decide (x ∈ default [] (dom_subtree g (in_block i))).

Definition clears (n : nat) : list op := replicate n TcaClear.

(** What one injection makes of block [x]. *)
Definition stamp (k : nat) (i : intent_info) (g : list (list nat)) (x : nat) (b : basic_block) : basic_block :=
  BasicBlock
    (clears (if in_frontier g x i then 1 else 0) ++
     (if decide (x = in_block i) then map (subst_start (in_start i) k) (bb_insts b) else bb_insts b) ++
     clears (if is_exit (bb_term b) && in_subtree g x i then 1 else 0))
    (bb_term b).

Lemma alter_lookup_if {B} (h : B -> B) (l : list B) i x :
  alter h i l !! x = (if decide (x = i) then h <$> l !! x else l !! x).
Proof.
  destruct (decide (x = i)) as [->|E]; [by rewrite list_lookup_alter_eq|by rewrite list_lookup_alter_ne].
Qed.

Lemma inject_func_lookup k i f f' x :
  cfg_wf (cfg_of f) -> NoDup (starts (insts_at f (in_block i))) ->
  inject_func k i f = Some f' -> f' !! x = stamp k i (cfg_of f) x <$> f !! x.
Proof.
  intros Hw Hn. unfold inject_func, insts_at in *.
  destruct (dom_subtree (cfg_of f) (in_block i)) as [sub|] eqn:Es; [|done]. intros [= <-].
  destruct (subtree_nodes _ _ _ Hw Es) as [Hns _].
  destruct (frontier_blocks _ (in_block i) Hw (proj1 (subtree_root _ _ Hw) ltac:(by rewrite Es))) as [Hnf _].
  rewrite alter_lookup_if. unfold clear_terms, clear_fronts.
  rewrite (fold_alter_lookup clear_term), (fold_alter_lookup clear_front), alter_lookup_if by done.
  unfold stamp, in_frontier, in_subtree. rewrite Es. cbn [default from_option].
  destruct (f !! x) as [[l t]|] eqn:Ex; [|by repeat case_decide].
  destruct (decide (x = in_block i)) as [->|E].
  - rewrite Ex in Hn. cbn in Hn.
    assert (forall l1, erase (in_start i) (TcaClear :: l1) = TcaClear :: erase (in_start i) l1) as Hc
      by (intros; cbn [erase]; by rewrite bool_decide_false).
    repeat case_decide; repeat case_bool_decide; try done; destruct t; unfold clear_term, clear_front, on_insts; cbn [fmap
      option_fmap option_map bb_insts bb_term is_exit andb clears replicate app]; f_equal; f_equal;
      rewrite <- ?erase_insert_before, ?app_comm_cons, ?erase_app_clear, ?app_nil_r, ?Hc by done; done.
  - repeat case_decide; repeat case_bool_decide; try done; destruct t; cbn; by rewrite ?app_nil_r.
Qed.

Lemma stamp_term k i g x b : bb_term (stamp k i g x b) = bb_term b.
Proof. done. Qed.

Lemma inject_func_cfg k i f f' :
  cfg_wf (cfg_of f) -> NoDup (starts (insts_at f (in_block i))) ->
  inject_func k i f = Some f' -> cfg_of f' = cfg_of f.
Proof.
  intros Hw Hn Hf. apply list_eq. intros x. unfold cfg_of at 1. rewrite list_lookup_fmap.
  rewrite (inject_func_lookup k i f f' x Hw Hn Hf). unfold cfg_of at 2. rewrite list_lookup_fmap.
  by destruct (f !! x).
Qed.

Lemma starts_app l1 l2 : starts (l1 ++ l2) = starts l1 ++ starts l2.
Proof. apply omap_app. Qed.

Lemma starts_clears n : starts (clears n) = [].
Proof. induction n; [done|]. by cbn. Qed.

Lemma starts_subst_sub id k l : starts (map (subst_start id k) l) `sublist_of` starts l.
Proof.
  induction l as [|o l IH]; [done|]. cbn [map]. unfold subst_start at 1. case_bool_decide as E.
  - subst. rewrite !starts_cons. by constructor.
  - rewrite !starts_cons. destruct o; try done. by constructor.
Qed.

Lemma starts_stamp k i g x b : starts (bb_insts (stamp k i g x b)) `sublist_of` starts (bb_insts b).
Proof.
  unfold stamp. cbn. rewrite !starts_app, !starts_clears, app_nil_r. cbn.
  case_decide; [apply starts_subst_sub|done].
Qed.

(** The slot of the start [id] of block [x] of function [fi]. *)
Definition is_intent (fi x id : nat) (i : intent_info) : Prop := in_func i = fi /\ in_block i = x /\ in_start i = id.
#[local] Instance is_intent_dec fi x id i : Decision (is_intent fi x id i).
Proof. unfold is_intent. apply _. Defined.

Definition marked (k : nat) (L : list intent_info) (fi x : nat) (o : op) : op :=
  match o with
  | IntentStart id => match list_find (is_intent fi x id) L with
                      | Some (n, _) => SetIntent (k + n)
                      | None => o
                      end
  | _ => o
  end.

Definition intents_of (L : list intent_info) (fi : nat) : list intent_info := List.filter (fun i => in_func i =? fi) L.
Definition n_fronts (L : list intent_info) (fi : nat) (g : list (list nat)) (x : nat) : nat :=
  length (List.filter (in_frontier g x) (intents_of L fi)).
Definition n_ends (L : list intent_info) (fi : nat) (g : list (list nat)) (x : nat) (t : terminator) : nat :=
  if is_exit t then length (List.filter (in_subtree g x) (intents_of L fi)) else 0.

(** A function that the pass accepts: branches stay inside, starts are told apart. *)
Definition func_ok (f : func) : Prop :=
  cfg_wf (cfg_of f) /\ Forall (fun b => NoDup (starts (bb_insts b))) f.

Lemma func_ok_starts f x : func_ok f -> NoDup (starts (insts_at f x)).
Proof.
  intros [_ Hn]. unfold insts_at. destruct (f !! x) as [b|] eqn:E; cbn; [|constructor].
  by eapply Forall_lookup_1 in Hn.
Qed.

Lemma inject_func_ok k i f f' : func_ok f -> inject_func k i f = Some f' -> func_ok f'.
Proof.
  intros Hok Hf. pose proof (func_ok_starts f (in_block i) Hok) as Hn. destruct Hok as [Hw Hs]. split.
  - by rewrite (inject_func_cfg k i f f').
  - apply Forall_lookup_2. intros x b Hb. rewrite (inject_func_lookup k i f f' x Hw Hn Hf) in Hb.
    destruct (f !! x) as [b0|] eqn:E; [|done]. injection Hb as <-.
    pose proof (Forall_lookup_1 _ _ _ _ Hs E) as Hb. cbn in Hb.
    eapply sublist_NoDup; [exact Hb|apply starts_stamp].
Qed.
Lemma marked_subst k i L fi x o :
  in_func i = fi ->
  marked (S k) L fi x (if decide (x = in_block i) then subst_start (in_start i) k o else o) = marked k (i :: L) fi x o.
Proof.
  intros Hf. destruct o; cbn [marked list_find];
    try (case_decide; [by unfold subst_start; rewrite bool_decide_false by done|done]).
  unfold is_intent at 2. destruct (decide (x = in_block i)) as [->|E].
  - unfold subst_start. case_bool_decide as Hi.
    + injection Hi as ->. rewrite decide_True by done. cbn. by rewrite Nat.add_0_r.
    + rewrite decide_False by naive_solver. cbn.
      destruct (list_find _ L) as [[n ?]|]; cbn; [by rewrite Nat.add_succ_r|done].
  - rewrite decide_False by (unfold is_intent; naive_solver). cbn [marked]. destruct (list_find _ L) as [[n ?]|]; cbn; [by rewrite Nat.add_succ_r|done].
Qed.

Lemma marked_other k i L fi x o : in_func i <> fi -> marked (S k) L fi x o = marked k (i :: L) fi x o.
Proof.
  intros Hf. destruct o; try done. cbn [marked list_find]. rewrite decide_False by (unfold is_intent; naive_solver).
  destruct (list_find _ L) as [[n ?]|]; cbn; [by rewrite Nat.add_succ_r|done].
Qed.

Lemma clears_app a b : clears a ++ clears b = clears (a + b).
Proof. symmetry. apply replicate_add. Qed.

Lemma map_marked_clears k L fi x n : map (marked k L fi x) (clears n) = clears n.
Proof. induction n; [done|]. cbn. by f_equal. Qed.

(** The block after all injections. *)
Definition instrumented (k : nat) (L : list intent_info) (fi x : nat) (g : list (list nat)) (b : basic_block) : basic_block :=
  BasicBlock (clears (n_fronts L fi g x) ++ map (marked k L fi x) (bb_insts b) ++ clears (n_ends L fi g x (bb_term b)))
    (bb_term b).

Lemma instrumented_stamp k i L fi x g b :
  in_func i = fi -> instrumented (S k) L fi x g (stamp k i g x b) = instrumented k (i :: L) fi x g b.
Proof.
  intros Hf. unfold instrumented, stamp. cbn [bb_insts bb_term]. f_equal.
  rewrite !map_app, !map_marked_clears, !app_assoc, clears_app, <- !app_assoc, clears_app.
  assert (Hi : intents_of (i :: L) fi = i :: intents_of L fi) by (unfold intents_of; cbn; by rewrite Hf, Nat.eqb_refl).
  f_equal; [|f_equal].
  - unfold n_fronts. rewrite Hi. cbn [List.filter]. destruct (in_frontier g x i); cbn [length]; f_equal; lia.
  - rewrite <- (map_ext _ _ (fun o => marked_subst k i L fi x o Hf)).
    destruct (decide (x = in_block i)); [by rewrite map_map|done].
  - unfold n_ends. rewrite Hi. destruct (is_exit (bb_term b)); [|done]. cbn [List.filter andb].
    destruct (in_subtree g x i); cbn [length]; f_equal; lia.
Qed.
Lemma instrumented_other k i L fi x g b :
  in_func i <> fi -> instrumented (S k) L fi x g b = instrumented k (i :: L) fi x g b.
Proof.
  intros Hf. unfold instrumented, n_fronts, n_ends.
  assert (intents_of (i :: L) fi = intents_of L fi) as -> by (unfold intents_of; cbn; by rewrite (proj2 (Nat.eqb_neq _ _) Hf)).
  by rewrite (map_ext _ _ (fun o => marked_other k i L fi x o Hf)).
Qed.

(** The closed form of the injections: every block gets the clears of the frontiers
    it is in, its starts become settings of their slots, and before a return come
    the clears of the scopes it is in. *)
Lemma inject_all_shape L k m m' fi f :
  Forall func_ok m -> inject_all k L m = Some m' -> m !! fi = Some f ->
  exists f', m' !! fi = Some f' /\ forall x, f' !! x = instrumented k L fi x (cfg_of f) <$> f !! x.
Proof.
  revert k m f. induction L as [|i L IH]; intros k m f Hok; cbn [inject_all].
  { intros [= <-] Hf. exists f. split; [done|]. intros x. destruct (f !! x) as [[l t]|]; [|done]. cbn.
    unfold instrumented, n_fronts, n_ends. cbn. rewrite (map_ext _ (fun o => o)), map_id by by intros [].
    destruct (is_exit t); by rewrite app_nil_r. }
  unfold inject. destruct (m !! in_func i) as [fo|] eqn:Eo.
  - destruct (inject_func k i fo) as [fo'|] eqn:Ei; [|done]. intros Ha Hf.
    pose proof (Forall_lookup_1 _ _ _ _ Hok Eo) as Hoko.
    assert (Forall func_ok (<[in_func i:=fo']> m)) as Hok' by (apply Forall_insert; [done|by eapply inject_func_ok]).
    destruct (decide (in_func i = fi)) as [E|E].
    + subst fi. simplify_eq. destruct (IH (S k) _ fo' Hok' Ha) as (f' & Hf' & Hx).
      { apply list_lookup_insert_eq. by eapply lookup_lt_Some. }
      exists f'. split; [done|]. intros x. pose proof (func_ok_starts fo (in_block i) Hoko) as Hns. destruct Hoko as [Hw _].
      rewrite Hx, (inject_func_cfg k i fo fo' Hw Hns Ei), (inject_func_lookup k i fo fo' x Hw Hns Ei).
      destruct (fo !! x); [|done]. cbn. by rewrite instrumented_stamp.
    + destruct (IH (S k) _ f Hok' Ha) as (f' & Hf' & Hx); [by rewrite list_lookup_insert_ne|].
      exists f'. split; [done|]. intros x. rewrite Hx. destruct (f !! x); [|done]. cbn. by rewrite (instrumented_other k i).
  - intros Ha Hf. destruct (IH (S k) m f Hok Ha Hf) as (f' & Hf' & Hx). exists f'. split; [done|]. intros x. rewrite Hx.
    destruct (f !! x); [|done]. cbn. rewrite (instrumented_other k i); [done|]. intros E. congruence.
Qed.
(** ** The instrumented module *)

(** What the module is before the pass: functions that the pass accepts, and no
    instruction that only the pass makes. *)
Definition source_op (o : op) : bool := match o with SetIntent _ | TcaClear => false | _ => true end.
Definition module_ok (m : ir_module) : Prop :=
  Forall (fun f => func_ok f /\ Forall (fun b => forallb source_op (bb_insts b) = true) f) m.

Definition body_op (L : list intent_info) (fi x : nat) (o : op) : op := clean_end (marked 0 L fi x o).

Lemma map_clean_clears n : map clean_end (clears n) = clears n.
Proof. induction n; [done|]. cbn. by f_equal. Qed.

Lemma pass_shape m m' got fi f :
  module_ok m -> collect m <> [] -> sentinel_pass m = Some (m', got) -> m !! fi = Some f ->
  exists f', m' !! fi = Some f' /\ forall x b, f !! x = Some b ->
    let g := cfg_of f in
    f' !! x = Some (BasicBlock (clears (n_fronts (collect m) fi g x) ++ map (body_op (collect m) fi x) (bb_insts b) ++
                                clears (n_ends (collect m) fi g x (bb_term b))) (bb_term b)).
Proof.
  intros Hok Hne Hp Hf. unfold sentinel_pass in Hp. destruct (collect m) as [|i L] eqn:Ec; [done|].
  destruct (inject_all 0 (i :: L) m) as [m1|] eqn:Ei; [|done]. injection Hp as <- _.
  assert (Forall func_ok m) as Hok' by (eapply Forall_impl; [exact Hok|by intros ? [? ?]]).
  destruct (inject_all_shape (i :: L) 0 m m1 fi f Hok' Ei Hf) as (f1 & Hf1 & Hx).
  exists (clean_ends f1). split; [by rewrite list_lookup_fmap, Hf1|]. intros x b Hb g.
  unfold clean_ends. rewrite list_lookup_fmap, Hx, Hb. cbn [fmap option_fmap option_map].
  unfold on_insts, instrumented. cbn [bb_insts bb_term].
  by rewrite !map_app, !map_clean_clears, map_map.
Qed.

(** ** Execution of instrumented blocks *)

Lemma exec_ops_app d l1 l2 s : exec_ops d (l1 ++ l2) s = exec_ops d l2 (exec_ops d l1 s).
Proof. apply fold_left_app. Qed.

Lemma exec_ops_cons d o l s : exec_ops d (o :: l) s = exec_ops d l (exec_op d s o).
Proof. done. Qed.

Lemma exec_clears d n s : exec_ops d (clears n) s = if n =? 0 then s else None.
Proof. destruct n; [done|]. cbn. induction n; [done|]. by cbn. Qed.

Lemma list_find_intent L fi x id n i :
  list_find (is_intent fi x id) L = Some (n, i) -> L !! n = Some i /\ in_func i = fi /\ in_block i = x /\ in_start i = id.
Proof. intros (? & Hi & _)%list_find_Some. by destruct Hi as (? & ? & ?). Qed.

(** An intent that a body puts in force is one of the block's own. *)
Lemma body_active d L fi x l s k :
  forallb source_op l = true -> exec_ops d (map (body_op L fi x) l) s = Some k ->
  s = Some k \/ exists i, L !! k = Some i /\ in_func i = fi /\ in_block i = x.
Proof.
  revert s. induction l as [|o l IH]; intros s Hs; cbn [map exec_ops fold_left]; [by left|].
  apply andb_prop in Hs as [Ho Hs]. intros H. destruct (IH _ Hs H) as [E|?]; [|by right].
  destruct o as [id| | | |id|id]; try done; unfold body_op, marked in E;
    [|solve [done|by left|cbn in E; destruct (d id); [done|by left]]..].
  destruct (list_find (is_intent fi x id) L) as [[n i]|] eqn:Ef; cbn in E; [|by left].
  injection E as <-. right. apply list_find_intent in Ef as (? & ? & ? & ?). eauto.
Qed.
(** ** The intents of a module *)

Lemma elem_of_concat_imap {B C} (h : nat -> B -> list C) l c :
  c ∈ concat (imap h l) <-> exists n b, l !! n = Some b /\ c ∈ h n b.
Proof.
  revert h. induction l as [|b l IH]; intros h.
  { split; [by intros ?%not_elem_of_nil|by intros (? & ? & ? & ?)]. }
  cbn [imap concat]. rewrite elem_of_app, IH. split.
  - intros [H|(n & b' & ? & ?)]; [by exists 0, b|by exists (S n), b'].
  - intros ([|n] & b' & E & H); [by simplify_eq/=; left|right; by exists n, b'].
Qed.

Lemma elem_of_collect m i :
  i ∈ collect m <-> in_hash i = Z3Hash /\ exists f b, m !! in_func i = Some f /\ f !! in_block i = Some b /\
    IntentStart (in_start i) ∈ bb_insts b.
Proof.
  unfold collect. rewrite elem_of_concat_imap. unfold func_intents. split.
  - intros (n & f & Hf & Hi). apply elem_of_concat_imap in Hi as (x & b & Hb & Hi).
    unfold block_intents in Hi. apply list_elem_of_omap in Hi as (o & Ho & E). destruct o; try done.
    injection E as <-. split; [done|]. by exists f, b.
  - intros (Hh & f & b & Hf & Hb & Ho). exists (in_func i), f. split; [done|].
    apply elem_of_concat_imap. exists (in_block i), b. split; [done|]. apply list_elem_of_omap.
    exists (IntentStart (in_start i)). split; [done|]. by destruct i; cbn in *; subst.
Qed.

(** ** When the pass ends *)

Lemma inject_func_some k i f :
  cfg_wf (cfg_of f) -> is_Some (inject_func k i f) <-> reachable (cfg_of f) (in_block i).
Proof.
  intros Hw. rewrite <- subtree_root by done. unfold inject_func.
  destruct (dom_subtree (cfg_of f) (in_block i)); split; intros [? H]; (done || by eexists).
Qed.

(** The pass ends if and only if every intent starts in a reachable block. *)
Lemma inject_all_some L k m :
  Forall func_ok m ->
  is_Some (inject_all k L m) <->
  Forall (fun i => forall f, m !! in_func i = Some f -> reachable (cfg_of f) (in_block i)) L.
Proof.
  revert k m. induction L as [|i L IH]; intros k m Hok; cbn [inject_all]; [by split; [constructor|eauto]|].
  rewrite Forall_cons. unfold inject. destruct (m !! in_func i) as [fo|] eqn:Eo.
  2: { rewrite IH by done. split; [intros H; split; [by intros|done]|by intros [_ H]]. }
  pose proof (Forall_lookup_1 _ _ _ _ Hok Eo) as Hoko. pose proof (func_ok_starts fo (in_block i) Hoko) as Hns.
  pose proof (inject_func_some k i fo (proj1 Hoko)) as Hi.
  destruct (inject_func k i fo) as [fo'|] eqn:Ei.
  - rewrite IH by (apply Forall_insert; [done|by eapply inject_func_ok]).
    assert (Hsame : forall j, (forall f, <[in_func i:=fo']> m !! in_func j = Some f -> reachable (cfg_of f) (in_block j)) <->
                    (forall f, m !! in_func j = Some f -> reachable (cfg_of f) (in_block j))).
    { intros j. destruct (decide (in_func i = in_func j)) as [E|E]; [|by rewrite list_lookup_insert_ne].
      rewrite <- E, list_lookup_insert_eq, Eo by by eapply lookup_lt_Some.
      pose proof (inject_func_cfg k i fo fo' (proj1 Hoko) Hns Ei) as Hc.
      split; intros H f [= <-]; [rewrite <- Hc|rewrite Hc]; by apply H. }
    rewrite (Forall_iff _ _ _ Hsame). split; [|by intros [_ H]].
    intros H. split; [|done]. intros f [= <-]. apply Hi. eauto.
  - split; [by intros []|]. intros [H _]. specialize (H fo eq_refl). apply Hi in H as []. done.
Qed.

(** ** Scopes *)

Section function.
Context (m m' : ir_module) (fi : nat) (f f' : func) (got : list Z).
Context (Hok : module_ok m) (Hne : collect m <> []) (Hpass : sentinel_pass m = Some (m', got)).
Context (Hf : m !! fi = Some f) (Hf' : m' !! fi = Some f').
Context (drops : list nat -> nat -> bool).

Notation L := (collect m).
Notation g := (cfg_of f).

Lemma cfg_length : length g = length f.
Proof. apply length_fmap. Qed.

Lemma fun_ok : func_ok f /\ Forall (fun b => forallb source_op (bb_insts b) = true) f.
Proof. exact (Forall_lookup_1 _ _ _ _ Hok Hf). Qed.

Lemma shape x b : f !! x = Some b ->
  insts_at f' x = clears (n_fronts L fi g x) ++ map (body_op L fi x) (bb_insts b) ++ clears (n_ends L fi g x (bb_term b)) /\
  forallb source_op (bb_insts b) = true.
Proof.
  intros Hb. destruct (pass_shape m m' got fi f Hok Hne Hpass Hf) as (f1 & Hf1 & Hs). simplify_eq. split.
  - unfold insts_at. by rewrite (Hs x b Hb).
  - exact (Forall_lookup_1 _ _ _ _ (proj2 fun_ok) Hb).
Qed.

Lemma walks_block x p : walks g (x :: p) -> exists b, f !! x = Some b.
Proof.
  intros H. apply lookup_lt_is_Some_2. rewrite <- cfg_length. destruct (proj1 fun_ok) as [Hw _].
  inversion H as [Hl|a q b Hp (l & Hl & Hb)]; subst; [done|].
  pose proof (Forall_lookup_1 _ _ _ _ Hw Hl) as Hbs. by rewrite Forall_forall in Hbs; apply Hbs.
Qed.

Lemma intents_of_elem i k : L !! k = Some i -> in_func i = fi -> i ∈ intents_of L fi.
Proof.
  intros Hk Hi. unfold intents_of. apply list_elem_of_In, filter_In. split; [|by apply Nat.eqb_eq].
  apply list_elem_of_In. by eapply list_elem_of_lookup_2.
Qed.

(** A block in the frontier of an intent starts with a clear, and a return in its
    scope comes after one. *)
Lemma frontier_cleared i k x : L !! k = Some i -> in_func i = fi -> x ∈ dom_frontier g (in_block i) -> n_fronts L fi g x <> 0.
Proof.
  intros Hk Hi Hx. pose proof (intents_of_elem i k Hk Hi) as He. unfold n_fronts. intros E.
  apply length_zero_iff_nil in E. apply list_elem_of_In in He.
  assert (In i (List.filter (in_frontier g x) (intents_of L fi))) as H; [|by rewrite E in H].
  apply filter_In. split; [done|]. by apply bool_decide_eq_true.
Qed.

Lemma scope_cleared i k x t :
  L !! k = Some i -> in_func i = fi -> is_exit t = true ->
  x ∈ default [] (dom_subtree g (in_block i)) -> n_ends L fi g x t <> 0.
Proof.
  intros Hk Hi Ht Hx. pose proof (intents_of_elem i k Hk Hi) as He. unfold n_ends. rewrite Ht. intros E.
  apply length_zero_iff_nil in E. apply list_elem_of_In in He.
  assert (In i (List.filter (in_subtree g x) (intents_of L fi))) as H; [|by rewrite E in H].
  apply filter_In. split; [done|]. by apply bool_decide_eq_true.
Qed.

Lemma intent_reachable i k : L !! k = Some i -> in_func i = fi -> reachable g (in_block i).
Proof.
  intros Hk Hi. assert (Forall func_ok m) as Hok' by (eapply Forall_impl; [exact Hok|by intros ? [? ?]]).
  assert (is_Some (inject_all 0 L m)) as Hs.
  { unfold sentinel_pass in Hpass. destruct L as [|i0 L0]; [done|]. destruct (inject_all 0 _ m); [eauto|done]. }
  apply inject_all_some in Hs; [|done]. pose proof (Forall_lookup_1 _ _ _ _ Hs Hk) as H. apply H. by rewrite Hi.
Qed.

(** Dominance of a reachable block is decided by the analysis. *)
Lemma subtree_dominates i k x :
  L !! k = Some i -> in_func i = fi -> reachable g x ->
  x ∈ default [] (dom_subtree g (in_block i)) <-> dominates g (in_block i) x.
Proof.
  intros Hk Hi Hx. pose proof (proj1 (proj1 fun_ok)) as Hw.
  destruct (proj2 (subtree_root g (in_block i) Hw) (intent_reachable i k Hk Hi)) as [l Hl].
  rewrite Hl. cbn. destruct (subtree_nodes _ _ _ Hw Hl) as [_ H]. rewrite H. naive_solver.
Qed.

(** Leaving the scope of an intent leads to its frontier. *)
Lemma leave_scope i k x y :
  L !! k = Some i -> in_func i = fi -> reachable g x -> dominates g (in_block i) x -> edge g x y ->
  sdom g (in_block i) y \/ y ∈ dom_frontier g (in_block i).
Proof.
  intros Hk Hi Hx Hd He. pose proof (reachable_edge _ _ _ Hx He) as Hy.
  destruct (frontier_blocks g (in_block i) (proj1 (proj1 fun_ok)) (intent_reachable i k Hk Hi)) as [_ Hfr].
  destruct (decide (in_block i = y)) as [E|E].
  { right. apply Hfr. exists x. repeat (split; [done|]). by intros [? _]. }
  destruct (decide (y ∈ default [] (dom_subtree g (in_block i)))) as [Hm|Hm];
    rewrite (subtree_dominates i k) in Hm by done; [by left|].
  right. apply Hfr. exists x. repeat (split; [done|]). by intros [_ ?].
Qed.

(** The intent in force when the body of the last block begins. *)
Definition entry_state (x : nat) (p : list nat) : option nat :=
  exec_ops (drops (x :: p)) (clears (n_fronts L fi g x)) (active_after drops f' p).

Lemma active_after_body x p b : f !! x = Some b ->
  active_after drops f' (x :: p) =
  exec_ops (drops (x :: p)) (clears (n_ends L fi g x (bb_term b)))
    (exec_ops (drops (x :: p)) (map (body_op L fi x) (bb_insts b)) (entry_state x p)).
Proof. intros Hb. cbn [active_after]. destruct (shape x b Hb) as [-> _]. by rewrite !exec_ops_app. Qed.

Lemma active_at_body x p b j : f !! x = Some b -> j <= length (bb_insts b) ->
  active_at drops f' x p (n_fronts L fi g x + j) = exec_ops (drops (x :: p)) (map (body_op L fi x) (take j (bb_insts b))) (entry_state x p).
Proof.
  intros Hb Hj. unfold active_at. destruct (shape x b Hb) as [-> _].
  rewrite take_app, take_app. unfold clears. rewrite length_replicate, length_map, take_ge by (rewrite length_replicate; lia).
  replace (n_fronts L fi g x + j - n_fronts L fi g x) with j by lia.
  replace (j - length (bb_insts b)) with 0 by lia. cbn [take]. rewrite app_nil_r, exec_ops_app. unfold entry_state, clears.
  f_equal. apply firstn_map.
Qed.

Lemma entry_scope x p k : walks g (x :: p) -> entry_state x p = Some k ->
  exists i, L !! k = Some i /\ in_func i = fi /\ sdom g (in_block i) x.
Proof.
  revert x. induction p as [|y q IH]; intros x Hw; unfold entry_state; rewrite exec_clears.
  { by destruct (_ =? 0). }
  destruct (n_fronts L fi g x =? 0) eqn:Ea; [|done]. apply Nat.eqb_eq in Ea.
  inversion Hw as [|? ? ? Hq He]; subst. destruct (walks_block y q Hq) as [b Hb]. rewrite (active_after_body y q b Hb), exec_clears.
  destruct (_ =? 0); [|done]. intros H.
  assert (exists i, L !! k = Some i /\ in_func i = fi /\ dominates g (in_block i) y) as (i & Hk & Hi & Hd).
  { apply body_active in H as [H|(i & Hk & Hi & Hx)]; [| |by apply (shape y b)].
    - destruct (IH y Hq H) as (i & ? & ? & [_ ?]). eauto.
    - exists i. split; [done|]. split; [done|]. rewrite Hx. apply dominates_refl. }
  exists i. split; [done|]. split; [done|].
  destruct (leave_scope i k y x Hk Hi (walks_reachable _ _ _ Hq) Hd He) as [?|Hfr]; [done|].
  by destruct (frontier_cleared i k x Hk Hi Hfr).
Qed.

Lemma point_scope x p b j k : walks g (x :: p) -> f !! x = Some b ->
  exec_ops (drops (x :: p)) (map (body_op L fi x) (take j (bb_insts b))) (entry_state x p) = Some k ->
  exists i, L !! k = Some i /\ in_func i = fi /\ dominates g (in_block i) x.
Proof.
  intros Hw Hb H. apply body_active in H as [H|(i & Hk & Hi & Hx)].
  - destruct (entry_scope x p k Hw H) as (i & ? & ? & [_ ?]). eauto.
  - exists i. split; [done|]. split; [done|]. rewrite Hx. apply dominates_refl.
  - destruct (shape x b Hb) as [_ Hs]. apply forallb_forall. intros o Ho. rewrite forallb_forall in Hs. apply Hs.
    apply list_elem_of_In. apply list_elem_of_In in Ho. by eapply subseteq_take.
Qed.

Lemma exit_cleared x p b : walks g (x :: p) -> f !! x = Some b -> is_exit (bb_term b) = true ->
  active_after drops f' (x :: p) = None.
Proof.
  intros Hw Hb Ht. rewrite (active_after_body x p b Hb), exec_clears.
  destruct (n_ends L fi g x (bb_term b) =? 0) eqn:Ec; [|done]. apply Nat.eqb_eq in Ec.
  destruct (exec_ops _ (map _ _) _) as [k|] eqn:E; [|done].
  rewrite <- (firstn_all (bb_insts b)) in E. destruct (point_scope x p b _ k Hw Hb E) as (i & Hk & Hi & Hd).
  rewrite <- (subtree_dominates i k) in Hd by (done || by eapply walks_reachable).
  by destruct (scope_cleared i k x (bb_term b) Hk Hi Ht Hd).
Qed.

(** *** A function with one intent *)

Section single.
Context (i : intent_info) (Hone : intents_of L fi = [i]).
Context (Hends : Forall (fun b => IntentEnd ∉ bb_insts b) f).
Context (Hkeep : forall p x b id, f !! x = Some b -> OtherInst id ∈ bb_insts b -> drops (x :: p) id = false).

Lemma one_in_func : in_func i = fi.
Proof.
  assert (In i (intents_of L fi)) as H by (rewrite Hone; by left). unfold intents_of in H.
  apply filter_In in H as [_ H]. by apply Nat.eqb_eq.
Qed.

(** Its slot. *)
Definition the_slot : nat := from_option fst 0 (list_find (is_intent fi (in_block i) (in_start i)) L).

Lemma the_slot_intent : L !! the_slot = Some i.
Proof.
  unfold the_slot. assert (i ∈ L) as Hi.
  { assert (In i (intents_of L fi)) as H by (rewrite Hone; by left). unfold intents_of in H.
    apply filter_In in H as [H _]. by apply list_elem_of_In. }
  destruct (list_find_elem_of (is_intent fi (in_block i) (in_start i)) L i Hi) as [[n i'] Hn].
  { split; [apply one_in_func|done]. }
  rewrite Hn. cbn. apply list_find_intent in Hn as (Hn & Hfi & _ & _). rewrite Hn. f_equal.
  pose proof (intents_of_elem i' n Hn Hfi) as H. rewrite Hone in H. by apply list_elem_of_singleton in H.
Qed.

(** Starts are those of the intent. *)
Lemma start_is_the_one x b id : f !! x = Some b -> IntentStart id ∈ bb_insts b -> x = in_block i /\ id = in_start i.
Proof.
  intros Hb Ho. assert (IntentInfo fi x id Z3Hash ∈ L) as H by (apply elem_of_collect; split; [done|by exists f, b]).
  apply list_elem_of_lookup in H as [n Hn]. pose proof (intents_of_elem _ n Hn eq_refl) as H.
  rewrite Hone in H. apply list_elem_of_singleton in H. by subst.
Qed.

Lemma body_exec x p b l s : f !! x = Some b -> (forall o, o ∈ l -> o ∈ bb_insts b) ->
  exec_ops (drops (x :: p)) (map (body_op L fi x) l) s =
  if bool_decide (x = in_block i /\ IntentStart (in_start i) ∈ l) then Some the_slot else s.
Proof.
  intros Hb. revert s. induction l as [|o l IH]; intros s Hl.
  { rewrite bool_decide_false; [done|]. intros [_ ?%not_elem_of_nil]. done. }
  cbn [map]. rewrite exec_ops_cons. rewrite IH by (intros; apply Hl; by right).
  assert (forallb source_op (bb_insts b) = true) as Hs by by apply (shape x b).
  assert (source_op o = true) as Ho by (rewrite forallb_forall in Hs; apply Hs, list_elem_of_In, Hl; left).
  pose proof (Forall_lookup_1 _ _ _ _ Hends Hb) as He. cbn in He.
  assert (o ∈ bb_insts b) as Hob by (apply Hl; left).
  destruct o as [id| | | |id|id]; try done.
  - destruct (start_is_the_one x b id Hb Hob) as [-> ->]. rewrite (bool_decide_true (_ /\ _ ∈ _ :: _)) by (split; [done|left]).
    unfold body_op, marked. pose proof the_slot_intent as Hk. unfold the_slot in *.
    destruct (list_find _ L) as [[n i']|] eqn:E.
    + cbn. by case_bool_decide.
    + exfalso. apply list_find_None in E. apply (Forall_lookup_1 _ _ _ _ E Hk). split; [apply one_in_func|done].
  - rewrite (bool_decide_ext (_ /\ _ ∈ Phi _ :: l) (x = in_block i /\ IntentStart (in_start i) ∈ l)); [done|].
    rewrite elem_of_cons. naive_solver.
  - rewrite (bool_decide_ext (_ /\ _ ∈ OtherInst _ :: l) (x = in_block i /\ IntentStart (in_start i) ∈ l)).
    + cbn. by rewrite (Hkeep p x b id Hb Hob).
    + rewrite elem_of_cons. naive_solver.
Qed.

(** Whether the block of the intent strictly dominates, by the analysis. *)
Definition inside (x : nat) : bool := bool_decide (in_block i <> x /\ x ∈ default [] (dom_subtree g (in_block i))).

Lemma inside_sdom x : reachable g x -> inside x = true <-> sdom g (in_block i) x.
Proof.
  intros Hx. unfold inside, sdom. rewrite bool_decide_eq_true.
  by rewrite (subtree_dominates i the_slot x the_slot_intent one_in_func Hx).
Qed.

Lemma fronts_one x : n_fronts L fi g x = if in_frontier g x i then 1 else 0.
Proof. unfold n_fronts. rewrite Hone. cbn. by destruct (in_frontier g x i). Qed.

Lemma start_block_has b : f !! in_block i = Some b -> IntentStart (in_start i) ∈ bb_insts b.
Proof.
  intros Hb. pose proof (list_elem_of_lookup_2 _ _ _ the_slot_intent) as H.
  apply elem_of_collect in H as (_ & f0 & b0 & Hf0 & Hb0 & Ho). rewrite one_in_func in Hf0. by simplify_eq.
Qed.

(** At the end of a block that is left by a branch. *)
Lemma branch_end x p y : walks g (x :: p) -> edge g x y ->
  active_after drops f' (x :: p) = if decide (x = in_block i) then Some the_slot else entry_state x p.
Proof.
  intros Hw He. destruct (walks_block x p Hw) as [b Hb]. rewrite (active_after_body x p b Hb).
  assert (is_exit (bb_term b) = false) as Ht.
  { destruct He as (l & Hl & Hy). unfold cfg_of in Hl. rewrite list_lookup_fmap, Hb in Hl. injection Hl as <-.
    unfold succs_of in Hy. destruct (bb_term b); try done; by apply not_elem_of_nil in Hy. }
  unfold n_ends. rewrite Ht. cbn [clears replicate exec_ops fold_left]. rewrite (body_exec x p b) by done.
  destruct (decide (x = in_block i)) as [->|E]; [|by rewrite bool_decide_false by naive_solver].
  by rewrite bool_decide_true by (split; [done|by apply start_block_has]).
Qed.

Lemma entry_exact x p : walks g (x :: p) -> entry_state x p = if inside x then Some the_slot else None.
Proof.
  revert x. induction p as [|y q IH]; intros x Hw.
  { inversion Hw as [Hl|]; subst. assert (inside 0 = false) as ->.
    { apply not_true_iff_false. rewrite inside_sdom by by eapply walks_reachable. by apply sdom_entry. }
    unfold entry_state. rewrite exec_clears. by destruct (_ =? 0). }
  inversion Hw as [|? ? ? Hq He]; subst. unfold entry_state. rewrite (branch_end y q x Hq He), exec_clears, fronts_one.
  pose proof (inside_sdom x (walks_reachable _ _ _ Hw)) as Hin.
  destruct (frontier_blocks g (in_block i) (proj1 (proj1 fun_ok))
    (intent_reachable i the_slot the_slot_intent one_in_func)) as [_ Hfr].
  pose proof (leave_scope i the_slot y x the_slot_intent one_in_func (walks_reachable _ _ _ Hq)) as Hleave.
  unfold in_frontier. case_bool_decide as Hx; cbn [Nat.eqb].
  { assert (inside x = false) as ->; [|done]. apply not_true_iff_false. rewrite Hin.
    apply Hfr in Hx as (? & _ & _ & _ & ?). done. }
  rewrite (IH y Hq). pose proof (inside_sdom y (walks_reachable _ _ _ Hq)) as Hiny.
  destruct (inside x) eqn:Ei.
  - apply proj1 in Hin. specialize (Hin eq_refl). pose proof (sdom_pred _ _ _ _ Hin He) as Hd.
    destruct (decide (y = in_block i)) as [|E]; [done|]. destruct (inside y); [done|].
    destruct Hiny as [_ H]. by discriminate H.
  - assert (~ dominates g (in_block i) y) as Hnd.
    { intros Hd. destruct (Hleave Hd He) as [H|H]; [|done]. apply Hin in H. done. }
    destruct (decide (y = in_block i)) as [->|E]; [by destruct Hnd; apply dominates_refl|].
    destruct (inside y); [|done]. destruct Hnd. by apply Hiny.
Qed.
End single.
End function.

(** The pass ends. *)
Definition intents_reachable (m : ir_module) : Prop :=
  Forall (fun i => forall f, m !! in_func i = Some f -> reachable (cfg_of f) (in_block i)) (collect m).

Lemma pass_total m : module_ok m -> intents_reachable m <-> is_Some (sentinel_pass m).
Proof.
  intros Hok. unfold intents_reachable. rewrite <- (inject_all_some _ 0 m) by (eapply Forall_impl; [exact Hok|by intros ? [? ?]]).
  unfold sentinel_pass. destruct (collect m) as [|i L]; [by cbn; split; eauto|].
  destruct (inject_all 0 (i :: L) m); split; intros [? H]; (done || by eexists).
Qed.
End pass.
