(* ===== verification/CompilerAnalyses.v ===== *)
(** * Dominance by reachability

    An executable instance of the analyses that the compiler pass asks for, with a
    proof of their laws: a block dominates another when the other cannot be reached
    without it.  The pass runs with it on concrete modules. *)

From S2P Require Import Prelude CompilerPass CompilerPassProofs.
From stdpp Require Import prelude list.
From Stdlib Require Import ZArith Lia.
#[local] Open Scope nat_scope.

(** ** Reachability without a block *)

Definition allowed (avoid : option nat) (b : nat) : bool := bool_decide (avoid <> Some b).
Definition succs (g : list (list nat)) (a : nat) : list nat := default [] (g !! a).

Definition reach_start (avoid : option nat) (g : list (list nat)) : list nat :=
  match g with [] => [] | _ => List.filter (allowed avoid) [0] end.
Fixpoint reach_iter (avoid : option nat) (g : list (list nat)) (n : nat) : list nat :=
  match n with
  | 0 => reach_start avoid g
  | S n => let s := reach_iter avoid g n in
           remove_dups (s ++ List.filter (allowed avoid) (mjoin (succs g <$> s)))
  end.
Definition reach (avoid : option nat) (g : list (list nat)) : list nat := reach_iter avoid g (length g).

Definition walks_without (avoid : option nat) (g : list (list nat)) (p : list nat) : Prop :=
  walks g p /\ forall b, b ∈ p -> avoid <> Some b.

Lemma elem_of_filter_b {A} (h : A -> bool) l x : x ∈ List.filter h l <-> x ∈ l /\ h x = true.
Proof. by rewrite !list_elem_of_In, filter_In. Qed.

Lemma edge_succs g a b : edge g a b <-> b ∈ succs g a.
Proof.
  unfold edge, succs. destruct (g !! a) as [l|]; cbn; [|split; [by intros (? & ? & _)|by intros ?%not_elem_of_nil]].
  split; [by intros (l' & [= <-] & ?)|eauto].
Qed.

Lemma elem_of_reach_step avoid g n b :
  b ∈ reach_iter avoid g (S n) <->
  b ∈ reach_iter avoid g n \/ avoid <> Some b /\ exists a, a ∈ reach_iter avoid g n /\ edge g a b.
Proof.
  cbn [reach_iter]. rewrite elem_of_remove_dups, elem_of_app, elem_of_filter_b, list_elem_of_join.
  unfold allowed. rewrite bool_decide_eq_true. setoid_rewrite list_elem_of_fmap. setoid_rewrite edge_succs.
  naive_solver.
Qed.

Lemma elem_of_reach_start avoid g b : b ∈ reach_start avoid g <-> b = 0 /\ 0 < length g /\ avoid <> Some 0.
Proof.
  unfold reach_start. destruct g as [|l g]; [split; [by intros ?%not_elem_of_nil|cbn; lia]|].
  rewrite elem_of_filter_b, list_elem_of_singleton. unfold allowed. rewrite bool_decide_eq_true. cbn.
  split; [intros [-> ?]|intros (-> & _ & ?)]; (split; [done|]); [split; [lia|done]|done].
Qed.

Lemma reach_sound avoid g n b : b ∈ reach_iter avoid g n -> exists p, walks_without avoid g (b :: p).
Proof.
  revert b. induction n as [|n IH]; intros b.
  - cbn. rewrite elem_of_reach_start. intros (-> & Hl & Ha). exists []. split; [by constructor|].
    by intros b ->%list_elem_of_singleton.
  - rewrite elem_of_reach_step. intros [H|(Hb & a & Ha & He)]; [by apply IH|].
    destruct (IH _ Ha) as (p & Hp & Hall). exists (a :: p). split; [by constructor|].
    intros c [->|H]%elem_of_cons; [done|by apply Hall].
Qed.

Lemma reach_iter_mono avoid g n k b : n <= k -> b ∈ reach_iter avoid g n -> b ∈ reach_iter avoid g k.
Proof. induction 1; [done|]. intros ?. apply elem_of_reach_step. left. auto. Qed.

Lemma reach_walk avoid g p b : walks_without avoid g (b :: p) -> b ∈ reach_iter avoid g (length p).
Proof.
  revert b. induction p as [|a p IH]; intros b [Hw Hall].
  - inversion Hw; subst. apply elem_of_reach_start. split_and!; [done..|]. apply Hall. left.
  - inversion Hw as [|? ? ? Hp He]; subst. apply elem_of_reach_step. right. split; [apply Hall; left|].
    exists a. split; [|done]. apply IH. split; [done|]. intros c Hc. apply Hall. by right.
Qed.

(** A simple walk that has a block in it has one that ends there. *)
Lemma walks_suffix avoid g p b :
  walks_without avoid g p -> NoDup p -> b ∈ p -> exists q, NoDup (b :: q) /\ walks_without avoid g (b :: q).
Proof.
  intros [Hw Hall] Hn Hb. induction Hw as [Hl|a p c Hp IH He].
  - apply list_elem_of_singleton in Hb as ->. exists []. split; [done|]. split; [by constructor|done].
  - apply elem_of_cons in Hb as [->|Hb].
    + exists (a :: p). split; [done|]. split; [by constructor|done].
    + apply NoDup_cons in Hn as [_ Hn]. apply IH; [set_solver|done..].
Qed.

Lemma walks_simple avoid g p b :
  walks_without avoid g (b :: p) -> exists q, NoDup (b :: q) /\ walks_without avoid g (b :: q).
Proof.
  revert b. induction p as [|a p IH]; intros b [Hw Hall].
  { exists []. split; [apply NoDup_singleton|done]. }
  inversion Hw as [|? ? ? Hp He]; subst.
  destruct (IH a) as (q & Hn & Hq & Hqa). { split; [done|]. intros c Hc. apply Hall. by right. }
  destruct (decide (b ∈ a :: q)) as [Hb|Hb]; [by eapply walks_suffix|].
  exists (a :: q). split; [by constructor|]. split; [by constructor|].
  intros c [->|Hc]%elem_of_cons; [apply Hall; left|by apply Hqa].
Qed.

Lemma walks_blocks g p b : cfg_wf g -> walks g p -> b ∈ p -> b < length g.
Proof.
  intros Hwf Hw. induction Hw as [Hl|a p c Hp IH (l & Hl & Hc)]; [by intros ->%list_elem_of_singleton|].
  intros [->|Hb]%elem_of_cons; [|by apply IH].
  pose proof (Forall_lookup_1 _ _ _ _ Hwf Hl) as H. rewrite Forall_forall in H. by apply H.
Qed.

Lemma elem_of_reach avoid g b : cfg_wf g -> b ∈ reach avoid g <-> exists p, walks_without avoid g (b :: p).
Proof.
  intros Hwf. split; [apply reach_sound|]. intros [p Hp]. apply walks_simple in Hp as (q & Hn & Hq).
  apply reach_iter_mono with (length q); [|by apply reach_walk].
  assert (length (b :: q) <= length (seq 0 (length g))) as H.
  { apply submseteq_length, NoDup_submseteq; [done|]. intros c Hc. apply elem_of_seq. split; [lia|].
    apply (walks_blocks g (b :: q)); [done|apply Hq|done]. }
  rewrite length_seq in H. cbn in H. lia.
Qed.

Lemma reach_reachable g b : cfg_wf g -> b ∈ reach None g <-> reachable g b.
Proof.
  intros Hwf. rewrite elem_of_reach by done. unfold reachable, walks_without. split; intros [p Hp]; exists p; [by apply Hp|done].
Qed.

Lemma reach_dominates g a b : cfg_wf g -> b ∉ reach (Some a) g <-> dominates g a b.
Proof.
  intros Hwf. rewrite elem_of_reach by done. unfold dominates, walks_without. split.
  - intros H p Hp. destruct (decide (a ∈ b :: p)) as [|Ha]; [done|]. destruct H. exists p. split; [done|].
    intros c Hc [= ->]. done.
  - intros H (p & Hp & Hall). by apply (Hall a); [apply H|].
Qed.

(** ** The analyses *)

Definition domb (g : list (list nat)) (a b : nat) : bool := bool_decide (b ∉ reach (Some a) g).
Definition sdomb (g : list (list nat)) (a b : nat) : bool := bool_decide (a <> b) && domb g a b.
Definition dom_set (g : list (list nat)) (b : nat) : list nat :=
  List.filter (fun x => bool_decide (x ∈ reach None g) && domb g b x) (seq 0 (length g)).

#[global] Instance reach_analyses : Analyses := {|
  dom_subtree g b := if bool_decide (b ∈ reach None g) then Some (dom_set g b) else None;
  dom_frontier g b := List.filter (fun y => existsb (fun p => bool_decide (y ∈ succs g p)) (dom_set g b) && negb (sdomb g b y))
                        (seq 0 (length g));
|}.

Lemma reachable_lt g b : cfg_wf g -> reachable g b -> b < length g.
Proof. intros Hwf [p Hp]. apply (walks_blocks g (b :: p)); [done..|]. left. Qed.

Lemma elem_of_dom_set g b x : cfg_wf g -> x ∈ dom_set g b <-> reachable g x /\ dominates g b x.
Proof.
  intros Hwf. unfold dom_set, domb. rewrite elem_of_filter_b, elem_of_seq, andb_true_iff, !bool_decide_eq_true.
  rewrite reach_reachable, reach_dominates by done. split; [naive_solver|]. intros [Hr Hd].
  pose proof (reachable_lt g x Hwf Hr). naive_solver lia.
Qed.

Lemma sdomb_sdom g a b : cfg_wf g -> sdomb g a b = true <-> sdom g a b.
Proof.
  intros Hwf. unfold sdomb, sdom, domb. rewrite andb_true_iff, !bool_decide_eq_true. by rewrite reach_dominates.
Qed.

Lemma NoDup_filter_seq (h : nat -> bool) n : NoDup (List.filter h (seq 0 n)).
Proof. apply NoDup_ListNoDup, List.NoDup_filter, NoDup_ListNoDup, NoDup_seq. Qed.

#[global] Instance reach_laws : AnalysesLaws.
Proof.
  split; cbn.
  - intros g b l Hwf. case_bool_decide; [|done]. intros [= <-]. split; [apply NoDup_filter_seq|].
    intros x. by apply elem_of_dom_set.
  - intros g b Hwf. rewrite <- reach_reachable by done. case_bool_decide; split; (done || by intros []).
  - intros g b Hwf Hb. split; [apply NoDup_filter_seq|]. intros y.
    rewrite elem_of_filter_b, andb_true_iff, negb_true_iff, <- not_true_iff_false, sdomb_sdom, existsb_exists, elem_of_seq by done.
    split.
    + intros (_ & (p & Hp & Hy) & Hs). apply bool_decide_eq_true in Hy.
      apply list_elem_of_In, elem_of_dom_set in Hp as [? ?]; [|done]. exists p. by rewrite edge_succs.
    + intros (p & Hp & Hd & He & Hs). pose proof (reachable_lt g y Hwf (reachable_edge _ _ _ Hp He)).
      split; [lia|]. split; [|done]. exists p. rewrite <- list_elem_of_In, elem_of_dom_set by done. split; [done|].
      apply bool_decide_eq_true. by apply edge_succs.
Qed.
