(* ===== verification/CompilerClaims.v ===== *)
(** * Claims about the compiler pass

    What the instrumented code guarantees, and the pass run on small modules. *)

From S2P Require Import Prelude CompilerPass CompilerPassProofs CompilerAnalyses.
From stdpp Require Import prelude list.
From Stdlib Require Import ZArith Lia.
#[local] Open Scope nat_scope.

Section claims.
Context `{AL : AnalysesLaws}.

Lemma table_length m m' got : sentinel_pass m = Some (m', got) -> length got = length (collect m).
Proof.
  unfold sentinel_pass. destruct (collect m) as [|i L]; [by intros [= _ <-]|].
  destruct (inject_all 0 (i :: L) m); [|done]. intros [= _ <-]. exact (length_fmap got_value (i :: L)).
Qed.

(** C5. Intents do not leak: the pass ends if and only if every intent starts in a
    reachable block, and then the table has one entry for each intent, every start
    and end marker has been replaced and each instruction of the source is there in
    its place; on every path through a function, entered with no intent, an intent is
    in force at an instruction only if the block of its start dominates the block of
    the instruction, and when the function returns or unwinds none is in force.  Any of
    the other instructions may be calls into instrumented code, which come back without
    an intent. *)
Theorem intents_scoped m : module_ok m -> collect m <> [] ->
  (intents_reachable m <-> is_Some (sentinel_pass m)) /\
  forall m' got, sentinel_pass m = Some (m', got) ->
    length got = length (collect m) /\
    forall drops fi f x p b, m !! fi = Some f -> walks (cfg_of f) (x :: p) -> f !! x = Some b ->
      exists f' before after, m' !! fi = Some f' /\
        insts_at f' x = clears before ++ map (body_op (collect m) fi x) (bb_insts b) ++ clears after /\
        (forall j k, j <= length (bb_insts b) -> active_at drops f' x p (before + j) = Some k ->
           exists i, collect m !! k = Some i /\ in_func i = fi /\ dominates (cfg_of f) (in_block i) x) /\
        (is_exit (bb_term b) = true -> active_after drops f' (x :: p) = None).
Proof.
  intros Hok Hne. split; [by apply pass_total|]. intros m' got Hp. split; [by eapply table_length|].
  intros drops fi f x p b Hf Hw Hb. destruct (pass_shape m m' got fi f Hok Hne Hp Hf) as (f' & Hf' & _).
  exists f', (n_fronts (collect m) fi (cfg_of f) x), (n_ends (collect m) fi (cfg_of f) x (bb_term b)).
  split; [done|]. split; [by apply (shape m m' fi f f' got)|]. split.
  - intros j k Hj H. rewrite (active_at_body m m' fi f f' got) with (b := b) in H by done.
    by eapply (point_scope m m' fi f f' got).
  - intros Ht. by eapply (exit_cleared m m' fi f f' got).
Qed.

(** C18. The scope of an intent is exact: in a function with one intent and no end
    marker, entered with no intent, none of whose other instructions calls code that
    drops the intent (a call of an instrumented function with an intent of its own
    does), on every path the intent is in force at an instruction if and only if the
    start of the intent strictly dominates the instruction: it comes earlier in the
    same block, or its block strictly dominates the other. *)
Theorem intent_scope_exact drops m m' got fi f i pre post t x p b :
  module_ok m -> sentinel_pass m = Some (m', got) -> m !! fi = Some f ->
  intents_of (collect m) fi = [i] -> Forall (fun b => IntentEnd ∉ bb_insts b) f ->
  (forall p x b id, f !! x = Some b -> OtherInst id ∈ bb_insts b -> drops (x :: p) id = false) ->
  f !! in_block i = Some (BasicBlock (pre ++ IntentStart (in_start i) :: post) t) ->
  walks (cfg_of f) (x :: p) -> f !! x = Some b ->
  exists f' before k, m' !! fi = Some f' /\ collect m !! k = Some i /\
    forall j, j <= length (bb_insts b) ->
      let dominated := x = in_block i /\ length pre < j \/ sdom (cfg_of f) (in_block i) x in
      (dominated -> active_at drops f' x p (before + j) = Some k) /\
      (~ dominated -> active_at drops f' x p (before + j) = None).
Proof.
  intros Hok Hp Hf Hone Hends Hkeep Hs Hw Hb.
  assert (collect m <> []) as Hne by (intros E; by rewrite E in Hone).
  destruct (pass_shape m m' got fi f Hok Hne Hp Hf) as (f' & Hf' & _).
  exists f', (n_fronts (collect m) fi (cfg_of f) x), (the_slot m fi i).
  split; [done|]. split; [by apply (the_slot_intent m fi)|]. intros j Hj dominated.
  rewrite (active_at_body m m' fi f f' got) with (b := b) by done.
  rewrite (body_exec m m' fi f f' got Hok Hne Hp Hf Hf' drops i Hone Hends Hkeep x p b) by (done || by intros; eapply subseteq_take).
  rewrite (entry_exact m m' fi f f' got Hok Hne Hp Hf Hf' drops i Hone Hends Hkeep x p Hw).
  pose proof (inside_sdom m m' fi f f' got Hok Hne Hp Hf Hf' drops i Hone x (walks_reachable _ _ _ Hw)) as Hin.
  assert (x = in_block i -> (IntentStart (in_start i) ∈ take j (bb_insts b) <-> length pre < j)) as Hpos.
  { intros ->. assert (bb_insts b = pre ++ IntentStart (in_start i) :: post) as Hi by (rewrite Hs in Hb; by injection Hb as <-).
    assert (NoDup (starts (bb_insts b))) as Hn.
    { pose proof (func_ok_starts f (in_block i) (proj1 (Forall_lookup_1 _ _ _ _ Hok Hf))) as H. unfold insts_at in H. by rewrite Hb in H. }
    rewrite Hi in Hn |- *. rewrite starts_app, starts_cons in Hn.
    assert (IntentStart (in_start i) ∉ pre) as Hpre.
    { rewrite <- elem_of_starts. intros H. apply NoDup_app in Hn as (_ & Hn & _). apply (Hn _ H). left. }
    rewrite take_app, elem_of_app. destruct (decide (length pre < j)) as [Hlt|Hge].
    - split; [done|]. intros _. right. destruct (j - length pre) eqn:E; [lia|]. left.
    - replace (j - length pre) with 0 by lia. cbn [take].
      split; [|lia]. intros [H|?%not_elem_of_nil]; [|done]. destruct Hpre. by eapply subseteq_take. }
  unfold dominated. split; intros Hd.
  - case_bool_decide as Hc; [done|]. destruct Hd as [[Hx Hj']|Hd]; [by destruct Hc; split; [|apply Hpos]|].
    apply Hin in Hd. by rewrite Hd.
  - rewrite bool_decide_false by (intros [Hx ?]; apply Hd; left; split; [done|by apply Hpos]).
    destruct (inside _ _ _) eqn:E; [|done]. destruct Hd. right. by apply Hin.
Qed.
End claims.

(** ** The pass on small modules *)

(** A scope of two blocks on one side of a branch. *)
Definition branch_func : func :=
  [ BasicBlock [OtherInst 0] (Branch [1; 2]);
    BasicBlock [OtherInst 1; IntentStart 7; OtherInst 2] (Branch [3]);
    BasicBlock [OtherInst 3] (Branch [4]);
    BasicBlock [OtherInst 4] (Branch [4]);
    BasicBlock [OtherInst 5] ReturnInst ].
Definition branch_module : ir_module := [[]; branch_func].

Example branch_pass : sentinel_pass branch_module = Some
  ([[]; [ BasicBlock [OtherInst 0] (Branch [1; 2]);
          BasicBlock [OtherInst 1; SetIntent 0; OtherInst 2] (Branch [3]);
          BasicBlock [OtherInst 3] (Branch [4]);
          BasicBlock [OtherInst 4] (Branch [4]);
          BasicBlock [TcaClear; OtherInst 5] ReturnInst ]],
   [0x89ABCDEF000007CA%Z]).
Proof. by vm_compute. Qed.

Lemma module_ok_dec m : Decision (module_ok m).
Proof. unfold module_ok, func_ok, cfg_wf. apply _. Defined.
#[local] Existing Instance module_ok_dec.

Lemma intents_reachable_reach m :
  module_ok m ->
  forallb (fun i => match m !! in_func i with Some f => bool_decide (in_block i ∈ reach None (cfg_of f)) | None => true end)
    (collect m) = true -> intents_reachable m.
Proof.
  intros Hok H. apply Forall_forall. intros i Hi f Hf.
  rewrite forallb_forall in H. specialize (H i (proj1 (list_elem_of_In _ _) Hi)). rewrite Hf in H.
  apply bool_decide_eq_true in H. apply reach_reachable in H; [done|]. by destruct (Forall_lookup_1 _ _ _ _ Hok Hf) as [[? _] _].
Qed.

Lemma branch_walk : walks (cfg_of branch_func) [4; 3; 1; 0].
Proof. repeat (eapply walks_step; [|by eexists; split; [reflexivity|cbn; set_solver]]). constructor. cbn. lia. Qed.

Lemma intents_scoped_witness : exists m' got f', sentinel_pass branch_module = Some (m', got) /\ m' !! 1 = Some f' /\
  active_at (fun _ _ => false) f' 3 [1; 0] 1 = Some 0 /\ active_after (fun _ _ => false) f' [4; 3; 1; 0] = None.
Proof.
  assert (module_ok branch_module) as Hok by (apply (bool_decide_unpack _); by vm_compute).
  destruct (intents_scoped branch_module Hok) as [Ht H]; [done|].
  assert (is_Some (sentinel_pass branch_module)) as [[m' got] E].
  { apply Ht, intents_reachable_reach; [done|]. by vm_compute. }
  destruct (H m' got E) as [_ H1].
  destruct (H1 (fun _ _ => false) 1 branch_func 4 [3; 1; 0] (BasicBlock [OtherInst 5] ReturnInst) eq_refl branch_walk eq_refl)
    as (f' & n & k & Hf' & _ & _ & Hx).
  exists m', got, f'. split; [done|]. split; [done|]. split; [|by apply Hx].
  rewrite branch_pass in E. injection E as <- _. injection Hf' as <-. by vm_compute.
Defined.

Lemma intent_scope_exact_witness : exists m' got f' n, sentinel_pass branch_module = Some (m', got) /\ m' !! 1 = Some f' /\
  active_at (fun _ _ => false) f' 3 [1; 0] (n + 1) = Some 0.
Proof.
  assert (module_ok branch_module) as Hok by (apply (bool_decide_unpack _); by vm_compute).
  assert (walks (cfg_of branch_func) [3; 1; 0]) as Hw by by (pose proof branch_walk as H; inversion H).
  assert (exists r, sentinel_pass branch_module = Some r) as [[m' got] E] by (eexists; exact branch_pass).
  destruct (intent_scope_exact (fun _ _ => false) branch_module m' got 1 branch_func (IntentInfo 1 1 7 Z3Hash) [OtherInst 1] [OtherInst 2] (Branch [3])
    3 [1; 0] (BasicBlock [OtherInst 4] (Branch [4])) Hok E) as (f' & n & k & Hf' & Hk & H); try by vm_compute.
  { apply (bool_decide_unpack _). by vm_compute. }
  exists m', got, f', n. split; [done|]. split; [done|].
  destruct k as [|k]; [|by destruct k]. apply (H 1); [cbn; lia|]. right.
  apply sdomb_sdom; [|by vm_compute]. apply (bool_decide_unpack _). by vm_compute.
Defined.

(** A call into instrumented code ends the intent of the caller. *)
Example call_drops_intent :
  exists f' got, sentinel_pass [[BasicBlock [IntentStart 0; OtherInst 1; OtherInst 2] ReturnInst]] = Some ([f'], got) /\
    active_at (fun _ id => id =? 1) f' 0 [] 1 = Some 0 /\ active_at (fun _ id => id =? 1) f' 0 [] 2 = None.
Proof. do 2 eexists. split; [by vm_compute|]. by vm_compute. Qed.

(** An intent inside the scope of another: the clear at the join of the inner scope
    ends the outer one, which dominates the join. *)
Definition nested_func : func :=
  [ BasicBlock [IntentStart 0; OtherInst 0] (Branch [1; 2]);
    BasicBlock [IntentStart 1; OtherInst 1] (Branch [3]);
    BasicBlock [OtherInst 2] (Branch [3]);
    BasicBlock [OtherInst 3] ReturnInst ].

Example inner_join_ends_outer :
  exists f' got, sentinel_pass [nested_func] = Some ([f'], got) /\
    domb (cfg_of nested_func) 0 3 = true /\
    insts_at f' 3 = [TcaClear; OtherInst 3; TcaClear] /\
    active_after (fun _ _ => false) f' [2; 0] = Some 0 /\ active_at (fun _ _ => false) f' 3 [2; 0] 1 = None.
Proof. do 2 eexists. split; [by vm_compute|]. by vm_compute. Qed.

(** The clear at a join comes before its phi nodes, which have to come first in a
    block. *)
Definition phi_func : func :=
  [ BasicBlock [] (Branch [1; 2]);
    BasicBlock [IntentStart 0] (Branch [2]);
    BasicBlock [Phi 0; OtherInst 1] ReturnInst ].

Definition is_phi (o : op) : bool := match o with Phi _ => true | _ => false end.
Fixpoint phis_first (l : list op) : bool :=
  match l with
  | [] => true
  | o :: rest => if is_phi o then phis_first rest else negb (existsb is_phi rest)
  end.

Example clear_before_phi :
  exists f' got, sentinel_pass [phi_func] = Some ([f'], got) /\
    forallb (fun b => phis_first (bb_insts b)) phi_func = true /\
    insts_at f' 2 = [TcaClear; Phi 0; OtherInst 1] /\ phis_first (insts_at f' 2) = false.
Proof. do 2 eexists. split; [by vm_compute|]. by vm_compute. Qed.

(** A start in a block that cannot be reached has no node in the tree. *)
Example unreachable_start_crashes :
  sentinel_pass [[BasicBlock [] ReturnInst; BasicBlock [IntentStart 0] ReturnInst]] = None.
Proof. by vm_compute. Qed.

(** Without a start, an end marker stays a call of a function that nobody defines. *)
Example end_alone_kept :
  sentinel_pass [[BasicBlock [IntentEnd] ReturnInst]] = Some ([[BasicBlock [IntentEnd] ReturnInst]], []).
Proof. by vm_compute. Qed.

(** The entries of the table do not tell one intent from another. *)
Lemma table_constant m m' got :
  sentinel_pass m = Some (m', got) -> Forall (eq 0x89ABCDEF000007CA%Z) got.
Proof.
  unfold sentinel_pass. destruct (collect m) as [|i L] eqn:E; [by intros [= _ <-]|].
  destruct (inject_all 0 (i :: L) m); [|done]. intros [= _ <-]. change (Forall (eq 0x89ABCDEF000007CA%Z) (tca_got (i :: L))).
  rewrite <- E. apply Forall_fmap, Forall_forall. intros j [Hh _]%elem_of_collect. cbn. unfold got_value. by rewrite Hh.
Qed.
