(* ===== verification/Ipc.v ===== *)
(** * Shared message formats (include/sentinel_ipc.h)

    The event with its union of two payloads and the drawbridge request, as the
    bytes that a C compiler for the target lays out, with readers that go by the
    event type. *)

From S2P Require Import Prelude.
From stdpp Require Import prelude list.
From Stdlib Require Import ZArith Lia.
#[local] Open Scope Z_scope.

Definition SENTINEL_EVENT_PROCESS_VIOLATION : Z := 1.
Definition SENTINEL_EVENT_NETWORK_DROP : Z := 2.
Definition HEKI_MAGIC_REQUEST : Z := 0x48454B49.

Record process_violation := ProcessViolation { parent_pid : Z; taint_signature : Z }.
Record network_drop := NetworkDrop { saddr : Z; daddr : Z; target_port : Z }.

(** The union, with the member that the type selects. *)
Inductive event_data := DataProcess (p : process_violation) | DataNetwork (n : network_drop).

Record sentinel_event_t := SentinelEvent { timestamp : Z; event_pid_tgid : Z; data : event_data }.

Definition event_type (e : sentinel_event_t) : Z :=
  match data e with DataProcess _ => SENTINEL_EVENT_PROCESS_VIOLATION | DataNetwork _ => SENTINEL_EVENT_NETWORK_DROP end.

(** ** Writing *)

Definition process_bytes (p : process_violation) : list Z := le_encode 4 (parent_pid p) ++ le_encode 4 0 ++ le_encode 8 (taint_signature p).
Definition network_bytes (n : network_drop) : list Z :=
  le_encode 4 (saddr n) ++ le_encode 4 (daddr n) ++ le_encode 2 (target_port n) ++ le_encode 2 0 ++ le_encode 4 0.
Definition data_bytes (d : event_data) : list Z :=
  match d with DataProcess p => process_bytes p | DataNetwork n => network_bytes n end.

Definition event_bytes (e : sentinel_event_t) : list Z :=
  le_encode 4 (event_type e) ++ le_encode 4 0 ++ le_encode 8 (timestamp e) ++ le_encode 8 (event_pid_tgid e) ++ data_bytes (data e).

Record heki_drawbridge_request := DrawbridgeRequest {
  payload_gva : Z; payload_size : Z; target_subsystem : Z; ephemeral_nonce : Z; request_magic : Z;
}.
Definition request_bytes (r : heki_drawbridge_request) : list Z :=
  le_encode 8 (payload_gva r) ++ le_encode 4 (payload_size r) ++ le_encode 4 (target_subsystem r) ++
  le_encode 8 (ephemeral_nonce r) ++ le_encode 4 (request_magic r).

(** ** Reading *)

Definition word_at (bs : list Z) (off n : nat) : Z := le_decode (take n (drop off bs)).

Definition read_event (bs : list Z) : option sentinel_event_t :=
  if negb (length bs =? 40)%nat then None
  else
    let t := word_at bs 0 4 in
    let head := SentinelEvent (word_at bs 8 8) (word_at bs 16 8) in
    if t =? SENTINEL_EVENT_PROCESS_VIOLATION then Some (head (DataProcess (ProcessViolation (word_at bs 24 4) (word_at bs 32 8))))
    else if t =? SENTINEL_EVENT_NETWORK_DROP then
      Some (head (DataNetwork (NetworkDrop (word_at bs 24 4) (word_at bs 28 4) (word_at bs 32 2))))
    else None.

Definition read_request (bs : list Z) : option heki_drawbridge_request :=
  if negb (length bs =? 28)%nat then None
  else Some (DrawbridgeRequest (word_at bs 0 8) (word_at bs 8 4) (word_at bs 12 4) (word_at bs 16 8) (word_at bs 24 4)).

(** ** Properties *)

Definition wf_data (d : event_data) : Prop :=
  match d with
  | DataProcess p => is_u32 (parent_pid p) /\ is_u64 (taint_signature p)
  | DataNetwork n => is_u32 (saddr n) /\ is_u32 (daddr n) /\ 0 <= target_port n < 65536
  end.
Definition wf_event_t (e : sentinel_event_t) : Prop := is_u64 (timestamp e) /\ is_u64 (event_pid_tgid e) /\ wf_data (data e).
Definition wf_request (r : heki_drawbridge_request) : Prop :=
  is_u64 (payload_gva r) /\ is_u32 (payload_size r) /\ is_u32 (target_subsystem r) /\ is_u64 (ephemeral_nonce r) /\ is_u32 (request_magic r).

(** A word of the layout, when the bytes before it are those of known fields. *)
Lemma word_at_here n z rest : 0 <= z < 256 ^ Z.of_nat n -> word_at (le_encode n z ++ rest) 0 n = z.
Proof.
  intros Hz. unfold word_at. rewrite drop_0, take_app_length' by (symmetry; apply length_le_encode). by apply le_decode_encode.
Qed.
Lemma word_at_skip n m z rest off : (n <= off)%nat -> word_at (le_encode n z ++ rest) off m = word_at rest (off - n) m.
Proof.
  intros Hn. unfold word_at. do 2 f_equal. rewrite drop_app. rewrite drop_ge by (rewrite length_le_encode; lia).
  by rewrite length_le_encode.
Qed.
Ltac layout := repeat (rewrite word_at_skip by lia; cbn [Nat.sub]); rewrite ?app_nil_r;
  match goal with |- word_at (le_encode ?n ?z) 0 ?n = _ => rewrite <- (app_nil_r (le_encode n z)) | _ => idtac end;
  apply word_at_here;
  match goal with |- context [256 ^ ?n] => let v := eval vm_compute in (256 ^ n) in change (256 ^ n) with v end;
  unfold is_u32, is_u64 in *; lia.

(** The two payloads take the same 16 bytes, an event has 40 and a request 28, and
    both are read back as they were written. *)
Theorem ipc_roundtrip :
  (forall d, length (data_bytes d) = 16%nat) /\
  (forall e, length (event_bytes e) = 40%nat /\ (wf_event_t e -> read_event (event_bytes e) = Some e)) /\
  (forall r, length (request_bytes r) = 28%nat /\ (wf_request r -> read_request (request_bytes r) = Some r)).
Proof.
  assert (forall d, length (data_bytes d) = 16%nat) as Hd.
  { intros [p|n]; unfold data_bytes, process_bytes, network_bytes; by rewrite !length_app, !length_le_encode. }
  split; [done|]. split.
  - intros [ts pt d]. assert (length (event_bytes (SentinelEvent ts pt d)) = 40%nat) as Hl.
    { unfold event_bytes. cbn [data]. by rewrite !length_app, !length_le_encode, Hd. }
    split; [done|]. intros (H1 & H2 & H3). cbn [timestamp event_pid_tgid data] in *. unfold read_event. rewrite Hl. cbn [Nat.eqb negb].
    unfold event_bytes. cbn [timestamp event_pid_tgid data].
    rewrite word_at_here by (destruct d; by vm_compute). destruct d as [[pp ts']|[sa da tp]].
    + unfold event_type. cbn [data]. rewrite Z.eqb_refl. do 2 f_equal; [| |do 2 f_equal].
      all: cbn [data_bytes wf_data] in *; unfold process_bytes; cbn [parent_pid taint_signature] in *; destruct H3; layout.
    + unfold event_type. cbn [data]. rewrite Z.eqb_refl.
      change (SENTINEL_EVENT_NETWORK_DROP =? SENTINEL_EVENT_PROCESS_VIOLATION) with false. cbv iota. do 2 f_equal; [| |do 2 f_equal].
      all: cbn [data_bytes wf_data] in *; unfold network_bytes; cbn [saddr daddr target_port] in *; destruct H3 as (? & ? & ?); layout.
  - intros [a b c d m]. assert (length (request_bytes (DrawbridgeRequest a b c d m)) = 28%nat) as Hl.
    { unfold request_bytes. by rewrite !length_app, !length_le_encode. }
    split; [done|]. intros (H1 & H2 & H3 & H4 & H5). unfold read_request. rewrite Hl. cbn [Nat.eqb negb].
    unfold request_bytes. cbn [payload_gva payload_size target_subsystem ephemeral_nonce request_magic] in *. do 2 f_equal; layout.
Qed.
