(* ===== verification/TcaHart.v ===== *)
(** * The TCA hart and its context switch (tca-prototype)

    The capability hardware as the programs of tca-prototype use it, the custom
    instructions of tca_intrinsics.h, and [switch_context] of os_isolation_test.c as
    a list of RISC-V instructions.

    The hardware itself is not in the repository: its state and what its registers,
    its gate on memory accesses and its bound on the program counter do are the
    operations of a class, with the behaviour that the programs' comments document
    as laws. *)

From S2P Require Import Prelude.
From stdpp Require Import prelude list strings.
From Stdlib Require Import ZArith Lia.
#[local] Open Scope list_scope.
#[local] Open Scope Z_scope.

(** ** The hardware *)

Definition CSR_TCA_INTENT : Z := 0x800.
Definition CSR_TCA_TAINT : Z := 0x801.

(** An access at a guarded address can change the state, and a store can be refused
    with a cause. *)
Class TcaCpu := {
  tca : Type;
  csr_read : Z -> tca -> Z;
  csr_write : Z -> Z -> tca -> tca;
  set_intent : Z -> Z -> tca -> tca;
  clear_intent : tca -> tca;
  on_load : Z -> tca -> tca;
  on_store : Z -> Z -> tca -> Z + tca;
  on_fetch : Z -> tca -> tca;
}.

(** The gate looks at addresses from here on. *)
Definition TCA_GUARDED : Z := 0x87000000.

Class TcaLaws `{T : TcaCpu} := {
  csr_is_u64 n c : is_u64 (csr_read n c);
  intent_written v c : is_u64 v -> csr_read CSR_TCA_INTENT (csr_write CSR_TCA_INTENT v c) = v;
  taint_written v c : is_u64 v -> csr_read CSR_TCA_TAINT (csr_write CSR_TCA_TAINT v c) = v;
  taint_keeps_intent v c : csr_read CSR_TCA_INTENT (csr_write CSR_TCA_TAINT v c) = csr_read CSR_TCA_INTENT c;
  load_unguarded a c : a < TCA_GUARDED -> on_load a c = c;
  store_unguarded a v c : a < TCA_GUARDED -> on_store a v c = inr c;
}.

(** ** The custom instructions *)

(** [.insn r opcode, funct3, funct7, rd, rs1, rs2] *)
Definition insn_r (opcode funct3 funct7 rd rs1 rs2 : Z) : Z :=
  Z.lor (Z.shiftl funct7 25) (Z.lor (Z.shiftl rs2 20) (Z.lor (Z.shiftl rs1 15)
    (Z.lor (Z.shiftl funct3 12) (Z.lor (Z.shiftl rd 7) opcode)))).
Definition TCA_SET_INTENT (ptr hash : Z) : Z := insn_r 0x0B 0x0 0x01 0 ptr hash.
Definition TCA_CLEAR : Z := insn_r 0x0B 0x0 0x02 0 0 0.

(** ** The machine *)

Section hart.
Context `{T : TcaCpu}.

(** Registers by number, memory by 64-bit words at their addresses, the state of the
    capability hardware, and what the UART has received. *)
Record hart := Hart { xr : nat -> Z; pc : Z; ram : Z -> Z; cap : tca; uart : string }.

Definition ra : nat := 1.
Definition sp : nat := 2.
Definition t0 : nat := 5.
Definition t1 : nat := 6.
Definition a0 : nat := 10.
Definition a1 : nat := 11.
Definition saved_regs : list nat := [8; 9; 18; 19; 20; 21; 22; 23; 24; 25; 26; 27]%nat.

Definition set_x (r : nat) (v : Z) (h : hart) : hart :=
  Hart (fun r' => if decide (r = r') then v else xr h r') (pc h) (ram h) (cap h) (uart h).
Definition set_pc (v : Z) (h : hart) : hart := Hart (xr h) v (ram h) (cap h) (uart h).
Definition set_ram (a v : Z) (h : hart) : hart :=
  Hart (xr h) (pc h) (fun a' => if decide (a = a') then v else ram h a') (cap h) (uart h).
Definition set_cap (c : tca) (h : hart) : hart := Hart (xr h) (pc h) (ram h) c (uart h).
Definition print (s : string) (h : hart) : hart := Hart (xr h) (pc h) (ram h) (cap h) (uart h +:+ s).

(** A 64-bit access through the gate; [inl] is the cause of a refused store. *)
Definition load_word (a : Z) (h : hart) : Z * hart := (ram h a, set_cap (on_load a (cap h)) h).
Definition store_word (a v : Z) (h : hart) : Z + hart :=
  match on_store a v (cap h) with
  | inl cause => inl cause
  | inr c => inr (set_ram a v (set_cap c h))
  end.

Inductive instr :=
| Addi (rd rs : nat) (k : Z)
| Sd (rs : nat) (off : Z) (base : nat)
| Ld (rd : nat) (off : Z) (base : nat)
| Csrr (rd : nat) (csr : Z)
| Csrw (csr : Z) (rs : nat)
| Ret.

Definition exec (i : instr) (h : hart) : Z + hart :=
  match i with
  | Addi rd rs k => inr (set_x rd (u64 (xr h rs + k)) h)
  | Sd rs off base => store_word (u64 (xr h base + off)) (xr h rs) h
  | Ld rd off base => let '(v, h') := load_word (u64 (xr h base + off)) h in inr (set_x rd v h')
  | Csrr rd csr => inr (set_x rd (csr_read csr (cap h)) h)
  | Csrw csr rs => inr (set_cap (csr_write csr (xr h rs) (cap h)) h)
  | Ret => inr (set_pc (xr h ra) h)
  end.

Fixpoint run (code : list instr) (h : hart) : Z + hart :=
  match code with
  | [] => inr h
  | i :: rest => match exec i h with inl cause => inl cause | inr h' => run rest h' end
  end.

(** ** [switch_context] *)

Definition switch_context_code : list instr :=
  [Addi sp sp (-128);
   Sd ra 0 sp; Sd 8 8 sp; Sd 9 16 sp; Sd 18 24 sp; Sd 19 32 sp; Sd 20 40 sp; Sd 21 48 sp; Sd 22 56 sp; Sd 23 64 sp;
   Sd 24 72 sp; Sd 25 80 sp; Sd 26 88 sp; Sd 27 96 sp;
   Csrr t0 CSR_TCA_INTENT; Sd t0 104 sp; Csrr t1 CSR_TCA_TAINT; Sd t1 112 sp;
   Sd sp 0 a0; Ld sp 0 a1;
   Ld t0 104 sp; Csrw CSR_TCA_INTENT t0; Ld t1 112 sp; Csrw CSR_TCA_TAINT t1;
   Ld ra 0 sp; Ld 8 8 sp; Ld 9 16 sp; Ld 18 24 sp; Ld 19 32 sp; Ld 20 40 sp; Ld 21 48 sp; Ld 22 56 sp; Ld 23 64 sp;
   Ld 24 72 sp; Ld 25 80 sp; Ld 26 88 sp; Ld 27 96 sp;
   Addi sp sp 128; Ret].

(** The call [switch_context(prev, next)] that returns to [ret]. *)
Definition switch_context (prev next ret : Z) (h : hart) : Z + hart :=
  run switch_context_code (set_x ra ret (set_x a1 next (set_x a0 prev h))).

(** The stack of a new thread, as [_start] of os_isolation_test.c prepares it: the
    frame that the first switch to it restores. *)
Definition prepare_thread (tcb stack_top entry : Z) (h : hart) : hart :=
  let sp_b := stack_top - 128 in
  set_ram tcb sp_b (set_ram (sp_b + 112) 0 (set_ram (sp_b + 104) 0 (set_ram sp_b entry h))).
End hart.
