(* ===== verification/TcaMock.v ===== *)
(** * An executable TCA hart

    An instance of the capability hardware with its laws, on which the programs of
    tca-prototype run: registers that keep what was written, a taint that a read of
    the source sets, and a sink that refuses an intent outside the filter or drops
    what a tainted hart sends. *)

From S2P Require Import Prelude TcaHart.
From stdpp Require Import prelude list strings.
From Stdlib Require Import ZArith Lia.
#[local] Open Scope Z_scope.

Definition TAINT_SOURCE : Z := 0x87E00000.
Definition TX_TRIGGER : Z := 0x87D00000.

(** [tx_log]: each value written to the sink, and whether it was sent. *)
Record mock_tca := MockTca { csrs : Z -> Z; tx_log : list (Z * bool) }.

Definition set_csr (n v : Z) (c : mock_tca) : mock_tca :=
  MockTca (fun n' => if decide (n = n') then v else csrs c n') (tx_log c).

Definition get_csr (n : Z) (c : mock_tca) : Z := u64 (csrs c n).

(** The filter of 256 bits in four words, asked for the two bits that the comments of
    os_isolation_test_v2.c name: that of the low byte of the intent, and bit 0. *)
Definition filter_has (b0 b1 b2 b3 intent : Z) : bool :=
  Z.testbit (nth (Z.to_nat (u8 intent / 64)) [b0; b1; b2; b3] 0) (u8 intent mod 64) && Z.testbit b0 0.

Definition mock_store (a v : Z) (c : mock_tca) : Z + mock_tca :=
  if a <? TCA_GUARDED then inr c
  else if get_csr 0x804 c =? a then
    if filter_has (get_csr 0x805 c) (get_csr 0x806 c) (get_csr 0x807 c) (get_csr 0x808 c) (get_csr CSR_TCA_INTENT c)
    then inr (MockTca (csrs c) (tx_log c ++ [(v, true)])) else inl 15
  else if a =? TX_TRIGGER then inr (MockTca (csrs c) (tx_log c ++ [(v, get_csr CSR_TCA_TAINT c =? 0)]))
  else inr c.

#[global] Instance mock_cpu : TcaCpu := {|
  tca := mock_tca;
  csr_read := get_csr;
  csr_write := set_csr;
  set_intent _ hash c := set_csr CSR_TCA_INTENT hash c;
  clear_intent c := set_csr CSR_TCA_INTENT 0 c;
  on_load a c := if a =? TAINT_SOURCE then set_csr CSR_TCA_TAINT 1 c else c;
  on_store := mock_store;
  on_fetch p c := if get_csr 0x809 c =? p then set_csr CSR_TCA_INTENT 0 c else c;
|}.

Lemma get_set n v c : is_u64 v -> get_csr n (set_csr n v c) = v.
Proof. intros Hv. unfold get_csr. cbn. rewrite decide_True by done. by apply u64_id. Qed.
Lemma get_set_ne n m v c : n <> m -> get_csr m (set_csr n v c) = get_csr m c.
Proof. intros Hn. unfold get_csr. cbn. by rewrite decide_False. Qed.

#[global] Instance mock_laws : TcaLaws.
Proof.
  split; cbn.
  - intros n c. apply u64_is_u64.
  - intros v c. apply get_set.
  - intros v c. apply get_set.
  - intros v c. by apply get_set_ne.
  - intros a c Ha. destruct (Z.eqb_spec a TAINT_SOURCE); [|done]. unfold TAINT_SOURCE, TCA_GUARDED in *. lia.
  - intros a v c Ha. unfold mock_store. by rewrite (proj2 (Z.ltb_lt _ _)).
Qed.

Definition mock_reset : mock_tca := MockTca (fun _ => 0) [].
Definition mock_hart (stack : Z) : hart := Hart (fun r => if decide (r = sp) then stack else 0) 0 (fun _ => 0) mock_reset EmptyString.
