(* ===== verification/TcaSwitchProofs.v ===== *)
(** * Isolation of threads by the TCA context switch

    Threads that run in turn on one hart, each resumed by [switch_context] with the
    registers and the capability state of its own latest yield, whatever the others
    did in between. *)

From S2P Require Import Prelude TcaHart TcaMock.
From stdpp Require Import prelude list strings.
From Stdlib Require Import ZArith Lia.
#[local] Open Scope list_scope.
#[local] Open Scope Z_scope.

Section switch.
Context `{TL : TcaLaws}.

(** ** Blocks of stores and loads *)

Lemma run_code_app a b h : run (a ++ b) h = match run a h with inl e => inl e | inr h' => run b h' end.
Proof. revert h. induction a as [|i a IH]; intros h; [done|]. cbn. by destruct (exec i h). Qed.

Definition sds (l : list (nat * Z)) : list instr := (fun p => Sd p.1 p.2 sp) <$> l.
Definition lds (l : list (nat * Z)) : list instr := (fun p => Ld p.1 p.2 sp) <$> l.

(** The words at offsets below [sp] that are free of the gate. *)
Definition in_frame (b : Z) (l : list (nat * Z)) : Prop := Forall (fun p => 0 <= b + p.2 < TCA_GUARDED) l.

Record stored (l : list (nat * Z)) (h h' : hart) : Prop := {
  sd_x : xr h' = xr h; sd_cap : cap h' = cap h; sd_uart : uart h' = uart h;
  sd_new p : p ∈ l -> ram h' (xr h sp + p.2) = xr h p.1;
  sd_old a : (forall p, p ∈ l -> a <> xr h sp + p.2) -> ram h' a = ram h a;
}.

Lemma exec_sd r off base h : 0 <= xr h base + off < TCA_GUARDED ->
  exec (Sd r off base) h = inr (set_ram (xr h base + off) (xr h r) h).
Proof.
  intros Hb. cbn [exec]. unfold store_word. rewrite u64_id by (unfold is_u64, TCA_GUARDED in *; lia).
  rewrite store_unguarded by lia. by destruct h.
Qed.

Lemma run_sds l h : in_frame (xr h sp) l -> NoDup l.*2 -> exists h', run (sds l) h = inr h' /\ stored l h h'.
Proof.
  revert h. induction l as [|[r off] l IH]; intros h Hf Hn.
  { exists h. split; [done|]. split; [done..| |done]. by intros p ?%not_elem_of_nil. }
  apply Forall_cons in Hf as [H0 Hf]. apply NoDup_cons in Hn as [Hx Hn]. cbn [fst snd] in H0.
  change (sds ((r, off) :: l)) with (Sd r off sp :: sds l). cbn [run].
  rewrite exec_sd by done. destruct (IH (set_ram (xr h sp + off) (xr h r) h) Hf Hn) as (h' & -> & [H1 H2 Hu H3 H4]).
  exists h'. split; [done|]. split; [done..| |].
  - intros p [->|Hp]%elem_of_cons; [|by apply H3]. cbn [fst snd]. rewrite H4; [by apply decide_True|].
    intros q Hq E. apply Hx, list_elem_of_fmap. exists q. split; [cbn in E |- *; lia|done].
  - intros a Ha. rewrite H4; [|intros p Hp; apply Ha; by right]. cbn [set_ram ram]. apply decide_False.
    intros <-. by eapply (Ha (r, off)); [left|].
Qed.

Record loaded (l : list (nat * Z)) (h h' : hart) : Prop := {
  ld_ram : ram h' = ram h; ld_cap : cap h' = cap h; ld_uart : uart h' = uart h;
  ld_new p : p ∈ l -> xr h' p.1 = ram h (xr h sp + p.2);
  ld_old r : r ∉ l.*1 -> xr h' r = xr h r;
}.

Lemma exec_ld r off base h : 0 <= xr h base + off < TCA_GUARDED ->
  exec (Ld r off base) h = inr (set_x r (ram h (xr h base + off)) h).
Proof.
  intros Hb. cbn [exec load_word]. rewrite u64_id by (unfold is_u64, TCA_GUARDED in *; lia).
  rewrite load_unguarded by lia. by destruct h.
Qed.

Lemma run_lds l h : in_frame (xr h sp) l -> NoDup l.*1 -> sp ∉ l.*1 -> exists h', run (lds l) h = inr h' /\ loaded l h h'.
Proof.
  revert h. induction l as [|[r off] l IH]; intros h Hf Hn Hs.
  { exists h. split; [done|]. split; [done..| |done]. by intros p ?%not_elem_of_nil. }
  apply Forall_cons in Hf as [H0 Hf]. apply NoDup_cons in Hn as [Hx Hn]. cbn [fmap list_fmap fst] in Hs, Hx, Hn.
  rewrite not_elem_of_cons in Hs. destruct Hs as [Hsp Hs]. cbn [fst snd] in H0.
  change (lds ((r, off) :: l)) with (Ld r off sp :: lds l). cbn [run].
  rewrite exec_ld by done. set (h1 := set_x r _ h).
  assert (xr h1 sp = xr h sp) as E by (by apply decide_False).
  destruct (IH h1) as (h' & -> & [H1 H2 Hu H3 H4]); [by rewrite E|done..|]. rewrite E in H3.
  exists h'. split; [done|]. split; [done..| |].
  - intros p [->|Hp]%elem_of_cons; [|by apply H3]. cbn [fst snd]. rewrite H4 by done. by apply decide_True.
  - intros r'. rewrite fmap_cons, not_elem_of_cons. intros [Hr Hr']. rewrite H4 by done. by apply decide_False.
Qed.

(** ** Contexts *)

(** What a thread has when it runs, and what its frame in memory holds. *)
Record view := View { v_ra : Z; v_sp : Z; v_s : list Z; v_intent : Z; v_taint : Z }.

Definition view_of (h : hart) : view :=
  View (xr h ra) (xr h sp) (xr h <$> saved_regs) (csr_read CSR_TCA_INTENT (cap h)) (csr_read CSR_TCA_TAINT (cap h)).

Definition s_slots : list (nat * Z) :=
  imap (fun i r => (r, 8 + 8 * Z.of_nat i)) saved_regs.
Definition frame_view (m : Z -> Z) (b : Z) : view :=
  View (m b) (b + 128) ((fun p => m (b + p.2)) <$> s_slots) (m (b + 104)) (m (b + 112)).

Definition slots : list (nat * Z) := (ra, 0) :: s_slots.

Lemma slots_bounds p : p ∈ slots -> 0 <= p.2 <= 96.
Proof.
  assert (Forall (fun p : nat * Z => 0 <= p.2 <= 96) slots) as H by (apply (bool_decide_unpack _); by vm_compute).
  intros Hp. by apply (proj1 (Forall_forall _ _) H).
Qed.

Lemma slots_in_frame b : 0 <= b -> b + 128 <= TCA_GUARDED -> in_frame b slots.
Proof. intros H1 H2. apply Forall_forall. intros p Hp%slots_bounds. lia. Qed.

Lemma slots_not_sp p : p ∈ slots -> sp <> p.1.
Proof.
  assert (Forall (fun p : nat * Z => sp <> p.1) slots) as H by (apply (bool_decide_unpack _); by vm_compute).
  intros Hp. by apply (proj1 (Forall_forall _ _) H).
Qed.
Lemma slots_regs : s_slots.*1 = saved_regs.
Proof. done. Qed.

Definition save_code : list instr :=
  [Addi sp sp (-128)] ++ sds slots ++ [Csrr t0 CSR_TCA_INTENT; Sd t0 104 sp; Csrr t1 CSR_TCA_TAINT; Sd t1 112 sp; Sd sp 0 a0].
Definition restore_code : list instr :=
  [Ld sp 0 a1; Ld t0 104 sp; Csrw CSR_TCA_INTENT t0; Ld t1 112 sp; Csrw CSR_TCA_TAINT t1] ++ lds slots ++ [Addi sp sp 128; Ret].

Lemma switch_code : switch_context_code = save_code ++ restore_code.
Proof. done. Qed.

Record switched_out (b : Z) (h h' : hart) : Prop := {
  so_cap : cap h' = cap h; so_uart : uart h' = uart h; so_a1 : xr h' a1 = xr h a1;
  so_frame : frame_view (ram h') b = view_of h; so_tcb : ram h' (xr h a0) = b;
  so_old a : (a < b \/ b + 128 <= a) -> a <> xr h a0 -> ram h' a = ram h a;
}.

Lemma run_save h :
  128 <= xr h sp <= TCA_GUARDED -> 0 <= xr h a0 < TCA_GUARDED -> (xr h a0 < xr h sp - 128 \/ xr h sp <= xr h a0) ->
  exists h', run save_code h = inr h' /\ switched_out (xr h sp - 128) h h'.
Proof.
  intros Hs Ha Hd. set (b := xr h sp - 128). unfold save_code. rewrite run_code_app. cbn [run exec].
  rewrite u64_id by (unfold is_u64, TCA_GUARDED in *; lia). set (h1 := set_x sp _ h).
  assert (xr h1 sp = b) as Eb by done. rewrite run_code_app.
  destruct (run_sds slots h1) as (h2 & -> & [H1 H2 Hu H3 H4]); [rewrite Eb; apply slots_in_frame; lia|by apply (bool_decide_unpack _)|].
  cbn [run exec]. fold t0 t1.
  set (h3 := set_x t0 (csr_read CSR_TCA_INTENT (cap h2)) h2).
  assert (xr h3 sp = b) as E3 by (unfold h3; cbn; by rewrite H1).
  change (store_word (u64 (xr h3 sp + 104)) (xr h3 t0) h3) with (exec (Sd t0 104 sp) h3). rewrite exec_sd by lia.
  set (h4 := set_ram _ _ h3). set (h5 := set_x t1 _ h4).
  assert (xr h5 sp = b) as E5 by (unfold h5; cbn; by rewrite H1).
  change (store_word (u64 (xr h5 sp + 112)) (xr h5 t1) h5) with (exec (Sd t1 112 sp) h5). rewrite exec_sd by lia.
  set (h6 := set_ram _ _ h5). assert (xr h6 a0 = xr h a0) as E6 by (unfold h6, h5, h4, h3; cbn; by rewrite H1).
  change (store_word (u64 (xr h6 a0 + 0)) (xr h6 sp) h6) with (exec (Sd sp 0 a0) h6). rewrite exec_sd by lia.
  eexists. split; [reflexivity|]. set (h7 := set_ram _ _ h6).
  assert (forall a, ram h7 a = if decide (xr h a0 = a) then b else if decide (b + 112 = a) then csr_read CSR_TCA_TAINT (cap h)
    else if decide (b + 104 = a) then csr_read CSR_TCA_INTENT (cap h) else ram h2 a) as Hm.
  { intros a. unfold h7, h6, h5, h4, h3. cbn. rewrite H1, H2, Z.add_0_r. by fold b. }
  assert (forall p, p ∈ slots -> ram h7 (b + p.2) = xr h p.1) as Hw.
  { intros p Hp. pose proof (slots_bounds p Hp). rewrite Hm, !decide_False by lia. rewrite H3 by done.
    apply decide_False. by apply slots_not_sp. }
  split.
  - unfold h7, h6, h5, h4, h3. cbn. by rewrite H2.
  - unfold h7, h6, h5, h4, h3. cbn. by rewrite Hu.
  - unfold h7, h6, h5, h4, h3. cbn. by rewrite H1.
  - unfold frame_view, view_of. f_equal.
    + rewrite <- (Z.add_0_r b). apply (Hw (ra, 0)). left.
    + lia.
    + rewrite <- slots_regs, <- list_fmap_compose. apply list_fmap_ext. intros i p Hp%list_elem_of_lookup_2. apply Hw. by right.
    + rewrite Hm, decide_False by lia. by rewrite decide_False, decide_True by lia.
    + by rewrite Hm, decide_False, decide_True by lia.
  - by rewrite Hm, decide_True.
  - intros a Ho Hne. rewrite Hm, !decide_False by lia. apply H4. intros p Hp%slots_bounds. lia.
Qed.

Record switched_in (b : Z) (h h' : hart) : Prop := {
  si_view : view_of h' = frame_view (ram h) b; si_pc : pc h' = ram h b; si_ram : ram h' = ram h; si_uart : uart h' = uart h;
  si_cap : cap h' = csr_write CSR_TCA_TAINT (ram h (b + 112)) (csr_write CSR_TCA_INTENT (ram h (b + 104)) (cap h));
}.

Lemma exec_csrw n r h : exec (Csrw n r) h = inr (set_cap (csr_write n (xr h r) (cap h)) h).
Proof. done. Qed.

Lemma run_restore h b :
  0 <= xr h a1 < TCA_GUARDED -> ram h (xr h a1) = b -> 0 <= b -> b + 128 <= TCA_GUARDED ->
  is_u64 (ram h (b + 104)) -> is_u64 (ram h (b + 112)) ->
  exists h', run restore_code h = inr h' /\ switched_in b h h'.
Proof.
  intros Ha Hb H0 Hg Hi Ht. unfold restore_code. rewrite run_code_app. cbn [run].
  rewrite exec_ld by lia. rewrite Z.add_0_r, Hb. set (h1 := set_x sp b h). assert (xr h1 sp = b) as E1 by done.
  rewrite exec_ld by lia. rewrite E1, exec_csrw. set (h2 := set_cap _ _).
  assert (xr h2 sp = b) as E2 by done. change (ram h1) with (ram h) in h2.
  rewrite exec_ld by lia. rewrite E2, exec_csrw. set (h3 := set_cap _ _).
  assert (xr h3 sp = b) as E3 by done. rewrite run_code_app.
  destruct (run_lds slots h3) as (h4 & -> & [H1 H2 Hu H3 H4]);
    [rewrite E3; by apply slots_in_frame|by apply (bool_decide_unpack _)|by apply (bool_decide_unpack _)|].
  assert (xr h4 sp = b) as E4 by (rewrite H4; [done|by apply (bool_decide_unpack _)]).
  cbn [run exec]. eexists. split; [reflexivity|]. rewrite E4, u64_id by (unfold is_u64, TCA_GUARDED in *; lia).
  assert (xr h4 ra = ram h b) as Era by (rewrite <- (Z.add_0_r b), <- E3; apply (H3 (ra, 0)); left).
  split; [|done..]. unfold view_of, frame_view. f_equal.
  - done.
  - rewrite <- slots_regs, <- list_fmap_compose. apply list_fmap_ext. intros i p Hp%list_elem_of_lookup_2.
    assert (p ∈ slots) as Hs by by right. pose proof (slots_not_sp p Hs). cbn. rewrite decide_False by done.
    rewrite (H3 p Hs). by rewrite E3.
  - change (csr_read CSR_TCA_INTENT (cap h4) = ram h (b + 104)). rewrite H2. unfold h3, h2. cbn [set_cap set_x cap xr].
    rewrite taint_keeps_intent. by apply intent_written.
  - change (csr_read CSR_TCA_TAINT (cap h4) = ram h (b + 112)). rewrite H2. unfold h3, h2. cbn [set_cap set_x cap xr].
    by apply taint_written.
Qed.

(** ** Threads in turn *)

(** [n] threads with a control block and a stack each. *)
Context (n : nat) (tcb lo hi : nat -> Z).

Record layout : Prop := {
  ly_stack t : (t < n)%nat -> 0 <= lo t /\ hi t <= TCA_GUARDED;
  ly_tcb t : (t < n)%nat -> 0 <= tcb t < TCA_GUARDED;
  ly_aligned t : (t < n)%nat -> lo t mod 8 = 0 /\ hi t mod 8 = 0 /\ tcb t mod 8 = 0;
  ly_disjoint t u : (t < n)%nat -> (u < n)%nat -> t <> u -> hi t <= lo u \/ hi u <= lo t;
  ly_tcb_inj t u : (t < n)%nat -> (u < n)%nat -> tcb t = tcb u -> t = u;
  ly_tcb_out t u : (t < n)%nat -> (u < n)%nat -> tcb t < lo u \/ hi u <= tcb t;
}.

(** A stretch of code of thread [t]: any effect that leaves the control blocks and
    the stacks of the other threads alone, with room for a frame at its end. *)
Record confined (t : nat) (h h' : hart) : Prop := {
  cf_sp : lo t + 128 <= xr h' sp <= hi t;
  cf_aligned : xr h' sp mod 8 = 0;
  cf_tcb u : (u < n)%nat -> ram h' (tcb u) = ram h (tcb u);
  cf_stack u a : (u < n)%nat -> u <> t -> lo u <= a < hi u -> ram h' a = ram h a;
}.

(** A turn: the code that the running thread executes, the address to which its call
    of [switch_context] returns, and the thread that it yields to. *)
Record turn := Turn { tn_code : hart -> hart; tn_ret : Z; tn_next : nat }.

Record resumption := Resumption { rs_prev : nat; rs_out : view; rs_next : nat; rs_in : view; rs_pc : Z }.

Definition yielded (ret : Z) (h : hart) : view :=
  let v := view_of h in View ret (v_sp v) (v_s v) (v_intent v) (v_taint v).

Fixpoint run_threads (turns : list turn) (cur : nat) (h : hart) : Z + list resumption * hart :=
  match turns with
  | [] => inr ([], h)
  | tn :: rest =>
      let h1 := tn_code tn h in
      match switch_context (tcb cur) (tcb (tn_next tn)) (tn_ret tn) h1 with
      | inl cause => inl cause
      | inr h2 =>
          match run_threads rest (tn_next tn) h2 with
          | inl cause => inl cause
          | inr (log, h') => inr (Resumption cur (yielded (tn_ret tn) h1) (tn_next tn) (view_of h2) (pc h2) :: log, h')
          end
      end
  end.

Fixpoint confined_turns (turns : list turn) (cur : nat) (h : hart) : Prop :=
  match turns with
  | [] => True
  | tn :: rest =>
      (tn_next tn < n)%nat /\ confined cur h (tn_code tn h) /\
      match switch_context (tcb cur) (tcb (tn_next tn)) (tn_ret tn) (tn_code tn h) with
      | inl _ => True
      | inr h2 => confined_turns rest (tn_next tn) h2
      end
  end.

(** Specification: every thread has a context of its own, which a yield replaces and
    a resumption gives back. *)
Definition keep (t : nat) (v : view) (ctx : nat -> view) : nat -> view := fun u => if decide (t = u) then v else ctx u.

Fixpoint own_contexts (ctx : nat -> view) (log : list resumption) : Prop :=
  match log with
  | [] => True
  | r :: rest =>
      let ctx' := keep (rs_prev r) (rs_out r) ctx in
      rs_in r = ctx' (rs_next r) /\ rs_pc r = v_ra (ctx' (rs_next r)) /\ own_contexts ctx' rest
  end.

(** The threads that are not running have their contexts in memory. *)
Definition held (ctx : nat -> view) (h : hart) (t : nat) : Prop :=
  lo t <= ram h (tcb t) /\ ram h (tcb t) + 128 <= hi t /\ frame_view (ram h) (ram h (tcb t)) = ctx t /\
  is_u64 (v_intent (ctx t)) /\ is_u64 (v_taint (ctx t)).
Definition suspended (ctx : nat -> view) (cur : nat) (h : hart) : Prop :=
  forall t, (t < n)%nat -> t <> cur -> held ctx h t.

Lemma frame_view_ext m m' b : (forall a, b <= a < b + 128 -> m a = m' a) -> frame_view m b = frame_view m' b.
Proof.
  intros H. unfold frame_view. f_equal; [apply H; lia| |apply H; lia..].
  apply list_fmap_ext. intros i p Hp%list_elem_of_lookup_2. apply H.
  assert (p ∈ slots) as Hs%slots_bounds by by right. lia.
Qed.

Lemma switch_turn (ly : layout) ctx cur next ret h h1 :
  (cur < n)%nat -> (next < n)%nat -> suspended ctx cur h -> confined cur h h1 ->
  let ctx' := keep cur (yielded ret h1) ctx in
  exists h2, switch_context (tcb cur) (tcb next) ret h1 = inr h2 /\
    view_of h2 = ctx' next /\ pc h2 = v_ra (ctx' next) /\ suspended ctx' next h2 /\ uart h2 = uart h1 /\
    cap h2 = csr_write CSR_TCA_TAINT (v_taint (ctx' next)) (csr_write CSR_TCA_INTENT (v_intent (ctx' next)) (cap h1)).
Proof.
  intros Hc Hn Hs [Hsp _ Ht Hk] ctx'. unfold switch_context. set (h1' := set_x ra ret _).
  assert (xr h1' sp = xr h1 sp) as Esp by done. assert (xr h1' a0 = tcb cur) as E0 by done. assert (xr h1' a1 = tcb next) as E1 by done.
  pose proof (ly_stack ly cur Hc). pose proof (ly_tcb ly cur Hc). pose proof (ly_tcb_out ly cur cur Hc Hc).
  rewrite switch_code, run_code_app. destruct (run_save h1') as (h2 & -> & [S1 Su S2 S3 S4 S5]); [lia..|].
  rewrite Esp, E0 in *. set (b := xr h1 sp - 128) in *.
  assert (suspended ctx' n h2) as Hall.
  { intros t Hlt _. unfold ctx', keep. destruct (decide (cur = t)) as [<-|Hne].
    - unfold held. rewrite decide_True by done. rewrite S4, S3. split; [lia|]. split; [lia|]. split; [done|]. split; apply csr_is_u64.
    - destruct (Hs t Hlt ltac:(done)) as (F1 & F2 & F3 & F4). pose proof (ly_disjoint ly t cur Hlt Hc ltac:(done)).
      assert (forall a, lo t <= a < hi t -> ram h2 a = ram h a) as Hold.
      { intros a Ha. rewrite S5; [by apply (Hk t)|lia|]. pose proof (ly_tcb_out ly cur t Hc Hlt). lia. }
      assert (ram h2 (tcb t) = ram h (tcb t)) as Et.
      { rewrite S5; [by apply Ht| |intros E; by apply (ly_tcb_inj ly) in E]. pose proof (ly_tcb_out ly t cur Hlt Hc). lia. }
      unfold held. rewrite decide_False by done. rewrite Et. split; [done|]. split; [done|]. split; [|done]. rewrite <- F3.
      apply frame_view_ext. intros a Ha. apply Hold. lia. }
  destruct (Hall next Hn ltac:(lia)) as (F1 & F2 & F3 & F4 & F5). pose proof (ly_stack ly next Hn). pose proof (ly_tcb ly next Hn).
  assert (v_intent (ctx' next) = ram h2 (ram h2 (tcb next) + 104)) as Ei by by rewrite <- F3.
  assert (v_taint (ctx' next) = ram h2 (ram h2 (tcb next) + 112)) as Et by by rewrite <- F3.
  assert (v_ra (ctx' next) = ram h2 (ram h2 (tcb next))) as Er by by rewrite <- F3.
  destruct (run_restore h2 (ram h2 (tcb next))) as (h3 & -> & [R1 R2 R3 R4 R5]); rewrite ?S2, ?E1; [lia|done|lia|lia|by rewrite <- Ei|by rewrite <- Et|].
  exists h3. split; [done|]. split; [by rewrite R1, F3|]. split; [by rewrite R2, Er|].
  split; [intros t Hlt _; unfold held; rewrite R3; apply Hall; lia|]. split; [by rewrite R4, Su|]. by rewrite R5, Ei, Et, S1.
Qed.

Lemma threads_isolated (ly : layout) turns : forall ctx cur h,
  (cur < n)%nat -> suspended ctx cur h -> confined_turns turns cur h ->
  exists log h', run_threads turns cur h = inr (log, h') /\ length log = length turns /\ own_contexts ctx log.
Proof.
  induction turns as [|tn turns IH]; intros ctx cur h Hc Hs Ht; [by exists [], h|].
  destruct Ht as (Hn & Hcf & Hrest). cbn [run_threads].
  destruct (switch_turn ly ctx cur (tn_next tn) (tn_ret tn) h (tn_code tn h) Hc Hn Hs Hcf) as (h2 & E & Hv & Hp & Hs' & _).
  rewrite E in Hrest |- *. destruct (IH _ _ _ Hn Hs' Hrest) as (log & h' & -> & Hl & Ho).
  do 2 eexists. split; [reflexivity|]. cbn. by rewrite Hl.
Qed.

(** A new thread starts at its entry, with neither intent nor taint, and the others
    keep their contexts. *)
Definition fresh_view (t : nat) (entry : Z) (h : hart) : view :=
  View entry (hi t) ((fun p => ram h (hi t - 128 + p.2)) <$> s_slots) 0 0.

Lemma prepare_holds (ly : layout) ctx t entry h :
  (t < n)%nat -> lo t + 128 <= hi t ->
  let h' := prepare_thread (tcb t) (hi t) entry h in
  held (keep t (fresh_view t entry h) ctx) h' t /\
  forall u, (u < n)%nat -> u <> t -> held ctx h u -> held (keep t (fresh_view t entry h) ctx) h' u.
Proof.
  intros Ht Hroom h'. set (b := hi t - 128).
  assert (forall a, ram h' a = if decide (tcb t = a) then b else if decide (b + 112 = a) then 0
    else if decide (b + 104 = a) then 0 else if decide (b = a) then entry else ram h a) as Hm by done.
  pose proof (ly_tcb_out ly t t Ht Ht). split.
  - unfold held. assert (ram h' (tcb t) = b) as -> by by rewrite Hm, decide_True.
    unfold keep. rewrite decide_True by done. split; [lia|]. split; [lia|]. split; [|split; cbn; unfold is_u64; lia].
    unfold frame_view, fresh_view. fold b. f_equal.
    + by rewrite Hm, !decide_False, decide_True by lia.
    + lia.
    + apply list_fmap_ext. intros i p Hp%list_elem_of_lookup_2.
      assert (8 <= p.2 <= 96) by (assert (Forall (fun p : nat * Z => 8 <= p.2 <= 96) s_slots) as Hf
        by (apply (bool_decide_unpack _); by vm_compute); by apply (proj1 (Forall_forall _ _) Hf)).
      by rewrite Hm, !decide_False by lia.
    + rewrite Hm, decide_False by lia. by rewrite decide_False, decide_True by lia.
    + by rewrite Hm, decide_False, decide_True by lia.
  - intros u Hu Hne (F1 & F2 & F3 & F4). unfold held, keep. rewrite decide_False by done.
    pose proof (ly_disjoint ly t u Ht Hu ltac:(done)). pose proof (ly_tcb_out ly u t Hu Ht). pose proof (ly_tcb_out ly t u Ht Hu).
    assert (ram h' (tcb u) = ram h (tcb u)) as ->.
    { rewrite Hm, decide_False by (intros E; by apply (ly_tcb_inj ly) in E). by rewrite !decide_False by lia. }
    split; [done|]. split; [done|]. split; [|done]. rewrite <- F3. apply frame_view_ext. intros a Ha.
    by rewrite Hm, !decide_False by lia.
Qed.
End switch.

(** ** Theorem *)

(** C21. Threads are isolated: [n] threads with disjoint stacks and control blocks run
    in turn, each with code that keeps off the stacks and control blocks of the others
    but is arbitrary otherwise, also in what it does to registers and capability state.
    Every switch succeeds, and every thread goes on at the return address, with the
    stack pointer, the saved registers, the intent and the taint of its own latest
    yield (or of its preparation, with neither intent nor taint), whatever the threads
    in between did. *)
Theorem switches_isolate `{TcaLaws} n tcb lo hi turns ctx cur h t entry :
  layout n tcb lo hi -> (cur < n)%nat -> (t < n)%nat -> t <> cur -> lo t + 128 <= hi t ->
  (forall u, (u < n)%nat -> u <> cur -> u <> t -> held tcb lo hi ctx h u) ->
  confined_turns n tcb lo hi turns cur (prepare_thread (tcb t) (hi t) entry h) ->
  exists log h', run_threads tcb turns cur (prepare_thread (tcb t) (hi t) entry h) = inr (log, h') /\
    length log = length turns /\ own_contexts (keep t (fresh_view hi t entry h) ctx) log.
Proof.
  intros ly Hc Ht Hne Hroom Hheld Hconf.
  destruct (prepare_holds n tcb lo hi ly ctx t entry h Ht Hroom) as [P1 P2].
  eapply threads_isolated; [done..| |done]. intros u Hu Huc.
  destruct (decide (u = t)) as [->|Hut]; [done|]. by apply P2; [..|apply Hheld].
Qed.

(** ** Two threads on the executable hart *)

Definition demo_tcb (t : nat) : Z := 0x80003000 + 8 * Z.of_nat t.
Definition demo_lo (t : nat) : Z := if (t =? 0)%nat then 0x83000000 else 0x80004000.
Definition demo_hi (t : nat) : Z := if (t =? 0)%nat then 0x84000000 else 0x80005000.

Lemma demo_layout : layout 2 demo_tcb demo_lo demo_hi.
Proof.
  split; intros t; try intros u; unfold TCA_GUARDED, demo_tcb, demo_lo, demo_hi; intros;
    repeat match goal with |- context [(?k =? 0)%nat] => destruct (Nat.eqb_spec k 0) end; try lia; by vm_compute.
Qed.

(** Code that sets a saved register, the intent and the taint. *)
Definition demo_code (s intent taint : Z) (h : hart) : hart :=
  set_x 8 s (set_cap (csr_write CSR_TCA_TAINT taint (csr_write CSR_TCA_INTENT intent (cap h))) h).
Definition demo_turns : list turn :=
  [Turn (demo_code 77 0x42 1) 0x80002024 1; Turn (demo_code 1 0x99 0) 0x80001018 0].

Lemma demo_confined t s i k h : (t < 2)%nat -> demo_lo t + 128 <= xr h sp <= demo_hi t -> xr h sp mod 8 = 0 ->
  confined 2 demo_tcb demo_lo demo_hi t h (demo_code s i k h).
Proof. intros Ht Hs Ha. by split. Qed.

Lemma switches_isolate_witness :
  exists log h', run_threads demo_tcb demo_turns 0 (prepare_thread (demo_tcb 1) (demo_hi 1) 0x80001000 (mock_hart 0x84000000)) = inr (log, h') /\
    length log = 2%nat /\
    own_contexts (keep 1 (fresh_view demo_hi 1 0x80001000 (mock_hart 0x84000000)) (fun _ => view_of (mock_hart 0x84000000))) log.
Proof.
  apply (switches_isolate 2 demo_tcb demo_lo demo_hi demo_turns); [apply demo_layout|lia|lia|done|unfold demo_lo, demo_hi; cbn; lia|lia|].
  set (h := prepare_thread _ _ _ _).
  assert (confined 2 demo_tcb demo_lo demo_hi 0 h (demo_code 77 0x42 1 h)) as Hc by (apply demo_confined; [lia|by vm_compute..]).
  split; [cbn; lia|]. split; [done|].
  destruct (prepare_holds 2 demo_tcb demo_lo demo_hi demo_layout (fun _ => view_of h) 1 0x80001000 (mock_hart 0x84000000)) as [Hp _];
    [lia|by vm_compute|]. fold h in Hp.
  destruct (switch_turn 2 demo_tcb demo_lo demo_hi demo_layout _ 0 1 0x80002024 h (demo_code 77 0x42 1 h) ltac:(lia) ltac:(lia)
    ltac:(intros t ? ?; by replace t with 1%nat by lia) Hc) as (h2 & E & Hv & _).
  change (tn_next (Turn (demo_code 77 0x42 1) 0x80002024 1)) with 1%nat.
  change (switch_context _ _ _ _) with (switch_context (demo_tcb 0) (demo_tcb 1) 0x80002024 (demo_code 77 0x42 1 h)). rewrite E.
  assert (xr h2 sp = 0x80005000) as Hs by (apply (f_equal v_sp) in Hv; exact Hv).
  split; [cbn; lia|]. split; [|cbn [confined_turns]; by case_match].
  apply demo_confined; [lia|rewrite Hs; unfold demo_lo, demo_hi; cbn; lia|by rewrite Hs].
Defined.
