(* ===== verification/TcaPrograms.v ===== *)
(** * The programs of tca-prototype

    The bare-metal tests as lists of statements: os_isolation_test.c and exfil_test.c,
    which the compiler pass instruments and which then run on the hart;
    os_isolation_test_v2.c with its trap handler in machine mode; benchmark.c and
    ptr_test.c.

    Statement [j] of a function has the address of the function plus [4 * j]; this
    stands for the code that a compiler emits.  The loop at the end of a program is
    the end of a run. *)

From S2P Require Import Prelude CStrings CompilerPass TcaHart.
From stdpp Require Import prelude list strings.
From Stdlib Require Import ZArith Lia Ascii.
#[local] Open Scope string_scope.
#[local] Open Scope list_scope.
#[local] Open Scope Z_scope.

Definition NL : string := String (ascii_of_nat 10) EmptyString.

Definition joined (lines : list string) : string := foldr String.append EmptyString lines.
Lemma joined_snoc lines s : joined (lines ++ [s]) = joined lines +:+ s.
Proof.
  induction lines as [|l lines IH]; cbn; [by rewrite string_app_nil_r|]. unfold joined in IH.
  by rewrite IH, <- str_app_assoc.
Qed.

(** The addresses that the tests read and write. *)
Definition tainted_source : Z := 0x87E00000.
Definition tx_trigger : Z := 0x87D00000.

Section programs.
Context `{T : TcaCpu}.

(** ** Statements *)

Inductive stmt :=
| Puts (s : string)
| LoadFrom (a : Z)
| StoreTo (a v : Z)
| IntentStartCall (name : string)
| IntentEndCall
| PrepareThread (tcb top entry : Z)
| SwitchTo (prev next : Z).

Definition next_pc (addr : Z) (h : hart) : hart := set_pc (u64 (addr + 4)) h.

Definition exec_stmt (addr : Z) (s : stmt) (h : hart) : Z + hart :=
  match s with
  | Puts text => inr (next_pc addr (print text h))
  | LoadFrom a => inr (next_pc addr (load_word a h).2)
  | StoreTo a v => match store_word a v h with inl cause => inl cause | inr h' => inr (next_pc addr h') end
  | PrepareThread tcb top entry => inr (next_pc addr (prepare_thread tcb top entry h))
  | SwitchTo prev next => switch_context prev next (u64 (addr + 4)) h
  | IntentStartCall _ | IntentEndCall => inr (next_pc addr h)
  end.

(** ** Compilation *)

Record cfunc := CFunc { f_addr : Z; f_body : list stmt }.

(** The body in one block, and the loop. *)
Definition ir_op (i : nat) (s : stmt) : op :=
  match s with
  | IntentStartCall _ => IntentStart i
  | IntentEndCall => IntentEnd
  | _ => OtherInst i
  end.
Definition ir_func (f : cfunc) : func :=
  [BasicBlock (imap ir_op (f_body f)) (Branch [1%nat]); BasicBlock [] (Branch [1%nat])].

Definition compile `{Analyses} (fs : list cfunc) : option (list (list op) * list Z) :=
  match sentinel_pass (ir_func <$> fs) with
  | None => None
  | Some (m, got) => Some ((fun f => insts_at f 0) <$> m, got)
  end.

(** [SetIntent k] loads entry [k] of the table and runs [tca_set_intent] with the
    function's address; [TcaClear] is [tca_clear]. *)
Definition exec_compiled (f : cfunc) (got : list Z) (addr : Z) (o : op) (h : hart) : Z + hart :=
  match o with
  | OtherInst i => match f_body f !! i with Some s => exec_stmt addr s h | None => inr (next_pc addr h) end
  | SetIntent k => inr (next_pc addr (set_cap (set_intent (f_addr f) (default 0 (got !! k)) (cap h)) h))
  | TcaClear => inr (next_pc addr (set_cap (clear_intent (cap h)) h))
  | IntentStart _ | IntentEnd | Phi _ => inr (next_pc addr h)
  end.

(** The function and the instruction at an address. *)
Fixpoint fetch (fs : list cfunc) (code : list (list op)) (addr : Z) : option (cfunc * op) :=
  match fs, code with
  | f :: fs', ops :: code' =>
      if (f_addr f <=? addr) && (addr <? f_addr f + 4 * Z.of_nat (length ops))
      then (fun o => (f, o)) <$> ops !! Z.to_nat ((addr - f_addr f) / 4)
      else fetch fs' code' addr
  | _, _ => None
  end.

(** [Some (inr h)] is a run that reached a loop, [Some (inl cause)] a refused store. *)
Fixpoint run_program (fuel : nat) (fs : list cfunc) (code : list (list op)) (got : list Z) (h : hart) : option (Z + hart) :=
  match fuel with
  | O => None
  | S fuel' =>
      match fetch fs code (pc h) with
      | None => Some (inr h)
      | Some (f, o) =>
          match exec_compiled f got (pc h) o h with
          | inl cause => Some (inl cause)
          | inr h' => run_program fuel' fs code got h'
          end
      end
  end.

(** ** os_isolation_test.c *)

Definition rule : string := "========================================" +:+ NL.
Definition network_intent : string := "network_send_socket_data".

Definition thread_b_func (addr thread_a thread_b : Z) : cfunc := CFunc addr
  [ Puts ("[THREAD B] Woke up. Executing in expected clean context..." +:+ NL);
    IntentStartCall network_intent;
    Puts ("[THREAD B] Attempting to transmit on TX Trigger..." +:+ NL);
    StoreTo tx_trigger 1;
    Puts ("[THREAD B] TX Write finished. Yielding back to Thread A." +:+ NL);
    SwitchTo thread_b thread_a ].

Definition isolation_start (addr thread_a thread_b stack_b_top entry_b : Z) : cfunc := CFunc addr
  [ Puts rule; Puts ("[TCA] OS Isolation Test" +:+ NL); Puts rule;
    IntentStartCall network_intent;
    PrepareThread thread_b stack_b_top entry_b;
    Puts ("[THREAD A] Reading from sensitive (tainted) memory..." +:+ NL);
    LoadFrom tainted_source;
    Puts ("[THREAD A] Yielding to Thread B..." +:+ NL);
    SwitchTo thread_a thread_b;
    Puts ("[THREAD A] Woke back up. Context restored." +:+ NL);
    Puts ("[THREAD A] Attempting to transmit on TX Trigger..." +:+ NL);
    StoreTo tx_trigger 1;
    Puts ("[THREAD A] Run complete (Should not be reached if NIC drops the transmission)." +:+ NL);
    IntentEndCall ].

(** The functions in the order of the file. *)
Definition isolation_test (b_addr a_addr thread_a thread_b stack_b_top : Z) : list cfunc :=
  [thread_b_func b_addr thread_a thread_b; isolation_start a_addr thread_a thread_b stack_b_top b_addr].

(** ** exfil_test.c *)

Definition exfil_start (addr : Z) : cfunc := CFunc addr
  [ Puts rule; Puts ("[TCA] Quantum-State IFC Network Slam" +:+ NL); Puts rule;
    Puts ("[DIAG] Phase 1: Setting valid network intent..." +:+ NL);
    IntentStartCall network_intent;
    Puts ("[DIAG] Valid intent activated. We are authorized to send data." +:+ NL);
    Puts ("[DIAG] Phase 2: Reading from sensitive (tainted) memory..." +:+ NL);
    LoadFrom tainted_source;
    Puts ("[DIAG] Memory read. Taint should be physically propagated." +:+ NL);
    Puts ("[DIAG] Phase 3: Attempting to flush data to Network Interface..." +:+ NL);
    StoreTo tx_trigger 1;
    Puts ("[DIAG] Exfiltration benchmark complete." +:+ NL);
    IntentEndCall ].

(** ** boot.S *)

Definition BOOT_SP : Z := 0x84000000.
Definition CSR_MCOUNTEREN : Z := 0x306.
Definition CSR_SCOUNTEREN : Z := 0x106.
Definition boot (start : Z) (h : hart) : hart :=
  let h1 := set_x t0 7 (set_x sp BOOT_SP h) in
  set_pc start (set_cap (csr_write CSR_SCOUNTEREN 7 (csr_write CSR_MCOUNTEREN 7 (cap h1))) h1).
End programs.
