(* ===== verification/TcaMonitor.v ===== *)
(** * Intents granted in machine mode (os_isolation_test_v2.c)

    The set-up in machine mode, the trap handler that grants an intent to a thread in
    user mode, and that thread, which sends once within the bound of its intent and
    once beyond it. *)

From S2P Require Import Prelude CStrings TcaHart TcaPrograms.
From stdpp Require Import prelude list strings.
From Stdlib Require Import ZArith Lia Ascii.
#[local] Open Scope string_scope.
#[local] Open Scope list_scope.
#[local] Open Scope Z_scope.

Definition CSR_TCA_CFG : Z := 0x802.
Definition CSR_TCA_ADDR0 : Z := 0x803.
Definition CSR_TCA_ADDR1 : Z := 0x804.
Definition CSR_TCA_BLOOM0 : Z := 0x805.
Definition CSR_TCA_BLOOM1 : Z := 0x806.
Definition CSR_TCA_BLOOM2 : Z := 0x807.
Definition CSR_TCA_BLOOM3 : Z := 0x808.
Definition CSR_TCA_LIMIT_PC : Z := 0x809.

Definition MSTATUS : Z := 0x300.
Definition MTVEC : Z := 0x305.
Definition MEPC : Z := 0x341.
Definition MCAUSE : Z := 0x342.
Definition MTVAL : Z := 0x343.
Definition PMPCFG0 : Z := 0x3A0.
Definition PMPADDR0 : Z := 0x3B0.

Definition MSTATUS_MPP_SHIFT : Z := 11.
Definition MSTATUS_MPP_MASK : Z := Z.shiftl 3 MSTATUS_MPP_SHIFT.

Definition required_intent : Z := 0x42.
Definition requested_intent : Z := 0x42.
Definition taint_color : Z := 0x0A.

(** [print_hex] *)
Definition hex_char (nibble : Z) : ascii :=
  ascii_of_nat (Z.to_nat (if nibble <? 10 then 48 + nibble else 65 + (nibble - 10))).
Fixpoint hex_chars (n : nat) (val : Z) : string :=
  match n with
  | O => EmptyString
  | S i => String (hex_char (Z.land (Z.shiftr val (Z.of_nat i * 4)) 0xF)) (hex_chars i val)
  end.
Definition print_hex (val : Z) : string := "0x" +:+ hex_chars 16 val +:+ NL.

Section monitor.
Context `{T : TcaCpu}.

Definition uart_puts (s : string) : M hart unit := modify (print s).
Definition csrr (n : Z) : M hart Z := gets (fun h => csr_read n (cap h)).
Definition csrw (n v : Z) : M hart unit := modify (fun h => set_cap (csr_write n v (cap h)) h).

(** [trap_handler]: [true] is the return to user mode, [false] the loop. *)
Definition trap_handler (tca_scope_end : Z) : M hart bool :=
  mcause ← csrr MCAUSE;
  mepc ← csrr MEPC;
  if mcause =? 8 then
    _ ← uart_puts ("[M-MODE HYPERVISOR] Intercepted U-mode ecall (Syscall)." +:+ NL);
    _ ← uart_puts (" -> Authenticating intent request..." +:+ NL);
    _ ← uart_puts (" -> Intent Elevated. Writing to CSR_TCA_INTENT." +:+ NL);
    _ ← csrw CSR_TCA_INTENT requested_intent;
    _ ← uart_puts (" -> Setting Temporal Bound (CSR_TCA_LIMIT_PC)." +:+ NL);
    _ ← csrw CSR_TCA_LIMIT_PC tca_scope_end;
    _ ← csrw MEPC (u64 (mepc + 4));
    mret true
  else
    mtval ← csrr MTVAL;
    _ ← uart_puts ("[M-MODE HYPERVISOR] UNHANDLED TRAP!" +:+ NL);
    _ ← uart_puts ("mcause: " +:+ print_hex mcause);
    _ ← uart_puts ("mepc:   " +:+ print_hex mepc);
    _ ← uart_puts ("mtval:  " +:+ print_hex mtval);
    mret false.

(** ** The thread in user mode *)

Inductive ustmt :=
| UPuts (s : string)
| ULoad (a : Z)
| UEcall (req : Z)
| UStore (a v : Z).

Definition before_scope_end : list ustmt :=
  [ UPuts (NL +:+ "[U-MODE THREAD] Execution started." +:+ NL);
    UPuts ("[U-MODE THREAD] Reading from dynamic Taint Source (ADDR0)..." +:+ NL);
    ULoad tainted_source;
    UPuts ("[U-MODE THREAD] Issuing ecall to request Valid intent (0x42)..." +:+ NL);
    UEcall 0x42;
    UPuts ("[U-MODE THREAD] Intent granted. Attempting transmission to TX Trigger (ADDR1)..." +:+ NL);
    UStore tx_trigger 1;
    UPuts (" -> Transmission SUCCEEDED! (Intent is valid)." +:+ NL) ].
Definition after_scope_end : list ustmt :=
  [ UPuts ("[U-MODE THREAD] Crossed TCA Scope Limit! Capability should be revoked." +:+ NL);
    UPuts ("[U-MODE THREAD] Attempting second transmission. Expecting Bloom Rejection trap..." +:+ NL);
    UStore tx_trigger 2;
    UPuts ("[U-MODE THREAD] ERROR: Second transmission succeeded. Revocation failed!" +:+ NL) ].
Definition u_mode_thread : list ustmt := before_scope_end ++ after_scope_end.
Definition tca_scope_end (base : Z) : Z := base + 4 * Z.of_nat (length before_scope_end).

(** The processor's entry into machine mode. *)
Definition enter_trap (cause epc tval : Z) (h : hart) : hart :=
  set_cap (csr_write MTVAL tval (csr_write MEPC epc (csr_write MCAUSE cause (cap h)))) h.

Inductive run_end := ThreadLoops | HandlerLoops.

(** A trap: the handler, and the return to the address in [mepc]; [None] when it does
    not return. *)
Definition trapped (scope_end cause tval : Z) (h : hart) : option (bool * hart) :=
  match trap_handler scope_end (enter_trap cause (pc h) tval h) with
  | None => None
  | Some (true, h') => Some (true, set_pc (csr_read MEPC (cap h')) h')
  | Some (false, h') => Some (false, h')
  end.

(** A statement, after the gate has seen its address. *)
Definition exec_u (scope_end : Z) (s : ustmt) (h0 : hart) : option (bool * hart) :=
  let h := set_cap (on_fetch (pc h0) (cap h0)) h0 in
  match s with
  | UPuts text => Some (true, next_pc (pc h) (print text h))
  | ULoad a => Some (true, next_pc (pc h) (load_word a h).2)
  | UEcall req => trapped scope_end 8 0 (set_x a0 req h)
  | UStore a v =>
      match store_word a v h with
      | inl cause => trapped scope_end cause a h
      | inr h' => Some (true, next_pc (pc h) h')
      end
  end.

Fixpoint run_u (fuel : nat) (base : Z) (code : list ustmt) (h : hart) : option (run_end * hart) :=
  match fuel with
  | O => None
  | S fuel' =>
      match code !! Z.to_nat ((pc h - base) / 4) with
      | None => Some (ThreadLoops, h)
      | Some s =>
          match exec_u (tca_scope_end base) s h with
          | None => None
          | Some (true, h') => run_u fuel' base code h'
          | Some (false, h') => Some (HandlerLoops, h')
          end
      end
  end.

(** ** The set-up *)

Definition banner : string := "======================================================" +:+ NL.

Definition v2_start (handler thread : Z) : M hart unit :=
  _ ← uart_puts (NL +:+ banner);
  _ ← uart_puts ("[TCA V2] OS Isolation & Privilege Ring Benchmark" +:+ NL);
  _ ← uart_puts banner;
  _ ← csrw MTVEC (Z.land handler (u64 (Z.lnot 3)));
  _ ← csrw PMPADDR0 (u64 (-1));
  _ ← csrw PMPCFG0 0x0F;
  _ ← uart_puts ("[M-MODE HYPERVISOR] Configuring Dynamic TCA-PMP bounds..." +:+ NL);
  _ ← csrw CSR_TCA_ADDR0 tainted_source;
  _ ← csrw CSR_TCA_ADDR1 tx_trigger;
  _ ← csrw CSR_TCA_CFG (Z.lor (Z.shiftl required_intent 32) taint_color);
  _ ← uart_puts ("[M-MODE HYPERVISOR] Populating TCA Bloom Filter for intent 0x42..." +:+ NL);
  _ ← csrw CSR_TCA_BLOOM0 1;
  _ ← csrw CSR_TCA_BLOOM1 4;
  _ ← csrw CSR_TCA_BLOOM2 0;
  _ ← csrw CSR_TCA_BLOOM3 0;
  _ ← uart_puts ("[M-MODE HYPERVISOR] Dropping privileges to U-Mode..." +:+ NL);
  mstatus ← csrr MSTATUS;
  _ ← csrw MSTATUS (Z.land mstatus (u64 (Z.lnot MSTATUS_MPP_MASK)));
  _ ← csrw MEPC thread;
  epc ← csrr MEPC;
  modify (set_pc epc).

Definition v2_run (fuel : nat) (handler thread : Z) (h : hart) : option (run_end * hart) :=
  match v2_start handler thread h with
  | None => None
  | Some (_, h') => run_u fuel thread u_mode_thread h'
  end.
End monitor.
