(* ===== verification/TcaMonitorProofs.v ===== *)
(** * Theorems about intents granted in machine mode

    What the set-up of os_isolation_test_v2.c leaves in the registers, and what its trap
    handler does with every trap, on every hart whose control registers hold what is
    written to them. *)

From S2P Require Import Prelude CStrings TcaHart TcaMock TcaPrograms TcaMonitor.
From stdpp Require Import prelude list strings.
From Stdlib Require Import ZArith Lia Ascii.
#[local] Open Scope string_scope.
#[local] Open Scope list_scope.
#[local] Open Scope Z_scope.

(** ** Control registers *)

Definition plain_csrs : list Z :=
  [CSR_TCA_INTENT; CSR_TCA_CFG; CSR_TCA_ADDR0; CSR_TCA_ADDR1; CSR_TCA_BLOOM0; CSR_TCA_BLOOM1; CSR_TCA_BLOOM2; CSR_TCA_BLOOM3;
   CSR_TCA_LIMIT_PC; MCAUSE; MTVAL].

(** A register holds the 64-bit value written to it, [mepc] an aligned one, and a write
    changes no other. *)
Class CsrLaws `{T : TcaCpu} := {
  gl_written n v c : is_u64 v -> n ∈ plain_csrs -> csr_read n (csr_write n v c) = v;
  gl_mepc v c : is_u64 v -> v mod 4 = 0 -> csr_read MEPC (csr_write MEPC v c) = v;
  gl_other n m v c : n <> m -> csr_read m (csr_write n v c) = csr_read m c;
}.

Section monitor.
Context `{CL : CsrLaws}.

Ltac csrs := repeat first
  [ rewrite gl_other by (by apply (bool_decide_unpack _))
  | rewrite gl_written by first [ by apply (bool_decide_unpack _) | unfold is_u64; lia | done ] ].

(** ** The set-up *)

Definition start_lines : list string :=
  [ NL +:+ banner; "[TCA V2] OS Isolation & Privilege Ring Benchmark" +:+ NL; banner;
    "[M-MODE HYPERVISOR] Configuring Dynamic TCA-PMP bounds..." +:+ NL;
    "[M-MODE HYPERVISOR] Populating TCA Bloom Filter for intent 0x42..." +:+ NL;
    "[M-MODE HYPERVISOR] Dropping privileges to U-Mode..." +:+ NL ].

(** The gate's registers after it: source, sink, configuration and filter. *)
Definition gate_config : list (Z * Z) :=
  [(CSR_TCA_ADDR0, tainted_source); (CSR_TCA_ADDR1, tx_trigger); (CSR_TCA_CFG, 0x42 * 2 ^ 32 + 0x0A);
   (CSR_TCA_BLOOM0, 1); (CSR_TCA_BLOOM1, 4); (CSR_TCA_BLOOM2, 0); (CSR_TCA_BLOOM3, 0)].

Lemma start_ready handler thread h : is_u64 thread -> thread mod 4 = 0 ->
  exists h', v2_start handler thread h = Some (tt, h') /\ pc h' = thread /\ uart h' = uart h +:+ joined start_lines /\
    Forall (fun nv => csr_read nv.1 (cap h') = nv.2) gate_config /\
    Forall (fun n => csr_read n (cap h') = csr_read n (cap h)) [CSR_TCA_INTENT; CSR_TCA_LIMIT_PC; CSR_TCA_TAINT].
Proof.
  intros Ht Hm. eexists. split; [reflexivity|]. cbn [cap set_cap set_pc print pc uart xr ram]. split; [by apply gl_mepc|]. split.
  { rewrite !str_app_assoc. unfold joined, start_lines. cbn [foldr]. by rewrite string_app_nil_r. }
  split.
  - unfold gate_config. repeat constructor; cbn [fst snd]; by csrs.
  - repeat constructor; by csrs.
Qed.

(** ** The handler *)

Definition grant_lines : list string :=
  [ "[M-MODE HYPERVISOR] Intercepted U-mode ecall (Syscall)." +:+ NL; " -> Authenticating intent request..." +:+ NL;
    " -> Intent Elevated. Writing to CSR_TCA_INTENT." +:+ NL; " -> Setting Temporal Bound (CSR_TCA_LIMIT_PC)." +:+ NL ].
Definition fault_lines (cause epc tval : Z) : list string :=
  [ "[M-MODE HYPERVISOR] UNHANDLED TRAP!" +:+ NL; "mcause: " +:+ print_hex cause; "mepc:   " +:+ print_hex epc;
    "mtval:  " +:+ print_hex tval ].

(** An environment call is granted the one intent, whatever was asked for. *)
Lemma ecall_granted scope_end tval h :
  is_u64 scope_end -> is_u64 tval -> is_u64 (pc h) -> is_u64 (pc h + 4) -> pc h mod 4 = 0 ->
  exists h', trapped scope_end 8 tval h = Some (true, h') /\ pc h' = pc h + 4 /\ uart h' = uart h +:+ joined grant_lines /\
    csr_read CSR_TCA_INTENT (cap h') = required_intent /\ csr_read CSR_TCA_LIMIT_PC (cap h') = scope_end /\
    forall n, n ∉ [CSR_TCA_INTENT; CSR_TCA_LIMIT_PC; MEPC; MCAUSE; MTVAL] -> csr_read n (cap h') = csr_read n (cap h).
Proof.
  intros He Ht Hp Hp4 Hm. unfold trapped, trap_handler, mbind, M_bind, csrr, gets.
  assert (csr_read MCAUSE (cap (enter_trap 8 (pc h) tval h)) = 8) as ->.
  { cbn [enter_trap set_cap cap]. csrs. done. }
  assert (csr_read MEPC (cap (enter_trap 8 (pc h) tval h)) = pc h) as ->.
  { cbn [enter_trap set_cap cap]. csrs. by apply gl_mepc. }
  rewrite Z.eqb_refl. rewrite (u64_id (pc h + 4)) by done. eexists. split; [reflexivity|].
  cbn [enter_trap set_cap set_pc print cap pc uart xr ram]. split; [apply gl_mepc; [done|lia]|]. split.
  { rewrite !str_app_assoc. unfold joined, grant_lines. cbn [foldr]. by rewrite string_app_nil_r. }
  split; [by csrs|].
  split; [by csrs|]. intros n. rewrite !not_elem_of_cons. intros (H1 & H2 & H3 & H4 & H5 & _). by rewrite !gl_other by done.
Qed.

(** Every other trap is reported and ends the run. *)
Lemma fault_reported scope_end cause tval h :
  cause <> 8 -> is_u64 cause -> is_u64 tval -> is_u64 (pc h) -> pc h mod 4 = 0 ->
  exists h', trapped scope_end cause tval h = Some (false, h') /\ uart h' = uart h +:+ joined (fault_lines cause (pc h) tval) /\
    forall n, n ∉ [MEPC; MCAUSE; MTVAL] -> csr_read n (cap h') = csr_read n (cap h).
Proof.
  intros Hc H1 H2 Hp Hm. unfold trapped, trap_handler, mbind, M_bind, csrr, gets.
  assert (csr_read MCAUSE (cap (enter_trap cause (pc h) tval h)) = cause) as ->.
  { cbn [enter_trap set_cap cap]. by csrs. }
  assert (csr_read MEPC (cap (enter_trap cause (pc h) tval h)) = pc h) as ->.
  { cbn [enter_trap set_cap cap]. csrs. by apply gl_mepc. }
  rewrite (proj2 (Z.eqb_neq _ _) Hc). cbn beta.
  assert (csr_read MTVAL (cap (enter_trap cause (pc h) tval h)) = tval) as ->.
  { cbn [enter_trap set_cap cap]. by csrs. }
  eexists. split; [reflexivity|].
  cbn [enter_trap set_cap set_pc print cap pc uart xr ram]. split.
  { rewrite !str_app_assoc. unfold joined, fault_lines. cbn [foldr]. by rewrite string_app_nil_r. }
  intros n. rewrite !not_elem_of_cons. intros (N1 & N2 & N3 & _). by rewrite !gl_other by done.
Qed.
End monitor.

(** ** Theorem *)

(** C23. The monitor grants one intent, with its bound, and nothing else.  The set-up of
    os_isolation_test_v2.c programs source, sink, configuration and filter of the gate
    and enters the thread, with the intent, its bound and the taint as they were.  From
    then on, for every trap of every code in user mode (at an aligned address): an
    environment call, whatever it asks for, returns behind the call with intent 0x42
    and with the end of the scope as its bound; every other trap prints cause, address
    and value and does not return, with nothing granted; all other control registers
    (those of the trap apart) are left alone.  (Assumed of the hart: its control
    registers hold what is written to them.) *)
Theorem monitor_grants_bounded `{CsrLaws} handler thread scope_end h0 :
  is_u64 thread -> thread mod 4 = 0 -> is_u64 scope_end ->
  (exists h1, v2_start handler thread h0 = Some (tt, h1) /\ pc h1 = thread /\ uart h1 = uart h0 +:+ joined start_lines /\
     Forall (fun nv => csr_read nv.1 (cap h1) = nv.2) gate_config /\
     Forall (fun n => csr_read n (cap h1) = csr_read n (cap h0)) [CSR_TCA_INTENT; CSR_TCA_LIMIT_PC; CSR_TCA_TAINT]) /\
  forall cause tval h, is_u64 cause -> is_u64 tval -> is_u64 (pc h) -> is_u64 (pc h + 4) -> pc h mod 4 = 0 ->
    exists h',
      if cause =? 8 then
        trapped scope_end cause tval h = Some (true, h') /\ pc h' = pc h + 4 /\
        uart h' = uart h +:+ joined grant_lines /\
        csr_read CSR_TCA_INTENT (cap h') = 0x42 /\ csr_read CSR_TCA_LIMIT_PC (cap h') = scope_end /\
        forall n, n ∉ [CSR_TCA_INTENT; CSR_TCA_LIMIT_PC; MEPC; MCAUSE; MTVAL] -> csr_read n (cap h') = csr_read n (cap h)
      else
        trapped scope_end cause tval h = Some (false, h') /\
        uart h' = uart h +:+ joined (fault_lines cause (pc h) tval) /\
        forall n, n ∉ [MEPC; MCAUSE; MTVAL] -> csr_read n (cap h') = csr_read n (cap h).
Proof.
  intros Ht Hm Hs. split; [by apply start_ready|]. intros cause tval h H1 H2 Hp Hp4 Ha.
  destruct (cause =? 8) eqn:E; boolify.
  - subst cause. destruct (ecall_granted scope_end tval h) as (h' & P1); [done..|]. by exists h'.
  - destruct (fault_reported scope_end cause tval h) as (h' & P1); [done..|]. by exists h'.
Qed.

(** ** On the executable hart *)

#[global] Instance mock_csr_laws : CsrLaws.
Proof.
  split; cbn.
  - intros n v c Hv _. by apply get_set.
  - intros v c Hv _. by apply get_set.
  - intros n m v c. apply get_set_ne.
Qed.

Lemma monitor_grants_bounded_witness :
  exists h', trapped 0x80001020 8 0 (set_pc 0x80001010 (mock_hart BOOT_SP)) = Some (true, h') /\
    csr_read CSR_TCA_LIMIT_PC (cap h') = 0x80001020.
Proof.
  destruct (monitor_grants_bounded 0x80000100 0x80001000 0x80001020 (mock_hart BOOT_SP)) as [_ H].
  - ulia.
  - reflexivity.
  - ulia.
  - destruct (H 8 0 (set_pc 0x80001010 (mock_hart BOOT_SP))) as (h' & E & _ & _ & _ & L & _);
      [ulia|ulia|cbn; ulia|cbn; ulia|reflexivity|].
    exists h'. split; [exact E|exact L].
Defined.

(** The handler does not look at the request: any other one is granted the same. *)
Example any_request_granted :
  (fun r => csr_read CSR_TCA_INTENT (cap r.2)) <$> exec_u 0x80000020 (UEcall 0xBAD) (mock_hart BOOT_SP) = Some required_intent.
Proof. by vm_compute. Qed.

(** With the hashes of the set-up's comment (the intent itself, and 0) the filter words
    accept intent 0 too, which is what the bound leaves. *)
Example filter_accepts_revoked : filter_has 1 4 0 0 required_intent = true /\ filter_has 1 4 0 0 0 = true.
Proof. by vm_compute. Qed.

(** On a hart with that filter the second transmission goes through. *)
Example second_store_accepted :
  (fun r => (tx_log (cap r.2), r.1)) <$> v2_run 20 0x80000100 0x80001000 (mock_hart BOOT_SP) =
  Some ([(1, true); (2, true)], ThreadLoops).
Proof. by vm_compute. Qed.
