(* ===== verification/TcaIsolationProofs.v ===== *)
(** * The isolation test as a whole

    os_isolation_test.c through the compiler pass, on every hart whose network device
    drops what a tainted hart sends: the switch keeps the taint with the thread that
    read the secret, so the other one can send and this one cannot. *)

From S2P Require Import Prelude CStrings CompilerPass CompilerAnalyses TcaHart TcaMock TcaSwitchProofs TcaPrograms.
From stdpp Require Import prelude list strings.
From Stdlib Require Import ZArith Lia.
#[local] Open Scope string_scope.
#[local] Open Scope list_scope.
#[local] Open Scope Z_scope.

(** The packets that the device has let out. *)
Class Nic `{T : TcaCpu} := nic_out : tca -> list Z.

(** As the comments of exfil_test.c and os_isolation_test.c describe it: a read of the
    source sets the taint; a write to the trigger under an intent reaches the device,
    which drops it when the hart is tainted. *)
Class NicLaws `{N : Nic} := {
  nl_taint c : csr_read CSR_TCA_TAINT (on_load tainted_source c) = 1;
  nl_load_intent a c : csr_read CSR_TCA_INTENT (on_load a c) = csr_read CSR_TCA_INTENT c;
  nl_set v p c : is_u64 v -> csr_read CSR_TCA_INTENT (set_intent p v c) = v;
  nl_set_taint v p c : csr_read CSR_TCA_TAINT (set_intent p v c) = csr_read CSR_TCA_TAINT c;
  nl_clear_taint c : csr_read CSR_TCA_TAINT (clear_intent c) = csr_read CSR_TCA_TAINT c;
  nl_tx v c : csr_read CSR_TCA_INTENT c <> 0 ->
    exists c', on_store tx_trigger v c = inr c' /\
      nic_out c' = nic_out c ++ (if csr_read CSR_TCA_TAINT c =? 0 then [v] else []) /\
      csr_read CSR_TCA_INTENT c' = csr_read CSR_TCA_INTENT c /\ csr_read CSR_TCA_TAINT c' = csr_read CSR_TCA_TAINT c;
  nl_load_out a c : nic_out (on_load a c) = nic_out c;
  nl_set_out v p c : nic_out (set_intent p v c) = nic_out c;
  nl_clear_out c : nic_out (clear_intent c) = nic_out c;
  nl_write_out n v c : nic_out (csr_write n v c) = nic_out c;
}.

Definition intent_hash : Z := 0x89ABCDEF000007CA.
Definition isolation_code : list (list op) :=
  [ [OtherInst 0; SetIntent 0; OtherInst 2; OtherInst 3; OtherInst 4; OtherInst 5];
    [OtherInst 0; OtherInst 1; OtherInst 2; SetIntent 1; OtherInst 4; OtherInst 5; OtherInst 6; OtherInst 7; OtherInst 8;
     OtherInst 9; OtherInst 10; OtherInst 11; OtherInst 12; TcaClear] ].

(** The markers of both threads become settings of their intents, and the end of the
    intent a clear. *)
Lemma isolation_compiled `{TcaCpu} b_addr a_addr ta tb top :
  compile (isolation_test b_addr a_addr ta tb top) = Some (isolation_code, [intent_hash; intent_hash]).
Proof. by vm_compute. Qed.

Section isolation.
Context `{TL : TcaLaws} {N : Nic} {NL' : NicLaws}.
Context (tcb lo hi : nat -> Z) (ly : layout 2 tcb lo hi) (b_addr a_addr : Z).
Context (Hb : 0 <= b_addr) (Hab : b_addr + 24 <= a_addr) (Ha : a_addr + 56 < 18446744073709551616) (Hroom : lo 1%nat + 128 <= hi 1%nat).

Definition fs : list cfunc := isolation_test b_addr a_addr (tcb 0) (tcb 1) (hi 1).
Definition got : list Z := [intent_hash; intent_hash].

(** Thread [t] with its function and its address. *)
Definition body_of (t : nat) : cfunc :=
  if (t =? 0)%nat then isolation_start a_addr (tcb 0) (tcb 1) (hi 1) b_addr else thread_b_func b_addr (tcb 0) (tcb 1).
Definition ops_of (t : nat) : list op := nth (1 - t) isolation_code [].
Definition base_of (t : nat) : Z := f_addr (body_of t).

Lemma fetch_thread t k o : (t < 2)%nat -> ops_of t !! k = Some o ->
  fetch fs isolation_code (base_of t + 4 * Z.of_nat k) = Some (body_of t, o).
Proof.
  intros Ht Hk. assert (k < length (ops_of t))%nat as Hl by by eapply lookup_lt_Some.
  destruct t as [|[|]]; [| |lia]; unfold base_of, body_of, fs, isolation_test, isolation_code; cbn [Nat.eqb f_addr fetch isolation_start thread_b_func length] in *;
    change (length (ops_of 0)) with 14%nat in *; change (length (ops_of 1)) with 6%nat in *.
  - rewrite (proj2 (Z.ltb_ge _ _)), andb_false_r by lia. rewrite (proj2 (Z.leb_le _ _)), (proj2 (Z.ltb_lt _ _)) by lia. cbn [andb].
    replace (Z.to_nat ((a_addr + 4 * Z.of_nat k - a_addr) / 4)) with k by lia. change (nth 0 _ _) with (ops_of 0). unfold ops_of in Hk. cbn in Hk. by rewrite Hk.
  - rewrite (proj2 (Z.leb_le _ _)), (proj2 (Z.ltb_lt _ _)) by lia. cbn [andb].
    replace (Z.to_nat ((b_addr + 4 * Z.of_nat k - b_addr) / 4)) with k by lia. unfold ops_of in Hk. cbn in Hk. by rewrite Hk.
Qed.

Record here (t k : nat) (u0 : string) (lines : list string) (out : list Z) (i tn : Z) (hs h : hart) : Prop := {
  hr_pc : pc h = base_of t + 4 * Z.of_nat k;
  hr_uart : uart h = u0 +:+ joined lines;
  hr_out : nic_out (cap h) = out;
  hr_intent : csr_read CSR_TCA_INTENT (cap h) = i;
  hr_taint : csr_read CSR_TCA_TAINT (cap h) = tn;
  hr_conf : confined 2 tcb lo hi t hs h;
}.

Lemma addr_ok t k o : (t < 2)%nat -> ops_of t !! k = Some o ->
  u64 (base_of t + 4 * Z.of_nat k + 4) = base_of t + 4 * Z.of_nat (S k).
Proof.
  intros Ht Hk. assert (k < length (ops_of t))%nat as Hl by by eapply lookup_lt_Some.
  rewrite u64_id; [lia|]. destruct t as [|[|]]; [| |lia]; unfold is_u64, base_of, body_of; cbn in *; lia.
Qed.

Lemma run_step t k u0 lines out i tn hs h fuel o : (t < 2)%nat -> here t k u0 lines out i tn hs h -> ops_of t !! k = Some o ->
  run_program (S fuel) fs isolation_code got h =
    match exec_compiled (body_of t) got (base_of t + 4 * Z.of_nat k) o h with
    | inl cause => Some (inl cause) | inr h' => run_program fuel fs isolation_code got h' end.
Proof. intros Ht Hh Ho. cbn [run_program]. by rewrite (hr_pc _ _ _ _ _ _ _ _ _ Hh), (fetch_thread t k o). Qed.

Lemma conf_same t hs h h' : confined 2 tcb lo hi t hs h -> xr h' sp = xr h sp ->
  (forall a, a < TCA_GUARDED -> ram h' a = ram h a) -> confined 2 tcb lo hi t hs h'.
Proof.
  intros [C1 C2 C3 C4] Hs Hm. split; [by rewrite Hs|by rewrite Hs| |].
  - intros u Hu. rewrite Hm by apply (ly_tcb _ _ _ _ ly u Hu). by apply C3.
  - intros u a Hu Hne Hr. pose proof (ly_stack _ _ _ _ ly u Hu). rewrite Hm by lia. by apply (C4 u).
Qed.

(** One statement of a thread; [i] and [tn] are its intent and taint. *)
Section step.
Context (t k : nat) (u0 : string) (lines : list string) (out : list Z) (i tn : Z) (hs h : hart) (Ht : (t < 2)%nat).
Context (Hh : here t k u0 lines out i tn hs h).
Let addr : Z := base_of t + 4 * Z.of_nat k.

Lemma i_puts j s : ops_of t !! k = Some (OtherInst j) -> f_body (body_of t) !! j = Some (Puts s) ->
  exists h', exec_compiled (body_of t) got addr (OtherInst j) h = inr h' /\ here t (S k) u0 (lines ++ [s]) out i tn hs h'.
Proof.
  intros Ho Hs. destruct Hh as [H1 H2 H3 H4 H5 H6]. cbn [exec_compiled]. rewrite Hs. eexists. split; [reflexivity|].
  split; [by apply addr_ok with (OtherInst j)|cbn; by rewrite H2, joined_snoc, str_app_assoc|done..|by apply (conf_same t hs h)].
Qed.

Lemma i_set j : ops_of t !! k = Some (SetIntent j) -> (j < 2)%nat ->
  exists h', exec_compiled (body_of t) got addr (SetIntent j) h = inr h' /\ here t (S k) u0 lines out intent_hash tn hs h'.
Proof.
  intros Ho Hj. destruct Hh as [H1 H2 H3 H4 H5 H6]. cbn [exec_compiled].
  assert (default 0 (got !! j) = intent_hash) as -> by by destruct j as [|[|]]; [| |lia].
  eexists. split; [reflexivity|].
  split; [by apply addr_ok with (SetIntent j)|done|cbn; by rewrite nl_set_out|cbn; by apply nl_set|cbn; by rewrite nl_set_taint|by apply (conf_same t hs h)].
Qed.

Lemma i_read j : ops_of t !! k = Some (OtherInst j) -> f_body (body_of t) !! j = Some (LoadFrom tainted_source) ->
  exists h', exec_compiled (body_of t) got addr (OtherInst j) h = inr h' /\ here t (S k) u0 lines out i 1 hs h'.
Proof.
  intros Ho Hs. destruct Hh as [H1 H2 H3 H4 H5 H6]. cbn [exec_compiled]. rewrite Hs. eexists. split; [reflexivity|].
  split; [by apply addr_ok with (OtherInst j)|done|cbn; by rewrite nl_load_out|cbn; by rewrite nl_load_intent|cbn; apply nl_taint|by apply (conf_same t hs h)].
Qed.

Lemma i_send j v : ops_of t !! k = Some (OtherInst j) -> f_body (body_of t) !! j = Some (StoreTo tx_trigger v) -> i <> 0 ->
  exists h', exec_compiled (body_of t) got addr (OtherInst j) h = inr h' /\
    here t (S k) u0 lines (out ++ if tn =? 0 then [v] else []) i tn hs h'.
Proof.
  intros Ho Hs Hi. destruct Hh as [H1 H2 H3 H4 H5 H6]. cbn [exec_compiled]. rewrite Hs. cbn [exec_stmt]. unfold store_word.
  destruct (nl_tx v (cap h)) as (c' & -> & T1 & T2 & T3); [by rewrite H4|]. eexists. split; [reflexivity|].
  split; [by apply addr_ok with (OtherInst j)|done|cbn; by rewrite T1, H3, H5|by rewrite <- H4|by rewrite <- H5|].
  apply (conf_same t hs h); [done|done|]. intros a Hlt. cbn. apply decide_False. unfold tx_trigger, TCA_GUARDED in *. lia.
Qed.

Lemma i_clear : ops_of t !! k = Some TcaClear ->
  exists h', exec_compiled (body_of t) got addr TcaClear h = inr h' /\ pc h' = base_of t + 4 * Z.of_nat (S k) /\
    uart h' = u0 +:+ joined lines /\ nic_out (cap h') = out /\ csr_read CSR_TCA_TAINT (cap h') = tn.
Proof.
  intros Ho. destruct Hh as [H1 H2 H3 H4 H5 H6]. eexists. split; [reflexivity|].
  split; [by apply addr_ok with TcaClear|]. split; [done|]. cbn. by rewrite nl_clear_out, nl_clear_taint.
Qed.

(** The preparation of the other thread, which is suspended afterwards. *)
Lemma i_prepare j ctx : t = 0%nat -> ops_of t !! k = Some (OtherInst j) ->
  f_body (body_of t) !! j = Some (PrepareThread (tcb 1) (hi 1) b_addr) ->
  exists h' v, exec_compiled (body_of t) got addr (OtherInst j) h = inr h' /\ here t (S k) u0 lines out i tn h' h' /\
    suspended 2 tcb lo hi (keep 1 v ctx) 0 h' /\ v_ra v = b_addr /\ v_sp v = hi 1 /\ v_intent v = 0 /\ v_taint v = 0.
Proof.
  intros -> Ho Hs. destruct Hh as [H1 H2 H3 H4 H5 [C1 C2 C3 C4]]. cbn [exec_compiled]. rewrite Hs.
  destruct (prepare_holds 2 tcb lo hi ly ctx 1 b_addr h) as [P _]; [lia|done|].
  eexists _, (fresh_view hi 1 b_addr h). split; [reflexivity|]. split; [split; [by apply addr_ok with (OtherInst j)|done..|]|].
  - by split.
  - split_and!; [|reflexivity..]. intros u Hu Hne. replace u with 1%nat by lia. exact P.
Qed.

(** A switch: the next thread goes on with its own context. *)
Lemma i_switch j next ctx : (next < 2)%nat -> ops_of t !! k = Some (OtherInst j) ->
  f_body (body_of t) !! j = Some (SwitchTo (tcb t) (tcb next)) -> suspended 2 tcb lo hi ctx t hs ->
  let ctx' := keep t (yielded (base_of t + 4 * Z.of_nat (S k)) h) ctx in
  exists h', exec_compiled (body_of t) got addr (OtherInst j) h = inr h' /\ suspended 2 tcb lo hi ctx' next h' /\
    view_of h' = ctx' next /\ pc h' = v_ra (ctx' next) /\ uart h' = u0 +:+ joined lines /\ nic_out (cap h') = out.
Proof.
  intros Hn Ho Hs Hsus ctx'. destruct Hh as [H1 H2 H3 H4 H5 H6]. cbn [exec_compiled]. rewrite Hs. cbn [exec_stmt].
  unfold addr. rewrite (addr_ok t k (OtherInst j)) by done.
  destruct (switch_turn 2 tcb lo hi ly ctx t next (base_of t + 4 * Z.of_nat (S k)) hs h Ht Hn Hsus H6) as (h' & -> & V & P & S & U & C).
  exists h'. split; [done|]. split; [done|]. split; [done|]. split; [done|]. split; [by rewrite U|]. by rewrite C, !nl_write_out.
Qed.
End step.

Definition isolation_lines : list string :=
  [ rule; "[TCA] OS Isolation Test" +:+ NL; rule;
    "[THREAD A] Reading from sensitive (tainted) memory..." +:+ NL;
    "[THREAD A] Yielding to Thread B..." +:+ NL;
    "[THREAD B] Woke up. Executing in expected clean context..." +:+ NL;
    "[THREAD B] Attempting to transmit on TX Trigger..." +:+ NL;
    "[THREAD B] TX Write finished. Yielding back to Thread A." +:+ NL;
    "[THREAD A] Woke back up. Context restored." +:+ NL;
    "[THREAD A] Attempting to transmit on TX Trigger..." +:+ NL;
    "[THREAD A] Run complete (Should not be reached if NIC drops the transmission)." +:+ NL ].

Ltac i_next lem := match goal with
  | A : here ?t ?k _ _ _ _ _ _ ?h |- context [run_program (S ?f) fs isolation_code got ?h] =>
      rewrite (run_step t k _ _ _ _ _ _ h f _ ltac:(lia) A eq_refl);
      let h' := fresh "h" in let A' := fresh "A" in
      edestruct (lem t k _ _ _ _ _ _ h ltac:(lia) A) as (h' & -> & A'); [first [reflexivity|lia|done]..|]; clear A
  end.

(** Thread A up to its yield, thread B, and thread A to its end. *)
Lemma run_to_yield fuel h ctx tn : here 0 0 (uart h) [] (nic_out (cap h)) (csr_read CSR_TCA_INTENT (cap h)) tn h h ->
  exists hs h' v, run_program (8 + fuel) fs isolation_code got h = run_program fuel fs isolation_code got h' /\
    here 0 8 (uart h) (take 5 isolation_lines) (nic_out (cap h)) intent_hash 1 hs h' /\
    suspended 2 tcb lo hi (keep 1 v ctx) 0 hs /\ v_ra v = b_addr /\ v_sp v = hi 1 /\ v_intent v = 0 /\ v_taint v = 0.
Proof.
  intros A. cbn [Nat.add]. do 3 i_next i_puts. i_next i_set.
  match goal with A : here ?t ?k _ _ _ _ _ _ ?g |- context [run_program (S ?f) _ _ _ ?g] =>
    rewrite (run_step t k _ _ _ _ _ _ g f _ ltac:(lia) A eq_refl);
    destruct (i_prepare t k _ _ _ _ _ _ g ltac:(lia) A 4 ctx eq_refl eq_refl eq_refl) as (h5 & v & -> & A5 & Hs); clear A end.
  i_next i_puts. i_next i_read. i_next i_puts. by exists h5; eexists _, v.
Qed.

Ltac i_yield ctx := match goal with
  | A : here ?t ?k _ _ _ _ _ ?hs ?h, S : suspended _ _ _ _ ctx ?t ?hs |- context [run_program (Datatypes.S ?f) _ _ _ ?h] =>
      rewrite (run_step t k _ _ _ _ _ _ h f _ ltac:(lia) A eq_refl);
      let h' := fresh "h" in
      edestruct (i_switch t k _ _ _ _ _ _ h ltac:(lia) A) as (h' & -> & ?Hsus & ?Hview & ?Hpc & ?Hout & ?Hnic);
        [|reflexivity|reflexivity|exact S|]; [lia|]
  end.

(** The state of a thread that was switched in. *)
Lemma resumed t k v u0 lines out h : (t < 2)%nat -> v_ra v = base_of t + 4 * Z.of_nat k ->
  lo t + 128 <= v_sp v <= hi t -> v_sp v mod 8 = 0 ->
  view_of h = v -> pc h = v_ra v -> uart h = u0 +:+ joined lines -> nic_out (cap h) = out ->
  here t k u0 lines out (v_intent v) (v_taint v) h h.
Proof. intros Ht Hr Hsp Hal <- Hp Hu Ho. split; [by rewrite Hp|done..|]. by split. Qed.

Lemma run_thread_b fuel u0 out i ctx hs h :
  here 0 8 u0 (take 5 isolation_lines) out i 1 hs h -> i <> 0 ->
  suspended 2 tcb lo hi ctx 0 hs -> v_ra (ctx 1%nat) = b_addr -> v_sp (ctx 1%nat) = hi 1 -> v_intent (ctx 1%nat) = 0 -> v_taint (ctx 1%nat) = 0 ->
  exists h', run_program (7 + fuel) fs isolation_code got h = run_program fuel fs isolation_code got h' /\
    here 0 9 u0 (take 8 isolation_lines) (out ++ [1]) i 1 h' h'.
Proof.
  intros A Hi S Hra Hsp Hin Hta. cbn [Nat.add]. i_yield ctx.
  assert (here 1 0 u0 (take 5 isolation_lines) out 0 0 h0 h0) as B.
  { destruct (ly_aligned _ _ _ _ ly 1 ltac:(lia)) as (_ & ? & _).
    pose proof (resumed 1 0 (ctx 1%nat) u0 (take 5 isolation_lines) out h0 ltac:(lia)) as B. rewrite Hin, Hta, Hsp in B.
    apply B; [unfold base_of, body_of; cbn; lia|lia|done..]. }
  set (ctx' := keep 0 _ ctx) in *. i_next i_puts. i_next i_set. i_next i_puts. i_next i_send. i_next i_puts. i_yield ctx'.
  eexists. split; [reflexivity|]. destruct A as [A1 A2 A3 A4 A5 [A6 A7 A8 A9]].
  change (keep 1 _ ctx' 0%nat) with (yielded (base_of 0 + 4 * Z.of_nat 9) h) in *.
  pose proof (resumed 0 9 (yielded (base_of 0 + 4 * Z.of_nat 9) h) u0 (take 8 isolation_lines) (out ++ [1]) h6 ltac:(lia) eq_refl A6 A7) as R.
  cbn [yielded v_intent v_taint view_of] in R. rewrite A4, A5 in R. by apply R.
Qed.

Lemma run_to_end fuel u0 out i hs h : here 0 9 u0 (take 8 isolation_lines) out i 1 hs h -> i <> 0 ->
  exists h', run_program (6 + fuel) fs isolation_code got h = Some (inr h') /\ uart h' = u0 +:+ joined isolation_lines /\
    nic_out (cap h') = out /\ csr_read CSR_TCA_TAINT (cap h') = 1.
Proof.
  intros A Hi. cbn [Nat.add]. do 2 i_next i_puts. i_next i_send. i_next i_puts.
  match goal with A : here ?t ?k _ _ _ _ _ _ ?g |- context [run_program (S ?f) _ _ _ ?g] =>
    rewrite (run_step t k _ _ _ _ _ _ g f _ ltac:(lia) A eq_refl);
    destruct (i_clear t k _ _ _ _ _ _ g ltac:(lia) A eq_refl) as (h5 & -> & P & U & O & T5) end.
  exists h5. split; [|by rewrite app_nil_r in O]. cbn [run_program].
  assert (fetch fs isolation_code (pc h5) = None) as ->; [|done].
  rewrite P. unfold base_of, body_of, fs, isolation_test. cbn [Nat.eqb f_addr fetch isolation_code isolation_start thread_b_func length].
  by rewrite !(proj2 (Z.ltb_ge _ _)), !andb_false_r by lia.
Qed.
End isolation.

(** ** Theorem *)

(** C22. The tainted thread cannot send: os_isolation_test.c, compiled by the pass, runs
    to its end on every hart with the documented switch registers and network device;
    of the two transmissions only that of thread B leaves the device, although thread A
    has read the secret before the switch and has its intent again after it; and the
    output is the one below, the line that should not be reached included. *)
Theorem tainted_thread_cannot_send `{TL : TcaLaws} {N : Nic} {NL' : NicLaws} tcb lo hi b_addr a_addr h fuel :
  layout 2 tcb lo hi -> lo 1%nat + 128 <= hi 1%nat ->
  0 <= b_addr -> b_addr + 24 <= a_addr -> a_addr + 56 < 18446744073709551616 ->
  pc h = a_addr -> lo 0%nat + 128 <= xr h sp <= hi 0%nat -> xr h sp mod 8 = 0 -> (21 <= fuel)%nat ->
  exists code got h', compile (isolation_test b_addr a_addr (tcb 0%nat) (tcb 1%nat) (hi 1%nat)) = Some (code, got) /\
    run_program fuel (isolation_test b_addr a_addr (tcb 0%nat) (tcb 1%nat) (hi 1%nat)) code got h = Some (inr h') /\
    nic_out (cap h') = nic_out (cap h) ++ [1] /\ csr_read CSR_TCA_TAINT (cap h') = 1 /\
    uart h' = uart h +:+ joined isolation_lines.
Proof.
  intros ly Hroom Hb Hab Ha Hpc Hsp Hal Hf. exists isolation_code, [intent_hash; intent_hash].
  replace fuel with (8 + (7 + (6 + (fuel - 21))))%nat by lia.
  assert (here tcb lo hi b_addr a_addr 0 0 (uart h) [] (nic_out (cap h)) (csr_read CSR_TCA_INTENT (cap h)) (csr_read CSR_TCA_TAINT (cap h)) h h) as A.
  { split; [unfold base_of, body_of; cbn; lia|cbn; by rewrite string_app_nil_r|done..|by split]. }
  edestruct (run_to_yield tcb lo hi ly b_addr a_addr) as (hs & h1 & v & E1 & A1 & S1 & V1 & V2 & V3 & V4); [done..|exact A|].
  edestruct (run_thread_b tcb lo hi ly b_addr a_addr) as (h2 & E2 & A2); [done..|exact A1|done|exact S1|done|done|done|done|].
  edestruct (run_to_end tcb lo hi ly b_addr a_addr) as (h3 & E3 & U3 & O3 & T3); [done..|exact A2|done|].
  exists h3. split; [apply isolation_compiled|]. split; [|done]. change (isolation_test b_addr a_addr (tcb 0%nat) (tcb 1%nat) (hi 1%nat)) with (fs tcb hi b_addr a_addr).
  change [intent_hash; intent_hash] with got. by rewrite E1, E2, E3.
  Unshelve. exact (fun _ => view_of h).
Qed.

(** ** On the executable hart *)


(** The executable hart without configured bounds: every intent passes. *)
Definition plain_store (a v : Z) (c : mock_tca) : Z + mock_tca :=
  if a =? TX_TRIGGER then
    if get_csr CSR_TCA_INTENT c =? 0 then inl 15 else inr (MockTca (csrs c) (tx_log c ++ [(v, get_csr CSR_TCA_TAINT c =? 0)]))
  else inr c.
#[local] Instance plain_cpu : TcaCpu := {|
  tca := mock_tca; csr_read := get_csr; csr_write := set_csr;
  set_intent _ hash c := set_csr CSR_TCA_INTENT hash c; clear_intent c := set_csr CSR_TCA_INTENT 0 c;
  on_load a c := if a =? TAINT_SOURCE then set_csr CSR_TCA_TAINT 1 c else c;
  on_store := plain_store; on_fetch _ c := c;
|}.
#[local] Instance plain_laws : TcaLaws.
Proof.
  split; cbn.
  - intros n c. apply u64_is_u64.
  - intros v c. apply get_set.
  - intros v c. apply get_set.
  - intros v c. by apply get_set_ne.
  - intros a c Ha. destruct (Z.eqb_spec a TAINT_SOURCE); [|done]. unfold TAINT_SOURCE, TCA_GUARDED in *. lia.
  - intros a v c Ha. unfold plain_store. destruct (Z.eqb_spec a TX_TRIGGER); [|done]. unfold TX_TRIGGER, TCA_GUARDED in *. lia.
Qed.
#[local] Instance plain_nic : Nic (T := plain_cpu) := fun c : mock_tca => fst <$> List.filter snd (tx_log c).
#[local] Instance plain_nic_laws : NicLaws.
Proof.
  split; cbn; [done| |intros v _ c; apply get_set|done|done| | |done..].
  - intros a c. destruct (_ =? _); [by apply get_set_ne|done].
  - intros v c Hi. unfold plain_store. rewrite (proj2 (Z.eqb_neq _ _) Hi). eexists. split; [reflexivity|]. split; [|done].
    unfold nic_out, plain_nic. cbn [tx_log]. rewrite List.filter_app, fmap_app. by destruct (get_csr CSR_TCA_TAINT c =? 0).
  - intros a c. by destruct (_ =? _).
Qed.

Definition plain_hart : hart := Hart (fun r => if decide (r = sp) then 0x84000000 else 0) 0x80002000 (fun _ => 0) mock_reset EmptyString.

Lemma tainted_thread_cannot_send_witness :
  exists code got h', compile (isolation_test 0x80001000 0x80002000 (demo_tcb 0) (demo_tcb 1) (demo_hi 1)) = Some (code, got) /\
    run_program 21 (isolation_test 0x80001000 0x80002000 (demo_tcb 0) (demo_tcb 1) (demo_hi 1)) code got plain_hart = Some (inr h') /\
    nic_out (cap h') = [1].
Proof.
  destruct (tainted_thread_cannot_send demo_tcb demo_lo demo_hi 0x80001000 0x80002000 plain_hart 21 demo_layout)
    as (code & got & h' & E & R & O & _); [by vm_compute|lia|lia|lia|done|by vm_compute|done|lia|].
  exists code, got, h'. split; [exact E|]. split; [exact R|].
  rewrite O. reflexivity.
Defined.

(** exfil_test.c on this hart: the packet of the tainted hart is dropped, and the test
    ends with its last line all the same. *)
Example exfiltration_dropped :
  match compile [exfil_start 0x80002000] with
  | Some (code, got) =>
      match run_program 14 [exfil_start 0x80002000] code got plain_hart with
      | Some (inr h) => Some (tx_log (cap h), get_csr CSR_TCA_INTENT (cap h))
      | _ => None
      end
  | None => None
  end = Some ([(1, false)], 0).
Proof. by vm_compute. Qed.
