(* ===== verification/TcaBench.v ===== *)
(** * The benchmark and the small tests of tca-prototype

    benchmark.c with its decimal output, its simulated hook and its report;
    ptr_test.c, whose loop leaves its array; uart_test.c.  The cycle counter is an
    argument: the value of each of its six readings. *)

From S2P Require Import Prelude CStrings CompilerPass CompilerAnalyses TcaHart TcaPrograms.
From Stdlib Require Import String ZArith Lia Ascii.
From stdpp Require Import prelude list strings.
#[local] Open Scope string_scope.
#[local] Open Scope list_scope.
#[local] Open Scope Z_scope.

(** ** Output *)

Definition BUF_SIZE : nat := 24.

(** The digits of [uart_u64] in [buf], the lowest first; [None] when the loop leaves
    the buffer. *)
Fixpoint u64_digits (fuel : nat) (v : Z) (buf : list ascii) : option (list ascii) :=
  if v =? 0 then Some buf
  else match fuel with
       | O => None
       | S fuel' =>
           if (List.length buf <? BUF_SIZE)%nat then u64_digits fuel' (v / 10) (buf ++ [digit_char (v mod 10)]) else None
       end.

Definition uart_u64 (v : Z) : option string :=
  if v =? 0 then Some "0"
  else (fun buf => String.string_of_list_ascii (reverse buf)) <$> u64_digits (S BUF_SIZE) v [].

(** ** The simulated hook *)

Fixpoint hash_rounds (n : nat) (hash : Z) : Z :=
  match n with
  | O => hash
  | S n' => hash_rounds n' (u64 (hash * 6364136223846793005 + 1442695040888963407))
  end.
Definition simulate_ebpf_lsm_hook : Z := if Z.land (hash_rounds 20 0) 1 =? 0 then 0 else 1.

(** ** [main] *)

Record cycles := Cycles { c0 : Z; c1 : Z; c2 : Z; c3 : Z; c4 : Z; c5 : Z }.
Definition baseline_load (c : cycles) : Z := u64 (c1 c - c0 c).
Definition tca_store (c : cycles) : Z := u64 (c3 c - c2 c).
Definition ebpf_store (c : cycles) : Z := u64 (c5 c - c4 c).
Definition overhead (store baseline : Z) : Z := if baseline <=? store then store - baseline else 0.

Definition data_line (name : string) (v : Z) : option string :=
  (fun d => "[DATA] " +:+ name +:+ "=" +:+ d +:+ NL) <$> uart_u64 v.

Definition bench_values (c : cycles) : list (string * Z) :=
  [ ("BASELINE_LOAD_CYCLES", baseline_load c); ("TCA_NATIVE_STORE_CYCLES", tca_store c); ("EBPF_SIMULATED_STORE_CYCLES", ebpf_store c);
    ("TCA_OVERHEAD_VS_BASELINE", overhead (tca_store c) (baseline_load c));
    ("EBPF_OVERHEAD_VS_BASELINE", overhead (ebpf_store c) (baseline_load c)) ].
Definition bench_report (c : cycles) : option (list string) := mapM (fun p => data_line p.1 p.2) (bench_values c).

Definition bench_target : Z := 0x87F00000.
Definition dummy_target : Z := 0x86000000.

Section bench.
Context `{T : TcaCpu}.

(** The accesses between the banner and the report; the hook has no effect on them. *)
Definition bench_main (addr : Z) (report : list string) : cfunc := CFunc addr
  ([ Puts rule; Puts ("[TCA] Teleological Capability Benchmark" +:+ NL); Puts rule;
     LoadFrom bench_target;
     IntentStartCall network_intent;
     StoreTo bench_target 0xDEADBEEFCAFEBABE;
     IntentEndCall;
     StoreTo dummy_target 0xCAFEBABEDEADBEEF ] ++ (Puts <$> report)).

(** A function that returns has one block. *)
Definition compile_returning `{Analyses} (f : cfunc) : option (list op * list Z) :=
  match sentinel_pass [[BasicBlock (imap ir_op (f_body f)) ReturnInst]] with
  | Some ([g], got) => Some (insts_at g 0, got)
  | _ => None
  end.

Fixpoint run_block (f : cfunc) (got : list Z) (ops : list op) (h : hart) : Z + hart :=
  match ops with
  | [] => inr h
  | o :: rest => match exec_compiled f got (pc h) o h with inl cause => inl cause | inr h' => run_block f got rest h' end
  end.

(** [_start]: the benchmark, its last line and the loop. *)
Definition bench_start (addr : Z) (c : cycles) (h : hart) : option (Z + hart) :=
  match bench_report c with
  | None => None
  | Some report =>
      let f := bench_main addr report in
      match compile_returning f with
      | None => None
      | Some (ops, got) =>
          match run_block f got ops h with
          | inl cause => Some (inl cause)
          | inr h' => Some (inr (print ("[BENCHMARK] Complete." +:+ NL) h'))
          end
      end
  end.
End bench.

(** ** ptr_test.c and uart_test.c *)

(** [for (int i = 0; i <= 10; i++) buffer[i] = i * 2;]: [None] is a write outside. *)
Fixpoint fill_buffer (n i : nat) (buffer : list Z) : option (list Z) :=
  match n with
  | O => Some buffer
  | S n' => if (i <? List.length buffer)%nat then fill_buffer n' (S i) (<[i := 2 * Z.of_nat i]> buffer) else None
  end.
Definition ptr_test_main : option (list Z) := fill_buffer 11 0 (replicate 10 0).

Definition uart_test_text : string := "Hello from UART!" +:+ NL.

(** ** Theorems *)

Example ptr_test_overflows : ptr_test_main = None /\ is_Some (fill_buffer 10 0 (replicate 10 0)).
Proof. split; [done|by eexists]. Qed.

(** The verdict of the simulated hook is the same on every call. *)
Example hook_verdict : simulate_ebpf_lsm_hook = 0.
Proof. by vm_compute. Qed.

(** The decimal output is that of printf, and its digits fit the buffer. *)
Lemma digits_fmt k v buf fuel : 0 < v < 10 ^ Z.of_nat k -> (List.length buf + k <= BUF_SIZE)%nat -> (k <= fuel)%nat ->
  exists buf', u64_digits fuel v buf = Some buf' /\
    String.string_of_list_ascii (reverse buf') = fmt_digits k 10 v (String.string_of_list_ascii (reverse buf)).
Proof.
  revert v buf fuel. induction k as [|k IH]; intros v buf fuel Hv Hl Hf; [cbn in Hv; lia|]. destruct fuel as [|fuel]; [lia|].
  cbn [u64_digits fmt_digits]. rewrite (proj2 (Z.eqb_neq _ _)), (proj2 (Nat.ltb_lt _ _)) by lia.
  replace (String (digit_char (v mod 10)) (String.string_of_list_ascii (reverse buf)))
    with (String.string_of_list_ascii (reverse (buf ++ [digit_char (v mod 10)]))) by by rewrite reverse_app.
  destruct (Z.ltb_spec v 10) as [Hs|Hs].
  - replace (v / 10) with 0 by lia. eexists. split; [by destruct fuel|done].
  - apply IH; [|rewrite length_app; cbn; lia|lia]. replace (Z.of_nat (S k)) with (Z.succ (Z.of_nat k)) in Hv by lia.
    rewrite Z.pow_succ_r in Hv by lia. lia.
Qed.

Lemma uart_u64_fmt v : is_u64 v -> uart_u64 v = Some (fmt_u v).
Proof.
  intros Hv. unfold uart_u64. destruct (Z.eqb_spec v 0) as [->|Hn]; [done|].
  destruct (digits_fmt 20 v [] (S BUF_SIZE)) as (buf & -> & E); [change (10 ^ Z.of_nat 20) with 100000000000000000000; unfold is_u64 in Hv; lia|
    unfold BUF_SIZE; cbn; lia|unfold BUF_SIZE; lia|]. cbn. by rewrite E.
Qed.

(** The report of any readings: differences of the wrapping counter, and overheads that
    are cut at 0. *)
Theorem report_exact c :
  bench_report c = Some ((fun p => "[DATA] " +:+ p.1 +:+ "=" +:+ fmt_u p.2 +:+ NL) <$> bench_values c) /\
  Forall (fun p => is_u64 p.2) (bench_values c).
Proof.
  assert (Forall (fun p => is_u64 p.2) (bench_values c)) as H.
  { pose proof (u64_is_u64 (c1 c - c0 c)). pose proof (u64_is_u64 (c3 c - c2 c)). pose proof (u64_is_u64 (c5 c - c4 c)).
    unfold bench_values. rewrite !Forall_cons, Forall_nil. cbn [snd]. unfold overhead, baseline_load, tca_store, ebpf_store.
    split_and!; try done; case_match eqn:E; boolify; unfold is_u64 in *; lia. }
  split; [|done]. unfold bench_report. apply mapM_Some. induction H as [|p l Hp _ IH]; cbn; constructor; [|done].
  unfold data_line. by rewrite uart_u64_fmt.
Qed.

(** The pass ends the intent after the guarded store, before the store of the baseline. *)
Example bench_compiled `{TcaCpu} :
  compile_returning (bench_main 0 []) = Some
    ([OtherInst 0; OtherInst 1; OtherInst 2; OtherInst 3; SetIntent 0; OtherInst 5; TcaClear; OtherInst 7; TcaClear],
     [0x89ABCDEF000007CA]).
Proof. by vm_compute. Qed.
